(** * SIPE media call subsystem

    A shallow embedding of the signalling core of [sipe-media.c] and of the
    Lync file-transfer overlay [sipe-ft-lync.c]: SDP serialisation of the
    local streams (codecs, candidates, encryption), application of a remote
    SDP, the INVITE response handler with its ICE-version retry, the ACK
    helper, the MRAS credential response handler and the file-transfer
    completion handshake.

    Conventions.  [gint]/[guint] values are integers in [Z]; where the C code
    relies on the 32-bit representation (subtraction in a comparator, the
    [(int)] cast of a [gsize]) the wrap-around is written out with
    [Glib.wrap_gint].  A nullable [gchar *] is an [option string].  Requests
    handed to the backend or to the SIP transport are recorded as [event]s. *)

From Stdlib Require Import ZArith Ascii.
From stdpp Require Import gmap strings list pretty sorting.

Local Open Scope string_scope.
Local Open Scope list_scope.

(** ** GLib and sipe-utils helpers *)

Module Glib.

(** Value of a C [int] holding the mathematical integer [z]
    (two's complement, 32 bits). *)
Definition wrap_gint (z : Z) : Z := ((z + 2 ^ 31) `mod` 2 ^ 32 - 2 ^ 31)%Z.

(** [sipe_strequal]: NULL-safe string equality ([g_strcmp0 (l, r) == 0]). *)
Definition sipe_strequal (l r : option string) : bool := bool_decide (l = r).

(** [g_str_has_prefix (s, p)]. *)
Definition g_str_has_prefix (s p : string) : bool := String.prefix p s.

(** [strchr (s, c) != NULL]. *)
Fixpoint strchr (s : string) (c : ascii) : bool :=
  match s with
  | EmptyString => false
  | String a s' => if decide (a = c) then true else strchr s' c
  end.

(** [is_empty]: NULL or the empty string. *)
Definition is_empty (s : option string) : bool :=
  match s with
  | None | Some "" => true
  | Some _ => false
  end.

(** [g_slist_find_custom (l, x, func) != NULL]: linear search for an
    element on which [func] answers 0. *)
Fixpoint g_slist_find_custom {A} (l : list A) (x : A) (func : A → A → Z)
  : option A :=
  match l with
  | [] => None
  | y :: l' => if decide (func y x = 0%Z) then Some y
               else g_slist_find_custom l' x func
  end.

(** [g_slist_insert_sorted (l, x, func)]: [x] goes in front of the first
    element [y] with [func (x, y) <= 0]. *)
Fixpoint g_slist_insert_sorted {A} (l : list A) (x : A) (func : A → A → Z)
  : list A :=
  match l with
  | [] => [x]
  | y :: l' => if decide (func x y ≤ 0)%Z then x :: y :: l'
               else y :: g_slist_insert_sorted l' x func
  end.

Definition LF : string := String (ascii_of_nat 10) EmptyString.

(** What [printf ("%s")] prints for a string. *)
Definition printf_s (s : option string) : string := default "(null)" s.

(** The line end of SIP and SDP. *)
Definition CRLF : string :=
  String (ascii_of_nat 13) (String (ascii_of_nat 10) EmptyString).

End Glib.

Import Glib.

(** ** Enumerations of sipe-backend.h *)

Inductive SipeMediaType :=
  SIPE_MEDIA_AUDIO | SIPE_MEDIA_VIDEO | SIPE_MEDIA_APPLICATION.

Inductive SipeIceVersion := SIPE_ICE_DRAFT_6 | SIPE_ICE_RFC_5245.

Inductive SipeCandidateType :=
  | SIPE_CANDIDATE_TYPE_ANY
  | SIPE_CANDIDATE_TYPE_HOST
  | SIPE_CANDIDATE_TYPE_RELAY
  | SIPE_CANDIDATE_TYPE_SRFLX
  | SIPE_CANDIDATE_TYPE_PRFLX.

Inductive SipeComponentType :=
  SIPE_COMPONENT_NONE | SIPE_COMPONENT_RTP | SIPE_COMPONENT_RTCP.

Inductive SipeNetworkProtocol :=
  | SIPE_NETWORK_PROTOCOL_UDP
  | SIPE_NETWORK_PROTOCOL_TCP_ACTIVE
  | SIPE_NETWORK_PROTOCOL_TCP_PASSIVE
  | SIPE_NETWORK_PROTOCOL_TCP_SO.

Inductive SipeEncryptionPolicy :=
  | SIPE_ENCRYPTION_POLICY_REJECTED
  | SIPE_ENCRYPTION_POLICY_OPTIONAL
  | SIPE_ENCRYPTION_POLICY_REQUIRED
  | SIPE_ENCRYPTION_POLICY_OBEY_SERVER.

#[global] Instance SipeMediaType_eq_dec : EqDecision SipeMediaType.
Proof. solve_decision. Defined.
#[global] Instance SipeIceVersion_eq_dec : EqDecision SipeIceVersion.
Proof. solve_decision. Defined.
#[global] Instance SipeCandidateType_eq_dec : EqDecision SipeCandidateType.
Proof. solve_decision. Defined.
#[global] Instance SipeComponentType_eq_dec : EqDecision SipeComponentType.
Proof. solve_decision. Defined.
#[global] Instance SipeNetworkProtocol_eq_dec : EqDecision SipeNetworkProtocol.
Proof. solve_decision. Defined.
#[global] Instance SipeEncryptionPolicy_eq_dec : EqDecision SipeEncryptionPolicy.
Proof. solve_decision. Defined.

(** Numeric value of a component, as used by [candidate_sort_cb]. *)
Definition component_value (c : SipeComponentType) : Z :=
  match c with
  | SIPE_COMPONENT_NONE => 0
  | SIPE_COMPONENT_RTP => 1
  | SIPE_COMPONENT_RTCP => 2
  end.

(** ** SDP model (sdpmsg.h) *)

(** [struct sipnameval]. *)
Record sipnameval := {
  nv_name : string;
  nv_value : string;
}.

(** [struct sdpcodec]. *)
Record sdpcodec := {
  codec_id : Z;
  codec_name : string;
  codec_clock_rate : Z;
  codec_type : SipeMediaType;
  codec_parameters : list sipnameval;
}.

(** A candidate.  The backend's opaque [struct sipe_backend_candidate] is read
    through getters only and [struct sdpcandidate] is a field-by-field copy of
    what they return, so one record serves for both. *)
Record sdpcandidate := {
  cand_foundation : string;
  cand_component : SipeComponentType;
  cand_type : SipeCandidateType;
  cand_protocol : SipeNetworkProtocol;
  cand_ip : option string;
  cand_port : Z;
  cand_base_ip : option string;
  cand_base_port : Z;
  cand_priority : Z;
  cand_username : option string;
  cand_password : option string;
}.

Definition set_cand_port (c : sdpcandidate) (p : Z) : sdpcandidate :=
  {| cand_foundation := cand_foundation c; cand_component := cand_component c;
     cand_type := cand_type c; cand_protocol := cand_protocol c;
     cand_ip := cand_ip c; cand_port := p;
     cand_base_ip := cand_base_ip c; cand_base_port := cand_base_port c;
     cand_priority := cand_priority c; cand_username := cand_username c;
     cand_password := cand_password c |}.

Definition set_cand_base_port (c : sdpcandidate) (p : Z) : sdpcandidate :=
  {| cand_foundation := cand_foundation c; cand_component := cand_component c;
     cand_type := cand_type c; cand_protocol := cand_protocol c;
     cand_ip := cand_ip c; cand_port := cand_port c;
     cand_base_ip := cand_base_ip c; cand_base_port := p;
     cand_priority := cand_priority c; cand_username := cand_username c;
     cand_password := cand_password c |}.

(** [struct sdpmedia]. *)
Record sdpmedia := {
  media_name : string;
  media_ip : option string;
  media_port : Z;
  media_attributes : list sipnameval;
  media_candidates : list sdpcandidate;
  media_codecs : list sdpcodec;
  media_remote_candidates : list sdpcandidate;
  media_encryption_active : bool;
  media_encryption_key : option (list Z);
  media_encryption_key_id : Z;
}.

Definition set_media_port (m : sdpmedia) (p : Z) : sdpmedia :=
  {| media_name := media_name m; media_ip := media_ip m; media_port := p;
     media_attributes := media_attributes m;
     media_candidates := media_candidates m; media_codecs := media_codecs m;
     media_remote_candidates := media_remote_candidates m;
     media_encryption_active := media_encryption_active m;
     media_encryption_key := media_encryption_key m;
     media_encryption_key_id := media_encryption_key_id m |}.

(** [struct sdpmsg]. *)
Record sdpmsg := {
  sdp_ip : option string;
  sdp_media : list sdpmedia;
  sdp_ice_version : SipeIceVersion;
}.

(** [sipe_utils_nameval_add]: append a pair; a NULL value is stored as the
    empty string. *)
Definition sipe_utils_nameval_add (l : list sipnameval) (name : string)
    (value : option string) : list sipnameval :=
  l ++ [{| nv_name := name; nv_value := default "" value |}].

(** [sipe_utils_nameval_find]: value of the first pair called [name], NULL
    when there is none. *)
Fixpoint sipe_utils_nameval_find (l : list sipnameval) (name : string)
  : option string :=
  match l with
  | [] => None
  | nv :: l' => if decide (nv_name nv = name) then Some (nv_value nv)
                else sipe_utils_nameval_find l' name
  end.

(** ** Undefined behaviour

    Functions that can dereference NULL or read freed memory return an
    [option]: [None] stands for such a run, [Some] for a run that returns. *)

(** ** Candidate logic *)

(** [sipe_strcompare]: NULL-safe [strcmp] (NULL sorts first). *)
Definition sipe_strcompare (l r : option string) : Z :=
  match l, r with
  | None, None => 0
  | None, Some _ => -1
  | Some _, None => 1
  | Some a, Some b =>
      match String.compare a b with Lt => -1 | Eq => 0 | Gt => 1 end
  end.

Definition candidate_sort_cb (c1 c2 : sdpcandidate) : Z :=
  let cmp := sipe_strcompare (Some (cand_foundation c1))
                             (Some (cand_foundation c2)) in
  if decide (cmp = 0)%Z then
    let cmp := sipe_strcompare (cand_username c1) (cand_username c2) in
    if decide (cmp = 0)%Z then
      (component_value (cand_component c1)
       - component_value (cand_component c2))%Z
    else cmp
  else cmp.

(** IPv6 test of [backend_candidates_to_sdpcandidate]. *)
Definition ignored_candidate (c : sdpcandidate) : bool :=
  is_empty (cand_ip c)
  || strchr (default "" (cand_ip c)) ":"%char
  || match cand_base_ip c with
     | Some b => strchr b ":"%char
     | None => false
     end.

Fixpoint backend_candidates_to_sdpcandidate_loop (candidates result : list sdpcandidate)
  : list sdpcandidate :=
  match candidates with
  | [] => result
  | c :: rest =>
      if ignored_candidate c
      then backend_candidates_to_sdpcandidate_loop rest result
      else backend_candidates_to_sdpcandidate_loop rest
             (g_slist_insert_sorted result c candidate_sort_cb)
  end.

Definition backend_candidates_to_sdpcandidate (candidates : list sdpcandidate)
  : list sdpcandidate :=
  backend_candidates_to_sdpcandidate_loop candidates [].

(** State of the loop of [get_stream_ip_and_ports]: the three out
    parameters. *)
Fixpoint get_stream_ip_and_ports_loop (candidates : list sdpcandidate)
    (type : SipeCandidateType) (ip : option string) (rtp_port rtcp_port : Z)
  : option string * Z * Z :=
  match candidates with
  | [] => (ip, rtp_port, rtcp_port)
  | candidate :: rest =>
      let '(ip', rtp', rtcp', skip) :=
        if bool_decide (type = SIPE_CANDIDATE_TYPE_ANY)
           || bool_decide (cand_type candidate = type)
        then
          match ip with
          | None =>
              (cand_ip candidate,
               (if decide (cand_component candidate = SIPE_COMPONENT_RTP)
                then cand_port candidate else rtp_port),
               (if decide (cand_component candidate = SIPE_COMPONENT_RTP)
                then rtcp_port
                else if decide (cand_component candidate = SIPE_COMPONENT_RTCP)
                then cand_port candidate else rtcp_port),
               false)
          | Some _ =>
              if sipe_strequal ip (cand_ip candidate)
              then
                (ip,
                 (if decide (cand_component candidate = SIPE_COMPONENT_RTP)
                  then cand_port candidate else rtp_port),
                 (if decide (cand_component candidate = SIPE_COMPONENT_RTP)
                  then rtcp_port
                  else if decide (cand_component candidate = SIPE_COMPONENT_RTCP)
                  then cand_port candidate else rtcp_port),
                 false)
              else (ip, rtp_port, rtcp_port, true)   (* continue *)
          end
        else (ip, rtp_port, rtcp_port, false) in
      if negb skip && negb (rtp' =? 0)%Z && negb (rtcp' =? 0)%Z
      then (ip', rtp', rtcp')
      else get_stream_ip_and_ports_loop rest type ip' rtp' rtcp'
  end.

Definition get_stream_ip_and_ports (candidates : list sdpcandidate)
    (type : SipeCandidateType) : option string * Z * Z :=
  get_stream_ip_and_ports_loop candidates type None 0%Z 0%Z.

(** *** remove_wrong_farstream_0_1_tcp_candidates

    The list nodes are numbered by their position in the list the backend
    returned; each node owns its own candidate object, so the number also
    names the object.  [foundation_to_candidate] keeps, per foundation, the
    object stored first.  An object removed from the list has been freed:
    reading it again is undefined. *)

Record farstream_state := {
  fs_candidates : list (nat * sdpcandidate);
  fs_foundation_to_candidate : gmap string (nat * sdpcandidate);
}.

(** Removes the node numbered [k] ([g_list_remove] by data pointer and
    [g_list_delete_link] by link agree, the objects being distinct). *)
Definition g_list_remove_node (l : list (nat * sdpcandidate)) (k : nat)
  : list (nat * sdpcandidate) :=
  filter (λ n, n.1 ≠ k) l.

(** The test under which the pair is taken for mistagged TCP candidates. *)
Definition wrong_udp_pair (c1 c2 : sdpcandidate) : bool :=
  bool_decide (cand_port c1 = cand_port c2)
  || (bool_decide (cand_type c1 ≠ SIPE_CANDIDATE_TYPE_HOST)
      && bool_decide (cand_base_port c1 = cand_base_port c2)).

(** One iteration of the [while (i)] loop, on the node [i] holding [c1]. *)
Definition remove_wrong_step (st : farstream_state) (node : nat * sdpcandidate)
  : option farstream_state :=
  let '(i, c1) := node in
  if decide (cand_protocol c1 = SIPE_NETWORK_PROTOCOL_UDP) then
    match fs_foundation_to_candidate st !! cand_foundation c1 with
    | Some (j, c2) =>
        if decide (j ∈ (fst <$> fs_candidates st)) then
          if wrong_udp_pair c1 c2 then
            Some {| fs_candidates :=
                      g_list_remove_node
                        (g_list_remove_node (fs_candidates st) j) i;
                    fs_foundation_to_candidate :=
                      fs_foundation_to_candidate st |}
          else Some st
        else None (* c2 was freed together with an earlier partner *)
    | None =>
        Some {| fs_candidates := fs_candidates st;
                fs_foundation_to_candidate :=
                  <[cand_foundation c1 := (i, c1)]>
                    (fs_foundation_to_candidate st) |}
    end
  else Some st.

Fixpoint remove_wrong_loop (nodes : list (nat * sdpcandidate))
    (st : farstream_state) : option farstream_state :=
  match nodes with
  | [] => Some st
  | node :: next => st' ← remove_wrong_step st node; remove_wrong_loop next st'
  end.

Definition remove_wrong_farstream_0_1_tcp_candidates
    (candidates : list sdpcandidate) : option (list sdpcandidate) :=
  let nodes := imap (λ i c, (i, c)) candidates in
  st ← remove_wrong_loop nodes
         {| fs_candidates := nodes; fs_foundation_to_candidate := ∅ |};
  Some (snd <$> fs_candidates st).

(** *** fill_zero_tcp_act_ports_from_tcp_pass

    The candidates are updated in place, so the list is the state and a
    candidate is addressed by its position.  [ip_to_port] stores the address
    of the [port] field of a candidate: the position of that candidate. *)

(** The inner [for (j ...)] loop: the first TCP-passive candidate of the type
    of [c] with the IP and base IP of [c]. *)
Fixpoint find_tcp_passive (c : sdpcandidate) (candidates : list sdpcandidate)
  : option sdpcandidate :=
  match candidates with
  | [] => None
  | passive :: rest =>
      if bool_decide (cand_protocol passive ≠ SIPE_NETWORK_PROTOCOL_TCP_PASSIVE)
         || bool_decide (cand_type c ≠ cand_type passive)
      then find_tcp_passive c rest
      else if sipe_strequal (cand_ip c) (cand_ip passive)
              && sipe_strequal (cand_base_ip c) (cand_base_ip passive)
      then Some passive
      else find_tcp_passive c rest
  end.

(** Body of the [if (sipe_strequal ...)] of the inner loop. *)
Definition inherit_from_passive (c passive : sdpcandidate) : sdpcandidate :=
  let c := if decide (cand_port c = 0)%Z
           then set_cand_port c (cand_port passive) else c in
  if decide (cand_base_port c = 0)%Z
  then set_cand_base_port c (cand_base_port passive) else c.

(** First loop, from position [i] on, [fuel] candidates left. *)
Fixpoint fill_tcp_active_loop (fuel i : nat) (candidates : list sdpcandidate)
    (ip_to_port : gmap string nat)
  : option (list sdpcandidate * gmap string nat) :=
  match fuel with
  | O => Some (candidates, ip_to_port)
  | S fuel' =>
      match candidates !! i with
      | None => Some (candidates, ip_to_port)
      | Some c =>
          ip_to_port' ←
            (if bool_decide (cand_protocol c = SIPE_NETWORK_PROTOCOL_TCP_PASSIVE)
                && bool_decide (cand_type c = SIPE_CANDIDATE_TYPE_HOST)
             then ip ← cand_ip c; Some (<[ip := i]> ip_to_port)
             else Some ip_to_port);
          if decide (cand_protocol c ≠ SIPE_NETWORK_PROTOCOL_TCP_ACTIVE)
          then fill_tcp_active_loop fuel' (S i) candidates ip_to_port'
          else
            match find_tcp_passive c candidates with
            | Some passive =>
                fill_tcp_active_loop fuel' (S i)
                  (<[i := inherit_from_passive c passive]> candidates)
                  ip_to_port'
            | None => fill_tcp_active_loop fuel' (S i) candidates ip_to_port'
            end
      end
  end.

(** Second loop: base ports of relay candidates. *)
Fixpoint fill_relay_base_port_loop (fuel i : nat)
    (candidates : list sdpcandidate) (ip_to_port : gmap string nat)
  : option (list sdpcandidate) :=
  match fuel with
  | O => Some candidates
  | S fuel' =>
      match candidates !! i with
      | None => Some candidates
      | Some c =>
          if bool_decide (cand_type c = SIPE_CANDIDATE_TYPE_RELAY)
             && bool_decide (cand_base_port c = 0)%Z
          then
            base_ip ← cand_base_ip c;
            match ip_to_port !! base_ip with
            | Some k =>
                host ← candidates !! k;
                fill_relay_base_port_loop fuel' (S i)
                  (<[i := set_cand_base_port c (cand_port host)]> candidates)
                  ip_to_port
            | None =>
                fill_relay_base_port_loop fuel' (S i) candidates ip_to_port
            end
          else fill_relay_base_port_loop fuel' (S i) candidates ip_to_port
      end
  end.

Definition fill_zero_tcp_act_ports_from_tcp_pass
    (candidates : list sdpcandidate) : option (list sdpcandidate) :=
  '(candidates', ip_to_port) ←
    fill_tcp_active_loop (length candidates) 0 candidates ∅;
  fill_relay_base_port_loop (length candidates') 0 candidates' ip_to_port.

(** ** Codecs *)

(** What the getters of the backend's opaque [struct sipe_backend_codec]
    return. *)
Record sipe_backend_codec := {
  bc_id : Z;
  bc_name : string;
  bc_type : SipeMediaType;
  bc_clock_rate : Z;
  bc_optional_parameters : list sipnameval;
}.

(** [sdpcodec_compare]: the difference of the two [gint] ids, computed in
    [int]. *)
Definition sdpcodec_compare (a b : sdpcodec) : Z :=
  wrap_gint (codec_id a - codec_id b).

(** Modelled from the spec: [sipe_utils_slist_insert_unique_sorted] of
    sipe-utils.c is not part of the sources at hand.  The spec has duplicates
    "silently dropped" and the calling code "ignore[s] any codec having the
    same id as one we already have in the converted list": an element for
    which the comparator finds an equal one in the list is destroyed and the
    list returned as it is, any other is inserted in comparator order. *)
Definition sipe_utils_slist_insert_unique_sorted {A} (l : list A) (x : A)
    (func : A → A → Z) : list A :=
  match g_slist_find_custom l x func with
  | Some _ => l
  | None => g_slist_insert_sorted l x func
  end.

(** Body of the "Process codecs" loop: the [sdpcodec] built from one backend
    codec. *)
Definition backend_codec_to_sdpcodec (type : SipeMediaType)
    (codec : sipe_backend_codec) : sdpcodec :=
  {| codec_id := bc_id codec;
     codec_name := bc_name codec;
     codec_clock_rate := bc_clock_rate codec;
     codec_type := type;
     codec_parameters :=
       foldl (λ acc param,
                acc ++ [{| nv_name := nv_name param;
                           nv_value := nv_value param |}])
             [] (bc_optional_parameters codec) |}.

Fixpoint process_codecs (type : SipeMediaType)
    (codecs : list sipe_backend_codec) (result : list sdpcodec)
  : list sdpcodec :=
  match codecs with
  | [] => result
  | codec :: rest =>
      process_codecs type rest
        (sipe_utils_slist_insert_unique_sorted result
           (backend_codec_to_sdpcodec type codec) sdpcodec_compare)
  end.

(** ** Streams, calls and the core *)

(** The state of a backend stream, as its getters report it. *)
Record sipe_backend_media_stream := {
  bs_local_codecs : list sipe_backend_codec;
  bs_local_candidates : list sdpcandidate;
  bs_active_local_candidates : list sdpcandidate;
  bs_active_remote_candidates : list sdpcandidate;
  bs_held : bool;
  bs_initialized : bool;
}.

Definition set_bs_held (b : sipe_backend_media_stream) (h : bool)
  : sipe_backend_media_stream :=
  {| bs_local_codecs := bs_local_codecs b;
     bs_local_candidates := bs_local_candidates b;
     bs_active_local_candidates := bs_active_local_candidates b;
     bs_active_remote_candidates := bs_active_remote_candidates b;
     bs_held := h;
     bs_initialized := bs_initialized b |}.

(** [struct sipe_media_stream_private] with its public part. *)
Record sipe_media_stream_private := {
  stream_id : string;
  stream_backend_private : sipe_backend_media_stream;
  encryption_key : option (list Z);
  encryption_key_id : Z;
  remote_candidates_and_codecs_set : bool;
  extra_sdp : list sipnameval;
}.

(** [struct transaction], read through [sip_transaction_cseq] only. *)
Record transaction := {
  sip_transaction_cseq : Z;
}.

(** [struct sip_dialog], the fields the media code touches. *)
Record sip_dialog := {
  dialog_callid : option string;
  dialog_with : option string;
  dialog_ourtag : option string;
  dialog_theirtag : option string;
  dialog_cseq : Z;
  dialog_outgoing_invite : option transaction;
}.

Definition set_dialog_cseq (d : sip_dialog) (cseq : Z) : sip_dialog :=
  {| dialog_callid := dialog_callid d; dialog_with := dialog_with d;
     dialog_ourtag := dialog_ourtag d; dialog_theirtag := dialog_theirtag d;
     dialog_cseq := cseq;
     dialog_outgoing_invite := dialog_outgoing_invite d |}.

Definition set_dialog_outgoing_invite (d : sip_dialog)
    (t : option transaction) : sip_dialog :=
  {| dialog_callid := dialog_callid d; dialog_with := dialog_with d;
     dialog_ourtag := dialog_ourtag d; dialog_theirtag := dialog_theirtag d;
     dialog_cseq := dialog_cseq d;
     dialog_outgoing_invite := t |}.

(** [struct sip_session]. *)
Record sip_session := {
  session_with : option string;
  session_dialogs : list sip_dialog;
  session_is_call : bool;
}.

(** [struct sipmsg].  The Call-ID header, which every message that reaches
    the media code carries, has a field of its own. *)
Record sipmsg := {
  msg_callid : string;
  msg_response : Z;
  msg_responsestr : option string;
  msg_headers : list sipnameval;
  msg_body : option string;
}.

Definition sipmsg_find_header (msg : sipmsg) (name : string) : option string :=
  sipe_utils_nameval_find (msg_headers msg) name.

(** [struct sipe_media_call_private] with its public part.  The call-id under
    which the call is registered is kept in the record; the callbacks of the
    public part are the functions of this file. *)
Record sipe_media_call_private := {
  call_id : string;
  call_with : option string;
  call_session : option sip_session;
  call_streams : list sipe_media_stream_private;
  call_invitation : option sipmsg;
  call_ice_version : SipeIceVersion;
  call_encryption_compatible : bool;
  call_extra_invite_section : option string;
  call_invite_content_type : option string;
  call_smsg : option sdpmsg;
  call_failed_media : list sdpmedia;
  call_initiator : bool;
  call_hidden_from_ui : bool;
}.

(** [struct sipe_media_relay]. *)
Record sipe_media_relay := {
  relay_hostname : option string;
  relay_udp_port : Z;
  relay_tcp_port : Z;
  relay_dns_query : bool;
}.

(** Requests made to the backend and to the SIP transport. *)
Inductive event :=
  | EvBackendMediaNew (callid : string) (with_ : option string)
      (initiator hidden_from_ui : bool)
  | EvBackendMediaAddStream (callid id : string) (with_ : option string)
      (type : SipeMediaType) (ice_version : SipeIceVersion) (initiator : bool)
      (relays : list sipe_media_relay) (username password : option string)
      (min_port max_port : Z)
  | EvBackendMediaHangup (callid : string) (local : bool)
  | EvBackendMediaStreamEnd (callid id : string)
  | EvBackendStreamHold (callid id : string) (local : bool)
  | EvBackendStreamUnhold (callid id : string) (local : bool)
  | EvBackendSetEncryptionKeys (callid id : string) (key remote_key : list Z)
  | EvBackendSetRemoteCodecs (callid id : string)
      (codecs : list sipe_backend_codec)
  | EvBackendAddRemoteCandidates (callid id : string)
      (candidates : list sdpcandidate)
  | EvBackendNotifyError (title desc : string)
  | EvBackendDnsQueryA (hostname : option string) (port : Z)
  | EvDnsQueryCancel (hostname : option string)
  | EvTransportResponse (callid : option string) (code : Z) (text : string)
      (body : option string)
  | EvTransportAck (callid : option string) (cseq : Z).

(** [struct sipe_core_private], the fields the media code touches, and the
    log of the requests made so far. *)
Record sipe_core_private := {
  media_calls : gmap string sipe_media_call_private;
  min_media_port : Z;
  max_media_port : Z;
  min_audio_port : Z;
  max_audio_port : Z;
  min_video_port : Z;
  max_video_port : Z;
  min_filetransfer_port : Z;
  max_filetransfer_port : Z;
  min_appsharing_port : Z;
  max_appsharing_port : Z;
  media_relays : list sipe_media_relay;
  media_relay_username : option string;
  media_relay_password : option string;
  server_av_encryption_policy : SipeEncryptionPolicy;
  backend_encryption_policy : SipeEncryptionPolicy;
  test_call_bot_uri : option string;
  trace : list event;
}.

Definition set_media_calls (sp : sipe_core_private)
    (calls : gmap string sipe_media_call_private) : sipe_core_private :=
  {| media_calls := calls;
     min_media_port := min_media_port sp; max_media_port := max_media_port sp;
     min_audio_port := min_audio_port sp; max_audio_port := max_audio_port sp;
     min_video_port := min_video_port sp; max_video_port := max_video_port sp;
     min_filetransfer_port := min_filetransfer_port sp;
     max_filetransfer_port := max_filetransfer_port sp;
     min_appsharing_port := min_appsharing_port sp;
     max_appsharing_port := max_appsharing_port sp;
     media_relays := media_relays sp;
     media_relay_username := media_relay_username sp;
     media_relay_password := media_relay_password sp;
     server_av_encryption_policy := server_av_encryption_policy sp;
     backend_encryption_policy := backend_encryption_policy sp;
     test_call_bot_uri := test_call_bot_uri sp;
     trace := trace sp |}.

Definition set_relay_credentials (sp : sipe_core_private)
    (username password : option string) (relays : list sipe_media_relay)
  : sipe_core_private :=
  {| media_calls := media_calls sp;
     min_media_port := min_media_port sp; max_media_port := max_media_port sp;
     min_audio_port := min_audio_port sp; max_audio_port := max_audio_port sp;
     min_video_port := min_video_port sp; max_video_port := max_video_port sp;
     min_filetransfer_port := min_filetransfer_port sp;
     max_filetransfer_port := max_filetransfer_port sp;
     min_appsharing_port := min_appsharing_port sp;
     max_appsharing_port := max_appsharing_port sp;
     media_relays := relays;
     media_relay_username := username;
     media_relay_password := password;
     server_av_encryption_policy := server_av_encryption_policy sp;
     backend_encryption_policy := backend_encryption_policy sp;
     test_call_bot_uri := test_call_bot_uri sp;
     trace := trace sp |}.

(** Appends requests to the log. *)
Definition emit (sp : sipe_core_private) (evs : list event)
  : sipe_core_private :=
  {| media_calls := media_calls sp;
     min_media_port := min_media_port sp; max_media_port := max_media_port sp;
     min_audio_port := min_audio_port sp; max_audio_port := max_audio_port sp;
     min_video_port := min_video_port sp; max_video_port := max_video_port sp;
     min_filetransfer_port := min_filetransfer_port sp;
     max_filetransfer_port := max_filetransfer_port sp;
     min_appsharing_port := min_appsharing_port sp;
     max_appsharing_port := max_appsharing_port sp;
     media_relays := media_relays sp;
     media_relay_username := media_relay_username sp;
     media_relay_password := media_relay_password sp;
     server_av_encryption_policy := server_av_encryption_policy sp;
     backend_encryption_policy := backend_encryption_policy sp;
     test_call_bot_uri := test_call_bot_uri sp;
     trace := trace sp ++ evs |}.

(** ** The collaborators of the media code

    [Backend] is the capability interface of sipe-backend.h as far as its
    answers matter here; [SipLayer] gathers the functions of the SIP, SDP and
    dialog layers (sipmsg.c, sdpmsg.c, sip-transport.c, sipe-dialog.c) that
    sipe-media.c calls. *)

Class Backend := {
  (** [sipe_backend_media_add_stream]: the new backend stream, NULL on
      failure. *)
  sipe_backend_media_add_stream :
    string → string → SipeMediaType → SipeIceVersion → bool → Z → Z →
    option sipe_backend_media_stream;
  (** [sipe_backend_set_remote_codecs]: whether the backend accepted any of
      the codecs. *)
  sipe_backend_set_remote_codecs :
    sipe_media_stream_private → list sipe_backend_codec → bool;
  (** What hanging up does to the core before [sipe_backend_media_hangup]
      returns, through the callbacks the backend invokes ([call_hangup_cb],
      [stream_end_cb], [media_end_cb]). *)
  sipe_backend_media_hangup_callbacks :
    sipe_core_private → string → bool → sipe_core_private;
  (** Whether the build has SRTP, and the bytes [rand () & 0xff] delivers for
      the key of a new stream. *)
  HAVE_SRTP : bool;
  rand_key : string → string → list Z;
  (** [sipe_backend_dns_query_a] for a host name and a port: whether a query
      handle comes back (the answer arrives later, through the callback). *)
  sipe_backend_dns_query_a : option string → Z → bool;
}.

Class SipLayer := {
  sdpmsg_parse_msg : option string → option sdpmsg;
  sdpmsg_to_string : sdpmsg → string;
  sipmsg_parse_warning : sipmsg → Z;
  sipmsg_get_ms_diagnostics_reason : sipmsg → option string;
  sipe_dialog_parse : sip_dialog → sipmsg → bool → sip_dialog;
  (** The dialog as [sip_transport_ack] leaves it. *)
  sip_transport_ack : sip_dialog → sip_dialog;
  gencallid : sipe_core_private → string;
  gentag : sipe_core_private → string;
  sipe_backend_network_ip_address : string;
}.

Definition get_encryption_policy (sipe_private : sipe_core_private)
  : SipeEncryptionPolicy :=
  let result := backend_encryption_policy sipe_private in
  if decide (result = SIPE_ENCRYPTION_POLICY_OBEY_SERVER)
  then server_av_encryption_policy sipe_private
  else result.

(** The media type [media_stream_to_sdpmedia] derives from the stream id;
    NULL for "incompatible media". *)
Definition media_type_of_name (name : string) : option SipeMediaType :=
  if sipe_strequal (Some name) (Some "audio") then Some SIPE_MEDIA_AUDIO
  else if sipe_strequal (Some name) (Some "video") then Some SIPE_MEDIA_VIDEO
  else if sipe_strequal (Some name) (Some "data")
  then Some SIPE_MEDIA_APPLICATION
  else if sipe_strequal (Some name) (Some "applicationsharing")
  then Some SIPE_MEDIA_APPLICATION
  else None.

(** The inner [option] is the C return value (NULL for an unknown stream
    name), the outer one the run itself. *)
Definition media_stream_to_sdpmedia (sipe_private : sipe_core_private)
    (call_private : sipe_media_call_private)
    (stream_private : sipe_media_stream_private)
  : option (option sdpmedia) :=
  let backend := stream_backend_private stream_private in
  let codecs := bs_local_codecs backend in
  let encryption_policy := get_encryption_policy sipe_private in
  let name := stream_id stream_private in
  match media_type_of_name name with
  | None => Some None
  | Some type =>
      (* Process codecs *)
      let sdp_codecs := process_codecs type codecs [] in
      (* Process local candidates *)
      candidates ←
        match bs_active_local_candidates backend with
        | [] =>
            remove_wrong_farstream_0_1_tcp_candidates
              (bs_local_candidates backend)
        | active => Some active
        end;
      sdp_candidates ←
        fill_zero_tcp_act_ports_from_tcp_pass
          (backend_candidates_to_sdpcandidate candidates);
      let '(ip, port, rtcp_port) :=
        get_stream_ip_and_ports sdp_candidates SIPE_CANDIDATE_TYPE_HOST in
      let '(ip, port, rtcp_port) :=
        match ip, sdp_candidates with
        | None, _ :: _ =>
            get_stream_ip_and_ports sdp_candidates SIPE_CANDIDATE_TYPE_ANY
        | _, _ => (ip, port, rtcp_port)
        end in
      let attributes := [] in
      let attributes :=
        if bs_held backend
        then sipe_utils_nameval_add attributes "inactive" (Some "")
        else attributes in
      let attributes :=
        if decide (rtcp_port ≠ 0)%Z
        then sipe_utils_nameval_add attributes "rtcp" (Some (pretty rtcp_port))
        else attributes in
      let attributes :=
        if decide (encryption_policy ≠ server_av_encryption_policy sipe_private)
        then
          let encryption :=
            match encryption_policy with
            | SIPE_ENCRYPTION_POLICY_REJECTED => "rejected"
            | SIPE_ENCRYPTION_POLICY_OPTIONAL => "optional"
            | _ => "required"
            end in
          sipe_utils_nameval_add attributes "encryption" (Some encryption)
        else attributes in
      (* Process remote candidates *)
      let remote_candidates :=
        backend_candidates_to_sdpcandidate
          (bs_active_remote_candidates backend) in
      let encryption_active :=
        bool_decide (is_Some (encryption_key stream_private))
        && call_encryption_compatible call_private
        && remote_candidates_and_codecs_set stream_private
        && bool_decide (encryption_policy ≠ SIPE_ENCRYPTION_POLICY_REJECTED) in
      (* Set our key if encryption is enabled. *)
      let '(key, key_id) :=
        if bool_decide (is_Some (encryption_key stream_private))
           && bool_decide (encryption_policy ≠ SIPE_ENCRYPTION_POLICY_REJECTED)
        then (encryption_key stream_private, encryption_key_id stream_private)
        else (None, 0%Z) in
      (* Append extra attributes assigned to the stream. *)
      let attributes :=
        foldl (λ attributes attr,
                 sipe_utils_nameval_add attributes (nv_name attr)
                   (Some (nv_value attr)))
              attributes (extra_sdp stream_private) in
      Some (Some {| media_name := name;
                    media_ip := ip;
                    media_port := port;
                    media_attributes := attributes;
                    media_candidates := sdp_candidates;
                    media_codecs := sdp_codecs;
                    media_remote_candidates := remote_candidates;
                    media_encryption_active := encryption_active;
                    media_encryption_key := key;
                    media_encryption_key_id := key_id |})
  end.

Definition set_call_failed_media (call : sipe_media_call_private)
    (failed : list sdpmedia) : sipe_media_call_private :=
  {| call_id := call_id call; call_with := call_with call;
     call_session := call_session call; call_streams := call_streams call;
     call_invitation := call_invitation call;
     call_ice_version := call_ice_version call;
     call_encryption_compatible := call_encryption_compatible call;
     call_extra_invite_section := call_extra_invite_section call;
     call_invite_content_type := call_invite_content_type call;
     call_smsg := call_smsg call;
     call_failed_media := failed;
     call_initiator := call_initiator call;
     call_hidden_from_ui := call_hidden_from_ui call |}.

Definition set_call_encryption_compatible (call : sipe_media_call_private)
    (b : bool) : sipe_media_call_private :=
  {| call_id := call_id call; call_with := call_with call;
     call_session := call_session call; call_streams := call_streams call;
     call_invitation := call_invitation call;
     call_ice_version := call_ice_version call;
     call_encryption_compatible := b;
     call_extra_invite_section := call_extra_invite_section call;
     call_invite_content_type := call_invite_content_type call;
     call_smsg := call_smsg call;
     call_failed_media := call_failed_media call;
     call_initiator := call_initiator call;
     call_hidden_from_ui := call_hidden_from_ui call |}.

Definition set_call_streams (call : sipe_media_call_private)
    (streams : list sipe_media_stream_private) : sipe_media_call_private :=
  {| call_id := call_id call; call_with := call_with call;
     call_session := call_session call; call_streams := streams;
     call_invitation := call_invitation call;
     call_ice_version := call_ice_version call;
     call_encryption_compatible := call_encryption_compatible call;
     call_extra_invite_section := call_extra_invite_section call;
     call_invite_content_type := call_invite_content_type call;
     call_smsg := call_smsg call;
     call_failed_media := call_failed_media call;
     call_initiator := call_initiator call;
     call_hidden_from_ui := call_hidden_from_ui call |}.

Definition set_call_session (call : sipe_media_call_private)
    (session : option sip_session) : sipe_media_call_private :=
  {| call_id := call_id call; call_with := call_with call;
     call_session := session; call_streams := call_streams call;
     call_invitation := call_invitation call;
     call_ice_version := call_ice_version call;
     call_encryption_compatible := call_encryption_compatible call;
     call_extra_invite_section := call_extra_invite_section call;
     call_invite_content_type := call_invite_content_type call;
     call_smsg := call_smsg call;
     call_failed_media := call_failed_media call;
     call_initiator := call_initiator call;
     call_hidden_from_ui := call_hidden_from_ui call |}.

Definition set_call_extra_invite_section (call : sipe_media_call_private)
    (content_type body : option string) : sipe_media_call_private :=
  {| call_id := call_id call; call_with := call_with call;
     call_session := call_session call; call_streams := call_streams call;
     call_invitation := call_invitation call;
     call_ice_version := call_ice_version call;
     call_encryption_compatible := call_encryption_compatible call;
     call_extra_invite_section := body;
     call_invite_content_type := content_type;
     call_smsg := call_smsg call;
     call_failed_media := call_failed_media call;
     call_initiator := call_initiator call;
     call_hidden_from_ui := call_hidden_from_ui call |}.

(** The loop of [sipe_media_to_sdpmsg] over the streams: the media sections
    and the first non-NULL [ip]. *)
Fixpoint streams_to_sdpmedia (sipe_private : sipe_core_private)
    (call_private : sipe_media_call_private)
    (streams : list sipe_media_stream_private)
    (media : list sdpmedia) (ip : option string)
  : option (list sdpmedia * option string) :=
  match streams with
  | [] => Some (media, ip)
  | stream :: rest =>
      m ← media_stream_to_sdpmedia sipe_private call_private stream;
      match m with
      | Some m =>
          streams_to_sdpmedia sipe_private call_private rest (media ++ [m])
            (match ip with None => media_ip m | Some _ => ip end)
      | None => streams_to_sdpmedia sipe_private call_private rest media ip
      end
  end.

(** [sipe_media_to_sdpmsg]: the message and the call, whose list of failed
    media has moved into the message. *)
Definition sipe_media_to_sdpmsg (sipe_private : sipe_core_private)
    (call_private : sipe_media_call_private)
  : option (sdpmsg * sipe_media_call_private) :=
  '(media, ip) ←
    streams_to_sdpmedia sipe_private call_private
      (call_streams call_private) [] None;
  Some ({| sdp_ip := ip;
           sdp_media := media ++ call_failed_media call_private;
           sdp_ice_version := call_ice_version call_private |},
        set_call_failed_media call_private []).

(** ** Applying a remote SDP *)

(** [sipe_core_media_get_stream_by_id]: position and value of the first
    stream called [id]. *)
Definition sipe_core_media_get_stream_by_id (call : sipe_media_call_private)
    (id : string) : option (nat * sipe_media_stream_private) :=
  list_find (λ stream, stream_id stream = id) (call_streams call).

Definition set_stream_backend_private (s : sipe_media_stream_private)
    (b : sipe_backend_media_stream) : sipe_media_stream_private :=
  {| stream_id := stream_id s; stream_backend_private := b;
     encryption_key := encryption_key s;
     encryption_key_id := encryption_key_id s;
     remote_candidates_and_codecs_set := remote_candidates_and_codecs_set s;
     extra_sdp := extra_sdp s |}.

Definition set_encryption_key_id (s : sipe_media_stream_private) (id : Z)
  : sipe_media_stream_private :=
  {| stream_id := stream_id s;
     stream_backend_private := stream_backend_private s;
     encryption_key := encryption_key s;
     encryption_key_id := id;
     remote_candidates_and_codecs_set := remote_candidates_and_codecs_set s;
     extra_sdp := extra_sdp s |}.

Definition set_remote_candidates_and_codecs_set
    (s : sipe_media_stream_private) (b : bool) : sipe_media_stream_private :=
  {| stream_id := stream_id s;
     stream_backend_private := stream_backend_private s;
     encryption_key := encryption_key s;
     encryption_key_id := encryption_key_id s;
     remote_candidates_and_codecs_set := b;
     extra_sdp := extra_sdp s |}.

Definition set_extra_sdp (s : sipe_media_stream_private)
    (l : list sipnameval) : sipe_media_stream_private :=
  {| stream_id := stream_id s;
     stream_backend_private := stream_backend_private s;
     encryption_key := encryption_key s;
     encryption_key_id := encryption_key_id s;
     remote_candidates_and_codecs_set := remote_candidates_and_codecs_set s;
     extra_sdp := l |}.

(** Writes the stream at position [k] back into the call. *)
Definition store_stream (call : sipe_media_call_private) (k : nat)
    (s : sipe_media_stream_private) : sipe_media_call_private :=
  set_call_streams call (<[k := s]> (call_streams call)).

(** The backend codec [update_call_from_remote_sdp] builds from an SDP
    codec. *)
Definition sdpcodec_to_backend_codec (c : sdpcodec) : sipe_backend_codec :=
  {| bc_id := codec_id c; bc_name := codec_name c; bc_type := codec_type c;
     bc_clock_rate := codec_clock_rate c;
     bc_optional_parameters :=
       foldl (λ acc attr,
                acc ++ [{| nv_name := nv_name attr;
                           nv_value := nv_value attr |}])
             [] (codec_parameters c) |}.

(** The backend candidate built from an SDP candidate
    ([sipe_backend_candidate_new] takes no base address). *)
Definition sdpcandidate_to_backend_candidate (c : sdpcandidate) : sdpcandidate :=
  {| cand_foundation := cand_foundation c; cand_component := cand_component c;
     cand_type := cand_type c; cand_protocol := cand_protocol c;
     cand_ip := cand_ip c; cand_port := cand_port c;
     cand_base_ip := None; cand_base_port := 0;
     cand_priority := cand_priority c; cand_username := cand_username c;
     cand_password := cand_password c |}.

(** [remove_stream]: the stream at position [k] leaves the list of the call
    and is freed. *)
Definition remove_stream (call : sipe_media_call_private) (k : nat)
  : sipe_media_call_private :=
  set_call_streams call (delete k (call_streams call)).

(** [stream_end_cb], which the backend calls for a stream it ends. *)
Definition stream_end_cb (call : sipe_media_call_private) (k : nat)
  : sipe_media_call_private :=
  remove_stream call k.

Section media.

Context `{!Backend, !SipLayer}.

(** [update_call_from_remote_sdp].  [sipe_backend_media_stream_end] is the
    request followed by [stream_end_cb]: the stream is gone when the call
    returns. *)
Definition update_call_from_remote_sdp (call_private : sipe_media_call_private)
    (media : sdpmedia)
  : bool * sipe_media_call_private * list event :=
  let callid := call_id call_private in
  let stream := sipe_core_media_get_stream_by_id call_private (media_name media) in
  if decide (media_port media = 0)%Z then
    match stream with
    | Some (k, s) =>
        (true, stream_end_cb call_private k,
         [EvBackendMediaStreamEnd callid (stream_id s)])
    | None => (true, call_private, [])
    end
  else
    match stream with
    | None => (false, call_private, [])
    | Some (k, s) =>
        let id := stream_id s in
        let '(s, evs) :=
          if bool_decide (is_Some (sipe_utils_nameval_find
                                     (media_attributes media) "inactive"))
          then (set_stream_backend_private s
                  (set_bs_held (stream_backend_private s) true),
                [EvBackendStreamHold callid id false])
          else if bs_held (stream_backend_private s)
          then (set_stream_backend_private s
                  (set_bs_held (stream_backend_private s) false),
                [EvBackendStreamUnhold callid id false])
          else (s, []) in
        if remote_candidates_and_codecs_set s
        then (true, store_stream call_private k s, evs)
        else
          let backend_codecs :=
            foldl (λ acc c, acc ++ [sdpcodec_to_backend_codec c])
                  [] (media_codecs media) in
          let '(s, evs) :=
            match media_encryption_key media, encryption_key s with
            | Some remote_key, Some key =>
                (set_encryption_key_id s (media_encryption_key_id media),
                 evs ++ [EvBackendSetEncryptionKeys callid id key remote_key])
            | _, _ => (s, evs)
            end in
          let result := sipe_backend_set_remote_codecs s backend_codecs in
          let evs := evs ++ [EvBackendSetRemoteCodecs callid id backend_codecs] in
          if negb result
          then (false, stream_end_cb (store_stream call_private k s) k,
                evs ++ [EvBackendMediaStreamEnd callid id])
          else
            let backend_candidates :=
              foldl (λ acc c, acc ++ [sdpcandidate_to_backend_candidate c])
                    [] (media_candidates media) in
            (true,
             store_stream call_private k
               (set_remote_candidates_and_codecs_set s true),
             evs ++ [EvBackendAddRemoteCandidates callid id backend_candidates])
    end.

(** The first loop of [apply_remote_message].  Every section of the message
    comes back with a mark telling whether it was appended to
    [failed_media]; a failed section has had its port zeroed in place. *)
Fixpoint apply_remote_message_loop (sipe_private : sipe_core_private)
    (call_private : sipe_media_call_private) (media : list sdpmedia)
  : sipe_media_call_private * list (sdpmedia * bool) * list event :=
  match media with
  | [] => (call_private, [], [])
  | m :: rest =>
      let enc_level := sipe_utils_nameval_find (media_attributes m) "encryption" in
      let call_private :=
        if sipe_strequal enc_level (Some "rejected")
           && bool_decide (get_encryption_policy sipe_private
                           = SIPE_ENCRYPTION_POLICY_REQUIRED)
        then set_call_encryption_compatible call_private false
        else call_private in
      let '(ok, call_private, evs) :=
        update_call_from_remote_sdp call_private m in
      let '(m, call_private) :=
        if ok then (m, call_private)
        else
          let m := set_media_port m 0 in
          (m, set_call_failed_media call_private
                (call_failed_media call_private ++ [m])) in
      let '(call_private, marked, evs') :=
        apply_remote_message_loop sipe_private call_private rest in
      (call_private, (m, negb ok) :: marked, evs ++ evs')
  end.

(** [apply_remote_message]: the return value, the call, the message as it is
    left to the caller (the failed sections unlinked from it) and the
    requests made. *)
Definition apply_remote_message (sipe_private : sipe_core_private)
    (call_private : sipe_media_call_private) (msg : sdpmsg)
  : bool * sipe_media_call_private * sdpmsg * list event :=
  let call_private := set_call_failed_media call_private [] in
  let call_private := set_call_encryption_compatible call_private true in
  let '(call_private, marked, evs) :=
    apply_remote_message_loop sipe_private call_private (sdp_media msg) in
  let remaining := fst <$> filter (λ x, x.2 = false) marked in
  (bool_decide (remaining ≠ []), call_private,
   {| sdp_ip := sdp_ip msg; sdp_media := remaining;
      sdp_ice_version := sdp_ice_version msg |},
   evs).

End media.

(** ** Call registry, stream and call creation *)

(** Stores a call under its call-id. *)
Definition store_call (sipe_private : sipe_core_private)
    (call : sipe_media_call_private) : sipe_core_private :=
  set_media_calls sipe_private
    (<[call_id call := call]> (media_calls sipe_private)).

(** [sipe_media_from_sipmsg]: the call registered under the Call-ID of the
    message. *)
Definition sipe_media_from_sipmsg (sipe_private : sipe_core_private)
    (msg_callid : string) : option sipe_media_call_private :=
  media_calls sipe_private !! msg_callid.

(** [sipe_media_get_sip_dialog]: the first dialog of the session of the
    call. *)
Definition sipe_media_get_sip_dialog (call : sipe_media_call_private)
  : option sip_dialog :=
  match call_session call with
  | None => None
  | Some session => head (session_dialogs session)
  end.

(** Writes through the pointer [sipe_media_get_sip_dialog] returned. *)
Definition store_sip_dialog (call : sipe_media_call_private) (d : sip_dialog)
  : sipe_media_call_private :=
  match call_session call with
  | None => call
  | Some session =>
      set_call_session call
        (Some {| session_with := session_with session;
                 session_dialogs := d :: tail (session_dialogs session);
                 session_is_call := session_is_call session |})
  end.

(** [sipe_core_media_get_call]: some call that has an "audio" stream. *)
Definition sipe_core_media_get_call (sipe_private : sipe_core_private)
  : option sipe_media_call_private :=
  snd <$> (snd <$>
    list_find (λ kv, is_Some (sipe_core_media_get_stream_by_id kv.2 "audio"))
              (map_to_list (media_calls sipe_private))).

(** [sipe_media_call_free]: the call leaves the registry; its streams, its
    session and its saved messages go with it. *)
Definition sipe_media_call_free (sipe_private : sipe_core_private)
    (callid : string) : sipe_core_private :=
  set_media_calls sipe_private (delete callid (media_calls sipe_private)).

(** [media_end_cb]. *)
Definition media_end_cb (sipe_private : sipe_core_private) (callid : string)
  : sipe_core_private :=
  sipe_media_call_free sipe_private callid.

Section signalling.

Context `{!Backend, !SipLayer}.

(** [sipe_backend_media_hangup]: the request, then whatever the backend calls
    back before it returns. *)
Definition sipe_backend_media_hangup (sipe_private : sipe_core_private)
    (callid : string) (local : bool) : sipe_core_private :=
  sipe_backend_media_hangup_callbacks
    (emit sipe_private [EvBackendMediaHangup callid local]) callid local.

(** [sipe_media_stream_add]: the new stream (NULL when the backend refuses),
    the call and the request made to the backend. *)
Definition sipe_media_stream_add (sipe_private : sipe_core_private)
    (call : sipe_media_call_private) (id : string) (type : SipeMediaType)
    (ice_version : SipeIceVersion) (initiator : bool)
  : option sipe_media_stream_private * sipe_media_call_private * list event :=
  let min_port := min_media_port sipe_private in
  let max_port := max_media_port sipe_private in
  let '(min_port, max_port) :=
    match type with
    | SIPE_MEDIA_AUDIO =>
        (min_audio_port sipe_private, max_audio_port sipe_private)
    | SIPE_MEDIA_VIDEO =>
        (min_video_port sipe_private, max_audio_port sipe_private)
    | SIPE_MEDIA_APPLICATION =>
        if sipe_strequal (Some id) (Some "data")
        then (min_filetransfer_port sipe_private,
              max_filetransfer_port sipe_private)
        else if sipe_strequal (Some id) (Some "applicationsharing")
        then (min_appsharing_port sipe_private,
              max_appsharing_port sipe_private)
        else (min_port, max_port)
    end in
  let request :=
    EvBackendMediaAddStream (call_id call) id (call_with call) type
      ice_version initiator
      (media_relays sipe_private) (media_relay_username sipe_private)
      (media_relay_password sipe_private) min_port max_port in
  match sipe_backend_media_add_stream (call_id call) id type ice_version
          initiator min_port max_port with
  | None => (None, call, [request])
  | Some backend_stream =>
      let stream_private :=
        {| stream_id := id;
           stream_backend_private := backend_stream;
           encryption_key :=
             if HAVE_SRTP then Some (rand_key (call_id call) id) else None;
           encryption_key_id := if HAVE_SRTP then 1 else 0;
           remote_candidates_and_codecs_set := false;
           extra_sdp := [] |} in
      (Some stream_private,
       set_call_streams call (call_streams call ++ [stream_private]),
       [request])
  end.

(** [create_media]: registers a fresh call under [callid].  The assertion
    that the call-id is free aborts the program otherwise.  (The cname handed
    to the backend is left out.) *)
Definition create_media (sipe_private : sipe_core_private) (callid : string)
    (with_ : option string) (initiator : bool) (ice_version : SipeIceVersion)
    (hidden_from_ui : bool)
  : option (sipe_media_call_private * sipe_core_private) :=
  match media_calls sipe_private !! callid with
  | Some _ => None
  | None =>
      let call_private :=
        {| call_id := callid; call_with := None; call_session := None;
           call_streams := []; call_invitation := None;
           call_ice_version := ice_version;
           call_encryption_compatible := true;
           call_extra_invite_section := None;
           call_invite_content_type := None;
           call_smsg := None; call_failed_media := [];
           call_initiator := initiator;
           call_hidden_from_ui := hidden_from_ui |} in
      Some (call_private,
            emit (store_call sipe_private call_private)
              [EvBackendMediaNew callid with_ initiator hidden_from_ui])
  end.

Definition set_call_with (call : sipe_media_call_private)
    (with_ : option string) : sipe_media_call_private :=
  {| call_id := call_id call; call_with := with_;
     call_session := call_session call; call_streams := call_streams call;
     call_invitation := call_invitation call;
     call_ice_version := call_ice_version call;
     call_encryption_compatible := call_encryption_compatible call;
     call_extra_invite_section := call_extra_invite_section call;
     call_invite_content_type := call_invite_content_type call;
     call_smsg := call_smsg call;
     call_failed_media := call_failed_media call;
     call_initiator := call_initiator call;
     call_hidden_from_ui := call_hidden_from_ui call |}.

(** [create_media_outgoing]: a new session with one new dialog (fresh
    call-id and tag, cseq 0), and the call registered under that call-id. *)
Definition create_media_outgoing (sipe_private : sipe_core_private)
    (with_ : option string) (initiator : bool) (ice_version : SipeIceVersion)
    (hidden_from_ui : bool)
  : option (sipe_media_call_private * sipe_core_private) :=
  let callid := gencallid sipe_private in
  let dialog :=
    {| dialog_callid := Some callid; dialog_with := with_;
       dialog_ourtag := Some (gentag sipe_private);
       dialog_theirtag := None; dialog_cseq := 0;
       dialog_outgoing_invite := None |} in
  let session :=
    {| session_with := with_; session_dialogs := [dialog];
       session_is_call := true |} in
  '(call_private, sipe_private) ←
    create_media sipe_private callid with_ initiator ice_version
      hidden_from_ui;
  let call_private :=
    set_call_with (set_call_session call_private (Some session)) with_ in
  Some (call_private, store_call sipe_private call_private).

Definition sipe_media_call_new_outgoing (sipe_private : sipe_core_private)
    (with_ : option string) (initiator : bool) (ice_version : SipeIceVersion) :=
  create_media_outgoing sipe_private with_ initiator ice_version false.

Definition sipe_data_session_new_outgoing (sipe_private : sipe_core_private)
    (with_ : option string) (initiator : bool) (ice_version : SipeIceVersion) :=
  create_media_outgoing sipe_private with_ initiator ice_version true.

(** [sipe_media_add_extra_invite_section]. *)
Definition sipe_media_add_extra_invite_section (call : sipe_media_call_private)
    (invite_content_type body : option string) : sipe_media_call_private :=
  set_call_extra_invite_section call invite_content_type body.

Definition append_proxy_fallback_invite_if_needed
    (sipe_private : sipe_core_private) (call_private : sipe_media_call_private)
  : option sipe_media_call_private :=
  let ip := sipe_backend_network_ip_address in
  dialog ← sipe_media_get_sip_dialog call_private;
  if bool_decide (dialog_cseq dialog ≠ 0)%Z
     || bool_decide (call_ice_version call_private ≠ SIPE_ICE_RFC_5245)
     || sipe_strequal (call_with call_private) (test_call_bot_uri sipe_private)
  then Some call_private
  else
    let body :=
      ("Content-Type: application/sdp" +:+ CRLF
       +:+ "Content-Transfer-Encoding: 7bit" +:+ CRLF
       +:+ "Content-Disposition: session; handling=optional; ms-proxy-2007fallback"
       +:+ CRLF +:+ CRLF
       +:+ "o=- 0 0 IN IP4 " +:+ ip +:+ CRLF
       +:+ "s=session" +:+ CRLF
       +:+ "c=IN IP4 " +:+ ip +:+ CRLF
       +:+ "m=audio 0 RTP/AVP" +:+ CRLF)%string in
    Some (sipe_media_add_extra_invite_section call_private
            (Some "multipart/alternative") (Some body)).

Definition sipe_media_initiate_call (sipe_private : sipe_core_private)
    (with_ : option string) (ice_version : SipeIceVersion) (with_video : bool)
  : option sipe_core_private :=
  match sipe_core_media_get_call sipe_private with
  | Some _ => Some sipe_private
  | None =>
      '(call_private, sipe_private) ←
        sipe_media_call_new_outgoing sipe_private with_ true ice_version;
      let '(stream, call_private, evs) :=
        sipe_media_stream_add sipe_private call_private "audio"
          SIPE_MEDIA_AUDIO (call_ice_version call_private) true in
      let sipe_private := emit (store_call sipe_private call_private) evs in
      match stream with
      | None =>
          Some (sipe_backend_media_hangup
                  (emit sipe_private
                     [EvBackendNotifyError "Error occured"
                        "Error creating audio stream"])
                  (call_id call_private) false)
      | Some _ =>
          let '(stream, call_private, evs) :=
            if with_video
            then sipe_media_stream_add sipe_private call_private "video"
                   SIPE_MEDIA_VIDEO (call_ice_version call_private) true
            else (None, call_private, []) in
          let sipe_private := emit (store_call sipe_private call_private) evs in
          if with_video && bool_decide (stream = None)
          then
            Some (sipe_backend_media_hangup
                    (emit sipe_private
                       [EvBackendNotifyError "Error occured"
                          "Error creating video stream"])
                    (call_id call_private) false)
          else
            call_private ←
              append_proxy_fallback_invite_if_needed sipe_private call_private;
            Some (store_call sipe_private call_private)
      end
  end.

(** [sipe_media_send_ack]. *)
Definition sipe_media_send_ack (sipe_private : sipe_core_private)
    (msg : sipmsg) (trans : transaction) : bool * sipe_core_private :=
  match sipe_media_from_sipmsg sipe_private (msg_callid msg) with
  | None => (false, sipe_private)
  | Some call_private =>
      match sipe_media_get_sip_dialog call_private with
      | None => (false, sipe_private)
      | Some dialog =>
          let tmp_cseq := dialog_cseq dialog in
          let dialog := set_dialog_cseq dialog (sip_transaction_cseq trans - 1) in
          let sipe_private :=
            emit sipe_private
              [EvTransportAck (dialog_callid dialog) (dialog_cseq dialog)] in
          let dialog := sip_transport_ack dialog in
          let dialog := set_dialog_cseq dialog tmp_cseq in
          let dialog := set_dialog_outgoing_invite dialog None in
          (true, store_call sipe_private (store_sip_dialog call_private dialog))
      end
  end.

(** [maybe_retry_call_with_ice_version].  The URI and the video choice are
    read before the hang-up; [call_private->sipe_private] is read after it,
    which is undefined when the hang-up has freed the call. *)
Definition maybe_retry_call_with_ice_version (sipe_private : sipe_core_private)
    (call_private : sipe_media_call_private) (ice_version : SipeIceVersion)
    (trans : transaction) : option (bool * sipe_core_private) :=
  if bool_decide (call_ice_version call_private ≠ ice_version)
     && bool_decide (sip_transaction_cseq trans = 1)%Z
  then
    let with_ := call_with call_private in
    let with_video :=
      bool_decide (is_Some (sipe_core_media_get_stream_by_id call_private "video")) in
    let sipe_private :=
      sipe_backend_media_hangup sipe_private (call_id call_private) false in
    _ ← media_calls sipe_private !! call_id call_private;
    sipe_private ←
      sipe_media_initiate_call sipe_private with_ ice_version with_video;
    Some (true, sipe_private)
  else Some (false, sipe_private).

(** The tail of the failure branch of [process_invite_call_response], after
    the [switch]: the error is shown, the response acknowledged and the call
    hung up. *)
Definition report_invite_failure (sipe_private : sipe_core_private)
    (msg : sipmsg) (trans : transaction) (callid : string)
    (title desc : string) (append_responsestr : bool)
  : option (bool * sipe_core_private) :=
  let desc :=
    if append_responsestr then
      let desc := (desc +:+ LF +:+ pretty (msg_response msg) +:+ " "
                   +:+ printf_s (msg_responsestr msg))%string in
      match sipmsg_get_ms_diagnostics_reason msg with
      | Some reason => (desc +:+ LF +:+ LF +:+ reason)%string
      | None => desc
      end
    else desc in
  let sipe_private := emit sipe_private [EvBackendNotifyError title desc] in
  let sipe_private := (sipe_media_send_ack sipe_private msg trans).2 in
  Some (true, sipe_backend_media_hangup sipe_private callid false).

Definition process_invite_call_response (sipe_private : sipe_core_private)
    (msg : sipmsg) (trans : transaction)
  : option (bool * sipe_core_private) :=
  match sipe_media_from_sipmsg sipe_private (msg_callid msg) with
  | None => Some (false, sipe_private)
  | Some call_private =>
      dialog ← sipe_media_get_sip_dialog call_private;
      let with_ := dialog_with dialog in
      let dialog := set_dialog_outgoing_invite dialog None in
      let call_private := store_sip_dialog call_private dialog in
      let sipe_private := store_call sipe_private call_private in
      let callid := call_id call_private in
      if decide (400 ≤ msg_response msg)%Z then
        (* Call rejected by remote peer or an error occurred *)
        let report := report_invite_failure sipe_private msg trans callid in
        let response := msg_response msg in
        if decide (response = 480)%Z then
          if decide (sipmsg_parse_warning msg = 391)%Z
          then report "User unavailable"
                 (printf_s with_ +:+ " does not want to be disturbed")%string
                 false
          else report "User unavailable"
                 ("User " +:+ printf_s with_ +:+ " is not available")%string
                 false
        else if decide (response = 603 ∨ response = 605)%Z then
          report "Call rejected"
            ("User " +:+ printf_s with_ +:+ " rejected call")%string false
        else if decide (response = 415)%Z then
          if sipe_strequal (msg_responsestr msg)
               (Some "Mutipart mime in content type not supported by Archiving CDR service")
          then
            match maybe_retry_call_with_ice_version sipe_private call_private
                    SIPE_ICE_DRAFT_6 trans with
            | None => None
            | Some (true, sipe_private') => Some (true, sipe_private')
            | Some (false, _) => report "Unsupported media type" "" false
            end
          else report "Unsupported media type" "" false
        else if decide (response = 488)%Z then
          let ms_diag := sipmsg_find_header msg "ms-client-diagnostics" in
          if sipe_strequal (msg_responsestr msg)
               (Some "Encryption Levels not compatible")
             || match ms_diag with
                | Some d => g_str_has_prefix d "52017;"
                | None => false
                end
          then report "Unable to establish a call"
                 "Encryption settings of peer are incompatible with ours."
                 false
          else
            let ms_diag := sipmsg_find_header msg "ms-diagnostics" in
            let retry_ice_version :=
              match ms_diag with
              | Some d => if g_str_has_prefix d "7008;"
                          then SIPE_ICE_RFC_5245 else SIPE_ICE_DRAFT_6
              | None => SIPE_ICE_DRAFT_6
              end in
            match maybe_retry_call_with_ice_version sipe_private call_private
                    retry_ice_version trans with
            | None => None
            | Some (true, sipe_private') => Some (true, sipe_private')
            | Some (false, _) =>
                report "Error occured" "Unable to establish a call" true
            end
        else report "Error occured" "Unable to establish a call" true
      else
        let dialog := sipe_dialog_parse dialog msg true in
        let call_private := store_sip_dialog call_private dialog in
        let sipe_private := store_call sipe_private call_private in
        match sdpmsg_parse_msg (msg_body msg) with
        | None =>
            Some (false,
                  sipe_backend_media_hangup
                    (emit sipe_private
                       [EvTransportResponse (Some (msg_callid msg)) 488
                          "Not Acceptable Here" None])
                    callid false)
        | Some smsg =>
            let '(_, call_private, _, evs) :=
              apply_remote_message sipe_private call_private smsg in
            let sipe_private := emit (store_call sipe_private call_private) evs in
            Some (true, (sipe_media_send_ack sipe_private msg trans).2)
        end
  end.

End signalling.

(** ** XML documents and number conversion (sipe-xml.c, libc) *)

(** A parsed element: name, attributes, child elements, character data. *)
#[warnings="-register-all"]
Inductive sipe_xml :=
  XmlNode (name : string) (attributes : list sipnameval)
          (children : list sipe_xml) (data : option string).

Definition sipe_xml_name (node : sipe_xml) : string :=
  match node with XmlNode name _ _ _ => name end.

Definition xml_children (node : sipe_xml) : list sipe_xml :=
  match node with XmlNode _ _ children _ => children end.

(** [sipe_xml_attribute]: NULL for a NULL node or a missing attribute. *)
Definition sipe_xml_attribute (node : option sipe_xml) (attr : string)
  : option string :=
  match node with
  | Some (XmlNode _ attributes _ _) => sipe_utils_nameval_find attributes attr
  | None => None
  end.

(** [sipe_xml_data]: NULL for a NULL node or an element without data. *)
Definition sipe_xml_data (node : option sipe_xml) : option string :=
  match node with
  | Some (XmlNode _ _ _ data) => data
  | None => None
  end.

(** [sipe_xml_child (node, "a/b/...")]: the path is given as the list of its
    element names; each step takes the first child of that name. *)
Fixpoint sipe_xml_child (node : option sipe_xml) (path : list string)
  : option sipe_xml :=
  match path with
  | [] => node
  | name :: rest =>
      match node with
      | None => None
      | Some n =>
          sipe_xml_child
            (snd <$> list_find (λ c, sipe_xml_name c = name) (xml_children n))
            rest
      end
  end.

(** The elements a [for (item = sipe_xml_child (node, name); item;
    item = sipe_xml_twin (item))] loop visits. *)
Definition sipe_xml_twins (node : option sipe_xml) (name : string)
  : list sipe_xml :=
  match node with
  | None => []
  | Some n => filter (λ c, sipe_xml_name c = name) (xml_children n)
  end.

Class XmlLayer := {
  sipe_xml_parse : option string → option sipe_xml;
}.

Module Libc.

Definition is_space (c : ascii) : bool :=
  let n := nat_of_ascii c in
  bool_decide (n = 32 ∨ (9 ≤ n ∧ n ≤ 13))%nat.

Definition digit_value (c : ascii) : option Z :=
  let n := nat_of_ascii c in
  if bool_decide (48 ≤ n ∧ n ≤ 57)%nat then Some (Z.of_nat n - 48)%Z else None.

Fixpoint skip_spaces (s : string) : string :=
  match s with
  | String c s' => if is_space c then skip_spaces s' else s
  | EmptyString => s
  end.

Fixpoint parse_digits (s : string) (acc : Z) : Z :=
  match s with
  | String c s' =>
      match digit_value c with
      | Some d => parse_digits s' (acc * 10 + d)%Z
      | None => acc
      end
  | EmptyString => acc
  end.

(** [strtol (s, NULL, 10)] with a 64-bit [long]. *)
Definition strtol (s : string) : Z :=
  let s := skip_spaces s in
  let v :=
    match s with
    | String "-" s' => (- parse_digits s' 0)%Z
    | String "+" s' => parse_digits s' 0
    | _ => parse_digits s 0
    end in
  ((- 2 ^ 63) `max` (v `min` (2 ^ 63 - 1)))%Z.

(** [atoi]: [(int) strtol (s, NULL, 10)]; a NULL argument is undefined. *)
Definition atoi (s : option string) : option Z :=
  s ← s; Some (wrap_gint (strtol s)).

(** What [printf ("%d")] prints for an argument holding [z]: its low 32
    bits, read as an [int]. *)
Definition printf_d (z : Z) : string := pretty (wrap_gint z).

(** What [printf ("%u")] prints: the low 32 bits, read as unsigned. *)
Definition printf_u (z : Z) : string := pretty (z `mod` 2 ^ 32)%Z.

End Libc.

Import Libc.

(** ** Media-relay credentials *)

(** [sipe_media_relay_list_free]: the DNS queries still pending are
    cancelled. *)
Definition sipe_media_relay_list_free (l : list sipe_media_relay) : list event :=
  omap (λ relay, if relay_dns_query relay
                 then Some (EvDnsQueryCancel (relay_hostname relay))
                 else None) l.

Section mras.

Context `{!Backend, !XmlLayer}.

(** Body of the loop over the [mediaRelay] elements.  The ports are [guint]
    fields assigned from [atoi]; [dns_query] is what
    [sipe_backend_dns_query_a] returns for the host name and the UDP port. *)
Definition parse_media_relay (item : sipe_xml) : option sipe_media_relay :=
  let hostname := sipe_xml_data (sipe_xml_child (Some item) ["hostName"]) in
  udp_port ←
    match sipe_xml_child (Some item) ["udpPort"] with
    | Some node => v ← atoi (sipe_xml_data (Some node)); Some (v `mod` 2 ^ 32)%Z
    | None => Some 0%Z
    end;
  tcp_port ←
    match sipe_xml_child (Some item) ["tcpPort"] with
    | Some node => v ← atoi (sipe_xml_data (Some node)); Some (v `mod` 2 ^ 32)%Z
    | None => Some 0%Z
    end;
  Some {| relay_hostname := hostname; relay_udp_port := udp_port;
          relay_tcp_port := tcp_port;
          relay_dns_query := sipe_backend_dns_query_a hostname udp_port |}.

Definition process_get_av_edge_credentials_response
    (sipe_private : sipe_core_private) (msg : sipmsg)
  : option (bool * sipe_core_private) :=
  let sipe_private :=
    emit sipe_private (sipe_media_relay_list_free (media_relays sipe_private)) in
  let sipe_private := set_relay_credentials sipe_private None None [] in
  if decide (400 ≤ msg_response msg)%Z then Some (false, sipe_private)
  else if decide (msg_response msg = 200)%Z then
    let xn_response := sipe_xml_parse (msg_body msg) in
    if sipe_strequal (Some "OK") (sipe_xml_attribute xn_response "reasonPhrase")
    then
      let xn_credentials :=
        sipe_xml_child xn_response ["credentialsResponse"; "credentials"] in
      let xn_relays :=
        sipe_xml_child xn_response ["credentialsResponse"; "mediaRelayList"] in
      let username := sipe_xml_data (sipe_xml_child xn_credentials ["username"]) in
      let password := sipe_xml_data (sipe_xml_child xn_credentials ["password"]) in
      relays ← mapM parse_media_relay (sipe_xml_twins xn_relays "mediaRelay");
      Some (true,
            emit (set_relay_credentials sipe_private username password relays)
              ((λ relay, EvBackendDnsQueryA (relay_hostname relay)
                           (relay_udp_port relay)) <$> relays))
    else Some (true, sipe_private)
  else Some (true, sipe_private).

End mras.

(** ** Lync file transfer (sipe-ft-lync.c)

    The XML text of a control message is represented by the document it
    denotes. *)

(** [struct sipe_file_transfer_lync].  [file_size] is a 64-bit [gsize],
    [request_id] a [guint]; [ft_call_private] is the call-id of the media
    call, [ft_deallocate] tells whether the [deallocate] callback of the
    public part is set. *)
Record sipe_file_transfer_lync := {
  ft_file_name : option string;
  ft_id : option string;
  ft_file_size : Z;
  ft_request_id : Z;
  ft_call_private : option string;
  ft_dialog : option sip_dialog;
  ft_was_cancelled : bool;
  ft_deallocate : bool;
}.

Definition set_ft_deallocate (ft : sipe_file_transfer_lync) (b : bool)
  : sipe_file_transfer_lync :=
  {| ft_file_name := ft_file_name ft; ft_id := ft_id ft;
     ft_file_size := ft_file_size ft; ft_request_id := ft_request_id ft;
     ft_call_private := ft_call_private ft; ft_dialog := ft_dialog ft;
     ft_was_cancelled := ft_was_cancelled ft; ft_deallocate := b |}.

Inductive ft_event :=
  | FtTransportInfo (dialog : option sip_dialog) (body : sipe_xml)
  | FtBackendMediaHangup (callid : string) (local : bool).

Definition FILETRANSFER_NS : sipnameval :=
  {| nv_name := "xmlns";
     nv_value := "http://schemas.microsoft.com/rtc/2009/05/filetransfer" |}.

(** [send_ms_filetransfer_msg]: an INFO on the dialog of the transfer. *)
Definition send_ms_filetransfer_msg (body : sipe_xml)
    (ft_private : sipe_file_transfer_lync) : list ft_event :=
  [FtTransportInfo (ft_dialog ft_private) body].

(** The document [FILETRANSFER_PROGRESS] prints. *)
Definition FILETRANSFER_PROGRESS (notify_id transfer_id to : Z) : sipe_xml :=
  XmlNode "notify"
    [FILETRANSFER_NS; {| nv_name := "notifyId"; nv_value := printf_d notify_id |}]
    [XmlNode "fileTransferProgress" []
       [XmlNode "transferId" [] [] (Some (printf_d transfer_id));
        XmlNode "bytesReceived" []
          [XmlNode "from" [] [] (Some "0");
           XmlNode "to" [] [] (Some (printf_d to))]
          None]
       None]
    None.

(** The document [DOWNLOAD_SUCCESS_RESPONSE] prints. *)
Definition DOWNLOAD_SUCCESS_RESPONSE (request_id : Z) : sipe_xml :=
  XmlNode "response"
    [FILETRANSFER_NS;
     {| nv_name := "requestId"; nv_value := printf_u request_id |};
     {| nv_name := "code"; nv_value := "success" |}]
    [] None.

(** [ft_lync_incoming_end], run by the receiver when the backend has written
    the last byte; [rand] is the value [rand ()] returns. *)
Definition ft_lync_incoming_end (rand : Z) (ft_private : sipe_file_transfer_lync)
  : bool * sipe_file_transfer_lync * list ft_event :=
  let evs :=
    send_ms_filetransfer_msg
      (FILETRANSFER_PROGRESS rand (ft_request_id ft_private)
         ((ft_file_size ft_private - 1) `mod` 2 ^ 64)%Z)
      ft_private in
  (true, set_ft_deallocate ft_private false, evs).

(** [ft_lync_deallocate]: hangs up the media call; the structure is freed. *)
Definition ft_lync_deallocate (ft_private : sipe_file_transfer_lync)
  : list ft_event :=
  match ft_call_private ft_private with
  | Some callid => [FtBackendMediaHangup callid true]
  | None => []
  end.

(** [process_notify], run by the sender: the requests made and the transfer
    structure, NULL once it has been freed. *)
Definition process_notify (ft_private : sipe_file_transfer_lync)
    (xml : sipe_xml)
  : option (option sipe_file_transfer_lync * list ft_event) :=
  match sipe_xml_child (Some xml) ["fileTransferProgress"] with
  | Some progress_node =>
      let to_str :=
        sipe_xml_data
          (sipe_xml_child (Some progress_node) ["bytesReceived"; "to"]) in
      to ← atoi to_str;
      if decide (to = wrap_gint ((ft_file_size ft_private - 1) `mod` 2 ^ 64))%Z
      then
        Some (None,
              send_ms_filetransfer_msg
                (DOWNLOAD_SUCCESS_RESPONSE (ft_request_id ft_private))
                ft_private
              ++ ft_lync_deallocate ft_private)
      else Some (Some ft_private, [])
  | None => Some (Some ft_private, [])
  end.

(** * Vocabulary of the properties *)

(** The port range a stream is created with: the two ports of the request
    [sipe_media_stream_add] hands to the backend. *)
Definition requested_port_range (evs : list event) : option (Z * Z) :=
  match evs with
  | [EvBackendMediaAddStream _ _ _ _ _ _ _ _ _ min_port max_port] =>
      Some (min_port, max_port)
  | _ => None
  end.

(** The key under which [sdpcodec_compare] tells codecs apart: the id as a
    32-bit pattern. *)
Definition codec_key (c : sdpcodec) : Z := (codec_id c `mod` 2 ^ 32)%Z.

(** What [fill_zero_tcp_act_ports_from_tcp_pass] does to one candidate, read
    off the list it was given. *)

(** [passive] is a TCP-passive candidate of the type of [c] with the IP and
    the base IP of [c]. *)
Definition matching_tcp_passive (c passive : sdpcandidate) : Prop :=
  cand_protocol passive = SIPE_NETWORK_PROTOCOL_TCP_PASSIVE
  ∧ cand_type c = cand_type passive
  ∧ cand_ip c = cand_ip passive
  ∧ cand_base_ip c = cand_base_ip passive.

(** [p], at position [j], is the first candidate of [l] that is a
    TCP-passive candidate of the type of [c] with the IP and the base IP of
    [c]. *)
Definition first_matching_tcp_passive (l : list sdpcandidate)
    (c : sdpcandidate) (j : nat) (p : sdpcandidate) : Prop :=
  l !! j = Some p
  ∧ matching_tcp_passive c p
  ∧ ∀ j' p', (j' < j)%nat → l !! j' = Some p' → ¬ matching_tcp_passive c p'.

(** [h] is a TCP-passive host candidate whose IP is [ip]. *)
Definition tcp_passive_host (ip : string) (h : sdpcandidate) : Prop :=
  cand_protocol h = SIPE_NETWORK_PROTOCOL_TCP_PASSIVE
  ∧ cand_type h = SIPE_CANDIDATE_TYPE_HOST
  ∧ cand_ip h = Some ip.

(** [h], at position [k], is the last TCP-passive host candidate of [l]
    whose IP is [ip]. *)
Definition last_tcp_passive_host (l : list sdpcandidate) (ip : string)
    (k : nat) (h : sdpcandidate) : Prop :=
  l !! k = Some h
  ∧ tcp_passive_host ip h
  ∧ ∀ k' h', (k < k')%nat → l !! k' = Some h' → ¬ tcp_passive_host ip h'.

(** A TCP-active candidate takes over from the first matching TCP-passive
    one. *)
Definition tcp_act_filled (l : list sdpcandidate) (c : sdpcandidate)
  : sdpcandidate :=
  if decide (cand_protocol c = SIPE_NETWORK_PROTOCOL_TCP_ACTIVE) then
    match find_tcp_passive c l with
    | Some passive => inherit_from_passive c passive
    | None => c
    end
  else c.

(** The port of the last TCP-passive host candidate whose IP is [ip]. *)
Definition tcp_passive_host_port (l : list sdpcandidate) (ip : string)
  : option Z :=
  cand_port <$>
    last (filter (λ h, cand_protocol h = SIPE_NETWORK_PROTOCOL_TCP_PASSIVE
                       ∧ cand_type h = SIPE_CANDIDATE_TYPE_HOST
                       ∧ cand_ip h = Some ip) l).

(** A relay candidate without base port takes the port found for its base
    IP. *)
Definition relay_base_port_filled (l : list sdpcandidate) (c : sdpcandidate)
  : sdpcandidate :=
  if bool_decide (cand_type c = SIPE_CANDIDATE_TYPE_RELAY)
     && bool_decide (cand_base_port c = 0)%Z
  then
    match cand_base_ip c ≫= tcp_passive_host_port l with
    | Some port => set_cand_base_port c port
    | None => c
    end
  else c.

(** The candidates on which neither hash-table call is handed a NULL key. *)
Definition fill_zero_defined (l : list sdpcandidate) : Prop :=
  ∀ c, c ∈ l →
    (cand_protocol c = SIPE_NETWORK_PROTOCOL_TCP_PASSIVE →
     cand_type c = SIPE_CANDIDATE_TYPE_HOST → is_Some (cand_ip c))
    ∧ (cand_type c = SIPE_CANDIDATE_TYPE_RELAY → is_Some (cand_base_ip c)).

(** What [ip_to_port] holds once the first [i] candidates of [l] have been
    visited: for every IP the position of the last TCP-passive host candidate
    with that IP. *)
Definition ip_to_port_inv (l : list sdpcandidate) (i : nat)
    (ip_to_port : gmap string nat) : Prop :=
  ∀ ip,
    match ip_to_port !! ip with
    | Some k =>
        ∃ h, l !! k = Some h
             ∧ cand_protocol h = SIPE_NETWORK_PROTOCOL_TCP_PASSIVE
             ∧ tcp_passive_host_port (take i l) ip = Some (cand_port h)
    | None => tcp_passive_host_port (take i l) ip = None
    end.

(** What [remove_wrong_farstream_0_1_tcp_candidates] discards, read off the
    list it was given.  A node is a candidate with its position. *)

(** [p] is a UDP candidate other than [n] with the foundation of [n], and the
    later of the two fails the test against the earlier one. *)
Definition wrong_partner (n p : nat * sdpcandidate) : bool :=
  bool_decide (p.1 ≠ n.1)
  && bool_decide (cand_protocol p.2 = SIPE_NETWORK_PROTOCOL_UDP)
  && bool_decide (cand_foundation p.2 = cand_foundation n.2)
  && (if decide (p.1 < n.1)%nat then wrong_udp_pair n.2 p.2
      else wrong_udp_pair p.2 n.2).

(** The UDP candidates that have such a partner in [l]. *)
Definition discarded (l : list sdpcandidate) (n : nat * sdpcandidate) : bool :=
  bool_decide (cand_protocol n.2 = SIPE_NETWORK_PROTOCOL_UDP)
  && existsb (wrong_partner n) (imap (λ i c, (i, c)) l).

(** No foundation is shared by three UDP candidates. *)
Definition foundations_in_pairs (l : list sdpcandidate) : Prop :=
  ∀ i j k ci cj ck,
    l !! i = Some ci → l !! j = Some cj → l !! k = Some ck →
    (i < j)%nat → (j < k)%nat →
    cand_protocol ci = SIPE_NETWORK_PROTOCOL_UDP →
    cand_protocol cj = SIPE_NETWORK_PROTOCOL_UDP →
    cand_protocol ck = SIPE_NETWORK_PROTOCOL_UDP →
    cand_foundation ci = cand_foundation cj →
    cand_foundation cj = cand_foundation ck →
    False.

(** The state of the loop once the first [m] candidates of [l] have been
    visited. *)
Definition farstream_inv (l : list sdpcandidate) (m : nat)
    (st : farstream_state) : Prop :=
  fs_candidates st
  = filter (λ n, (bool_decide (n.1 < m)%nat && discarded (take m l) n) = false)
      (imap (λ i c, (i, c)) l)
  ∧ ∀ f, fs_foundation_to_candidate st !! f
         = list_find (λ c, cand_protocol c = SIPE_NETWORK_PROTOCOL_UDP
                           ∧ cand_foundation c = f) (take m l).

(** * Sample configurations

    Concrete collaborators and states on which the functions are run. *)

Module Sample.

Definition backend_stream : sipe_backend_media_stream :=
  {| bs_local_codecs := []; bs_local_candidates := [];
     bs_active_local_candidates := []; bs_active_remote_candidates := [];
     bs_held := false; bs_initialized := true |}.

(** A backend that creates every stream, accepts a codec list unless it is
    empty, and ends the media (hence [media_end_cb]) as soon as it is asked
    to hang up. *)
Definition backend : Backend :=
  {| sipe_backend_media_add_stream := λ _ _ _ _ _ _ _, Some backend_stream;
     sipe_backend_set_remote_codecs :=
       λ _ codecs, bool_decide (codecs ≠ []);
     sipe_backend_media_hangup_callbacks :=
       λ sipe_private callid _, media_end_cb sipe_private callid;
     HAVE_SRTP := true;
     rand_key := λ _ _, replicate 30 7%Z;
     sipe_backend_dns_query_a := λ hostname _, bool_decide (is_Some hostname) |}.

(** A SIP layer whose [sip_transport_ack] advances the cseq of the dialog
    and that has no SDP parser. *)
Definition sip_layer : SipLayer :=
  {| sdpmsg_parse_msg := λ _, None;
     sdpmsg_to_string := λ _, "";
     sipmsg_parse_warning := λ _, 0%Z;
     sipmsg_get_ms_diagnostics_reason := λ _, None;
     sipe_dialog_parse := λ d _ _, d;
     sip_transport_ack := λ d, set_dialog_cseq d (dialog_cseq d + 1);
     gencallid := λ _, "fresh-call-id";
     gentag := λ _, "tag";
     sipe_backend_network_ip_address := "192.0.2.1" |}.

(** A signed-in core without calls: audio ports 5000-5100, video ports
    6000-6100. *)
Definition core : sipe_core_private :=
  {| media_calls := ∅;
     min_media_port := 1024; max_media_port := 65535;
     min_audio_port := 5000; max_audio_port := 5100;
     min_video_port := 6000; max_video_port := 6100;
     min_filetransfer_port := 7000; max_filetransfer_port := 7100;
     min_appsharing_port := 8000; max_appsharing_port := 8100;
     media_relays := []; media_relay_username := None;
     media_relay_password := None;
     server_av_encryption_policy := SIPE_ENCRYPTION_POLICY_OPTIONAL;
     backend_encryption_policy := SIPE_ENCRYPTION_POLICY_OBEY_SERVER;
     test_call_bot_uri := None;
     trace := [] |}.

Definition dialog (cseq : Z) : sip_dialog :=
  {| dialog_callid := Some "call-1"; dialog_with := Some "sip:bob@example.com";
     dialog_ourtag := Some "tag"; dialog_theirtag := None;
     dialog_cseq := cseq; dialog_outgoing_invite := Some {| sip_transaction_cseq := cseq |} |}.

(** An outgoing call to bob, registered as "call-1". *)
Definition call (ice_version : SipeIceVersion)
    (streams : list sipe_media_stream_private) : sipe_media_call_private :=
  {| call_id := "call-1"; call_with := Some "sip:bob@example.com";
     call_session :=
       Some {| session_with := Some "sip:bob@example.com";
               session_dialogs := [dialog 1]; session_is_call := true |};
     call_streams := streams; call_invitation := None;
     call_ice_version := ice_version;
     call_encryption_compatible := true;
     call_extra_invite_section := None; call_invite_content_type := None;
     call_smsg := None; call_failed_media := [];
     call_initiator := true; call_hidden_from_ui := false |}.

Definition stream (id : string) : sipe_media_stream_private :=
  {| stream_id := id; stream_backend_private := backend_stream;
     encryption_key := Some (replicate 30 7%Z); encryption_key_id := 1;
     remote_candidates_and_codecs_set := false; extra_sdp := [] |}.

End Sample.

(** Sample data of the file-transfer overlay. *)
Module SampleFt.

(** The sender's side of a transfer of [size] bytes on the call
    "call-1", request id 7. *)
Definition sender (size : Z) : sipe_file_transfer_lync :=
  {| ft_file_name := Some "x.bin"; ft_id := None; ft_file_size := size;
     ft_request_id := 7; ft_call_private := Some "call-1";
     ft_dialog := Some (Sample.dialog 3);
     ft_was_cancelled := false; ft_deallocate := false |}.

(** The receiver's side of the same transfer. *)
Definition receiver (size : Z) : sipe_file_transfer_lync :=
  {| ft_file_name := Some "x.bin";
     ft_id := Some "{6244F934-2EB1-443F-8E2C-48BA64AF463D}";
     ft_file_size := size;
     ft_request_id := 7; ft_call_private := Some "call-1";
     ft_dialog := Some (Sample.dialog 3);
     ft_was_cancelled := false; ft_deallocate := true |}.

(** A progress notification whose [bytesReceived/to] reads [to]. *)
Definition notify (to : string) : sipe_xml :=
  XmlNode "notify" [FILETRANSFER_NS]
    [XmlNode "fileTransferProgress" []
       [XmlNode "transferId" [] [] (Some "7");
        XmlNode "bytesReceived" []
          [XmlNode "from" [] [] (Some "0"); XmlNode "to" [] [] (Some to)]
          None]
       None]
    None.

End SampleFt.

(** Sample collaborators and states of the relay client. *)
Module SampleMras.

Definition xml_layer : XmlLayer := {| sipe_xml_parse := λ _, None |}.

(** A core that holds credentials and one resolved relay. *)
Definition core : sipe_core_private :=
  set_relay_credentials Sample.core (Some "user") (Some "secret")
    [{| relay_hostname := Some "198.51.100.7"; relay_udp_port := 3478;
        relay_tcp_port := 443; relay_dns_query := false |}].

Definition response (code : Z) : sipmsg :=
  {| msg_callid := "service-1"; msg_response := code;
     msg_responsestr := Some "Service Unavailable"; msg_headers := [];
     msg_body := None |}.

End SampleMras.

(** Sample codec lists. *)
Module SampleCodecs.

Definition codec (id : Z) (name : string) : sipe_backend_codec :=
  {| bc_id := id; bc_name := name; bc_type := SIPE_MEDIA_AUDIO;
     bc_clock_rate := 8000; bc_optional_parameters := [] |}.

(** A backend that reports payload id 8 twice. *)
Definition backend_stream : sipe_backend_media_stream :=
  {| bs_local_codecs :=
       [codec 8 "PCMA"; codec 0 "PCMU"; codec 8 "PCMA-bis";
        codec 101 "telephone-event"];
     bs_local_candidates := [];
     bs_active_local_candidates := []; bs_active_remote_candidates := [];
     bs_held := false; bs_initialized := true |}.

Definition stream : sipe_media_stream_private :=
  set_stream_backend_private (Sample.stream "audio") backend_stream.

End SampleCodecs.

(** Sample candidates. *)
Module SampleCandidates.

Definition candidate (foundation : string) (component : SipeComponentType)
    (type : SipeCandidateType) (protocol : SipeNetworkProtocol)
    (ip : string) (port : Z) (base_ip : string) (base_port : Z)
  : sdpcandidate :=
  {| cand_foundation := foundation; cand_component := component;
     cand_type := type; cand_protocol := protocol;
     cand_ip := Some ip; cand_port := port;
     cand_base_ip := Some base_ip; cand_base_port := base_port;
     cand_priority := 2130706431; cand_username := Some "user";
     cand_password := Some "pass" |}.

(** Host candidates on 192.0.2.10: UDP, TCP-passive and TCP-active, the
    last advertised with port 0. *)
Definition host_udp : sdpcandidate :=
  candidate "1" SIPE_COMPONENT_RTP SIPE_CANDIDATE_TYPE_HOST
    SIPE_NETWORK_PROTOCOL_UDP "192.0.2.10" 5000 "192.0.2.10" 5000.
Definition host_tcp_pass : sdpcandidate :=
  candidate "2" SIPE_COMPONENT_RTP SIPE_CANDIDATE_TYPE_HOST
    SIPE_NETWORK_PROTOCOL_TCP_PASSIVE "192.0.2.10" 5002 "192.0.2.10" 0.
Definition host_tcp_act : sdpcandidate :=
  candidate "3" SIPE_COMPONENT_RTP SIPE_CANDIDATE_TYPE_HOST
    SIPE_NETWORK_PROTOCOL_TCP_ACTIVE "192.0.2.10" 0 "192.0.2.10" 0.

(** Relay candidates on 198.51.100.7 based on 192.0.2.10, without base
    port. *)
Definition relay_udp : sdpcandidate :=
  candidate "4" SIPE_COMPONENT_RTP SIPE_CANDIDATE_TYPE_RELAY
    SIPE_NETWORK_PROTOCOL_UDP "198.51.100.7" 6000 "192.0.2.10" 0.
Definition relay_tcp_pass : sdpcandidate :=
  candidate "5" SIPE_COMPONENT_RTP SIPE_CANDIDATE_TYPE_RELAY
    SIPE_NETWORK_PROTOCOL_TCP_PASSIVE "198.51.100.7" 6002 "192.0.2.10" 0.

(** TCP relay candidates on 198.51.100.7 based on 192.0.2.10: a passive one
    with base port 7000 and an active one advertised with port 0 and
    without base port. *)
Definition relay_tcp_pass_based : sdpcandidate :=
  candidate "5" SIPE_COMPONENT_RTP SIPE_CANDIDATE_TYPE_RELAY
    SIPE_NETWORK_PROTOCOL_TCP_PASSIVE "198.51.100.7" 6002 "192.0.2.10" 7000.
Definition relay_tcp_act : sdpcandidate :=
  candidate "6" SIPE_COMPONENT_RTP SIPE_CANDIDATE_TYPE_RELAY
    SIPE_NETWORK_PROTOCOL_TCP_ACTIVE "198.51.100.7" 0 "192.0.2.10" 0.

(** Two pairs of UDP candidates, RTP and RTCP on one port: the first pair
    on one address, the second on two addresses. *)
Definition pair_a_rtp : sdpcandidate :=
  candidate "7" SIPE_COMPONENT_RTP SIPE_CANDIDATE_TYPE_HOST
    SIPE_NETWORK_PROTOCOL_UDP "192.0.2.10" 7000 "192.0.2.10" 7000.
Definition pair_a_rtcp : sdpcandidate :=
  candidate "7" SIPE_COMPONENT_RTCP SIPE_CANDIDATE_TYPE_HOST
    SIPE_NETWORK_PROTOCOL_UDP "192.0.2.10" 7000 "192.0.2.10" 7000.
Definition pair_b_rtp : sdpcandidate :=
  candidate "8" SIPE_COMPONENT_RTP SIPE_CANDIDATE_TYPE_HOST
    SIPE_NETWORK_PROTOCOL_UDP "192.0.2.10" 7100 "192.0.2.10" 7100.
Definition pair_b_rtcp : sdpcandidate :=
  candidate "8" SIPE_COMPONENT_RTCP SIPE_CANDIDATE_TYPE_HOST
    SIPE_NETWORK_PROTOCOL_UDP "192.0.2.20" 7100 "192.0.2.20" 7100.

End SampleCandidates.

(** A sample remote SDP. *)
Module SampleSdp.

Definition section (name : string) (port : Z) (codecs : list sdpcodec)
  : sdpmedia :=
  {| media_name := name; media_ip := Some "203.0.113.5"; media_port := port;
     media_attributes := []; media_candidates := [];
     media_codecs := codecs; media_remote_candidates := [];
     media_encryption_active := false; media_encryption_key := None;
     media_encryption_key_id := 0 |}.

Definition pcmu : sdpcodec :=
  {| codec_id := 0; codec_name := "PCMU"; codec_clock_rate := 8000;
     codec_type := SIPE_MEDIA_AUDIO; codec_parameters := [] |}.

Definition h264 : sdpcodec :=
  {| codec_id := 121; codec_name := "x-rtvc1"; codec_clock_rate := 90000;
     codec_type := SIPE_MEDIA_VIDEO; codec_parameters := [] |}.

(** The peer offers audio, and video with two codecs of payload id 121. *)
Definition video_with_equal_ids : sdpmsg :=
  {| sdp_ip := Some "203.0.113.5";
     sdp_media :=
       [section "audio" 5000 [pcmu];
        section "video" 6000
          [h264;
           {| codec_id := 121; codec_name := "H264";
              codec_clock_rate := 90000; codec_type := SIPE_MEDIA_VIDEO;
              codec_parameters := [] |}]];
     sdp_ice_version := SIPE_ICE_RFC_5245 |}.

(** The peer offers audio and video. *)
Definition audio_video : sdpmsg :=
  {| sdp_ip := Some "203.0.113.5";
     sdp_media := [section "audio" 5000 [pcmu]; section "video" 6000 [h264]];
     sdp_ice_version := SIPE_ICE_RFC_5245 |}.

(** A call that has an audio stream only. *)
Definition audio_call : sipe_media_call_private :=
  Sample.call SIPE_ICE_RFC_5245 [Sample.stream "audio"].



End SampleSdp.

(** The failure responses after which the call is tried again with the
    other ICE version. *)

Definition MUTIPART_MIME : string :=
  "Mutipart mime in content type not supported by Archiving CDR service".

(** 415 with the response string of the archiving service. *)
Definition ice_downgrade_response (msg : sipmsg) : Prop :=
  msg_response msg = 415%Z ∧ msg_responsestr msg = Some MUTIPART_MIME.

(** 488 with an [ms-diagnostics] header that starts with "7008;". *)
Definition sdp_parse_error_response (msg : sipmsg) : Prop :=
  msg_response msg = 488%Z
  ∧ ∃ d, sipmsg_find_header msg "ms-diagnostics" = Some d
         ∧ g_str_has_prefix d "7008;" = true.

(** The test for incompatible encryption levels that the 488 branch makes
    first. *)
Definition encryption_levels_response (msg : sipmsg) : bool :=
  sipe_strequal (msg_responsestr msg) (Some "Encryption Levels not compatible")
  || match sipmsg_find_header msg "ms-client-diagnostics" with
     | Some d => g_str_has_prefix d "52017;"
     | None => false
     end.

(** Sample failure responses to the INVITE of the sample call. *)
Module SampleResponse.

Definition unsupported_media : sipmsg :=
  {| msg_callid := "call-1"; msg_response := 415;
     msg_responsestr := Some MUTIPART_MIME; msg_headers := [];
     msg_body := None |}.

Definition sdp_parse_error : sipmsg :=
  {| msg_callid := "call-1"; msg_response := 488;
     msg_responsestr := Some "Not Acceptable Here";
     msg_headers :=
       [{| nv_name := "ms-diagnostics";
           nv_value := "7008;reason=Error parsing SDP;source=edge" |}];
     msg_body := None |}.

(** 488 with the 7008 diagnostic and the response string of an encryption
    mismatch. *)
Definition sdp_parse_error_encryption : sipmsg :=
  {| msg_callid := "call-1"; msg_response := 488;
     msg_responsestr := Some "Encryption Levels not compatible";
     msg_headers :=
       [{| nv_name := "ms-diagnostics";
           nv_value := "7008;reason=Error parsing SDP;source=edge" |}];
     msg_body := None |}.

(** The core with the sample call, which has an audio and a video stream. *)
Definition core (ice_version : SipeIceVersion) : sipe_core_private :=
  store_call Sample.core
    (Sample.call ice_version [Sample.stream "audio"; Sample.stream "video"]).

(** A backend that has not ended the media yet when
    [sipe_backend_media_hangup] returns. *)
Definition deferring_backend : Backend :=
  {| sipe_backend_media_add_stream :=
       λ _ _ _ _ _ _ _, Some Sample.backend_stream;
     sipe_backend_set_remote_codecs := λ _ codecs, bool_decide (codecs ≠ []);
     sipe_backend_media_hangup_callbacks := λ sipe_private _ _, sipe_private;
     HAVE_SRTP := true;
     rand_key := λ _ _, replicate 30 7%Z;
     sipe_backend_dns_query_a := λ hostname _, bool_decide (is_Some hostname) |}.

End SampleResponse.


(** * Further vocabulary and sample data *)
(** A candidate the SDP layer can carry: its IP is present and is not, like
    its base IP, an IPv6 address. *)
Definition ipv4_candidate (c : sdpcandidate) : Prop :=
  match cand_ip c with
  | Some ip => ip ≠ "" ∧ strchr ip ":" = false
  | None => False
  end
  ∧ match cand_base_ip c with
    | Some b => strchr b ":" = false
    | None => True
    end.

#[global] Instance ipv4_candidate_dec c : Decision (ipv4_candidate c).
Proof.
  unfold ipv4_candidate.
  destruct (cand_ip c), (cand_base_ip c); apply _.
Defined.

(** The order of the candidates of a section: by foundation ([strcmp]
    order), then by username (NULL first), then by component. *)
Definition candidate_before (a b : sdpcandidate) : Prop :=
  let f := String.compare (cand_foundation a) (cand_foundation b) in
  f = Lt
  ∨ (f = Eq
     ∧ ((sipe_strcompare (cand_username a) (cand_username b) < 0)%Z
        ∨ (cand_username a = cand_username b
           ∧ (component_value (cand_component a)
              ≤ component_value (cand_component b))%Z))).

(** [get_stream_ip_and_ports] looks at the candidates of type [type] only,
    at all of them when asked for [SIPE_CANDIDATE_TYPE_ANY]. *)
Definition type_accepted (type : SipeCandidateType) (c : sdpcandidate) : Prop :=
  type = SIPE_CANDIDATE_TYPE_ANY ∨ cand_type c = type.


(** What [get_stream_ip_and_ports] has found among the candidates [l]: the
    address is that of an accepted candidate, and a port that is set is the
    port of an accepted candidate with that address and the component in
    question. *)
Definition ip_and_ports_from (l : list sdpcandidate) (type : SipeCandidateType)
    (r : option string * Z * Z) : Prop :=
  let '(ip, rtp_port, rtcp_port) := r in
  (ip = None → rtp_port = 0 ∧ rtcp_port = 0)%Z
  ∧ (∀ a, ip = Some a →
       ∃ c, c ∈ l ∧ type_accepted type c ∧ cand_ip c = Some a)
  ∧ (rtp_port ≠ 0%Z →
       ∃ c, c ∈ l ∧ type_accepted type c ∧ cand_ip c = ip
            ∧ cand_component c = SIPE_COMPONENT_RTP
            ∧ cand_port c = rtp_port)
  ∧ (rtcp_port ≠ 0%Z →
       ∃ c, c ∈ l ∧ type_accepted type c ∧ cand_ip c = ip
            ∧ cand_component c = SIPE_COMPONENT_RTCP
            ∧ cand_port c = rtcp_port).

(** [c'] is [c] with nothing but an unset port or base port filled in: a
    port of 0 may have been replaced, and only in a TCP-active candidate; a
    base port of 0 may have been replaced, and only in a TCP-active or a
    relay candidate. *)
Definition ports_filled (c c' : sdpcandidate) : Prop :=
  cand_foundation c' = cand_foundation c
  ∧ cand_component c' = cand_component c
  ∧ cand_type c' = cand_type c
  ∧ cand_protocol c' = cand_protocol c
  ∧ cand_ip c' = cand_ip c
  ∧ cand_base_ip c' = cand_base_ip c
  ∧ cand_priority c' = cand_priority c
  ∧ cand_username c' = cand_username c
  ∧ cand_password c' = cand_password c
  ∧ (cand_port c' ≠ cand_port c →
     cand_port c = 0%Z ∧ cand_protocol c = SIPE_NETWORK_PROTOCOL_TCP_ACTIVE)
  ∧ (cand_base_port c' ≠ cand_base_port c →
     cand_base_port c = 0%Z
     ∧ (cand_protocol c = SIPE_NETWORK_PROTOCOL_TCP_ACTIVE
        ∨ cand_type c = SIPE_CANDIDATE_TYPE_RELAY)).

(** The section asks for encryption to be rejected. *)
Definition encryption_rejected_by (m : sdpmedia) : Prop :=
  sipe_utils_nameval_find (media_attributes m) "encryption" = Some "rejected".

(** The requests a section can cause for a stream whose remote side is set
    already. *)
Definition hold_or_end_request (e : event) : Prop :=
  match e with
  | EvBackendStreamHold _ _ false
  | EvBackendStreamUnhold _ _ false
  | EvBackendMediaStreamEnd _ _ => True
  | _ => False
  end.

(** The request that ends a stream. *)
Definition stream_end_request (e : event) : bool :=
  match e with
  | EvBackendMediaStreamEnd _ _ => true
  | _ => false
  end.

(** What the SDP layer negotiated for a stream. *)
Definition negotiated (s : sipe_media_stream_private)
  : string * option (list Z) * Z * bool :=
  (stream_id s, encryption_key s, encryption_key_id s,
   remote_candidates_and_codecs_set s).

(** The title under which [process_invite_call_response] reports a failure
    response that it does not retry. *)
Definition invite_failure_title (msg : sipmsg) : string :=
  if decide (msg_response msg = 480)%Z then "User unavailable"
  else if decide (msg_response msg = 603 ∨ msg_response msg = 605)%Z
  then "Call rejected"
  else if decide (msg_response msg = 415)%Z then "Unsupported media type"
  else if decide (msg_response msg = 488)%Z
  then if encryption_levels_response msg
       then "Unable to establish a call" else "Error occured"
  else "Error occured".

(** A failure response to an INVITE after which the call may be tried again
    with the other ICE version: the 415 of the archiving service, or a 488
    that does not report incompatible encryption levels. *)
Definition retry_candidate_response (msg : sipmsg) : Prop :=
  ice_downgrade_response msg
  ∨ (msg_response msg = 488%Z ∧ encryption_levels_response msg = false).

(** What holds of the state of [remove_wrong_farstream_0_1_tcp_candidates]
    throughout, on the nodes [nodes]: the list is a sublist of [nodes] that
    has all its non-UDP candidates, and the table holds UDP candidates of
    [nodes] only. *)
Definition farstream_keeps (nodes : list (nat * sdpcandidate))
    (st : farstream_state) : Prop :=
  fs_candidates st `sublist_of` nodes
  ∧ (∀ n, n ∈ nodes → cand_protocol n.2 ≠ SIPE_NETWORK_PROTOCOL_UDP →
          n ∈ fs_candidates st)
  ∧ (∀ f n, fs_foundation_to_candidate st !! f = Some n →
            n ∈ nodes ∧ cand_protocol n.2 = SIPE_NETWORK_PROTOCOL_UDP).

(** Sample data for the properties of serialised sections, of remote
    messages and of responses. *)
Module SampleSection.

(** RTCP companion of [SampleCandidates.host_udp], and a host candidate with
    an IPv6 address. *)
Definition host_udp_rtcp : sdpcandidate :=
  SampleCandidates.candidate "1" SIPE_COMPONENT_RTCP SIPE_CANDIDATE_TYPE_HOST
    SIPE_NETWORK_PROTOCOL_UDP "192.0.2.10" 5001 "192.0.2.10" 5001.
Definition host_udp_v6 : sdpcandidate :=
  SampleCandidates.candidate "6" SIPE_COMPONENT_RTP SIPE_CANDIDATE_TYPE_HOST
    SIPE_NETWORK_PROTOCOL_UDP "2001:db8::1" 5000 "2001:db8::1" 5000.

(** What the backend lists for the stream: RTCP before RTP, the IPv6
    candidate in between, a TCP-active candidate without port last. *)
Definition local_candidates : list sdpcandidate :=
  [host_udp_rtcp; host_udp_v6; SampleCandidates.host_udp;
   SampleCandidates.host_tcp_pass; SampleCandidates.host_tcp_act].

Definition backend_stream : sipe_backend_media_stream :=
  {| bs_local_codecs := [SampleCodecs.codec 0 "PCMU"];
     bs_local_candidates := local_candidates;
     bs_active_local_candidates := []; bs_active_remote_candidates := [];
     bs_held := false; bs_initialized := true |}.

Definition stream : sipe_media_stream_private :=
  set_stream_backend_private (Sample.stream "audio") backend_stream.

Definition call : sipe_media_call_private :=
  Sample.call SIPE_ICE_RFC_5245 [stream].

(** The peer withdraws video (port 0) and offers a stream the call does not
    have. *)
Definition audio_no_video_whiteboard : sdpmsg :=
  {| sdp_ip := Some "203.0.113.5";
     sdp_media := [SampleSdp.section "audio" 5000 [SampleSdp.pcmu];
                   SampleSdp.section "video" 0 [];
                   SampleSdp.section "whiteboard" 7000 []];
     sdp_ice_version := SIPE_ICE_RFC_5245 |}.

(** A call whose audio stream has its remote side set. *)
Definition established_call : sipe_media_call_private :=
  Sample.call SIPE_ICE_RFC_5245
    [set_remote_candidates_and_codecs_set (Sample.stream "audio") true].

(** A SIP layer whose SDP parser reads every body as the sample offer. *)
Definition sip_layer : SipLayer :=
  {| sdpmsg_parse_msg := λ _, Some SampleSdp.audio_video;
     sdpmsg_to_string := λ _, "";
     sipmsg_parse_warning := λ _, 0%Z;
     sipmsg_get_ms_diagnostics_reason := λ _, None;
     sipe_dialog_parse := λ d _ _, d;
     sip_transport_ack := λ d, set_dialog_cseq d (dialog_cseq d + 1);
     gencallid := λ _, "fresh-call-id";
     gentag := λ _, "tag";
     sipe_backend_network_ip_address := "192.0.2.1" |}.

(** Responses to the INVITE of the sample call: declined, not acceptable (no
    diagnostics), accepted. *)
Definition declined : sipmsg :=
  {| msg_callid := "call-1"; msg_response := 603;
     msg_responsestr := Some "Decline"; msg_headers := [];
     msg_body := None |}.
Definition not_acceptable : sipmsg :=
  {| msg_callid := "call-1"; msg_response := 488;
     msg_responsestr := Some "Not Acceptable Here"; msg_headers := [];
     msg_body := None |}.
Definition accepted : sipmsg :=
  {| msg_callid := "call-1"; msg_response := 200;
     msg_responsestr := Some "OK"; msg_headers := [];
     msg_body := Some "v=0" |}.

(** An XML layer that reads every body as a credentials response with one
    relay. *)
Definition credentials : sipe_xml :=
  XmlNode "response" [{| nv_name := "reasonPhrase"; nv_value := "OK" |}]
    [XmlNode "credentialsResponse" []
       [XmlNode "credentials" []
          [XmlNode "username" [] [] (Some "user");
           XmlNode "password" [] [] (Some "secret")] None;
        XmlNode "mediaRelayList" []
          [XmlNode "mediaRelay" []
             [XmlNode "hostName" [] [] (Some "relay.example.com");
              XmlNode "udpPort" [] [] (Some "3478");
              XmlNode "tcpPort" [] [] (Some "443")] None] None] None]
    None.
Definition xml_layer : XmlLayer := {| sipe_xml_parse := λ _, Some credentials |}.

End SampleSection.

(** * Further functions of sipe-ft-lync.c *)

(** ** The request-id exchange *)

Definition set_ft_request_id (ft : sipe_file_transfer_lync) (id : Z)
  : sipe_file_transfer_lync :=
  {| ft_file_name := ft_file_name ft; ft_id := ft_id ft;
     ft_file_size := ft_file_size ft; ft_request_id := id;
     ft_call_private := ft_call_private ft; ft_dialog := ft_dialog ft;
     ft_was_cancelled := ft_was_cancelled ft;
     ft_deallocate := ft_deallocate ft |}.

Definition set_ft_was_cancelled (ft : sipe_file_transfer_lync) (b : bool)
  : sipe_file_transfer_lync :=
  {| ft_file_name := ft_file_name ft; ft_id := ft_id ft;
     ft_file_size := ft_file_size ft; ft_request_id := ft_request_id ft;
     ft_call_private := ft_call_private ft; ft_dialog := ft_dialog ft;
     ft_was_cancelled := b; ft_deallocate := ft_deallocate ft |}.

(** The document [SUCCESS_RESPONSE] of [request_download_file] prints (the
    request id with "%d"). *)
Definition SUCCESS_RESPONSE (request_id : Z) : sipe_xml :=
  XmlNode "response"
    [FILETRANSFER_NS;
     {| nv_name := "requestId"; nv_value := printf_d request_id |};
     {| nv_name := "code"; nv_value := "success" |}]
    [] None.

(** The document [DOWNLOAD_FILE_REQUEST] prints, for an id and a name that
    hold text without markup. *)
Definition DOWNLOAD_FILE_REQUEST (request_id : Z) (id name : option string)
  : sipe_xml :=
  XmlNode "request"
    [FILETRANSFER_NS;
     {| nv_name := "requestId"; nv_value := printf_d request_id |}]
    [XmlNode "downloadFile" []
       [XmlNode "fileInfo" []
          [XmlNode "id" [] [] (Some (printf_s id));
           XmlNode "name" [] [] (Some (printf_s name))]
          None]
       None]
    None.

(** The document [DOWNLOAD_PENDING_RESPONSE] prints. *)
Definition DOWNLOAD_PENDING_RESPONSE (request_id : Z) : sipe_xml :=
  XmlNode "response"
    [FILETRANSFER_NS;
     {| nv_name := "requestId"; nv_value := printf_u request_id |};
     {| nv_name := "code"; nv_value := "pending" |}]
    [] None.

(** [request_download_file], run by the receiver once a candidate pair is
    established: the return value, the transfer with its request id
    advanced, and the two INFO requests.  [request_id] is a [guint]. *)
Definition request_download_file (ft_private : sipe_file_transfer_lync)
  : bool * sipe_file_transfer_lync * list ft_event :=
  let evs1 :=
    send_ms_filetransfer_msg (SUCCESS_RESPONSE (ft_request_id ft_private))
      ft_private in
  let ft_private :=
    set_ft_request_id ft_private
      ((ft_request_id ft_private + 1) `mod` 2 ^ 32)%Z in
  let evs2 :=
    send_ms_filetransfer_msg
      (DOWNLOAD_FILE_REQUEST (ft_request_id ft_private) (ft_id ft_private)
         (ft_file_name ft_private))
      ft_private in
  (false, ft_private, evs1 ++ evs2).

(** What the transfer code asks of the backend besides the requests of
    [ft_event]. *)
Inductive ft_signal :=
  | FtRequest (e : ft_event)
  | FtBackendFtStart
  | FtBackendFtCancelRemote.

(** [process_response], run by the receiver: the transfer (NULL once it has
    been freed) and the requests made.  [atoi] of a missing [requestId] is
    undefined. *)
Definition process_response (ft_private : sipe_file_transfer_lync)
    (xml : sipe_xml)
  : option (option sipe_file_transfer_lync * list ft_signal) :=
  request_id ← atoi (sipe_xml_attribute (Some xml) "requestId");
  if decide (request_id `mod` 2 ^ 32 ≠ ft_request_id ft_private `mod` 2 ^ 32)%Z
  then Some (Some ft_private, [])
  else
    let code := sipe_xml_attribute (Some xml) "code" in
    if sipe_strequal code (Some "success") then
      (* Don't hang up the call ourselves *)
      Some (None, [])
    else if sipe_strequal code (Some "failure") then
      let reason := sipe_xml_attribute (Some xml) "reason" in
      if sipe_strequal reason (Some "requestCancelled")
      then Some (Some ft_private, [FtBackendFtCancelRemote])
      else Some (Some ft_private, [])
    else Some (Some ft_private, []).

(** ** The framing of the data stream

    Bytes are numbers from 0 to 255.  What is written to the media stream
    with blocking writes is the list of the bytes, in order. *)

Definition bytes_of_string (s : string) : list Z :=
  (λ c, Z.of_nat (nat_of_ascii c)) <$> String.list_ascii_of_string s.

(** [write_chunk]: the bytes written.  [len] is a [guint16]; reading [len]
    bytes from a shorter [buffer] is undefined. *)
Definition write_chunk (type len : Z) (buffer : list Z) : option (list Z) :=
  if decide (Z.to_nat len ≤ length buffer)%nat
  then Some ([type; len `div` 256; len `mod` 256]%Z
             ++ take (Z.to_nat len) buffer)
  else None.

(** The stream "data" of the media call of a transfer.  The outer [option]
    is the run: the call pointer of the transfer is not checked. *)
Definition ft_data_stream (sipe_private : sipe_core_private)
    (ft_private : sipe_file_transfer_lync)
  : option (option (nat * sipe_media_stream_private)) :=
  callid ← ft_call_private ft_private;
  call ← media_calls sipe_private !! callid;
  Some (sipe_core_media_get_stream_by_id call "data").

(** [start_writing]: whether the idle source that runs [send_file_chunk]
    has been registered, the bytes written and the requests made. *)
Definition start_writing (sipe_private : sipe_core_private)
    (ft_private : sipe_file_transfer_lync)
  : option (bool * list Z * list ft_signal) :=
  stream ← ft_data_stream sipe_private ft_private;
  match stream with
  | Some _ =>
      let request_id_str := printf_u (ft_request_id ft_private) in
      wire ← write_chunk 1
                (Z.of_nat (String.length request_id_str) `mod` 2 ^ 16)
                (bytes_of_string request_id_str);
      Some (true, wire, [FtBackendFtStart])
  | None => Some (false, [], [])
  end.

(** [send_file_chunk], one run of the idle source.  [buffer] holds what
    [sipe_backend_ft_read_file] stored in the 1024-byte buffer and
    [bytes_read] is what it returned; [completed] is the answer of
    [sipe_backend_ft_is_completed].  The result is [G_SOURCE_CONTINUE] and
    the bytes written.  Writing for a call without a stream "data" hands
    NULL to the backend: such a run is left undefined. *)
Definition send_file_chunk (sipe_private : sipe_core_private)
    (ft_private : sipe_file_transfer_lync) (bytes_read : Z) (buffer : list Z)
    (completed : bool) : option (bool * list Z) :=
  stream ← ft_data_stream sipe_private ft_private;
  wire ← (if decide (bytes_read ≠ 0)%Z
          then _ ← stream; write_chunk 0 (bytes_read `mod` 2 ^ 16) buffer
          else Some []);
  if completed then
    (* End of transfer. *)
    let request_id_str := printf_u (ft_request_id ft_private) in
    wire_end ← (_ ← stream;
                write_chunk 2
                  (Z.of_nat (String.length request_id_str) `mod` 2 ^ 16)
                  (bytes_of_string request_id_str));
    Some (false, wire ++ wire_end)
  else Some (true, wire).

(** The idle source: [send_file_chunk] is run again as long as it returns
    [G_SOURCE_CONTINUE].  [reads] lists what the backend delivers at each
    run: the bytes read from the file and whether the file is exhausted. *)
Fixpoint send_file_chunks (sipe_private : sipe_core_private)
    (ft_private : sipe_file_transfer_lync) (reads : list (list Z * bool))
  : option (list Z) :=
  match reads with
  | [] => Some []
  | (buffer, completed) :: rest =>
      '(continue, wire) ←
        send_file_chunk sipe_private ft_private (Z.of_nat (length buffer))
          buffer completed;
      if continue : bool then
        wire' ← send_file_chunks sipe_private ft_private rest;
        Some (wire ++ wire')
      else Some wire
  end.

(** [process_request], run by the sender: the transfer, what
    [start_writing] returned and the requests made. *)
Definition process_request (sipe_private : sipe_core_private)
    (ft_private : sipe_file_transfer_lync) (xml : sipe_xml)
  : option (sipe_file_transfer_lync * bool * list Z * list ft_signal) :=
  match sipe_xml_child (Some xml) ["downloadFile"] with
  | Some _ =>
      request_id ← atoi (sipe_xml_attribute (Some xml) "requestId");
      let ft_private :=
        set_ft_request_id ft_private (request_id `mod` 2 ^ 32)%Z in
      let evs :=
        send_ms_filetransfer_msg
          (DOWNLOAD_PENDING_RESPONSE (ft_request_id ft_private)) ft_private in
      '(source, wire, signals) ← start_writing sipe_private ft_private;
      Some (ft_private, source, wire, (FtRequest <$> evs) ++ signals)
  | None => Some (ft_private, false, [], [])
  end.

(** The reading side of a transfer: the transfer with its [expecting_len],
    the bytes the media stream still holds, the bytes handed to
    [sipe_backend_ft_write_file] so far and the number of calls of
    [sipe_backend_ft_start]. *)
Record ft_reader := {
  rd_ft : sipe_file_transfer_lync;
  rd_expecting_len : Z;
  rd_stream : list Z;
  rd_file : list Z;
  rd_started : nat;
}.

(** A blocking [sipe_backend_media_read] of [n] bytes: the bytes and the
    rest of the stream.  It does not return on a stream that never holds
    [n] bytes. *)
Definition media_read_blocking (n : nat) (stream : list Z)
  : option (list Z * list Z) :=
  if decide (n ≤ length stream)%nat
  then Some (take n stream, drop n stream) else None.

(** [read_cb], run when the stream "data" is readable.  [avail] is the
    number of bytes the backend has at hand for a non-blocking read.  A
    control frame of 0x800 bytes or more overflows [buffer]. *)
Definition read_cb (avail : nat) (rd : ft_reader) : option ft_reader :=
  let stream := rd_stream rd in
  if ft_was_cancelled (rd_ft rd) then
    (* Just drop the incoming data. *)
    let n := (0x800 `min` (avail `min` length stream))%nat in
    Some {| rd_ft := rd_ft rd; rd_expecting_len := rd_expecting_len rd;
            rd_stream := drop n stream; rd_file := rd_file rd;
            rd_started := rd_started rd |}
  else if decide (rd_expecting_len rd = 0)%Z then
    '(type, stream) ← media_read_blocking 1 stream;
    '(size, stream) ← media_read_blocking 2 stream;
    let type := default 0%Z (type !! 0%nat) in
    let size := (default 0 (size !! 0%nat) * 256
                 + default 0 (size !! 1%nat))%Z in
    if decide (type = 1)%Z then
      if decide (0x800 ≤ size)%Z then None
      else
        '(_, stream) ← media_read_blocking (Z.to_nat size) stream;
        Some {| rd_ft := rd_ft rd; rd_expecting_len := 0;
                rd_stream := stream; rd_file := rd_file rd;
                rd_started := S (rd_started rd) |}
    else if decide (type = 2)%Z then
      if decide (0x800 ≤ size)%Z then None
      else
        '(_, stream) ← media_read_blocking (Z.to_nat size) stream;
        Some {| rd_ft := rd_ft rd; rd_expecting_len := 0;
                rd_stream := stream; rd_file := rd_file rd;
                rd_started := rd_started rd |}
    else if decide (type = 0)%Z then
      Some {| rd_ft := rd_ft rd; rd_expecting_len := size;
              rd_stream := stream; rd_file := rd_file rd;
              rd_started := rd_started rd |}
    else
      Some {| rd_ft := rd_ft rd; rd_expecting_len := 0;
              rd_stream := stream; rd_file := rd_file rd;
              rd_started := rd_started rd |}
  else
    let len := (Z.to_nat (rd_expecting_len rd) `min` 0x800)%nat in
    let len := (len `min` (avail `min` length stream))%nat in
    Some {| rd_ft := rd_ft rd;
            rd_expecting_len := rd_expecting_len rd - Z.of_nat len;
            rd_stream := drop len stream;
            rd_file := rd_file rd ++ take len stream;
            rd_started := rd_started rd |}.

(** The backend runs [read_cb] as long as the stream is readable; [avails]
    lists the number of bytes at hand at each run. *)
Fixpoint read_all (avails : list nat) (rd : ft_reader) : option ft_reader :=
  match avails with
  | [] => Some rd
  | avail :: rest =>
      match rd_stream rd with
      | [] => Some rd
      | _ :: _ => rd' ← read_cb avail rd; read_all rest rd'
      end
  end.

(** The text [FILETRANSFER_CANCEL_REQUEST] prints. *)
Definition DQUOTE : string := String (ascii_of_nat 34) EmptyString.

Definition FILETRANSFER_CANCEL_REQUEST (request_id transfer_id : Z)
    (id name : option string) : string :=
  ("<request xmlns=" +:+ DQUOTE
   +:+ "http://schemas.microsoft.com/rtc/2009/05/filetransfer" +:+ DQUOTE
   +:+ " requestId=" +:+ DQUOTE +:+ printf_d request_id +:+ DQUOTE +:+ "/>"
   +:+ "<cancelTransfer>"
   +:+ "<transferId>" +:+ printf_d transfer_id +:+ "</transferId>"
   +:+ "<fileInfo>"
   +:+ "<id>" +:+ printf_s id +:+ "</id>"
   +:+ "<name>" +:+ printf_s name +:+ "</name>"
   +:+ "</fileInfo>"
   +:+ "</cancelTransfer>"
   +:+ "</request>")%string.

(** [ft_lync_incoming_cancelled]: the transfer and the text of the INFO
    request sent on its dialog, if any. *)
Definition ft_lync_incoming_cancelled (ft_private : sipe_file_transfer_lync)
    (local : bool) : sipe_file_transfer_lync * option string :=
  if local then
    (set_ft_deallocate (set_ft_was_cancelled ft_private true) false,
     Some (FILETRANSFER_CANCEL_REQUEST
             ((ft_request_id ft_private + 1) `mod` 2 ^ 32)
             (ft_request_id ft_private)
             (ft_id ft_private) (ft_file_name ft_private)))
  else (ft_private, None).

(** ** Vocabulary of the framing *)

(** A frame on the wire: type, length (big-endian, 16 bits), payload. *)
Definition frame (type : Z) (payload : list Z) : list Z :=
  [type; Z.of_nat (length payload) `div` 256;
   Z.of_nat (length payload) `mod` 256]%Z ++ payload.

(** The frames [read_cb] reads without overflow: data (0), start of stream
    (1) and end of stream (2), the latter two with less than 0x800 bytes. *)
Definition readable_frame (f : Z * list Z) : Prop :=
  (f.1 = 0 ∨ f.1 = 1 ∨ f.1 = 2)%Z
  ∧ (Z.of_nat (length f.2) < 65536)%Z
  ∧ (f.1 ≠ 0%Z → length f.2 < 0x800)%nat.

Definition encode_frames (frames : list (Z * list Z)) : list Z :=
  frames ≫= (λ f, frame f.1 f.2).

(** The payload of the data frames, and the number of start frames. *)
Definition frames_data (frames : list (Z * list Z)) : list Z :=
  frames ≫= (λ f, if decide (f.1 = 0)%Z then f.2 else []).

Definition frames_starts (frames : list (Z * list Z)) : nat :=
  length (filter (λ f, f.1 = 1%Z) frames).

(** The frames [send_file_chunk] writes for what the backend read from the
    file: nothing for an empty read. *)
Definition chunk_frames (chunks : list (list Z)) : list (Z * list Z) :=
  (λ c, (0%Z, c)) <$> filter (λ c, c ≠ []) chunks.

(** Sample data of the file-transfer data stream. *)
Module SampleFtStream.

(** A core on which the data call of the transfer is registered. *)
Definition core : sipe_core_private :=
  store_call Sample.core
    (Sample.call SIPE_ICE_RFC_5245 [Sample.stream "data"]).

(** A receiver in front of a stream that starts with a control frame of
    type [type] announcing [size] bytes, followed by five bytes. *)
Definition control_frame (type size : Z) : ft_reader :=
  {| rd_ft := SampleFt.receiver 5; rd_expecting_len := 0;
     rd_stream := [type; size `div` 256; size `mod` 256; 1; 2; 3; 4; 5]%Z;
     rd_file := []; rd_started := 0 |}.

End SampleFtStream.

(** * Further functions of sipe-media.c *)

(** ** Placing a call *)

(** [g_ascii_isdigit]. *)
Definition g_ascii_isdigit (c : ascii) : bool :=
  bool_decide (48 ≤ nat_of_ascii c ≤ 57)%nat.

(** The [while] loop of [phone_number_is_valid]. *)
Fixpoint phone_number_digits (phone_number : string) : bool :=
  match phone_number with
  | EmptyString => true
  | String c rest =>
      if g_ascii_isdigit c then phone_number_digits rest else false
  end.

Definition phone_number_is_valid (phone_number : option string) : bool :=
  match phone_number with
  | None => false
  | Some number =>
      if sipe_strequal phone_number (Some "") then false
      else
        let number :=
          match number with
          | String "+" rest => rest
          | _ => number
          end in
        phone_number_digits number
  end.

Section placing_calls.

Context `{!Backend, !SipLayer}.

Definition sipe_core_media_initiate_call (sipe_private : sipe_core_private)
    (with_ : option string) (with_video : bool) : option sipe_core_private :=
  sipe_media_initiate_call sipe_private with_ SIPE_ICE_RFC_5245 with_video.

(** [sipe_core_media_phone_call]; [sip_domain] is the field of that name of
    [struct sipe_core_public]. *)
Definition sipe_core_media_phone_call (sipe_private : sipe_core_private)
    (sip_domain : option string) (phone_number : option string)
  : option sipe_core_private :=
  if phone_number_is_valid phone_number then
    let phone_uri :=
      ("sip:" +:+ printf_s phone_number +:+ "@" +:+ printf_s sip_domain
       +:+ ";user=phone")%string in
    sipe_core_media_initiate_call sipe_private (Some phone_uri) false
  else
    Some (emit sipe_private
            [EvBackendNotifyError "Unable to establish a call"
               "Invalid phone number"]).

Definition sipe_core_media_test_call (sipe_private : sipe_core_private)
  : option sipe_core_private :=
  match test_call_bot_uri sipe_private with
  | None =>
      Some (emit sipe_private
              [EvBackendNotifyError "Unable to establish a call"
                 "Audio Test Service is not available."])
  | Some uri =>
      sipe_core_media_initiate_call sipe_private (Some uri) false
  end.

End placing_calls.

(** ** Media relays *)

Definition set_relay_resolved (relay : sipe_media_relay)
    (hostname : option string) : sipe_media_relay :=
  {| relay_hostname := hostname;
     relay_udp_port := relay_udp_port relay;
     relay_tcp_port := relay_tcp_port relay;
     relay_dns_query := false |}.

(** [relay_ip_resolved_cb]: the answer to the DNS query of a relay. *)
Definition relay_ip_resolved_cb (relay : sipe_media_relay)
    (ip : option string) (port : Z) : sipe_media_relay :=
  match ip with
  | Some ip =>
      if bool_decide (port ≠ 0)%Z then set_relay_resolved relay (Some ip)
      else set_relay_resolved relay None
  | None => set_relay_resolved relay None
  end.

(** ** Incoming calls *)

(** [strstr (haystack, needle) != NULL]. *)
Fixpoint strstr (haystack needle : string) : bool :=
  String.prefix needle haystack
  || match haystack with
     | EmptyString => false
     | String _ rest => strstr rest needle
     end.

Definition set_call_invitation (call : sipe_media_call_private)
    (invitation : option sipmsg) : sipe_media_call_private :=
  {| call_id := call_id call; call_with := call_with call;
     call_session := call_session call; call_streams := call_streams call;
     call_invitation := invitation;
     call_ice_version := call_ice_version call;
     call_encryption_compatible := call_encryption_compatible call;
     call_extra_invite_section := call_extra_invite_section call;
     call_invite_content_type := call_invite_content_type call;
     call_smsg := call_smsg call;
     call_failed_media := call_failed_media call;
     call_initiator := call_initiator call;
     call_hidden_from_ui := call_hidden_from_ui call |}.

Definition set_call_smsg (call : sipe_media_call_private)
    (smsg : option sdpmsg) : sipe_media_call_private :=
  {| call_id := call_id call; call_with := call_with call;
     call_session := call_session call; call_streams := call_streams call;
     call_invitation := call_invitation call;
     call_ice_version := call_ice_version call;
     call_encryption_compatible := call_encryption_compatible call;
     call_extra_invite_section := call_extra_invite_section call;
     call_invite_content_type := call_invite_content_type call;
     call_smsg := smsg;
     call_failed_media := call_failed_media call;
     call_initiator := call_initiator call;
     call_hidden_from_ui := call_hidden_from_ui call |}.

(** [sipe_media_stream_add_extra_attribute]. *)
Definition sipe_media_stream_add_extra_attribute
    (stream : sipe_media_stream_private) (name : string)
    (value : option string) : sipe_media_stream_private :=
  set_extra_sdp stream (sipe_utils_nameval_add (extra_sdp stream) name value).

(** The callbacks a SIP transaction can be given by the media code. *)
Inductive TransCallback :=
  | TcProcessInviteCallResponse
  | TcSipeMediaSendAck
  | TcSipeMediaSendFinalAck.

(** The requests of the functions below: those of [event], the rejection of
    a call, the INVITE of a call and the publication of the phone state.
    These functions return their requests in order. *)
Inductive call_request :=
  | Request (e : event)
  | RequestBackendMediaReject (callid : string) (local : bool)
  | RequestTransportInvite (hdr body : string) (dialog : sip_dialog)
      (tc : TransCallback)
  | RequestOcs2007PhoneStatePublish.

(** What the media code reads from the rest of the core when it handles an
    incoming call or sends an INVITE: [sip_uri_self] and [get_contact], the
    fields [uc_line_uri] and the OCS2007 flag of the core, [parse_from], the
    header functions of sipmsg.c, and the dialog and the transaction as
    [sip_transport_invite] leaves and returns them. *)
Class CallLayer := {
  sip_uri_self : sipe_core_private → string;
  get_contact : sipe_core_private → string;
  uc_line_uri : sipe_core_private → option string;
  SIPE_CORE_PRIVATE_FLAG_OCS2007 : sipe_core_private → bool;
  parse_from : option string → option string;
  sipmsg_add_header : sipmsg → string → string → sipmsg;
  sipmsg_add_header_now : sipmsg → string → string → sipmsg;
  sipmsg_remove_header_now : sipmsg → string → sipmsg;
  sip_transport_invite :
    string → string → sip_dialog → TransCallback → sip_dialog * transaction;
}.

(** [sipe_core_media_get_call] with the key under which the call it returns
    is registered. *)
Definition sipe_core_media_get_call_entry (sipe_private : sipe_core_private)
  : option (string * sipe_media_call_private) :=
  snd <$>
    list_find (λ kv, is_Some (sipe_core_media_get_stream_by_id kv.2 "audio"))
              (map_to_list (media_calls sipe_private)).

(** [is_media_session_msg] for a call found in the registry under
    [call_key]: the call registered under the Call-ID of the message is that
    very object exactly when the two keys agree. *)
Definition is_media_session_msg (call_key : option string) (msg : sipmsg)
  : bool :=
  match call_key with
  | None => false
  | Some key => bool_decide (msg_callid msg = key)
  end.

(** [call_initialized]. *)
Definition call_initialized (call : sipe_media_call_private) : bool :=
  forallb (λ stream, bs_initialized (stream_backend_private stream))
          (call_streams call).

Section incoming.

Context `{!Backend, !SipLayer, !CallLayer}.

(** [sipe_invite_call]: the call afterwards and the INVITE.  The dialog of
    the call is written through without a check. *)
Definition sipe_invite_call (sipe_private : sipe_core_private)
    (call_private : sipe_media_call_private) (tc : TransCallback)
  : option (sipe_media_call_private * list call_request) :=
  let dialog := sipe_media_get_sip_dialog call_private in
  let contact := get_contact sipe_private in
  let p_preferred_identity :=
    match uc_line_uri sipe_private with
    | Some uri =>
        let self := sip_uri_self sipe_private in
        Some ("P-Preferred-Identity: <" +:+ self +:+ ">, <" +:+ uri +:+ ">"
              +:+ CRLF)%string
    | None => None
    end in
  let hdr :=
    ("ms-keep-alive: UAC;hop-hop=yes" +:+ CRLF
     +:+ "Contact: " +:+ contact +:+ CRLF
     +:+ default "" p_preferred_identity
     +:+ "Content-Type: "
     +:+ default "application/sdp" (call_invite_content_type call_private)
     +:+ match call_invite_content_type call_private with
         | Some _ =>
             ";boundary=" +:+ DQUOTE
             +:+ "----=_NextPart_000_001E_01CB4397.0B5EB570" +:+ DQUOTE
         | None => ""
         end
     +:+ CRLF)%string in
  '(msg, call_private) ← sipe_media_to_sdpmsg sipe_private call_private;
  let body := sdpmsg_to_string msg in
  let '(body, call_private) :=
    match call_extra_invite_section call_private with
    | Some section =>
        (("------=_NextPart_000_001E_01CB4397.0B5EB570" +:+ CRLF
          +:+ section
          +:+ CRLF
          +:+ "------=_NextPart_000_001E_01CB4397.0B5EB570" +:+ CRLF
          +:+ "Content-Type: application/sdp" +:+ CRLF
          +:+ "Content-Transfer-Encoding: 7bit" +:+ CRLF
          +:+ "Content-Disposition: session; handling=optional" +:+ CRLF
          +:+ CRLF
          +:+ body
          +:+ CRLF
          +:+ "------=_NextPart_000_001E_01CB4397.0B5EB570--" +:+ CRLF)%string,
         sipe_media_add_extra_invite_section call_private None None)
    | None => (body, call_private)
    end in
  dialog ← dialog;
  let '(dialog', trans) := sip_transport_invite hdr body dialog tc in
  Some (store_sip_dialog call_private
          (set_dialog_outgoing_invite dialog' (Some trans)),
        [RequestTransportInvite hdr body dialog tc]).

(** [sipe_media_dialog_init] on the new session of an incoming call: the
    message with its tagged To header and the dialog. *)
Definition sipe_media_dialog_init (sipe_private : sipe_core_private)
    (msg : sipmsg) : sipmsg * sip_dialog :=
  let newTag := gentag sipe_private in
  let oldHeader := sipmsg_find_header msg "To" in
  let newHeader := (printf_s oldHeader +:+ ";tag=" +:+ newTag)%string in
  let msg := sipmsg_remove_header_now msg "To" in
  let msg := sipmsg_add_header_now msg "To" newHeader in
  let dialog :=
    {| dialog_callid := Some (msg_callid msg);
       dialog_with := parse_from (sipmsg_find_header msg "From");
       dialog_ourtag := None; dialog_theirtag := None; dialog_cseq := 0;
       dialog_outgoing_invite := None |} in
  (msg, sipe_dialog_parse dialog msg false).

(** [send_response_with_session_description]; the invitation of the call is
    used without a check. *)
Definition send_response_with_session_description
    (sipe_private : sipe_core_private)
    (call_private : sipe_media_call_private) (code : Z) (text : string)
  : option (sipe_media_call_private * list event) :=
  '(msg, call_private) ← sipe_media_to_sdpmsg sipe_private call_private;
  let body := sdpmsg_to_string msg in
  invitation ← call_invitation call_private;
  let invitation :=
    sipmsg_add_header invitation "Content-Type" "application/sdp" in
  Some (set_call_invitation call_private (Some invitation),
        [EvTransportResponse (Some (msg_callid invitation)) code text
           (Some body)]).

(** The body of the loop of [process_incoming_invite_call] that creates the
    new streams, for one section: the call, whether a stream was asked for,
    and the requests.  The attributes of a data or application-sharing
    stream are written to the new stream without a check. *)
Definition create_new_stream (sipe_private : sipe_core_private)
    (call_private : sipe_media_call_private) (ice_version : SipeIceVersion)
    (media : sdpmedia)
  : option (sipe_media_call_private * bool * list event) :=
  let id := media_name media in
  if bool_decide (media_port media ≠ 0)%Z
     && bool_decide (sipe_core_media_get_stream_by_id call_private id = None)
  then
    let type :=
      if sipe_strequal (Some id) (Some "audio") then Some SIPE_MEDIA_AUDIO
      else if sipe_strequal (Some id) (Some "video")
      then Some SIPE_MEDIA_VIDEO
      else if sipe_strequal (Some id) (Some "data")
      then Some SIPE_MEDIA_APPLICATION
      else if sipe_strequal (Some id) (Some "applicationsharing")
      then Some SIPE_MEDIA_APPLICATION
      else None in
    match type with
    | None => Some (call_private, false, [])
    | Some type =>
        let '(stream, call_private, evs) :=
          sipe_media_stream_add sipe_private call_private id type ice_version
            false in
        (* the new stream is the last one of the call *)
        let k := Nat.pred (length (call_streams call_private)) in
        call_private ←
          (if sipe_strequal (Some id) (Some "data") then
             stream ← stream;
             Some (store_stream call_private k
                     (sipe_media_stream_add_extra_attribute stream
                        "recvonly" None))
           else if sipe_strequal (Some id) (Some "applicationsharing") then
             stream ← stream;
             let stream :=
               sipe_media_stream_add_extra_attribute stream
                 "x-applicationsharing-session-id" (Some "1") in
             let stream :=
               sipe_media_stream_add_extra_attribute stream
                 "x-applicationsharing-role" (Some "viewer") in
             let stream :=
               sipe_media_stream_add_extra_attribute stream
                 "x-applicationsharing-media-type" (Some "rdp") in
             Some (store_stream call_private k stream)
           else Some call_private);
        Some (call_private, true, evs)
    end
  else Some (call_private, false, []).

Fixpoint create_new_streams (sipe_private : sipe_core_private)
    (call_private : sipe_media_call_private) (ice_version : SipeIceVersion)
    (media : list sdpmedia) (has_new_media : bool)
  : option (sipe_media_call_private * bool * list event) :=
  match media with
  | [] => Some (call_private, has_new_media, [])
  | m :: rest =>
      '(call_private, new, evs) ←
        create_new_stream sipe_private call_private ice_version m;
      '(call_private, has_new_media, evs') ←
        create_new_streams sipe_private call_private ice_version rest
          (has_new_media || new);
      Some (call_private, has_new_media, evs ++ evs')
  end.

(** [process_incoming_invite_call]: the call it returns (NULL when the INVITE
    was refused) and the core. *)
Definition process_incoming_invite_call (sipe_private : sipe_core_private)
    (msg : sipmsg)
  : option (option sipe_media_call_private * sipe_core_private) :=
  body ← msg_body msg;
  let data_session :=
    strstr body "m=data" || strstr body "m=applicationsharing" in
  (* Don't allow two voice calls in parallel. *)
  let call := sipe_core_media_get_call_entry sipe_private in
  if negb data_session
     && bool_decide (is_Some call)
     && negb (is_media_session_msg (fst <$> call) msg)
  then
    Some (None,
          emit sipe_private
            [EvTransportResponse (Some (msg_callid msg)) 486 "Busy Here"
               None])
  else
    let call_private := sipe_media_from_sipmsg sipe_private (msg_callid msg) in
    if match call_private with
       | Some call_private =>
           sipe_strequal (call_with call_private)
             (Some (sip_uri_self sipe_private))
       | None => false
       end
    then
      Some (None,
            emit sipe_private
              [EvTransportResponse (Some (msg_callid msg)) 488
                 "Not Acceptable Here" None])
    else
      match sdpmsg_parse_msg (msg_body msg) with
      | None =>
          let sipe_private :=
            emit sipe_private
              [EvTransportResponse (Some (msg_callid msg)) 488
                 "Not Acceptable Here" None] in
          Some (None,
                match call_private with
                | Some call_private =>
                    sipe_backend_media_hangup sipe_private
                      (call_id call_private) false
                | None => sipe_private
                end)
      | Some smsg =>
          '(call_private, msg, sipe_private) ←
            match call_private with
            | Some call_private => Some (call_private, msg, sipe_private)
            | None =>
                let with_ := parse_from (sipmsg_find_header msg "From") in
                let callid := msg_callid msg in
                '(call_private, sipe_private) ←
                  create_media sipe_private callid with_ false
                    (sdp_ice_version smsg) data_session;
                let '(msg, dialog) := sipe_media_dialog_init sipe_private msg in
                let session :=
                  {| session_with := with_; session_dialogs := [dialog];
                     session_is_call := true |} in
                let call_private :=
                  set_call_session call_private (Some session) in
                Some (set_call_with call_private (session_with session),
                      msg, sipe_private)
            end;
          let call_private := set_call_invitation call_private (Some msg) in
          (* Create any new media streams *)
          '(call_private, has_new_media, evs) ←
            create_new_streams sipe_private call_private
              (sdp_ice_version smsg) (sdp_media smsg) false;
          let sipe_private := emit sipe_private evs in
          if (has_new_media : bool) then
            let call_private := set_call_smsg call_private (Some smsg) in
            Some (Some call_private,
                  emit (store_call sipe_private call_private)
                    [EvTransportResponse (Some (msg_callid msg)) 180
                       "Ringing" None])
            (* Processing continues in stream_initialized_cb *)
          else
            let '(_, call_private, _, evs) :=
              apply_remote_message sipe_private call_private smsg in
            let sipe_private := emit sipe_private evs in
            '(call_private, evs) ←
              send_response_with_session_description sipe_private
                call_private 200 "OK";
            Some (Some call_private,
                  emit (store_call sipe_private call_private) evs)
      end.

(** [send_invite_response_if_ready]; [accepted] is the answer of
    [sipe_backend_media_accepted].  After the rejection the backend disposes
    of the call. *)
Definition send_invite_response_if_ready (sipe_private : sipe_core_private)
    (call_private : sipe_media_call_private) (accepted : bool)
  : option (bool * sipe_media_call_private * list call_request) :=
  if negb accepted || negb (call_initialized call_private)
  then Some (false, call_private, [])
  else if negb (call_encryption_compatible call_private) then
    invitation ← call_invitation call_private;
    let invitation :=
      sipmsg_add_header invitation "Warning"
        ("308 lcs.microsoft.com " +:+ DQUOTE
         +:+ "Encryption Levels not compatible" +:+ DQUOTE)%string in
    Some (true, set_call_invitation call_private (Some invitation),
          [Request (EvTransportResponse (Some (msg_callid invitation)) 488
                      "Encryption Levels not compatible" None);
           RequestBackendMediaReject (call_id call_private) false;
           Request (EvBackendNotifyError "Unable to establish a call"
                      "Encryption settings of peer are incompatible with ours.")])
  else
    '(call_private, evs) ←
      send_response_with_session_description sipe_private call_private
        200 "OK";
    Some (true, call_private, Request <$> (evs : list event)).

(** [stream_initialized_cb]; [initiator] and [accepted] are the answers of
    [sipe_backend_media_is_initiator] and [sipe_backend_media_accepted]. *)
Definition stream_initialized_cb (sipe_private : sipe_core_private)
    (call_private : sipe_media_call_private) (initiator accepted : bool)
  : option (sipe_media_call_private * list call_request) :=
  if call_initialized call_private then
    if initiator then
      sipe_invite_call sipe_private call_private TcProcessInviteCallResponse
    else
      match call_smsg call_private with
      | Some smsg =>
          let call_private := set_call_smsg call_private None in
          let '(ok, call_private, _, evs) :=
            apply_remote_message sipe_private call_private smsg in
          if ok then
            '(_, call_private, evs') ←
              send_invite_response_if_ready sipe_private call_private
                accepted;
            Some (call_private, (Request <$> evs) ++ evs')
          else Some (call_private, Request <$> evs)
      | None => Some (call_private, [])
      end
  else Some (call_private, []).

(** [phone_state_publish]. *)
Definition phone_state_publish (sipe_private : sipe_core_private)
  : list call_request :=
  if SIPE_CORE_PRIVATE_FLAG_OCS2007 sipe_private
  then [RequestOcs2007PhoneStatePublish]
  else [].

(** [call_accept_cb].  The call is read again for [phone_state_publish]:
    that is undefined when [send_invite_response_if_ready] has sent the
    error response, after which the call is disposed of. *)
Definition call_accept_cb (sipe_private : sipe_core_private)
    (call_private : sipe_media_call_private) (local accepted : bool)
  : option (sipe_media_call_private * list call_request) :=
  '(call_private, evs) ←
    (if local then
       '(sent, call_private', evs) ←
         send_invite_response_if_ready sipe_private call_private accepted;
       if (sent : bool) && negb (call_encryption_compatible call_private)
       then None
       else Some (call_private', evs)
     else Some (call_private, []));
  Some (call_private, evs ++ phone_state_publish sipe_private).

End incoming.

(** ** Vocabulary of the further properties of sipe-media.c *)

(** A number [sipe_core_media_phone_call] dials: decimal digits after an
    optional plus sign, the whole not empty. *)
Definition dialable (number : string) : Prop :=
  number ≠ ""
  ∧ ∃ digits,
      (number = digits ∨ number = String "+" digits)
      ∧ Forall (λ c, c ∈ String.list_ascii_of_string "0123456789")
          (String.list_ascii_of_string digits).

(** The relay after the answers that have arrived for it: [Some (ip, port)]
    is an answer of the resolver, [None] means that the query is still
    pending. *)
Definition relay_after (relay : sipe_media_relay)
    (answer : option (option string * Z)) : sipe_media_relay :=
  match answer with
  | Some (ip, port) => relay_ip_resolved_cb relay ip port
  | None => relay
  end.

(** A section of an offer for which [process_incoming_invite_call] asks for
    a stream: its port is not 0 and its name is one of the four the core
    knows. *)
Definition acceptable_section (m : sdpmedia) : Prop :=
  media_port m ≠ 0%Z
  ∧ media_name m ∈ ["audio"; "video"; "data"; "applicationsharing"].

#[global] Instance acceptable_section_dec m : Decision (acceptable_section m).
Proof. unfold acceptable_section. apply _. Defined.

(** The attributes a stream of an incoming call starts with. *)
Definition incoming_attributes (id : string) : list sipnameval :=
  if decide (id = "data")
  then [{| nv_name := "recvonly"; nv_value := "" |}]
  else if decide (id = "applicationsharing")
  then [{| nv_name := "x-applicationsharing-session-id"; nv_value := "1" |};
        {| nv_name := "x-applicationsharing-role"; nv_value := "viewer" |};
        {| nv_name := "x-applicationsharing-media-type"; nv_value := "rdp" |}]
  else [].

(** A request for a stream [s] of the call [call], made for an incoming
    call. *)
Definition incoming_stream_request (sipe_private : sipe_core_private)
    (call : sipe_media_call_private) (ice_version : SipeIceVersion)
    (e : event) (s : sipe_media_stream_private) : Prop :=
  ∃ type min_port max_port,
    e = EvBackendMediaAddStream (call_id call) (stream_id s) (call_with call)
          type ice_version false (media_relays sipe_private)
          (media_relay_username sipe_private)
          (media_relay_password sipe_private) min_port max_port.

(** A request to the backend that concerns one stream of a call. *)
Definition backend_stream_request (e : event) : Prop :=
  match e with
  | EvBackendMediaStreamEnd _ _ | EvBackendStreamHold _ _ _
  | EvBackendStreamUnhold _ _ _ | EvBackendSetEncryptionKeys _ _ _ _
  | EvBackendSetRemoteCodecs _ _ _ | EvBackendAddRemoteCandidates _ _ _ =>
      True
  | _ => False
  end.

(** The header lines of the INVITE of a call whose Content-Type line
    announces [content_type] followed by the parameter [boundary]. *)
Definition invite_headers `{!CallLayer} (sipe_private : sipe_core_private)
    (content_type boundary : string) : string :=
  ("ms-keep-alive: UAC;hop-hop=yes" +:+ CRLF
   +:+ "Contact: " +:+ get_contact sipe_private +:+ CRLF
   +:+ match uc_line_uri sipe_private with
       | Some uri =>
           "P-Preferred-Identity: <" +:+ sip_uri_self sipe_private
           +:+ ">, <" +:+ uri +:+ ">" +:+ CRLF
       | None => ""
       end
   +:+ "Content-Type: " +:+ content_type +:+ boundary +:+ CRLF)%string.

(** The boundary parameter of a multipart INVITE. *)
Definition invite_boundary : string :=
  (";boundary=" +:+ DQUOTE +:+ "----=_NextPart_000_001E_01CB4397.0B5EB570"
   +:+ DQUOTE)%string.

(** The body of an INVITE that carries the extra section [section] in front
    of the session description [sdp]. *)
Definition multipart_invite_body (section sdp : string) : string :=
  ("------=_NextPart_000_001E_01CB4397.0B5EB570" +:+ CRLF
   +:+ section
   +:+ CRLF
   +:+ "------=_NextPart_000_001E_01CB4397.0B5EB570" +:+ CRLF
   +:+ "Content-Type: application/sdp" +:+ CRLF
   +:+ "Content-Transfer-Encoding: 7bit" +:+ CRLF
   +:+ "Content-Disposition: session; handling=optional" +:+ CRLF
   +:+ CRLF
   +:+ sdp
   +:+ CRLF
   +:+ "------=_NextPart_000_001E_01CB4397.0B5EB570--" +:+ CRLF)%string.

(** The ms-proxy-2007fallback section of an INVITE sent from the address
    [ip]. *)
Definition proxy_fallback_section (ip : string) : string :=
  ("Content-Type: application/sdp" +:+ CRLF
   +:+ "Content-Transfer-Encoding: 7bit" +:+ CRLF
   +:+ "Content-Disposition: session; handling=optional; ms-proxy-2007fallback"
   +:+ CRLF +:+ CRLF
   +:+ "o=- 0 0 IN IP4 " +:+ ip +:+ CRLF
   +:+ "s=session" +:+ CRLF
   +:+ "c=IN IP4 " +:+ ip +:+ CRLF
   +:+ "m=audio 0 RTP/AVP" +:+ CRLF)%string.

(** Sample data of incoming calls. *)
Module SampleIncoming.

Definition with_headers (msg : sipmsg) (headers : list sipnameval) : sipmsg :=
  {| msg_callid := msg_callid msg; msg_response := msg_response msg;
     msg_responsestr := msg_responsestr msg; msg_headers := headers;
     msg_body := msg_body msg |}.

(** Alice's side: headers are kept in one list, [parse_from] hands the
    header back, and an INVITE advances the cseq of its dialog. *)
Definition call_layer : CallLayer :=
  {| sip_uri_self := λ _, "sip:alice@example.com";
     get_contact := λ _, "<sip:alice@example.com>";
     uc_line_uri := λ _, None;
     SIPE_CORE_PRIVATE_FLAG_OCS2007 := λ _, true;
     parse_from := λ from, from;
     sipmsg_add_header := λ msg name value,
       with_headers msg
         (msg_headers msg ++ [{| nv_name := name; nv_value := value |}]);
     sipmsg_add_header_now := λ msg name value,
       with_headers msg
         (msg_headers msg ++ [{| nv_name := name; nv_value := value |}]);
     sipmsg_remove_header_now := λ msg name,
       with_headers msg (filter (λ nv, nv_name nv ≠ name) (msg_headers msg));
     sip_transport_invite := λ _ _ dialog _,
       (set_dialog_cseq dialog (dialog_cseq dialog + 1),
        {| sip_transaction_cseq := dialog_cseq dialog + 1 |}) |}.

(** Offers: audio alone, audio without codecs, a whiteboard next to a
    withdrawn audio section, a file transfer, and audio that rejects
    encryption. *)
Definition audio : sdpmsg :=
  {| sdp_ip := Some "203.0.113.5";
     sdp_media := [SampleSdp.section "audio" 5000 [SampleSdp.pcmu]];
     sdp_ice_version := SIPE_ICE_RFC_5245 |}.
Definition audio_without_codecs : sdpmsg :=
  {| sdp_ip := Some "203.0.113.5";
     sdp_media := [SampleSdp.section "audio" 5000 []];
     sdp_ice_version := SIPE_ICE_RFC_5245 |}.
Definition whiteboard : sdpmsg :=
  {| sdp_ip := Some "203.0.113.5";
     sdp_media := [SampleSdp.section "whiteboard" 7000 [];
                   SampleSdp.section "audio" 0 []];
     sdp_ice_version := SIPE_ICE_RFC_5245 |}.
Definition file_transfer : sdpmsg :=
  {| sdp_ip := Some "203.0.113.5";
     sdp_media := [SampleSdp.section "data" 7000 []];
     sdp_ice_version := SIPE_ICE_RFC_5245 |}.

(** A SIP layer whose SDP parser knows the bodies of the sample offers by
    name and whose printer lists the sections as [name:port]. *)
Definition sip_layer : SipLayer :=
  {| sdpmsg_parse_msg := λ body,
       if decide (body = Some "audio video") then Some SampleSdp.audio_video
       else if decide (body = Some "audio") then Some audio
       else if decide (body = Some "whiteboard") then Some whiteboard
       else if decide (body = Some "m=data") then Some file_transfer
       else None;
     sdpmsg_to_string := λ msg,
       foldr (λ m acc, media_name m +:+ ":" +:+ pretty (media_port m)
                       +:+ " " +:+ acc)%string
             "" (sdp_media msg);
     sipmsg_parse_warning := λ _, 0%Z;
     sipmsg_get_ms_diagnostics_reason := λ _, None;
     sipe_dialog_parse := λ d _ _, d;
     sip_transport_ack := λ d, set_dialog_cseq d (dialog_cseq d + 1);
     gencallid := λ _, "fresh-call-id";
     gentag := λ _, "tag";
     sipe_backend_network_ip_address := "192.0.2.1" |}.

(** A backend that creates no stream. *)
Definition refusing_backend : Backend :=
  {| sipe_backend_media_add_stream := λ _ _ _ _ _ _ _, None;
     sipe_backend_set_remote_codecs := λ _ codecs, bool_decide (codecs ≠ []);
     sipe_backend_media_hangup_callbacks :=
       λ sipe_private callid _, media_end_cb sipe_private callid;
     HAVE_SRTP := true;
     rand_key := λ _ _, replicate 30 7%Z;
     sipe_backend_dns_query_a := λ hostname _, bool_decide (is_Some hostname) |}.

(** Bob's INVITE for the call "call-2". *)
Definition invite (body : string) : sipmsg :=
  {| msg_callid := "call-2"; msg_response := 0; msg_responsestr := None;
     msg_headers :=
       [{| nv_name := "From"; nv_value := "sip:bob@example.com" |};
        {| nv_name := "To"; nv_value := "sip:alice@example.com" |}];
     msg_body := Some body |}.


(** The call "call-2" while it rings: one initialised audio stream, the
    offer [smsg] kept for later. *)
Definition ringing_call (smsg : sdpmsg) : sipe_media_call_private :=
  {| call_id := "call-2"; call_with := Some "sip:bob@example.com";
     call_session :=
       Some {| session_with := Some "sip:bob@example.com";
               session_dialogs :=
                 [{| dialog_callid := Some "call-2";
                     dialog_with := Some "sip:bob@example.com";
                     dialog_ourtag := Some "tag"; dialog_theirtag := None;
                     dialog_cseq := 0; dialog_outgoing_invite := None |}];
               session_is_call := true |};
     call_streams := [SampleSection.stream];
     call_invitation := Some (invite "audio");
     call_ice_version := SIPE_ICE_RFC_5245;
     call_encryption_compatible := true;
     call_extra_invite_section := None; call_invite_content_type := None;
     call_smsg := Some smsg; call_failed_media := [];
     call_initiator := false; call_hidden_from_ui := false |}.

(** A new outgoing call to bob: its dialog has cseq 0. *)
Definition new_call : sipe_media_call_private :=
  set_call_session (Sample.call SIPE_ICE_RFC_5245 [SampleSection.stream])
    (Some {| session_with := Some "sip:bob@example.com";
             session_dialogs := [Sample.dialog 0];
             session_is_call := true |}).

(** A core that knows the audio test service. *)
Definition core_with_test_service : sipe_core_private :=
  {| media_calls := ∅;
     min_media_port := 1024; max_media_port := 65535;
     min_audio_port := 5000; max_audio_port := 5100;
     min_video_port := 6000; max_video_port := 6100;
     min_filetransfer_port := 7000; max_filetransfer_port := 7100;
     min_appsharing_port := 8000; max_appsharing_port := 8100;
     media_relays := []; media_relay_username := None;
     media_relay_password := None;
     server_av_encryption_policy := SIPE_ENCRYPTION_POLICY_OPTIONAL;
     backend_encryption_policy := SIPE_ENCRYPTION_POLICY_OBEY_SERVER;
     test_call_bot_uri := Some "sip:test@example.com";
     trace := [] |}.

(** Two relays as a credentials response stores them. *)
Definition relays : list sipe_media_relay :=
  [{| relay_hostname := Some "relay-a.example.com"; relay_udp_port := 3478;
      relay_tcp_port := 443; relay_dns_query := true |};
   {| relay_hostname := Some "relay-b.example.com"; relay_udp_port := 3478;
      relay_tcp_port := 443; relay_dns_query := true |}].

End SampleIncoming.

(** * Properties *)

(** ** Port ranges of new streams *)

Section stream_add_properties.

Context `{!Backend, !SipLayer}.

Lemma sipe_media_stream_add_request sipe_private call id type ice initiator :
  ∃ min_port max_port,
    (sipe_media_stream_add sipe_private call id type ice initiator).2
    = [EvBackendMediaAddStream (call_id call) id (call_with call) type ice
         initiator (media_relays sipe_private)
         (media_relay_username sipe_private)
         (media_relay_password sipe_private) min_port max_port].
Proof.
  unfold sipe_media_stream_add.
  destruct type; repeat case_match; simplify_eq/=; eauto.
Qed.

(** Audio, "data", "applicationsharing" and other application streams get
    both ports from the pair that belongs to them. *)
Lemma sipe_media_stream_add_range_other sipe_private call id type ice initiator :
  type ≠ SIPE_MEDIA_VIDEO →
  requested_port_range
    (sipe_media_stream_add sipe_private call id type ice initiator).2
  = Some (match type with
          | SIPE_MEDIA_AUDIO =>
              (min_audio_port sipe_private, max_audio_port sipe_private)
          | _ =>
              if decide (id = "data")
              then (min_filetransfer_port sipe_private,
                    max_filetransfer_port sipe_private)
              else if decide (id = "applicationsharing")
              then (min_appsharing_port sipe_private,
                    max_appsharing_port sipe_private)
              else (min_media_port sipe_private, max_media_port sipe_private)
          end).
Proof.
  intros Hv. unfold sipe_media_stream_add, sipe_strequal.
  destruct type; try done; repeat case_match; simplify_eq/=;
    repeat case_bool_decide; simplify_eq/=; done.
Qed.

(** For a video stream the requested range runs from the minimum of the
    video range to the maximum of the audio range. *)
Lemma sipe_media_stream_add_video_range sipe_private call id ice initiator :
  requested_port_range
    (sipe_media_stream_add sipe_private call id SIPE_MEDIA_VIDEO ice initiator).2
  = Some (min_video_port sipe_private, max_audio_port sipe_private).
Proof.
  unfold sipe_media_stream_add. by case_match.
Qed.

Lemma sipe_media_stream_add_Some sipe_private call id type ice_version initiator :
  (∀ min_port max_port,
     is_Some (sipe_backend_media_add_stream (call_id call) id type
                ice_version initiator min_port max_port)) →
  ∃ s min_port max_port,
    sipe_media_stream_add sipe_private call id type ice_version initiator
    = (Some s, set_call_streams call (call_streams call ++ [s]),
       [EvBackendMediaAddStream (call_id call) id (call_with call) type
          ice_version initiator (media_relays sipe_private)
          (media_relay_username sipe_private)
          (media_relay_password sipe_private) min_port max_port])
    ∧ stream_id s = id ∧ extra_sdp s = [].
Proof.
  intros Hbackend. unfold sipe_media_stream_add.
  destruct type; simpl.
  - destruct (Hbackend (min_audio_port sipe_private)
                (max_audio_port sipe_private)) as [bs ->].
    by eexists _, _, _.
  - destruct (Hbackend (min_video_port sipe_private)
                (max_audio_port sipe_private)) as [bs ->].
    by eexists _, _, _.
  - destruct (sipe_strequal (Some id) (Some "data")); simpl.
    { destruct (Hbackend (min_filetransfer_port sipe_private)
                  (max_filetransfer_port sipe_private)) as [bs ->].
      by eexists _, _, _. }
    destruct (sipe_strequal (Some id) (Some "applicationsharing")); simpl.
    { destruct (Hbackend (min_appsharing_port sipe_private)
                  (max_appsharing_port sipe_private)) as [bs ->].
      by eexists _, _, _. }
    destruct (Hbackend (min_media_port sipe_private)
                (max_media_port sipe_private)) as [bs ->].
    by eexists _, _, _.
Qed.

End stream_add_properties.

(** C1, at the failing input: every stream added with
    [sipe_media_stream_add] should be requested on the port range of its
    media type, minimum and maximum from the same pair.  With audio ports
    5000-5100 and video ports 6000-6100 a video stream is requested on
    6000-5100: the minimum is the one of the video range, the maximum the one
    of the audio range, not 6100. *)
Example sipe_media_stream_add_video_sample :
  requested_port_range
    (@sipe_media_stream_add Sample.backend Sample.core
       (Sample.call SIPE_ICE_RFC_5245 [])
       "video" SIPE_MEDIA_VIDEO SIPE_ICE_RFC_5245 true).2
  = Some (6000, 5100)%Z
  ∧ max_video_port Sample.core = 6100%Z.
Proof. done. Qed.

(** ** Serialised streams *)

(** What [media_stream_to_sdpmedia] puts into the section of a stream. *)
Lemma media_stream_to_sdpmedia_inv sipe_private call stream m :
  media_stream_to_sdpmedia sipe_private call stream = Some (Some m) →
  ∃ type candidates,
    media_type_of_name (stream_id stream) = Some type
    ∧ media_name m = stream_id stream
    ∧ media_codecs m
      = process_codecs type
          (bs_local_codecs (stream_backend_private stream)) []
    ∧ match bs_active_local_candidates (stream_backend_private stream) with
      | [] => remove_wrong_farstream_0_1_tcp_candidates
                (bs_local_candidates (stream_backend_private stream))
      | active => Some active
      end = Some candidates
    ∧ fill_zero_tcp_act_ports_from_tcp_pass
        (backend_candidates_to_sdpcandidate candidates)
      = Some (media_candidates m)
    ∧ media_encryption_active m
      = bool_decide (is_Some (encryption_key stream))
        && call_encryption_compatible call
        && remote_candidates_and_codecs_set stream
        && bool_decide (get_encryption_policy sipe_private
                        ≠ SIPE_ENCRYPTION_POLICY_REJECTED).
Proof.
  unfold media_stream_to_sdpmedia. intros Hm.
  destruct (media_type_of_name _) as [type|]; [|done].
  destruct (match bs_active_local_candidates _ with [] => _ | _ => _ end)
    as [candidates|] eqn:Hc; [|done].
  simpl in Hm.
  destruct (fill_zero_tcp_act_ports_from_tcp_pass _) as [sdp|] eqn:Hf; [|done].
  simpl in Hm.
  destruct (get_stream_ip_and_ports sdp SIPE_CANDIDATE_TYPE_HOST)
    as [[ip port] rtcp].
  destruct (match ip with None => _ | _ => _ end) as [[ip' port'] rtcp'].
  destruct (bool_decide (is_Some (encryption_key stream)) && bool_decide _);
    simplify_eq/=; by exists type, candidates.
Qed.

(** A stream without a known name has no section. *)
Lemma media_stream_to_sdpmedia_unknown sipe_private call stream :
  media_stream_to_sdpmedia sipe_private call stream = Some None →
  media_type_of_name (stream_id stream) = None.
Proof.
  unfold media_stream_to_sdpmedia. intros Hm.
  destruct (media_type_of_name _) as [type|]; [|done].
  destruct (match bs_active_local_candidates _ with [] => _ | _ => _ end)
    as [candidates|]; [|done].
  simpl in Hm.
  destruct (fill_zero_tcp_act_ports_from_tcp_pass _) as [sdp|]; [|done].
  simpl in Hm.
  destruct (get_stream_ip_and_ports sdp SIPE_CANDIDATE_TYPE_HOST)
    as [[ip port] rtcp].
  destruct (match ip with None => _ | _ => _ end) as [[ip' port'] rtcp'].
  by destruct (bool_decide (is_Some (encryption_key stream)) && bool_decide _).
Qed.

(** The sections [sipe_media_to_sdpmsg] builds from the streams: one per
    stream with a known name, in the order of the streams, appended to what
    is there already. *)
Lemma streams_to_sdpmedia_spec sipe_private call streams acc ip media ip' :
  streams_to_sdpmedia sipe_private call streams acc ip = Some (media, ip') →
  ∃ new,
    media = acc ++ new
    ∧ Forall2 (λ s m, media_stream_to_sdpmedia sipe_private call s
                      = Some (Some m))
        (filter (λ s, is_Some (media_type_of_name (stream_id s))) streams) new.
Proof.
  revert acc ip. induction streams as [|s streams IH]; intros acc ip Hs.
  - simplify_eq/=. exists []. by rewrite app_nil_r.
  - simpl in Hs.
    destruct (media_stream_to_sdpmedia sipe_private call s) as [[m|]|] eqn:Hm;
      simplify_eq/=.
    + apply IH in Hs as (new & -> & Hnew).
      exists (m :: new). rewrite <- app_assoc. split; [done|].
      apply media_stream_to_sdpmedia_inv in Hm as Hm'.
      destruct Hm' as (type & ? & Htype & _).
      rewrite filter_cons_True; [by constructor|by rewrite Htype].
    + apply IH in Hs as (new & -> & Hnew).
      exists new. split; [done|].
      apply media_stream_to_sdpmedia_unknown in Hm.
      rewrite filter_cons_False; [done|]. rewrite Hm. by intros [? ?].
Qed.

(** [sipe_media_to_sdpmsg] puts the sections of the streams first and the
    failed sections kept on the call behind them, and empties that list. *)
Lemma sipe_media_to_sdpmsg_spec sipe_private call msg call' :
  sipe_media_to_sdpmsg sipe_private call = Some (msg, call') →
  call' = set_call_failed_media call []
  ∧ ∃ media,
      sdp_media msg = media ++ call_failed_media call
      ∧ Forall2 (λ s m, media_stream_to_sdpmedia sipe_private call s
                        = Some (Some m))
          (filter (λ s, is_Some (media_type_of_name (stream_id s)))
             (call_streams call))
          media.
Proof.
  unfold sipe_media_to_sdpmsg. intros Hmsg.
  destruct (streams_to_sdpmedia _ _ _ _ _) as [[media ip]|] eqn:Hs;
    simplify_eq/=.
  apply streams_to_sdpmedia_spec in Hs as (new & -> & Hnew). eauto.
Qed.

(** C7: in every SDP message the core serialises, the section of each stream
    has [encryption_active] set if and only if the stream has a local SRTP
    key, the call is flagged encryption-compatible, the stream is remote-set
    and the effective encryption policy is not "rejected". *)
Theorem encryption_active_iff sipe_private call msg call' :
  sipe_media_to_sdpmsg sipe_private call = Some (msg, call') →
  ∃ media,
    sdp_media msg = media ++ call_failed_media call
    ∧ Forall2
        (λ stream m,
           media_name m = stream_id stream
           ∧ (media_encryption_active m = true
              ↔ is_Some (encryption_key stream)
                ∧ call_encryption_compatible call = true
                ∧ remote_candidates_and_codecs_set stream = true
                ∧ get_encryption_policy sipe_private
                  ≠ SIPE_ENCRYPTION_POLICY_REJECTED))
        (filter (λ s, is_Some (media_type_of_name (stream_id s)))
           (call_streams call))
        media.
Proof.
  intros Hmsg.
  apply sipe_media_to_sdpmsg_spec in Hmsg as (_ & media & Hmedia & Hnew).
  exists media. split; [done|].
  eapply Forall2_impl; [exact Hnew|].
  intros stream m Hm.
  apply media_stream_to_sdpmedia_inv in Hm as (? & ? & _ & Hn & _ & _ & _ & ->).
  split; [done|].
  rewrite !andb_true_iff, !bool_decide_eq_true. tauto.
Qed.

(** The call of the sample configuration with an audio stream whose remote
    side has been applied serialises into a message to which the theorem
    applies. *)
Lemma encryption_active_iff_witness :
  let stream :=
    set_remote_candidates_and_codecs_set (Sample.stream "audio") true in
  let call := Sample.call SIPE_ICE_RFC_5245 [stream] in
  ∃ msg call',
    sipe_media_to_sdpmsg Sample.core call = Some (msg, call')
    ∧ ∃ media,
        sdp_media msg = media ++ call_failed_media call
        ∧ Forall2
            (λ stream m,
               media_name m = stream_id stream
               ∧ (media_encryption_active m = true
                  ↔ is_Some (encryption_key stream)
                    ∧ call_encryption_compatible call = true
                    ∧ remote_candidates_and_codecs_set stream = true
                    ∧ get_encryption_policy Sample.core
                      ≠ SIPE_ENCRYPTION_POLICY_REJECTED))
            (filter (λ s, is_Some (media_type_of_name (stream_id s)))
               (call_streams call))
            media.
Proof.
  intros stream call. eexists _, _. split; [reflexivity|].
  eapply (encryption_active_iff Sample.core call). reflexivity.
Defined.

(** ** Media-relay credentials *)

Lemma emit_nil sipe_private : emit sipe_private [] = sipe_private.
Proof. destruct sipe_private. unfold emit; simpl. by rewrite app_nil_r. Qed.

(** C10: whatever the response to the MRAS request, the stored relay
    username, password and relay list are released and reset to NULL before
    anything of the response is looked at, so the outcome is the one the
    cleared core would have produced; and a response with a code of 400 or
    more leaves the core without credentials and without relays. *)
Theorem process_get_av_edge_credentials_response_resets
    `{!Backend, !XmlLayer} sipe_private msg :
  let cleared :=
    set_relay_credentials
      (emit sipe_private
         (sipe_media_relay_list_free (media_relays sipe_private)))
      None None [] in
  process_get_av_edge_credentials_response sipe_private msg
  = process_get_av_edge_credentials_response cleared msg
  ∧ ((400 ≤ msg_response msg)%Z →
     process_get_av_edge_credentials_response sipe_private msg
     = Some (false, cleared)
     ∧ media_relay_username cleared = None
     ∧ media_relay_password cleared = None
     ∧ media_relays cleared = []).
Proof.
  intros cleared. split.
  - unfold process_get_av_edge_credentials_response. fold cleared.
    replace (set_relay_credentials
               (emit cleared (sipe_media_relay_list_free (media_relays cleared)))
               None None []) with cleared; [done|].
    simpl. by rewrite emit_nil.
  - intros Hcode. unfold process_get_av_edge_credentials_response.
    fold cleared. by rewrite decide_True.
Qed.

(** A 503 received while credentials and a relay are stored. *)
Lemma process_get_av_edge_credentials_response_resets_witness :
  @process_get_av_edge_credentials_response Sample.backend
    SampleMras.xml_layer SampleMras.core (SampleMras.response 503)
  = Some (false, Sample.core).
Proof.
  destruct (@process_get_av_edge_credentials_response_resets Sample.backend
              SampleMras.xml_layer SampleMras.core (SampleMras.response 503)) as [_ Hfail].
  destruct Hfail as (-> & _); [simpl; lia|]. reflexivity.
Defined.

(** ** Acknowledging a response *)

Section send_ack_properties.

Context `{!Backend, !SipLayer}.

(** Without a registered call for the message, or without a dialog, nothing
    happens. *)
Lemma sipe_media_send_ack_none sipe_private msg trans :
  (sipe_media_from_sipmsg sipe_private (msg_callid msg)
   ≫= sipe_media_get_sip_dialog) = None →
  sipe_media_send_ack sipe_private msg trans = (false, sipe_private).
Proof.
  unfold sipe_media_send_ack.
  destruct (sipe_media_from_sipmsg _ _) as [call|]; simpl; [|done].
  by destruct (sipe_media_get_sip_dialog call).
Qed.

(** The dialog written with [store_sip_dialog] is the one read back. *)
Lemma sipe_media_get_sip_dialog_store call d d' :
  sipe_media_get_sip_dialog call = Some d →
  sipe_media_get_sip_dialog (store_sip_dialog call d') = Some d'.
Proof.
  unfold sipe_media_get_sip_dialog, store_sip_dialog.
  by destruct (call_session call).
Qed.

(** C9: sending the ACK of a media call leaves the cseq of the dialog as it
    was.  Given that [sip_transport_ack] itself changes nothing of a dialog
    but its cseq, [sipe_media_send_ack] transmits the ACK on the dialog with
    the cseq set to the one of the transaction minus one, and the dialog
    found on the call afterwards is the dialog of before with
    [outgoing_invite] cleared: its cseq is the saved one.  Nothing else of
    the core changes. *)
Theorem sipe_media_send_ack_frame sipe_private msg trans call dialog :
  (∀ d, set_dialog_cseq (sip_transport_ack d) (dialog_cseq d) = d) →
  sipe_media_from_sipmsg sipe_private (msg_callid msg) = Some call →
  call_id call = msg_callid msg →
  sipe_media_get_sip_dialog call = Some dialog →
  let after := (sipe_media_send_ack sipe_private msg trans).2 in
  sipe_media_send_ack sipe_private msg trans
  = (true,
     store_call
       (emit sipe_private
          [EvTransportAck (dialog_callid dialog)
             (sip_transaction_cseq trans - 1)])
       (store_sip_dialog call (set_dialog_outgoing_invite dialog None)))
  ∧ (sipe_media_from_sipmsg after (msg_callid msg)
     ≫= sipe_media_get_sip_dialog)
    = Some (set_dialog_outgoing_invite dialog None)
  ∧ dialog_cseq <$> (sipe_media_from_sipmsg after (msg_callid msg)
                     ≫= sipe_media_get_sip_dialog)
    = Some (dialog_cseq dialog).
Proof.
  intros Hack Hcall Hid Hdialog after.
  assert (sipe_media_send_ack sipe_private msg trans
          = (true,
             store_call
               (emit sipe_private
                  [EvTransportAck (dialog_callid dialog)
                     (sip_transaction_cseq trans - 1)])
               (store_sip_dialog call (set_dialog_outgoing_invite dialog None))))
    as Heq.
  { unfold sipe_media_send_ack. rewrite Hcall, Hdialog. simpl.
    do 3 f_equal.
    specialize (Hack (set_dialog_cseq dialog (sip_transaction_cseq trans - 1))).
    destruct (sip_transport_ack _). destruct dialog.
    unfold set_dialog_cseq, set_dialog_outgoing_invite in *. simpl in *.
    by simplify_eq. }
  assert ((sipe_media_from_sipmsg after (msg_callid msg)
           ≫= sipe_media_get_sip_dialog)
          = Some (set_dialog_outgoing_invite dialog None)) as Hafter.
  { subst after. rewrite Heq. unfold sipe_media_from_sipmsg, store_call. simpl.
    assert (call_id (store_sip_dialog call
                       (set_dialog_outgoing_invite dialog None))
            = msg_callid msg) as ->.
    { rewrite <- Hid. unfold store_sip_dialog. by destruct (call_session call). }
    rewrite lookup_insert_eq. simpl.
    by eapply sipe_media_get_sip_dialog_store. }
  split; [done|]. split; [done|]. by rewrite Hafter.
Qed.

End send_ack_properties.

(** The sample call, whose dialog stands at cseq 1, acknowledges the response
    to transaction 5 through a transport that advances the cseq. *)
Lemma sipe_media_send_ack_frame_witness :
  let sipe_private :=
    store_call Sample.core (Sample.call SIPE_ICE_RFC_5245 []) in
  let msg :=
    {| msg_callid := "call-1"; msg_response := 200; msg_responsestr := Some "OK";
       msg_headers := []; msg_body := None |} in
  let trans := {| sip_transaction_cseq := 5 |} in
  let after := (@sipe_media_send_ack Sample.sip_layer sipe_private msg trans).2 in
  trace after = [EvTransportAck (Some "call-1") 4]
  ∧ dialog_cseq <$> (sipe_media_from_sipmsg after "call-1"
                     ≫= sipe_media_get_sip_dialog)
    = Some 1%Z.
Proof.
  intros sipe_private msg trans after.
  destruct (@sipe_media_send_ack_frame Sample.sip_layer sipe_private msg trans
              (Sample.call SIPE_ICE_RFC_5245 []) (Sample.dialog 1))
    as (Heq & _ & Hcseq);
    [by intros [] | reflexivity | reflexivity | reflexivity |].
  split; [|exact Hcseq].
  subst after. rewrite Heq. reflexivity.
Defined.

(** ** Completion of a Lync file transfer *)

(** A size that fits an [int] survives the cast. *)
Lemma wrap_gint_small z :
  (- 2 ^ 31 ≤ z < 2 ^ 31)%Z → wrap_gint z = z.
Proof.
  intros Hz. unfold wrap_gint.
  rewrite Z.mod_small; lia.
Qed.

Lemma wrap_gint_mod_gsize z : wrap_gint (z `mod` 2 ^ 64) = wrap_gint z.
Proof.
  unfold wrap_gint. f_equal.
  rewrite <- (Zplus_mod_idemp_l (z `mod` 2 ^ 64)).
  rewrite Z.mod_mod_divide; [|by exists (2 ^ 32)%Z].
  by rewrite Zplus_mod_idemp_l.
Qed.

(** The receiver reports completion with one INFO whose
    [bytesReceived/to] is what ["%d"] prints for [file_size - 1]. *)
Lemma ft_lync_incoming_end_notify rand ft :
  ft_lync_incoming_end rand ft
  = (true, set_ft_deallocate ft false,
     [FtTransportInfo (ft_dialog ft)
        (FILETRANSFER_PROGRESS rand (ft_request_id ft)
           ((ft_file_size ft - 1) `mod` 2 ^ 64))])
  ∧ sipe_xml_data
      (sipe_xml_child
         (Some (FILETRANSFER_PROGRESS rand (ft_request_id ft)
                  ((ft_file_size ft - 1) `mod` 2 ^ 64)))
         ["fileTransferProgress"; "bytesReceived"; "to"])
    = Some (pretty (wrap_gint (ft_file_size ft - 1))).
Proof.
  split; [done|]. cbn. unfold printf_d. by rewrite wrap_gint_mod_gsize.
Qed.

(** What the sender does with a progress notification: it answers and hangs
    up exactly when [atoi] of the reported position equals
    [(int) (file_size - 1)]. *)
Lemma process_notify_spec ft xml progress_node to :
  sipe_xml_child (Some xml) ["fileTransferProgress"] = Some progress_node →
  atoi (sipe_xml_data
          (sipe_xml_child (Some progress_node) ["bytesReceived"; "to"]))
  = Some to →
  process_notify ft xml
  = if decide (to = wrap_gint (ft_file_size ft - 1))
    then Some (None,
               FtTransportInfo (ft_dialog ft)
                 (DOWNLOAD_SUCCESS_RESPONSE (ft_request_id ft))
               :: ft_lync_deallocate ft)
    else Some (Some ft, []).
Proof.
  intros Hprogress Hto. unfold process_notify.
  rewrite Hprogress, Hto. simpl. rewrite wrap_gint_mod_gsize.
  by destruct (decide _).
Qed.

(** C8 (as the code has it): the receiver signals completion with a
    [notify fileTransferProgress] whose [bytesReceived/to] is [size - 1]
    reduced to a 32-bit signed integer, which is [size - 1] itself for sizes
    between 1 and 2^31.  On a notification whose [to] value [atoi] reads as
    [to], the sender answers with [code="success"] under its request id and
    hangs up the call when [to] equals [size - 1] reduced the same way, and
    does neither when it differs; for sizes between 1 and 2^31 that is the
    comparison of [to] with [size - 1]. *)
Theorem ft_lync_completion rand receiver sender callid xml progress_node to :
  ft_call_private sender = Some callid →
  sipe_xml_child (Some xml) ["fileTransferProgress"] = Some progress_node →
  atoi (sipe_xml_data
          (sipe_xml_child (Some progress_node) ["bytesReceived"; "to"]))
  = Some to →
  (* receiver *)
  (ft_lync_incoming_end rand receiver).2
  = [FtTransportInfo (ft_dialog receiver)
       (FILETRANSFER_PROGRESS rand (ft_request_id receiver)
          ((ft_file_size receiver - 1) `mod` 2 ^ 64))]
  ∧ sipe_xml_data
      (sipe_xml_child
         (Some (FILETRANSFER_PROGRESS rand (ft_request_id receiver)
                  ((ft_file_size receiver - 1) `mod` 2 ^ 64)))
         ["fileTransferProgress"; "bytesReceived"; "to"])
    = Some (pretty (wrap_gint (ft_file_size receiver - 1)))
  ∧ ((1 ≤ ft_file_size receiver ≤ 2 ^ 31)%Z →
     wrap_gint (ft_file_size receiver - 1) = (ft_file_size receiver - 1)%Z)
  (* sender *)
  ∧ (to = wrap_gint (ft_file_size sender - 1) →
     process_notify sender xml
     = Some (None,
             [FtTransportInfo (ft_dialog sender)
                (DOWNLOAD_SUCCESS_RESPONSE (ft_request_id sender));
              FtBackendMediaHangup callid true]))
  ∧ (to ≠ wrap_gint (ft_file_size sender - 1) →
     process_notify sender xml = Some (Some sender, []))
  ∧ ((1 ≤ ft_file_size sender ≤ 2 ^ 31)%Z →
     wrap_gint (ft_file_size sender - 1) = (ft_file_size sender - 1)%Z).
Proof.
  intros Hcall Hprogress Hto.
  destruct (ft_lync_incoming_end_notify rand receiver) as [Hend Hdata].
  split; [by rewrite Hend|]. split; [done|].
  split; [intros ?; apply wrap_gint_small; lia|].
  rewrite (process_notify_spec _ _ _ _ Hprogress Hto).
  unfold ft_lync_deallocate. rewrite Hcall.
  split; [intros ?; by rewrite decide_True|].
  split; [intros ?; by rewrite decide_False|].
  intros ?; apply wrap_gint_small; lia.
Qed.

(** The transfer of scenario S6: 2048 bytes, completion reported at 2047. *)
Lemma ft_lync_completion_witness :
  (ft_lync_incoming_end 99 (SampleFt.receiver 2048)).2
  = [FtTransportInfo (Some (Sample.dialog 3))
       (FILETRANSFER_PROGRESS 99 7 2047)]
  ∧ process_notify (SampleFt.sender 2048) (SampleFt.notify "2047")
    = Some (None,
            [FtTransportInfo (Some (Sample.dialog 3))
               (DOWNLOAD_SUCCESS_RESPONSE 7);
             FtBackendMediaHangup "call-1" true]).
Proof.
  destruct (ft_lync_completion 99 (SampleFt.receiver 2048)
              (SampleFt.sender 2048) "call-1" (SampleFt.notify "2047")
              (XmlNode "fileTransferProgress" []
                 [XmlNode "transferId" [] [] (Some "7");
                  XmlNode "bytesReceived" []
                    [XmlNode "from" [] [] (Some "0");
                     XmlNode "to" [] [] (Some "2047")]
                    None]
                 None)
              2047%Z eq_refl eq_refl eq_refl)
    as (Hend & _ & _ & Hok & _ & _).
  split; [exact Hend | by apply Hok].
Defined.

(** C8, counterexample: a file of 4294967301 bytes.  A notification that
    reports position 4, which is not [size - 1], is answered with "success"
    and the call is hung up. *)
Lemma ft_lync_completion_counterexample :
  let size := 4294967301%Z in
  Libc.atoi (Some "4") = Some 4%Z
  ∧ 4%Z ≠ (size - 1)%Z
  ∧ process_notify (SampleFt.sender size) (SampleFt.notify "4")
    = Some (None,
            [FtTransportInfo (Some (Sample.dialog 3))
               (DOWNLOAD_SUCCESS_RESPONSE 7);
             FtBackendMediaHangup "call-1" true]).
Proof. by vm_compute. Qed.

(** ** Codecs of a serialised section *)

Section insert_unique_sorted.

Context {A K : Type} (func : A → A → Z) (key : A → K).
(** The comparator answers 0 exactly on elements of equal key. *)
Hypothesis func_zero : ∀ a b, func a b = 0%Z ↔ key a = key b.

Lemma g_slist_find_custom_None l x :
  g_slist_find_custom l x func = None ↔ key x ∉ (key <$> l).
Proof.
  induction l as [|y l IH]; simpl.
  - split; [intros _; apply not_elem_of_nil | done].
  - rewrite not_elem_of_cons. destruct (decide (func y x = 0%Z)) as [H0|H0].
    + apply func_zero in H0. split; [done|]. intros [Hne _]. by destruct Hne.
    + rewrite IH. rewrite func_zero in H0.
      split; [intros ?; split; [congruence|done] | by intros [_ ?]].
Qed.

Lemma g_slist_insert_sorted_perm l x :
  g_slist_insert_sorted l x func ≡ₚ x :: l.
Proof.
  induction l as [|y l IH]; simpl; [done|].
  destruct (decide _); [done|]. rewrite IH. apply Permutation_swap.
Qed.

Lemma insert_unique_sorted_elem l x y :
  y ∈ sipe_utils_slist_insert_unique_sorted l x func
  ↔ y ∈ l ∨ (y = x ∧ key x ∉ (key <$> l)).
Proof.
  unfold sipe_utils_slist_insert_unique_sorted.
  destruct (g_slist_find_custom l x func) eqn:Hfind.
  - split; [by left|]. intros [?|[_ Hnot]]; [done|].
    apply g_slist_find_custom_None in Hnot. congruence.
  - apply g_slist_find_custom_None in Hfind.
    rewrite g_slist_insert_sorted_perm, elem_of_cons.
    split; [intros [->|?]; [by right|by left] | intros [?|[-> _]]; auto].
Qed.

Lemma insert_unique_sorted_keys l x k :
  k ∈ key <$> sipe_utils_slist_insert_unique_sorted l x func
  ↔ k ∈ key <$> l ∨ k = key x.
Proof.
  unfold sipe_utils_slist_insert_unique_sorted.
  destruct (g_slist_find_custom l x func) as [y|] eqn:Hfind.
  - split; [by left|]. intros [?| ->]; [done|].
    revert Hfind. induction l as [|z l IH]; simpl; [done|].
    destruct (decide (func z x = 0%Z)) as [H0|H0].
    + intros _. apply func_zero in H0. rewrite H0. by left.
    + intros Hfind. right. by apply IH.
  - rewrite g_slist_insert_sorted_perm, fmap_cons, elem_of_cons. tauto.
Qed.

Lemma insert_unique_sorted_NoDup l x :
  NoDup (key <$> l) →
  NoDup (key <$> sipe_utils_slist_insert_unique_sorted l x func).
Proof.
  intros Hl. unfold sipe_utils_slist_insert_unique_sorted.
  destruct (g_slist_find_custom l x func) eqn:Hfind; [done|].
  apply g_slist_find_custom_None in Hfind.
  rewrite g_slist_insert_sorted_perm. simpl. by constructor.
Qed.

End insert_unique_sorted.

(** Insertion keeps a list strictly ascending in [f], as long as the
    comparator orders the new element against those of the list as [f]
    does. *)
Lemma g_slist_insert_sorted_sorted {A} (func : A → A → Z) (f : A → Z) l x :
  (∀ y, y ∈ l → (func x y ≤ 0 ↔ f x ≤ f y)%Z) →
  f x ∉ (f <$> l) →
  StronglySorted Z.lt (f <$> l) →
  StronglySorted Z.lt (f <$> g_slist_insert_sorted l x func).
Proof.
  induction l as [|y l IH]; intros Hfunc Hnew Hsorted; simpl.
  - repeat constructor.
  - rewrite fmap_cons in Hsorted. apply StronglySorted_inv in Hsorted as [Hl Hy].
    rewrite fmap_cons, not_elem_of_cons in Hnew. destruct Hnew as [Hxy Hnew].
    destruct (decide (func x y ≤ 0)%Z) as [Hle|Hgt].
    + apply Hfunc in Hle; [|by left].
      rewrite !fmap_cons. constructor; [by constructor|].
      constructor; [lia|].
      eapply Forall_impl; [exact Hy|]. simpl. lia.
    + rewrite fmap_cons. constructor.
      * apply IH; [|done|done]. intros z Hz. apply Hfunc. by right.
      * apply Forall_forall. intros k Hk.
        apply list_elem_of_fmap in Hk as (z & -> & Hz).
        eapply elem_of_Permutation_proper in Hz;
          [|symmetry; apply g_slist_insert_sorted_perm].
        apply elem_of_cons in Hz as [->|Hz].
        -- assert (¬ (f x ≤ f y)%Z); [|lia].
           intros ?. apply Hgt, Hfunc; [by left|done].
        -- rewrite Forall_forall in Hy. apply Hy.
           apply list_elem_of_fmap. eauto.
Qed.

(** [sdpcodec_compare] answers 0 exactly on ids that agree modulo 2^32. *)
Lemma sdpcodec_compare_zero a b :
  sdpcodec_compare a b = 0%Z ↔ codec_key a = codec_key b.
Proof.
  unfold sdpcodec_compare, wrap_gint, codec_key.
  pose proof (Z.mod_pos_bound (codec_id a - codec_id b + 2 ^ 31) (2 ^ 32)).
  pose proof (Z.mod_pos_bound (codec_id a) (2 ^ 32)).
  pose proof (Z.mod_pos_bound (codec_id b) (2 ^ 32)).
  pose proof (Z.div_mod (codec_id a - codec_id b + 2 ^ 31) (2 ^ 32)).
  pose proof (Z.div_mod (codec_id a) (2 ^ 32)).
  pose proof (Z.div_mod (codec_id b) (2 ^ 32)).
  lia.
Qed.

Lemma process_codecs_NoDup type codecs acc :
  NoDup (codec_key <$> acc) →
  NoDup (codec_key <$> process_codecs type codecs acc).
Proof.
  revert acc. induction codecs as [|b rest IH]; intros acc Hacc; simpl; [done|].
  apply IH. by apply (insert_unique_sorted_NoDup _ _ sdpcodec_compare_zero).
Qed.

(** The codecs [process_codecs] ends with: those it started with, and for
    each key not among them the conversion of the first backend codec with
    that key. *)
Lemma process_codecs_elem type codecs acc c :
  c ∈ process_codecs type codecs acc
  ↔ c ∈ acc
    ∨ ∃ i bc,
        codecs !! i = Some bc
        ∧ c = backend_codec_to_sdpcodec type bc
        ∧ (codec_key c ∉ codec_key <$> acc)
        ∧ ∀ j bc', (j < i)%nat → codecs !! j = Some bc' →
                   codec_key (backend_codec_to_sdpcodec type bc') ≠ codec_key c.
Proof.
  revert acc. induction codecs as [|b rest IH]; intros acc; simpl.
  - split; [by left|]. by intros [?|(i & bc & ? & _)].
  - rewrite IH.
    rewrite (insert_unique_sorted_elem _ _ sdpcodec_compare_zero).
    split.
    + intros [[Hacc|[-> Hfresh]]|(i & bc & Hi & -> & Hfresh & Hfirst)].
      * by left.
      * right. exists 0%nat, b. split; [done|]. split; [done|].
        split; [done|]. intros j ? ?. lia.
      * right. exists (S i), bc. split; [done|]. split; [done|].
        rewrite (insert_unique_sorted_keys _ _ sdpcodec_compare_zero) in Hfresh.
        split; [tauto|].
        intros [|j] bc' Hj Hbc'; simplify_eq/=.
        -- intros Heq. apply Hfresh. by right.
        -- eapply Hfirst; [|done]. lia.
    + intros [Hacc|(i & bc & Hi & -> & Hfresh & Hfirst)].
      * by left; left.
      * destruct i as [|i]; simplify_eq/=.
        -- left; right. done.
        -- right. exists i, bc. split; [done|]. split; [done|]. split.
           ++ rewrite (insert_unique_sorted_keys _ _ sdpcodec_compare_zero).
              intros [?|Heq]; [done|].
              by eapply (Hfirst 0%nat b); [lia|done|].
           ++ intros j bc' Hj Hbc'. eapply (Hfirst (S j)); [lia|done].
Qed.

(** As long as no subtraction in [sdpcodec_compare] overflows, the codecs
    stay in strictly ascending order of their ids. *)
Lemma process_codecs_sorted type codecs acc :
  (∀ a b, a ∈ (codec_id <$> acc) ++ (bc_id <$> codecs) →
          b ∈ (codec_id <$> acc) ++ (bc_id <$> codecs) →
          - 2 ^ 31 ≤ a - b < 2 ^ 31)%Z →
  StronglySorted Z.lt (codec_id <$> acc) →
  StronglySorted Z.lt (codec_id <$> process_codecs type codecs acc).
Proof.
  revert acc. induction codecs as [|b rest IH]; intros acc Hrange Hacc; simpl;
    [done|].
  set (x := backend_codec_to_sdpcodec type b).
  assert (∀ y, y ∈ sipe_utils_slist_insert_unique_sorted acc x sdpcodec_compare →
               y ∈ acc ∨ y = x) as Hsub.
  { intros y Hy.
    apply (insert_unique_sorted_elem _ _ sdpcodec_compare_zero) in Hy. tauto. }
  apply IH.
  - assert (∀ a, a ∈ (codec_id <$> sipe_utils_slist_insert_unique_sorted acc x
                                      sdpcodec_compare)
                     ++ (bc_id <$> rest) →
                 a ∈ (codec_id <$> acc) ++ (bc_id <$> b :: rest)) as Hin.
    { intros a. rewrite !elem_of_app, fmap_cons, elem_of_cons.
      intros [Ha|?]; [|tauto].
      apply list_elem_of_fmap in Ha as (y & -> & Hy).
      apply Hsub in Hy as [Hy| ->]; [|by right; left].
      left. apply list_elem_of_fmap. eauto. }
    intros a a' Ha Ha'. apply Hrange; by apply Hin.
  - unfold sipe_utils_slist_insert_unique_sorted.
    destruct (g_slist_find_custom acc x sdpcodec_compare) eqn:Hfind; [done|].
    apply (g_slist_find_custom_None _ _ sdpcodec_compare_zero) in Hfind.
    apply g_slist_insert_sorted_sorted; [| |done].
    + intros y Hy. unfold sdpcodec_compare.
      rewrite wrap_gint_small; [lia|].
      apply Hrange; rewrite elem_of_app, fmap_cons.
      * right. by left.
      * left. apply list_elem_of_fmap. eauto.
    + intros Hx. apply Hfind.
      apply list_elem_of_fmap in Hx as (y & Hxy & Hy).
      apply list_elem_of_fmap. exists y. unfold codec_key. by rewrite Hxy.
Qed.

(** In the section serialised for a stream no two codecs have the same
    payload id.  Of the backend codecs that share an id only the first is
    kept (converted as it is), every other is dropped, and, the ids being
    such that their differences fit an [int], the codecs that are kept stand
    in ascending order of id. *)
Lemma media_stream_to_sdpmedia_codecs sipe_private call stream m :
  media_stream_to_sdpmedia sipe_private call stream = Some (Some m) →
  let codecs := bs_local_codecs (stream_backend_private stream) in
  NoDup (codec_id <$> media_codecs m)
  ∧ ((∀ bc, bc ∈ codecs → - 2 ^ 31 ≤ bc_id bc < 2 ^ 31)%Z →
     ∃ type,
       media_type_of_name (stream_id stream) = Some type
       ∧ ∀ c, c ∈ media_codecs m
              ↔ ∃ i bc,
                  codecs !! i = Some bc
                  ∧ c = backend_codec_to_sdpcodec type bc
                  ∧ ∀ j bc', (j < i)%nat → codecs !! j = Some bc' →
                             bc_id bc' ≠ bc_id bc)
  ∧ ((∀ a b, a ∈ codecs → b ∈ codecs →
             - 2 ^ 31 ≤ bc_id a - bc_id b < 2 ^ 31)%Z →
     StronglySorted Z.lt (codec_id <$> media_codecs m)).
Proof.
  intros Hm codecs.
  apply media_stream_to_sdpmedia_inv in Hm
    as (type & ? & Htype & _ & Hcodecs & _).
  fold codecs in Hcodecs. rewrite Hcodecs. split; [|split].
  - eapply (NoDup_fmap_1 (λ z, z `mod` 2 ^ 32)%Z).
    rewrite <- list_fmap_compose.
    apply (process_codecs_NoDup type codecs []). constructor.
  - intros Hgint. exists type. split; [done|]. intros c.
    rewrite process_codecs_elem. split.
    + intros [Hnil|(i & bc & Hi & -> & _ & Hfirst)]; [by inversion Hnil|].
      exists i, bc. split; [done|]. split; [done|].
      intros j bc' Hj Hbc' Heq. eapply Hfirst; [done|done|].
      unfold codec_key. simpl. by rewrite Heq.
    + intros (i & bc & Hi & -> & Hfirst). right.
      exists i, bc. split; [done|]. split; [done|].
      split; [apply not_elem_of_nil|].
      intros j bc' Hj Hbc'. unfold codec_key. simpl. intros Heq.
      apply (Hfirst j bc' Hj Hbc').
      assert (bc ∈ codecs) as Hbc by by eapply list_elem_of_lookup_2.
      assert (bc' ∈ codecs) as Hbc'' by by eapply list_elem_of_lookup_2.
      apply Hgint in Hbc, Hbc''.
      assert ((bc_id bc' + 2 ^ 31) `mod` 2 ^ 32
              = (bc_id bc + 2 ^ 31) `mod` 2 ^ 32)%Z as Hmod.
      { rewrite <- (Zplus_mod_idemp_l (bc_id bc')),
          <- (Zplus_mod_idemp_l (bc_id bc)). by rewrite Heq. }
      rewrite !Z.mod_small in Hmod; lia.
  - intros Hrange. apply process_codecs_sorted; [|constructor].
    simpl. intros a b Ha Hb.
    apply list_elem_of_fmap in Ha as (bc & -> & ?).
    apply list_elem_of_fmap in Hb as (bc' & -> & ?). by apply Hrange.
Qed.

(** C4 (as the code has it): a serialised SDP consists of the sections of
    the streams of the call followed by the failed sections kept on the
    call, which are put out as they were stored, with the codec list of the
    peer.  In the section serialised for a stream no two codecs have the
    same payload id.  Of the backend codecs that share an id only the first
    is kept (converted as it is), every other is dropped, and, the ids being
    such that their differences fit an [int], the codecs that are kept stand
    in ascending order of id. *)
Theorem codecs_unique_first_sorted sipe_private call msg call' :
  sipe_media_to_sdpmsg sipe_private call = Some (msg, call') →
  ∃ media,
    sdp_media msg = media ++ call_failed_media call
    ∧ Forall2
        (λ stream m,
           let codecs := bs_local_codecs (stream_backend_private stream) in
           media_name m = stream_id stream
           ∧ NoDup (codec_id <$> media_codecs m)
           ∧ ((∀ bc, bc ∈ codecs → - 2 ^ 31 ≤ bc_id bc < 2 ^ 31)%Z →
              ∃ type,
                media_type_of_name (stream_id stream) = Some type
                ∧ ∀ c, c ∈ media_codecs m
                       ↔ ∃ i bc,
                           codecs !! i = Some bc
                           ∧ c = backend_codec_to_sdpcodec type bc
                           ∧ ∀ j bc', (j < i)%nat → codecs !! j = Some bc' →
                                      bc_id bc' ≠ bc_id bc)
           ∧ ((∀ a b, a ∈ codecs → b ∈ codecs →
                      - 2 ^ 31 ≤ bc_id a - bc_id b < 2 ^ 31)%Z →
              StronglySorted Z.lt (codec_id <$> media_codecs m)))
        (filter (λ s, is_Some (media_type_of_name (stream_id s)))
           (call_streams call))
        media.
Proof.
  intros Hmsg.
  apply sipe_media_to_sdpmsg_spec in Hmsg as (_ & media & Hmedia & Hall).
  exists media. split; [done|].
  eapply Forall2_impl; [exact Hall|].
  intros stream m Hm. simpl in Hm. split.
  - by apply media_stream_to_sdpmedia_inv in Hm as (type & ? & _ & Hname & _).
  - by apply (media_stream_to_sdpmedia_codecs sipe_private call).
Qed.

(** The backend reports the ids 8, 0, 8, 101: the section carries 0, 8, 101,
    with the first of the two codecs of id 8. *)
Lemma codecs_unique_first_sorted_witness :
  ∃ msg call' media,
    sipe_media_to_sdpmsg Sample.core
      (Sample.call SIPE_ICE_RFC_5245 [SampleCodecs.stream])
    = Some (msg, call')
    ∧ sdp_media msg = media
    ∧ (λ m, codec_name <$> media_codecs m) <$> media
      = [["PCMU"; "PCMA"; "telephone-event"]]
    ∧ Forall (λ m, NoDup (codec_id <$> media_codecs m)) media.
Proof.
  destruct (sipe_media_to_sdpmsg Sample.core
              (Sample.call SIPE_ICE_RFC_5245 [SampleCodecs.stream]))
    as [[msg call']|] eqn:Hmsg; [|by vm_compute in Hmsg].
  destruct (codecs_unique_first_sorted _ _ _ _ Hmsg)
    as (media & Hmedia & Hall).
  simpl in Hmedia. rewrite app_nil_r in Hmedia.
  exists msg, call', media. split; [done|]. split; [done|]. split.
  - vm_compute in Hmsg. injection Hmsg as <- _. simpl in Hmedia.
    by subst media.
  - eapply Forall2_Forall_r; [exact Hall|].
    apply Forall_true. intros stream m (_ & Hnodup & _). exact Hnodup.
Defined.

(** C4, counterexample: the peer offers a video section in which two codecs
    have the payload id 121 to a call that has an audio stream only.  The
    section fails, and the SDP serialised next carries it with both
    codecs. *)
Lemma codecs_unique_first_sorted_counterexample :
  let call1 :=
    (@apply_remote_message Sample.backend Sample.core SampleSdp.audio_call
       SampleSdp.video_with_equal_ids).1.1.2 in
  ∃ msg call2 m,
    sipe_media_to_sdpmsg Sample.core call1 = Some (msg, call2)
    ∧ sdp_media msg !! 1%nat = Some m
    ∧ media_name m = "video"
    ∧ codec_id <$> media_codecs m = [121; 121]%Z
    ∧ ¬ NoDup (codec_id <$> media_codecs m).
Proof.
  intros call1. eexists _, _, _. split; [reflexivity|].
  split; [reflexivity|]. split; [reflexivity|]. split; [reflexivity|].
  simpl. intros Hnodup. apply NoDup_cons_1_1 in Hnodup.
  apply Hnodup. by left.
Qed.

(** ** Ports of TCP-active and relay candidates *)

Lemma find_tcp_passive_Some c l passive :
  find_tcp_passive c l = Some passive →
  passive ∈ l ∧ matching_tcp_passive c passive.
Proof.
  induction l as [|p l IH]; simpl; [done|].
  destruct (bool_decide _ || bool_decide _) eqn:Hskip.
  { intros Hfind. apply IH in Hfind as [? ?]. split; [by right|done]. }
  apply orb_false_iff in Hskip as [Hproto Htype].
  apply bool_decide_eq_false in Hproto, Htype.
  destruct (sipe_strequal _ _ && sipe_strequal _ _) eqn:Heq.
  - intros [= <-]. split; [by left|].
    apply andb_true_iff in Heq as [Hip Hbase].
    apply bool_decide_eq_true in Hip, Hbase.
    unfold matching_tcp_passive.
    destruct (decide (cand_protocol p = SIPE_NETWORK_PROTOCOL_TCP_PASSIVE));
      [|done].
    destruct (decide (cand_type c = cand_type p)); done.
  - intros Hfind. apply IH in Hfind as [? ?]. split; [by right|done].
Qed.

Lemma find_tcp_passive_None c l passive :
  find_tcp_passive c l = None → passive ∈ l → ¬ matching_tcp_passive c passive.
Proof.
  induction l as [|p l IH]; simpl; [by intros _ ?%elem_of_nil|].
  intros Hfind Hin (Hproto & Htype & Hip & Hbase).
  apply elem_of_cons in Hin as [->|Hin].
  - rewrite bool_decide_eq_false_2 in Hfind by (by intros ?).
    rewrite bool_decide_eq_false_2 in Hfind by (by intros ?).
    simpl in Hfind. unfold sipe_strequal in Hfind.
    by rewrite !bool_decide_eq_true_2 in Hfind.
  - destruct (bool_decide _ || bool_decide _); [by eapply IH|].
    destruct (sipe_strequal _ _ && sipe_strequal _ _); [done|].
    by eapply IH.
Qed.

(** The search only reads TCP-passive candidates: lists that agree on them
    give the same answer. *)
Lemma find_tcp_passive_ext c l l' :
  Forall2 (λ a b, a = b
                  ∨ (cand_protocol a ≠ SIPE_NETWORK_PROTOCOL_TCP_PASSIVE
                     ∧ cand_protocol b ≠ SIPE_NETWORK_PROTOCOL_TCP_PASSIVE))
          l l' →
  find_tcp_passive c l = find_tcp_passive c l'.
Proof.
  induction 1 as [|a b l l' Hab _ IH]; simpl; [done|].
  destruct Hab as [->|[Ha Hb]]; [by rewrite IH|].
  rewrite (bool_decide_eq_true_2 _ Ha), (bool_decide_eq_true_2 _ Hb).
  simpl. exact IH.
Qed.

Lemma tcp_act_filled_protocol l c :
  cand_protocol (tcp_act_filled l c) = cand_protocol c.
Proof.
  unfold tcp_act_filled, inherit_from_passive.
  repeat case_match; done.
Qed.

Lemma tcp_act_filled_passive l c :
  cand_protocol c ≠ SIPE_NETWORK_PROTOCOL_TCP_ACTIVE → tcp_act_filled l c = c.
Proof. intros ?. unfold tcp_act_filled. by rewrite decide_False. Qed.

(** The list in the middle of a loop that has rewritten the first [i]
    candidates with [f]. *)
Lemma partly_mapped_lookup {A} (f : A → A) l i :
  ((f <$> take i l) ++ drop i l) !! i = l !! i.
Proof.
  destruct (decide (i < length l)%nat) as [Hlt|Hge].
  - rewrite lookup_app_r; rewrite length_fmap, length_take_le by lia; [|done].
    rewrite Nat.sub_diag, lookup_drop. by rewrite Nat.add_0_r.
  - rewrite take_ge, drop_ge, app_nil_r by lia.
    rewrite !lookup_ge_None_2; [done|lia|rewrite length_fmap; lia].
Qed.

Lemma partly_mapped_step {A} (f : A → A) l i c :
  l !! i = Some c →
  <[i := f c]> ((f <$> take i l) ++ drop i l)
  = (f <$> take (S i) l) ++ drop (S i) l.
Proof.
  intros Hi. pose proof (lookup_lt_Some _ _ _ Hi) as Hlt.
  rewrite insert_app_r_alt; rewrite length_fmap, length_take_le by lia; [|done].
  rewrite Nat.sub_diag. erewrite drop_S by done. simpl.
  erewrite take_S_r by done. by rewrite fmap_app, <- app_assoc.
Qed.

Lemma partly_mapped_id {A} (f : A → A) l i c :
  l !! i = Some c → f c = c →
  (f <$> take i l) ++ drop i l = (f <$> take (S i) l) ++ drop (S i) l.
Proof.
  intros Hi Hf. rewrite <- (partly_mapped_step f l i c Hi), Hf.
  symmetry. apply list_insert_id. by rewrite partly_mapped_lookup.
Qed.

Lemma partly_mapped_rel {A} (R : A → A → Prop) (f : A → A) l i :
  (∀ a, R a a) → (∀ a, R (f a) a) →
  Forall2 R ((f <$> take i l) ++ drop i l) l.
Proof.
  intros Hrefl Hf. rewrite <- (take_drop i l) at 3. apply Forall2_app.
  - apply Forall2_fmap_l. apply Forall_Forall2_diag. apply Forall_true.
    intros a. apply Hf.
  - apply Forall_Forall2_diag, Forall_true. intros a. apply Hrefl.
Qed.

Lemma partly_mapped_lookup_any {A} (f : A → A) l i k x :
  ((f <$> take i l) ++ drop i l) !! k = Some x →
  ∃ y, l !! k = Some y ∧ (x = y ∨ x = f y).
Proof.
  intros Hk.
  assert (Forall2 (λ a b, a = b ∨ a = f b)
            ((f <$> take i l) ++ drop i l) l) as Hrel
    by (apply partly_mapped_rel; auto).
  destruct (Forall2_lookup_l _ _ _ _ _ Hrel Hk) as (y & ? & ?). eauto.
Qed.

Lemma tcp_passive_host_port_snoc l c ip :
  tcp_passive_host_port (l ++ [c]) ip
  = if decide (cand_protocol c = SIPE_NETWORK_PROTOCOL_TCP_PASSIVE
               ∧ cand_type c = SIPE_CANDIDATE_TYPE_HOST
               ∧ cand_ip c = Some ip)
    then Some (cand_port c)
    else tcp_passive_host_port l ip.
Proof.
  unfold tcp_passive_host_port. rewrite filter_app.
  destruct (decide _) as [Hc|Hc].
  - rewrite filter_cons_True, filter_nil by done. by rewrite last_snoc.
  - rewrite filter_cons_False, filter_nil by done. by rewrite app_nil_r.
Qed.

Lemma ip_to_port_inv_step l i c ip_to_port :
  l !! i = Some c →
  ip_to_port_inv l i ip_to_port →
  (if bool_decide (cand_protocol c = SIPE_NETWORK_PROTOCOL_TCP_PASSIVE)
      && bool_decide (cand_type c = SIPE_CANDIDATE_TYPE_HOST)
   then ∀ ip, cand_ip c = Some ip →
              ip_to_port_inv l (S i) (<[ip := i]> ip_to_port)
   else ip_to_port_inv l (S i) ip_to_port).
Proof.
  intros Hi Hinv.
  destruct (bool_decide _ && bool_decide _) eqn:Hhost.
  - apply andb_true_iff in Hhost as [Hp Ht].
    apply bool_decide_eq_true in Hp, Ht.
    intros ip0 Hip0 ip. erewrite take_S_r by done.
    rewrite tcp_passive_host_port_snoc.
    destruct (decide (ip0 = ip)) as [->|Hne].
    + rewrite lookup_insert_eq, decide_True by done. eauto.
    + rewrite lookup_insert_ne by done.
      rewrite decide_False; [apply Hinv|].
      intros (_ & _ & ?). congruence.
  - intros ip. erewrite take_S_r by done.
    rewrite tcp_passive_host_port_snoc, decide_False; [apply Hinv|].
    intros (Hp & Ht & _).
    by rewrite !bool_decide_eq_true_2 in Hhost.
Qed.

(** The first loop rewrites every candidate with [tcp_act_filled] and fills
    [ip_to_port]. *)
Lemma fill_tcp_active_loop_spec l :
  fill_zero_defined l →
  ∀ fuel i ip_to_port,
    (fuel + i = length l)%nat →
    ip_to_port_inv l i ip_to_port →
    ∃ ip_to_port',
      fill_tcp_active_loop fuel i
        ((tcp_act_filled l <$> take i l) ++ drop i l) ip_to_port
      = Some (tcp_act_filled l <$> l, ip_to_port')
      ∧ ip_to_port_inv l (length l) ip_to_port'.
Proof.
  intros Hdef fuel. induction fuel as [|fuel IH]; intros i tbl Hlen Hinv.
  - simpl in *. subst i. rewrite take_ge, drop_ge, app_nil_r by lia. eauto.
  - simpl. rewrite partly_mapped_lookup.
    destruct (l !! i) as [c|] eqn:Hi;
      [|apply lookup_ge_None in Hi; lia].
    assert (c ∈ l) as Hc by by eapply list_elem_of_lookup_2.
    pose proof (ip_to_port_inv_step l i c tbl Hi Hinv) as Hstep.
    assert (find_tcp_passive c ((tcp_act_filled l <$> take i l) ++ drop i l)
            = find_tcp_passive c l) as Hfind.
    { apply find_tcp_passive_ext, partly_mapped_rel; [by left|].
      intros a. destruct (decide (cand_protocol a
                                  = SIPE_NETWORK_PROTOCOL_TCP_ACTIVE)) as [Ha|Ha].
      - right. rewrite tcp_act_filled_protocol, Ha. done.
      - left. by apply tcp_act_filled_passive. }
    assert (∃ tbl',
              (if bool_decide (cand_protocol c
                               = SIPE_NETWORK_PROTOCOL_TCP_PASSIVE)
                  && bool_decide (cand_type c = SIPE_CANDIDATE_TYPE_HOST)
               then ip ← cand_ip c; Some (<[ip := i]> tbl)
               else Some tbl) = Some tbl'
              ∧ ip_to_port_inv l (S i) tbl') as (tbl' & -> & Hinv').
    { destruct (bool_decide _ && bool_decide _) eqn:Hhost; [|by eauto].
      apply andb_true_iff in Hhost as [Hp Ht].
      apply bool_decide_eq_true in Hp, Ht.
      destruct (Hdef c Hc) as [Hip _].
      destruct (Hip Hp Ht) as [ip Hip']. rewrite Hip'. simpl. eauto. }
    simpl.
    destruct (decide (cand_protocol c ≠ SIPE_NETWORK_PROTOCOL_TCP_ACTIVE))
      as [Hpassive|Hactive].
    + rewrite (partly_mapped_id _ l i c Hi)
        by by apply tcp_act_filled_passive.
      apply IH; [lia|done].
    + assert (cand_protocol c = SIPE_NETWORK_PROTOCOL_TCP_ACTIVE) as Hact
          by by apply dec_stable.
      rewrite Hfind.
      destruct (find_tcp_passive c l) as [passive|] eqn:Hp.
      * replace (inherit_from_passive c passive) with (tcp_act_filled l c)
          by (unfold tcp_act_filled; by rewrite decide_True, Hp).
        rewrite (partly_mapped_step _ l i c Hi). apply IH; [lia|done].
      * rewrite (partly_mapped_id _ l i c Hi)
          by (unfold tcp_act_filled; by rewrite decide_True, Hp).
        apply IH; [lia|done].
Qed.

Lemma tcp_act_filled_fields l c :
  cand_type (tcp_act_filled l c) = cand_type c
  ∧ cand_ip (tcp_act_filled l c) = cand_ip c
  ∧ cand_base_ip (tcp_act_filled l c) = cand_base_ip c.
Proof.
  unfold tcp_act_filled, inherit_from_passive. repeat case_match; done.
Qed.

Lemma relay_base_port_filled_port l c :
  cand_port (relay_base_port_filled l c) = cand_port c.
Proof. unfold relay_base_port_filled. repeat case_match; done. Qed.

(** The second loop rewrites every candidate with
    [relay_base_port_filled]. *)
Lemma fill_relay_base_port_loop_spec l ip_to_port :
  fill_zero_defined l →
  ip_to_port_inv l (length l) ip_to_port →
  let l1 := tcp_act_filled l <$> l in
  ∀ fuel i,
    (fuel + i = length l)%nat →
    fill_relay_base_port_loop fuel i
      ((relay_base_port_filled l <$> take i l1) ++ drop i l1) ip_to_port
    = Some (relay_base_port_filled l <$> l1).
Proof.
  intros Hdef Hinv l1 fuel.
  assert (length l1 = length l) as Hl1 by apply length_fmap.
  induction fuel as [|fuel IH]; intros i Hlen.
  - simpl in *. subst i. by rewrite take_ge, drop_ge, app_nil_r by lia.
  - simpl. rewrite partly_mapped_lookup.
    destruct (l1 !! i) as [c1|] eqn:Hi;
      [|apply lookup_ge_None in Hi; lia].
    assert (∃ c, l !! i = Some c ∧ c1 = tcp_act_filled l c) as (c & Hc & ->).
    { subst l1. rewrite list_lookup_fmap in Hi.
      destruct (l !! i); simplify_eq/=; eauto. }
    assert (c ∈ l) as Hcl by by eapply list_elem_of_lookup_2.
    destruct (tcp_act_filled_fields l c) as (Htype & _ & Hbase).
    unfold relay_base_port_filled at 1 in IH.
    destruct (bool_decide _ && bool_decide _) eqn:Hrelay.
    + apply andb_true_iff in Hrelay as [Hr Hz].
      apply bool_decide_eq_true in Hr.
      destruct (Hdef c Hcl) as [_ Hbip].
      rewrite Htype in Hr. destruct (Hbip Hr) as [bip Hbip'].
      rewrite Hbase, Hbip'. simpl.
      pose proof (Hinv bip) as Hport. rewrite firstn_all in Hport.
      destruct (ip_to_port !! bip) as [k|] eqn:Hk.
      * destruct Hport as (h & Hh & Hpassive & Hport).
        assert (l1 !! k = Some h) as Hh1.
        { subst l1. rewrite list_lookup_fmap, Hh. simpl.
          rewrite tcp_act_filled_passive; [done|]. by rewrite Hpassive. }
        destruct (((relay_base_port_filled l <$> take i l1) ++ drop i l1) !! k)
          as [host|] eqn:Hhost.
        2:{ apply lookup_ge_None in Hhost.
            apply lookup_lt_Some in Hh1.
            rewrite length_app, length_fmap, length_take, length_drop in Hhost.
            lia. }
        simpl.
        apply partly_mapped_lookup_any in Hhost as (y & Hy & Hxy).
        assert (cand_port host = cand_port h) as ->.
        { simplify_eq. destruct Hxy as [->| ->]; [done|].
          apply relay_base_port_filled_port. }
        replace (set_cand_base_port (tcp_act_filled l c) (cand_port h))
          with (relay_base_port_filled l (tcp_act_filled l c)).
        -- rewrite (partly_mapped_step _ l1 i _ Hi). apply IH. lia.
        -- unfold relay_base_port_filled.
           rewrite Htype, bool_decide_eq_true_2, Hz, Hbase, Hbip' by done.
           simpl. by rewrite Hport.
      * rewrite (partly_mapped_id _ l1 i _ Hi); [apply IH; lia|].
        unfold relay_base_port_filled.
        rewrite Htype, bool_decide_eq_true_2, Hz, Hbase, Hbip' by done.
        simpl. by rewrite Hport.
    + rewrite (partly_mapped_id _ l1 i _ Hi); [apply IH; lia|].
      unfold relay_base_port_filled. by rewrite Hrelay.
Qed.

(** The two loops together: every candidate is rewritten on its own, from
    what the list held on entry. *)
Lemma fill_zero_tcp_act_ports_from_tcp_pass_spec l :
  fill_zero_defined l →
  fill_zero_tcp_act_ports_from_tcp_pass l
  = Some ((λ c, relay_base_port_filled l (tcp_act_filled l c)) <$> l).
Proof.
  intros Hdef. unfold fill_zero_tcp_act_ports_from_tcp_pass.
  destruct (fill_tcp_active_loop_spec l Hdef (length l) 0 ∅)
    as (tbl & Hloop & Hinv); [lia| |].
  { intros ip. rewrite lookup_empty. done. }
  rewrite take_0, drop_0 in Hloop. simpl in Hloop. rewrite Hloop. simpl.
  pose proof (fill_relay_base_port_loop_spec l tbl Hdef Hinv
                (length l) 0) as Hloop2.
  rewrite take_0, drop_0 in Hloop2. simpl in Hloop2.
  rewrite length_fmap, Hloop2 by lia.
  by rewrite <- list_fmap_compose.
Qed.

Lemma tcp_passive_host_port_Some l ip port :
  tcp_passive_host_port l ip = Some port →
  ∃ h, h ∈ l
       ∧ cand_protocol h = SIPE_NETWORK_PROTOCOL_TCP_PASSIVE
       ∧ cand_type h = SIPE_CANDIDATE_TYPE_HOST
       ∧ cand_ip h = Some ip
       ∧ cand_port h = port.
Proof.
  unfold tcp_passive_host_port. intros Hport.
  destruct (last _) as [h|] eqn:Hlast; simplify_eq/=.
  apply last_Some_elem_of, list_elem_of_filter in Hlast as [(? & ? & ?) ?].
  eauto 10.
Qed.

Lemma tcp_passive_host_port_None l ip h :
  tcp_passive_host_port l ip = None →
  h ∈ l →
  ¬ (cand_protocol h = SIPE_NETWORK_PROTOCOL_TCP_PASSIVE
     ∧ cand_type h = SIPE_CANDIDATE_TYPE_HOST
     ∧ cand_ip h = Some ip).
Proof.
  unfold tcp_passive_host_port. intros Hport Hin Hh.
  apply fmap_None, last_None in Hport.
  assert (h ∈ filter (λ h, cand_protocol h = SIPE_NETWORK_PROTOCOL_TCP_PASSIVE
                           ∧ cand_type h = SIPE_CANDIDATE_TYPE_HOST
                           ∧ cand_ip h = Some ip) l) as Hf
    by by apply list_elem_of_filter.
  rewrite Hport in Hf. by apply elem_of_nil in Hf.
Qed.

(** The search returns the first matching candidate. *)
Lemma find_tcp_passive_first c l p :
  find_tcp_passive c l = Some p →
  ∃ j, first_matching_tcp_passive l c j p.
Proof.
  unfold first_matching_tcp_passive.
  induction l as [|q l IH]; simpl; [done|].
  assert (find_tcp_passive c l = Some p → ¬ matching_tcp_passive c q →
          ∃ j, (q :: l) !! j = Some p ∧ matching_tcp_passive c p
               ∧ ∀ j' p', (j' < j)%nat → (q :: l) !! j' = Some p' →
                          ¬ matching_tcp_passive c p') as Hskip.
  { intros Hfind Hq. destruct (IH Hfind) as (j & Hj & Hmatch & Hfirst).
    exists (S j). split; [done|]. split; [done|].
    intros [|j'] p' Hlt Hp'; simplify_eq/=; [done|].
    apply (Hfirst j'); [lia|done]. }
  destruct (bool_decide _ || bool_decide _) eqn:Htest.
  { intros Hfind. apply Hskip; [done|]. intros (Hproto & Htype & _).
    apply orb_true_iff in Htest
      as [?%bool_decide_eq_true|?%bool_decide_eq_true]; done. }
  apply orb_false_iff in Htest as [Hproto Htype].
  apply bool_decide_eq_false in Hproto, Htype.
  destruct (sipe_strequal _ _ && sipe_strequal _ _) eqn:Heq.
  - intros [= <-]. exists 0%nat. split; [done|]. split; [|intros; lia].
    apply andb_true_iff in Heq as [Hip Hbase].
    apply bool_decide_eq_true in Hip, Hbase.
    unfold matching_tcp_passive.
    destruct (decide (cand_protocol q = SIPE_NETWORK_PROTOCOL_TCP_PASSIVE));
      [|done].
    destruct (decide (cand_type c = cand_type q)); done.
  - intros Hfind. apply Hskip; [done|]. intros (_ & _ & Hip & Hbase).
    unfold sipe_strequal in Heq.
    by rewrite !bool_decide_eq_true_2 in Heq.
Qed.

Lemma first_matching_tcp_passive_find l c j p :
  first_matching_tcp_passive l c j p → find_tcp_passive c l = Some p.
Proof.
  intros (Hj & Hmatch & Hfirst).
  destruct (find_tcp_passive c l) as [p0|] eqn:Hfind.
  - apply find_tcp_passive_first in Hfind as (j0 & Hj0 & Hmatch0 & Hfirst0).
    destruct (Nat.lt_trichotomy j j0) as [Hlt|[->|Hlt]].
    + by destruct (Hfirst0 j p Hlt Hj).
    + congruence.
    + by destruct (Hfirst j0 p0 Hlt Hj0).
  - destruct (find_tcp_passive_None c l p Hfind); [|done].
    by eapply list_elem_of_lookup_2.
Qed.

Lemma last_filter_position {A} (P : A → Prop) `{!∀ x, Decision (P x)} l h :
  last (filter P l) = Some h →
  ∃ k, l !! k = Some h ∧ P h
       ∧ ∀ k' h', (k < k')%nat → l !! k' = Some h' → ¬ P h'.
Proof.
  induction l as [|x l IH] using rev_ind; [done|].
  rewrite filter_app.
  destruct (decide (P x)) as [Hx|Hx].
  - rewrite filter_cons_True by done. rewrite filter_nil, last_snoc.
    intros [= <-]. exists (length l).
    split; [by rewrite lookup_app_r, Nat.sub_diag by lia|]. split; [done|].
    intros k' h' Hlt Hk'. apply lookup_lt_Some in Hk'.
    rewrite length_app in Hk'. simpl in Hk'. lia.
  - rewrite filter_cons_False by done. rewrite filter_nil, app_nil_r.
    intros Hlast. destruct (IH Hlast) as (k & Hk & Hh & Hlater).
    exists k. split; [by rewrite lookup_app_l by by eapply lookup_lt_Some|].
    split; [done|]. intros k' h' Hlt Hk'.
    destruct (decide (k' < length l)%nat) as [Hin|Hout].
    + rewrite lookup_app_l in Hk' by done. by eapply Hlater.
    + rewrite lookup_app_r in Hk' by lia.
      destruct (k' - length l)%nat; simplify_eq/=. done.
Qed.

Lemma tcp_passive_host_port_last l ip port :
  tcp_passive_host_port l ip = Some port →
  ∃ k h, last_tcp_passive_host l ip k h ∧ cand_port h = port.
Proof.
  unfold tcp_passive_host_port. intros Hport.
  destruct (last _) as [h|] eqn:Hlast; simplify_eq/=.
  apply last_filter_position in Hlast as (k & Hk & Hh & Hlater).
  by exists k, h.
Qed.

(** C6 (as the code has it): on candidates whose addresses are set where the
    hash table needs them, the normalisation returns, and
    - every TCP-active candidate advertised with port 0 for which the list
      has a TCP-passive candidate of its type with its IP and its base IP
      takes the port of the first such candidate;
    - a relay candidate without base port that is TCP-active and whose
      first such candidate has a base port takes that base port;
    - every other relay candidate without base port takes as base port the
      port of the last TCP-passive host candidate whose IP is the base IP of
      the relay candidate, and keeps base port 0 when the list has no such
      host candidate. *)
Theorem fill_zero_tcp_act_ports_inherit l :
  fill_zero_defined l →
  ∃ r,
    fill_zero_tcp_act_ports_from_tcp_pass l = Some r
    ∧ length r = length l
    ∧ ∀ i c, l !! i = Some c →
        ∃ c',
          r !! i = Some c'
          ∧ (cand_protocol c = SIPE_NETWORK_PROTOCOL_TCP_ACTIVE →
             cand_port c = 0%Z →
             (∃ p, p ∈ l ∧ matching_tcp_passive c p) →
             ∃ j p, first_matching_tcp_passive l c j p
                    ∧ cand_port c' = cand_port p)
          ∧ (cand_type c = SIPE_CANDIDATE_TYPE_RELAY →
             cand_base_port c = 0%Z →
             (∀ j p, cand_protocol c = SIPE_NETWORK_PROTOCOL_TCP_ACTIVE →
                     first_matching_tcp_passive l c j p →
                     cand_base_port p ≠ 0%Z →
                     cand_base_port c' = cand_base_port p)
             ∧ (cand_protocol c ≠ SIPE_NETWORK_PROTOCOL_TCP_ACTIVE
                ∨ (∀ p, p ∈ l → ¬ matching_tcp_passive c p)
                ∨ (∃ j p, first_matching_tcp_passive l c j p
                          ∧ cand_base_port p = 0%Z) →
                ∀ ip, cand_base_ip c = Some ip →
                  (∃ k h, last_tcp_passive_host l ip k h
                          ∧ cand_base_port c' = cand_port h)
                  ∨ ((∀ h, h ∈ l → ¬ tcp_passive_host ip h)
                     ∧ cand_base_port c' = 0%Z))).
Proof.
  intros Hdef. eexists. split; [by apply fill_zero_tcp_act_ports_from_tcp_pass_spec|].
  split; [by rewrite length_fmap|].
  intros i c Hi. eexists. split; [by rewrite list_lookup_fmap, Hi|].
  split; [|intros Hrelay Hzero; split].
  - intros Hact Hport (p0 & Hp0 & Hmatch0).
    destruct (find_tcp_passive c l) as [p|] eqn:Hfind;
      [|by destruct (find_tcp_passive_None c l p0 Hfind Hp0)].
    destruct (find_tcp_passive_first c l p Hfind) as (j & Hfirst).
    exists j, p. split; [done|].
    rewrite relay_base_port_filled_port. unfold tcp_act_filled.
    rewrite decide_True, Hfind by done. unfold inherit_from_passive.
    rewrite (decide_True (P := cand_port c = 0%Z)) by done.
    by destruct (decide _).
  - intros j p Hact Hfirst Hbase.
    apply first_matching_tcp_passive_find in Hfirst.
    unfold tcp_act_filled. rewrite decide_True, Hfirst by done.
    unfold inherit_from_passive, relay_base_port_filled.
    destruct (decide (cand_port c = 0%Z)); simpl;
      rewrite decide_True by done; simpl;
      rewrite (bool_decide_eq_false_2 (cand_base_port p = 0%Z)) by done;
      by rewrite andb_false_r.
  - intros Hcase ip Hip.
    assert (∃ c2, tcp_act_filled l c = c2
                  ∧ cand_type c2 = SIPE_CANDIDATE_TYPE_RELAY
                  ∧ cand_base_port c2 = 0%Z
                  ∧ cand_base_ip c2 = Some ip) as (c2 & -> & Htype & Hbase & Hbip).
    { eexists. split; [done|].
      destruct (tcp_act_filled_fields l c) as (-> & _ & ->).
      split; [done|]. split; [|done].
      unfold tcp_act_filled.
      destruct (decide (cand_protocol c = SIPE_NETWORK_PROTOCOL_TCP_ACTIVE))
        as [Hact|]; [|done].
      destruct Hcase as [?|[Hnone|(j & p & Hfirst & Hpbase)]]; [done| |].
      - destruct (find_tcp_passive c l) as [p|] eqn:Hfind; [|done].
        apply find_tcp_passive_Some in Hfind as [Hp Hmatch].
        by destruct (Hnone p Hp).
      - apply first_matching_tcp_passive_find in Hfirst. rewrite Hfirst.
        unfold inherit_from_passive.
        destruct (decide (cand_port c = 0%Z)); simpl;
          by rewrite decide_True by done. }
    unfold relay_base_port_filled.
    rewrite !bool_decide_eq_true_2, Hbip by done. simpl.
    destruct (tcp_passive_host_port l ip) as [port|] eqn:Hport.
    + left. apply tcp_passive_host_port_last in Hport as (k & h & Hlast & <-).
      by exists k, h.
    + right. split; [|done]. intros h Hh.
      by eapply tcp_passive_host_port_None.
Qed.

(** The TCP-active host candidate takes port 5002 from the TCP-passive one,
    and the TCP-passive relay candidate takes 5002 as its base port. *)
Lemma fill_zero_tcp_act_ports_inherit_witness :
  let l := [SampleCandidates.host_tcp_act; SampleCandidates.host_tcp_pass;
            SampleCandidates.relay_tcp_pass] in
  ∃ r,
    fill_zero_tcp_act_ports_from_tcp_pass l = Some r
    ∧ cand_port <$> r = [5002; 5002; 6002]%Z
    ∧ cand_base_port <$> r = [0; 0; 5002]%Z.
Proof.
  intros l.
  destruct (fill_zero_tcp_act_ports_inherit l) as (r & Hr & _ & _).
  - intros c Hc. unfold l in Hc.
    repeat (apply elem_of_cons in Hc as [->|Hc]);
      try (by apply elem_of_nil in Hc); simpl; split; intros; by eexists.
  - exists r. split; [exact Hr|].
    vm_compute in Hr. by injection Hr as <-.
Defined.

(** C6, counterexample: three runs.  With a UDP host candidate only, a relay
    candidate with the base IP of the host candidate and no base port is left
    without base port, although the host candidate has base port 5000.  With
    a TCP-passive host candidate of port 5002 and base port 0, the relay
    candidate gets base port 5002: the port of the host candidate, not its
    base port.  A TCP-active relay candidate without base port next to a
    TCP-passive relay candidate with its addresses gets the base port 7000
    of that candidate, although a TCP-passive host candidate has the base IP
    of the relay candidate as its IP. *)
Lemma fill_zero_tcp_act_ports_counterexample :
  (fill_zero_tcp_act_ports_from_tcp_pass
     [SampleCandidates.host_udp; SampleCandidates.relay_udp]
   = Some [SampleCandidates.host_udp; SampleCandidates.relay_udp]
   ∧ cand_type SampleCandidates.relay_udp = SIPE_CANDIDATE_TYPE_RELAY
   ∧ cand_base_port SampleCandidates.relay_udp = 0%Z
   ∧ cand_type SampleCandidates.host_udp = SIPE_CANDIDATE_TYPE_HOST
   ∧ cand_base_ip SampleCandidates.host_udp
     = cand_base_ip SampleCandidates.relay_udp
   ∧ cand_base_port SampleCandidates.host_udp = 5000%Z)
  ∧ (fill_zero_tcp_act_ports_from_tcp_pass
       [SampleCandidates.host_tcp_pass; SampleCandidates.relay_udp]
     = Some [SampleCandidates.host_tcp_pass;
             set_cand_base_port SampleCandidates.relay_udp 5002]
     ∧ cand_base_port SampleCandidates.host_tcp_pass = 0%Z
     ∧ cand_port SampleCandidates.host_tcp_pass = 5002%Z)
  ∧ ((λ r : list sdpcandidate, cand_base_port <$> r)
       <$> fill_zero_tcp_act_ports_from_tcp_pass
             [SampleCandidates.host_tcp_pass;
              SampleCandidates.relay_tcp_pass_based;
              SampleCandidates.relay_tcp_act]
     = Some [0; 7000; 7000]%Z
     ∧ cand_type SampleCandidates.relay_tcp_act = SIPE_CANDIDATE_TYPE_RELAY
     ∧ cand_base_port SampleCandidates.relay_tcp_act = 0%Z
     ∧ cand_ip SampleCandidates.host_tcp_pass
       = cand_base_ip SampleCandidates.relay_tcp_act
     ∧ cand_port SampleCandidates.host_tcp_pass = 5002%Z
     ∧ cand_base_port SampleCandidates.host_tcp_pass = 0%Z).
Proof. by vm_compute. Qed.

(** ** Mistagged TCP candidates *)

Lemma filter_ext_elem {A} (P Q : A → Prop) `{!∀ x, Decision (P x)}
    `{!∀ x, Decision (Q x)} (l : list A) :
  (∀ x, x ∈ l → P x ↔ Q x) → filter P l = filter Q l.
Proof.
  induction l as [|x l IH]; intros Hext; [done|].
  rewrite !filter_cons.
  rewrite IH by (intros y Hy; apply Hext; by right).
  destruct (decide (P x)) as [HP|HP], (decide (Q x)) as [HQ|HQ]; try done.
  - destruct HQ. apply Hext; [by left|done].
  - destruct HP. apply Hext; [by left|done].
Qed.

Lemma node_elem (l : list sdpcandidate) n :
  n ∈ imap (λ i c, (i, c)) l ↔ l !! n.1 = Some n.2.
Proof.
  rewrite elem_of_lookup_imap. destruct n as [k c]. simpl. split.
  - by intros (i & y & [= -> ->] & ?).
  - intros ?. by exists k, c.
Qed.

Lemma existsb_elem {A} (g : A → bool) l :
  existsb g l = true ↔ ∃ x, x ∈ l ∧ g x = true.
Proof.
  rewrite existsb_exists. by setoid_rewrite list_elem_of_In.
Qed.

Lemma discarded_snoc l c n :
  discarded (l ++ [c]) n
  = discarded l n
    || (bool_decide (cand_protocol n.2 = SIPE_NETWORK_PROTOCOL_UDP)
        && wrong_partner n (length l, c)).
Proof.
  unfold discarded. rewrite imap_app, existsb_app. simpl.
  rewrite Nat.add_0_r, orb_false_r. by rewrite andb_orb_distrib_r.
Qed.

Section list_find_snoc.

Context {A} (P : A → Prop) `{!∀ x, Decision (P x)}.

Lemma list_find_snoc_not l c : ¬ P c → list_find P (l ++ [c]) = list_find P l.
Proof.
  intros Hc. destruct (list_find P l) as [[i x]|] eqn:Hfind.
  - by apply list_find_app_l.
  - rewrite list_find_app_r by done. simpl. by rewrite decide_False.
Qed.

Lemma list_find_snoc_new l c :
  list_find P l = None → P c → list_find P (l ++ [c]) = Some (length l, c).
Proof.
  intros Hfind Hc. rewrite list_find_app_r by done. simpl.
  by rewrite decide_True.
Qed.

End list_find_snoc.

Lemma wrong_partner_true n p :
  wrong_partner n p = true
  ↔ p.1 ≠ n.1
    ∧ cand_protocol p.2 = SIPE_NETWORK_PROTOCOL_UDP
    ∧ cand_foundation p.2 = cand_foundation n.2
    ∧ (if decide (p.1 < n.1)%nat then wrong_udp_pair n.2 p.2
       else wrong_udp_pair p.2 n.2) = true.
Proof.
  unfold wrong_partner.
  rewrite !andb_true_iff, !bool_decide_eq_true. tauto.
Qed.

Lemma discarded_true l n :
  discarded l n = true
  ↔ cand_protocol n.2 = SIPE_NETWORK_PROTOCOL_UDP
    ∧ ∃ j cj, l !! j = Some cj ∧ wrong_partner n (j, cj) = true.
Proof.
  unfold discarded. rewrite andb_true_iff, bool_decide_eq_true, existsb_elem.
  split.
  - intros [Hu (p & Hp & Hw)]. split; [done|].
    apply node_elem in Hp. destruct p as [j cj]. eauto.
  - intros [Hu (j & cj & Hj & Hw)]. split; [done|].
    exists (j, cj). split; [by apply node_elem|done].
Qed.

(** One iteration keeps the invariant, as long as no foundation is shared by
    three UDP candidates. *)
Lemma remove_wrong_step_inv l m c st :
  foundations_in_pairs l →
  l !! m = Some c →
  farstream_inv l m st →
  ∃ st', remove_wrong_step st (m, c) = Some st' ∧ farstream_inv l (S m) st'.
Proof.
  intros Hpairs Hm [Hcur Htbl].
  pose proof (lookup_lt_Some _ _ _ Hm) as Hlt.
  assert (length (take m l) = m) as Hlen by (rewrite length_take; lia).
  assert (take (S m) l = take m l ++ [c]) as Htake by by erewrite take_S_r.
  set (l' := take m l) in *.
  assert (∀ j cj, l' !! j = Some cj → l !! j = Some cj ∧ (j < m)%nat) as Hl'.
  { intros j cj Hj. subst l'. apply lookup_take_Some in Hj. tauto. }
  (* what the new candidate adds to the discarded ones *)
  assert (∀ n, discarded (take (S m) l) n
               = discarded l' n
                 || (bool_decide (cand_protocol n.2 = SIPE_NETWORK_PROTOCOL_UDP)
                     && wrong_partner n (m, c))) as Hsnoc.
  { intros n. by rewrite Htake, discarded_snoc, Hlen. }
  unfold remove_wrong_step.
  destruct (decide (cand_protocol c = SIPE_NETWORK_PROTOCOL_UDP)) as [Hudp|Hudp].
  2:{ (* not a UDP candidate *)
    exists st. split; [done|]. split.
    - rewrite Hcur. apply filter_ext_elem. intros n Hn.
      apply node_elem in Hn. rewrite Hsnoc.
      assert (wrong_partner n (m, c) = false) as ->.
      { apply not_true_is_false. rewrite wrong_partner_true. simpl. tauto. }
      rewrite andb_false_r, orb_false_r.
      destruct (decide (n.1 = m)) as [Hnm|Hnm].
      + assert (n.2 = c) as Hn2 by congruence.
        rewrite !bool_decide_eq_false_2 by lia. simpl.
        rewrite bool_decide_eq_true_2 by lia. simpl.
        unfold discarded. rewrite Hn2, bool_decide_eq_false_2 by done. done.
      + destruct (decide (n.1 < m)%nat).
        * by rewrite !bool_decide_eq_true_2 by lia.
        * by rewrite !bool_decide_eq_false_2 by lia.
    - intros f. rewrite Htbl, Htake. symmetry. apply list_find_snoc_not.
      tauto. }
  (* a UDP candidate *)
  rewrite Htbl.
  destruct (list_find _ l') as [[j cj]|] eqn:Hfind.
  2:{ (* the first of its foundation *)
    eexists. split; [done|]. split; simpl.
    - rewrite Hcur. apply filter_ext_elem. intros n Hn.
      apply node_elem in Hn. rewrite Hsnoc.
      assert (∀ p, l' !! p.1 = Some p.2 →
                   cand_protocol p.2 = SIPE_NETWORK_PROTOCOL_UDP →
                   cand_foundation p.2 = cand_foundation c → False) as Hnone.
      { intros p Hp Hu Hf. apply list_find_None in Hfind.
        rewrite Forall_forall in Hfind.
        apply (Hfind p.2); [by eapply list_elem_of_lookup_2|done]. }
      destruct (decide (n.1 < m)%nat) as [Hk|Hk].
      + rewrite !bool_decide_eq_true_2 by lia. simpl.
        assert (bool_decide (cand_protocol n.2 = SIPE_NETWORK_PROTOCOL_UDP)
                && wrong_partner n (m, c) = false) as ->;
          [|by rewrite orb_false_r].
        apply not_true_is_false.
        rewrite andb_true_iff, bool_decide_eq_true, wrong_partner_true. simpl.
        intros (Hu & _ & _ & Hf & _).
        apply (Hnone n); [|done|done].
        subst l'. apply lookup_take_Some. split; [done|lia].
      + rewrite (bool_decide_eq_false_2 (n.1 < m)%nat) by lia. simpl.
        destruct (decide (n.1 = m)) as [Hnm|Hnm];
          [|by rewrite bool_decide_eq_false_2 by lia].
        rewrite bool_decide_eq_true_2 by lia. simpl.
        split; [intros _|done].
        apply orb_false_iff. split.
        * apply not_true_is_false. rewrite discarded_true.
          intros (_ & j & cj & Hj & Hw).
          apply wrong_partner_true in Hw as (_ & Hu & Hf & _). simpl in *.
          apply (Hnone (j, cj)); [done|done|]. simpl. congruence.
        * apply not_true_is_false.
          rewrite andb_true_iff, wrong_partner_true. simpl.
          intros (_ & Hne & _). lia.
    - intros f. rewrite Htake.
      destruct (decide (cand_foundation c = f)) as [<-|Hf].
      + rewrite lookup_insert_eq. symmetry.
        rewrite <- Hlen at 1. by apply list_find_snoc_new.
      + rewrite lookup_insert_ne, Htbl by done. symmetry.
        apply list_find_snoc_not. tauto. }
  (* a second candidate of the foundation *)
  pose proof Hfind as Hfind'.
  apply list_find_Some in Hfind as (Hj & [Hju Hjf] & Hfirst).
  destruct (Hl' j cj Hj) as [Hjl Hjm].
  assert (∀ p, l' !! p.1 = Some p.2 →
               cand_protocol p.2 = SIPE_NETWORK_PROTOCOL_UDP →
               cand_foundation p.2 = cand_foundation c → p = (j, cj)) as Huniq.
  { intros [j' cj'] Hp Hu Hf. simpl in *.
    destruct (Hl' j' cj' Hp) as [Hpl Hpm].
    destruct (decide (j' = j)) as [->|Hne]; [congruence|].
    destruct (decide (j' < j)%nat) as [Hless|Hmore].
    - destruct (Hfirst j' cj' Hp Hless). done.
    - destruct (Hpairs j j' m cj cj' c); try done; [lia|congruence]. }
  assert (discarded l' (j, cj) = false) as Hjkept.
  { apply not_true_is_false. rewrite discarded_true.
    intros (_ & j' & cj' & Hj' & Hw).
    apply wrong_partner_true in Hw as (Hne & Hu & Hf & _). simpl in *.
    assert ((j', cj') = (j, cj)) as [= ? ?]; [|done].
    apply Huniq; [done|done|simpl; congruence]. }
  rewrite decide_True.
  2:{ apply list_elem_of_fmap. exists (j, cj). split; [done|].
      rewrite Hcur. apply list_elem_of_filter. split.
      - by rewrite Hjkept, andb_false_r.
      - by apply node_elem. }
  assert (∀ n, l !! n.1 = Some n.2 → (n.1 < m)%nat →
               bool_decide (cand_protocol n.2 = SIPE_NETWORK_PROTOCOL_UDP)
               && wrong_partner n (m, c)
               = bool_decide (n.1 = j) && wrong_udp_pair c cj) as Hadd.
  { intros n Hn Hk.
    destruct (decide (n.1 = j)) as [Hnj|Hnj].
    - assert (n.2 = cj) as Hn2 by congruence.
      rewrite (bool_decide_eq_true_2 (n.1 = j)) by done.
      unfold wrong_partner. simpl. rewrite Hn2.
      rewrite !bool_decide_eq_true_2 by (try done; lia).
      rewrite decide_False by lia. done.
    - rewrite (bool_decide_eq_false_2 (n.1 = j)) by done. simpl.
      apply not_true_is_false.
      rewrite andb_true_iff, bool_decide_eq_true, wrong_partner_true. simpl.
      intros (Hu & _ & _ & Hf & _). apply Hnj.
      assert (n = (j, cj)) as ->; [|done].
      apply Huniq; [|done|done].
      subst l'. apply lookup_take_Some. split; [done|lia]. }
  assert (discarded l' (m, c) = wrong_udp_pair c cj) as Hnew.
  { destruct (wrong_udp_pair c cj) eqn:Hw.
    - rewrite discarded_true. split; [done|]. exists j, cj. split; [done|].
      rewrite wrong_partner_true. simpl. rewrite decide_True by lia.
      split; [lia|]. split; [done|]. split; [congruence|done].
    - apply not_true_is_false. rewrite discarded_true.
      intros (_ & j' & cj' & Hj' & Hw').
      apply wrong_partner_true in Hw' as (Hne & Hu & Hf & Hw'). simpl in *.
      assert ((j', cj') = (j, cj)) as [= -> ->] by by apply Huniq.
      rewrite decide_True in Hw' by lia. congruence. }
  assert (wrong_partner (m, c) (m, c) = false) as Hself.
  { apply not_true_is_false. rewrite wrong_partner_true. simpl. tauto. }
  assert (∀ f, list_find (λ x, cand_protocol x = SIPE_NETWORK_PROTOCOL_UDP
                               ∧ cand_foundation x = f) l'
               = list_find (λ x, cand_protocol x = SIPE_NETWORK_PROTOCOL_UDP
                                 ∧ cand_foundation x = f) (take (S m) l))
    as Htbl'.
  { intros f. rewrite Htake.
    destruct (decide (cand_foundation c = f)) as [<-|Hf].
    - rewrite Hfind'. symmetry. by apply list_find_app_l.
    - symmetry. apply list_find_snoc_not. tauto. }
  destruct (wrong_udp_pair c cj) eqn:Hwrong.
  - (* the pair is discarded *)
    eexists. split; [done|]. split; simpl; [|by intros f; rewrite Htbl, Htbl'].
    unfold g_list_remove_node. rewrite Hcur, !list_filter_filter.
    apply filter_ext_elem. intros n Hn. apply node_elem in Hn. rewrite Hsnoc.
    destruct (decide (n.1 < m)%nat) as [Hk|Hk].
    + rewrite Hadd by done. rewrite !bool_decide_eq_true_2 by lia.
      destruct (decide (n.1 = j)) as [Hnj|Hnj].
      * rewrite (bool_decide_eq_true_2 (n.1 = j)) by done.
        destruct (discarded l' n); simpl; intuition (congruence || lia).
      * rewrite (bool_decide_eq_false_2 (n.1 = j)) by done.
        destruct (discarded l' n); simpl; intuition (congruence || lia).
    + rewrite (bool_decide_eq_false_2 (n.1 < m)%nat) by lia.
      destruct (decide (n.1 = m)) as [Hnm|Hnm].
      * rewrite bool_decide_eq_true_2 by lia.
        assert (n = (m, c)) as -> by (destruct n; simpl in *; congruence).
        rewrite Hnew. simpl. intuition (congruence || lia).
      * rewrite bool_decide_eq_false_2 by lia. simpl.
        intuition (congruence || lia).
  - (* the pair is kept *)
    exists st. split; [done|]. split; [|by intros f; rewrite Htbl, Htbl'].
    rewrite Hcur. apply filter_ext_elem. intros n Hn.
    apply node_elem in Hn. rewrite Hsnoc.
    destruct (decide (n.1 < m)%nat) as [Hk|Hk].
    + rewrite Hadd by done. rewrite andb_false_r, orb_false_r.
      by rewrite !bool_decide_eq_true_2 by lia.
    + rewrite (bool_decide_eq_false_2 (n.1 < m)%nat) by lia.
      destruct (decide (n.1 = m)) as [Hnm|Hnm].
      * rewrite bool_decide_eq_true_2 by lia.
        assert (n = (m, c)) as -> by (destruct n; simpl in *; congruence).
        rewrite Hnew, Hself. simpl. by rewrite andb_false_r.
      * rewrite bool_decide_eq_false_2 by lia. simpl. done.
Qed.

Lemma remove_wrong_loop_cons node next st :
  remove_wrong_loop (node :: next) st
  = remove_wrong_step st node ≫= remove_wrong_loop next.
Proof. done. Qed.

Lemma remove_wrong_loop_inv l :
  foundations_in_pairs l →
  ∀ fuel m st,
    (fuel + m = length l)%nat →
    farstream_inv l m st →
    ∃ st',
      remove_wrong_loop (drop m (imap (λ i c, (i, c)) l)) st = Some st'
      ∧ farstream_inv l (length l) st'.
Proof.
  intros Hpairs fuel. induction fuel as [|fuel IH]; intros m st Hlen Hinv.
  - simpl in Hlen. subst m. rewrite drop_ge by (rewrite length_imap; lia).
    simpl. eauto.
  - destruct (l !! m) as [c|] eqn:Hm; [|apply lookup_ge_None in Hm; lia].
    erewrite drop_S by (by rewrite list_lookup_imap, Hm).
    rewrite remove_wrong_loop_cons.
    destruct (remove_wrong_step_inv l m c st Hpairs Hm Hinv)
      as (st1 & -> & Hinv1).
    simpl. apply IH; [lia|done].
Qed.

(** C5 (as the code has it): when no foundation is shared by three UDP
    candidates, the normalisation returns the candidates in their order
    without the discarded ones, and a candidate is discarded exactly when it
    is a UDP candidate for which another UDP candidate of the same foundation
    exists such that the two have equal port, or equal base port while the
    later of the two is not a host candidate.  The IP addresses of the
    candidates play no part. *)
Theorem remove_wrong_farstream_pairs l :
  foundations_in_pairs l →
  remove_wrong_farstream_0_1_tcp_candidates l
  = Some (snd <$> filter (λ n, discarded l n = false)
                    (imap (λ i c, (i, c)) l))
  ∧ ∀ k c,
      l !! k = Some c →
      (discarded l (k, c) = true
       ↔ cand_protocol c = SIPE_NETWORK_PROTOCOL_UDP
         ∧ ∃ j cj,
             l !! j = Some cj ∧ j ≠ k
             ∧ cand_protocol cj = SIPE_NETWORK_PROTOCOL_UDP
             ∧ cand_foundation cj = cand_foundation c
             ∧ (if decide (j < k)%nat then wrong_udp_pair c cj
                else wrong_udp_pair cj c) = true).
Proof.
  intros Hpairs. split.
  - unfold remove_wrong_farstream_0_1_tcp_candidates.
    destruct (remove_wrong_loop_inv l Hpairs (length l) 0
                {| fs_candidates := imap (λ i c, (i, c)) l;
                   fs_foundation_to_candidate := ∅ |})
      as (st & Hloop & Hcur & _); [lia| |].
    { split; simpl; [|by intros f; rewrite lookup_empty].
      induction (imap _ l) as [|n nodes IH]; [done|].
      rewrite filter_cons_True by done. by rewrite <- IH. }
    rewrite drop_0 in Hloop. rewrite Hloop. simpl. do 2 f_equal.
    rewrite Hcur, firstn_all. apply filter_ext_elem. intros n Hn.
    apply node_elem, lookup_lt_Some in Hn.
    by rewrite bool_decide_eq_true_2.
  - intros k c Hk. rewrite discarded_true. simpl.
    setoid_rewrite wrong_partner_true. simpl. naive_solver.
Qed.

(** Positions of a list given explicitly. *)
Local Ltac lookup_cases H i :=
  destruct i as [|i]; simpl in H;
  [injection H as <- | first [discriminate H | lookup_cases H i]].

(** Between a TCP-passive host candidate and a UDP relay candidate, the RTP
    and RTCP candidates of foundation "7" share port 7000: they are
    discarded, the other two are kept. *)
Lemma remove_wrong_farstream_pairs_witness :
  remove_wrong_farstream_0_1_tcp_candidates
    [SampleCandidates.pair_a_rtp; SampleCandidates.host_tcp_pass;
     SampleCandidates.pair_a_rtcp; SampleCandidates.relay_udp]
  = Some [SampleCandidates.host_tcp_pass; SampleCandidates.relay_udp].
Proof.
  destruct (remove_wrong_farstream_pairs
              [SampleCandidates.pair_a_rtp; SampleCandidates.host_tcp_pass;
               SampleCandidates.pair_a_rtcp; SampleCandidates.relay_udp])
    as [-> _]; [|reflexivity].
  intros i j k ci cj ck Hi Hj Hk Hij Hjk Hui Huj Huk Hfij Hfjk.
  lookup_cases Hi i; lookup_cases Hj j; lookup_cases Hk k;
    simpl in *; try lia; try done.
Defined.

(** C5, counterexample: four UDP host candidates.  The two of foundation "7"
    are on one IP and share port 7000; the two of foundation "8" share port
    7100 but are on different IPs.  All four are discarded. *)
Lemma remove_wrong_farstream_counterexample :
  remove_wrong_farstream_0_1_tcp_candidates
    [SampleCandidates.pair_a_rtp; SampleCandidates.pair_a_rtcp;
     SampleCandidates.pair_b_rtp; SampleCandidates.pair_b_rtcp]
  = Some []
  ∧ cand_ip SampleCandidates.pair_a_rtp = cand_ip SampleCandidates.pair_a_rtcp
  ∧ cand_port SampleCandidates.pair_a_rtp
    = cand_port SampleCandidates.pair_a_rtcp
  ∧ cand_ip SampleCandidates.pair_b_rtp ≠ cand_ip SampleCandidates.pair_b_rtcp.
Proof. by vm_compute. Qed.

(** ** Failed media sections *)

Section failed_media_properties.

Context `{!Backend}.

Lemma store_stream_ids call k s s' :
  call_streams call !! k = Some s →
  stream_id s' = stream_id s →
  stream_id <$> call_streams (store_stream call k s')
  = stream_id <$> call_streams call.
Proof.
  intros Hk Hid. unfold store_stream. simpl.
  rewrite list_fmap_insert, Hid. apply list_insert_id.
  by rewrite list_lookup_fmap, Hk.
Qed.

Lemma remove_stream_ids call k :
  stream_id <$> call_streams (remove_stream call k)
  = delete k (stream_id <$> call_streams call).
Proof. unfold remove_stream. simpl. apply list_fmap_delete. Qed.

Lemma delete_NoDup_not_elem_of {A} (l : list A) k x :
  NoDup l → l !! k = Some x → x ∉ delete k l.
Proof.
  intros Hnodup Hk. apply delete_Permutation in Hk.
  rewrite Hk in Hnodup. by apply NoDup_cons_1_1 in Hnodup.
Qed.

(** Applying one section adds no stream: the streams are the ones of
    before, or these without the stream of the section, which is gone
    whenever the section fails.  The list of failed sections is left
    alone. *)
Lemma update_call_from_remote_sdp_frame call media :
  let '(ok, call', _) := update_call_from_remote_sdp call media in
  stream_id <$> call_streams call' `sublist_of` stream_id <$> call_streams call
  ∧ (ok = false → NoDup (stream_id <$> call_streams call) →
     media_name media ∉ stream_id <$> call_streams call')
  ∧ call_failed_media call' = call_failed_media call
  ∧ call_id call' = call_id call.
Proof.
  unfold update_call_from_remote_sdp, sipe_core_media_get_stream_by_id,
    stream_end_cb.
  destruct (decide (media_port media = 0%Z)).
  { destruct (list_find _ _) as [[? ?]|]; [|done].
    split; [|done]. rewrite remove_stream_ids. apply sublist_delete. }
  destruct (list_find _ _) as [[k s]|] eqn:Hfind.
  2:{ split; [done|]. split; [|done]. intros _ _.
      apply list_find_None in Hfind. intros Hin.
      apply list_elem_of_fmap in Hin as (s & Hs & Hin).
      by eapply Forall_forall in Hfind. }
  apply list_find_Some in Hfind as (Hk & Hname & _).
  assert (∀ s', stream_id s' = stream_id s →
                stream_id <$> <[k:=s']> (call_streams call)
                = stream_id <$> call_streams call) as Hstore.
  { intros s' Hid. rewrite list_fmap_insert, Hid. apply list_insert_id.
    by rewrite list_lookup_fmap, Hk. }
  repeat case_match; simplify_eq/=;
    rewrite ?list_fmap_delete, ?Hstore by done;
    (split; [done || apply sublist_delete|]); (split; [|done]);
    try done; intros _ Hnodup;
    (eapply delete_NoDup_not_elem_of; [done|]);
    rewrite list_lookup_fmap, Hk; simpl; congruence.
Qed.

(** The first loop of [apply_remote_message]: the sections it marks as
    failed are the ones it appends to [failed_media], with port 0; no stream
    is added, and no stream is left for a section that failed. *)
Lemma apply_remote_message_loop_spec sipe_private call media :
  let '(call', marked, _) :=
    apply_remote_message_loop sipe_private call media in
  stream_id <$> call_streams call' `sublist_of` stream_id <$> call_streams call
  ∧ call_failed_media call'
    = call_failed_media call ++ (fst <$> filter (λ x : sdpmedia * bool, x.2 = true) marked)
  ∧ Forall2 (λ m (mk : sdpmedia * bool),
               mk.1 = if mk.2 then set_media_port m 0 else m)
      media marked
  ∧ (NoDup (stream_id <$> call_streams call) →
     Forall (λ mk : sdpmedia * bool,
               mk.2 = true → media_name mk.1 ∉ stream_id <$> call_streams call')
       marked).
Proof.
  revert call. induction media as [|m media IH]; intros call; simpl.
  { by rewrite app_nil_r. }
  match goal with
  | |- context [update_call_from_remote_sdp ?c m] => set (call0 := c)
  end.
  assert (stream_id <$> call_streams call0 = stream_id <$> call_streams call
          ∧ call_failed_media call0 = call_failed_media call) as [Hids0 Hf0].
  { subst call0. by destruct (_ && _). }
  pose proof (update_call_from_remote_sdp_frame call0 m) as Hframe.
  destruct (update_call_from_remote_sdp call0 m) as [[ok call1] evs].
  destruct Hframe as (Hids1 & Hgone & Hf1 & _). rewrite Hids0 in Hids1, Hgone.
  destruct ok; simpl.
  - specialize (IH call1).
    destruct (apply_remote_message_loop sipe_private call1 media)
      as [[call2 marked] evs2].
    destruct IH as (Hids2 & Hf2 & Hmarked & Hnone). simpl.
    split; [by etrans|]. split; [by rewrite Hf2, Hf1, Hf0|].
    split; [by constructor|]. intros Hnodup. constructor; [done|].
    apply Hnone. by eapply sublist_NoDup.
  - specialize (IH (set_call_failed_media call1
                      (call_failed_media call1 ++ [set_media_port m 0]))).
    destruct (apply_remote_message_loop sipe_private _ media)
      as [[call2 marked] evs2].
    destruct IH as (Hids2 & Hf2 & Hmarked & Hnone). simpl in *.
    split; [by etrans|]. split; [|split; [by constructor|]].
    { rewrite Hf2, Hf1, Hf0, <- app_assoc. done. }
    intros Hnodup. constructor.
    + intros _ Hin. eapply Hgone; [done|done|]. by eapply elem_of_sublist.
    + apply Hnone. by eapply sublist_NoDup.
Qed.

End failed_media_properties.

Section failed_media_theorem.

Context `{!Backend}.


End failed_media_theorem.



(** ** Retrying a call with the other ICE version *)

Lemma get_stream_by_id_None call id :
  sipe_core_media_get_stream_by_id call id = None
  ↔ id ∉ stream_id <$> call_streams call.
Proof.
  unfold sipe_core_media_get_stream_by_id. rewrite list_find_None.
  rewrite Forall_forall. split.
  - intros Hall (s & -> & Hs)%list_elem_of_fmap. by apply (Hall s).
  - intros Hnot s Hs Hid. apply Hnot, list_elem_of_fmap. eauto.
Qed.

Lemma sipe_core_media_get_call_None sipe_private :
  sipe_core_media_get_call sipe_private = None
  ↔ ∀ k call, media_calls sipe_private !! k = Some call →
              "audio" ∉ stream_id <$> call_streams call.
Proof.
  unfold sipe_core_media_get_call.
  destruct (list_find _ _) as [[i [k call]]|] eqn:Hfind; simpl.
  - split; [done|]. intros Hall.
    apply list_find_Some in Hfind as (Hi & Haudio & _).
    apply list_elem_of_lookup_2, elem_of_map_to_list in Hi.
    simpl in Haudio. apply (Hall _ _) in Hi.
    apply get_stream_by_id_None in Hi. rewrite Hi in Haudio.
    by destruct Haudio.
  - split; [|done]. intros _ k call Hk.
    apply list_find_None in Hfind. rewrite Forall_forall in Hfind.
    apply elem_of_map_to_list in Hk. apply Hfind in Hk. simpl in Hk.
    apply get_stream_by_id_None.
    by destruct (sipe_core_media_get_stream_by_id call "audio");
      [destruct Hk|].
Qed.

Section retry_properties.

Context `{!Backend, !SipLayer}.

Lemma store_sip_dialog_fields call d :
  call_id (store_sip_dialog call d) = call_id call
  ∧ call_with (store_sip_dialog call d) = call_with call
  ∧ call_ice_version (store_sip_dialog call d) = call_ice_version call
  ∧ call_streams (store_sip_dialog call d) = call_streams call.
Proof. unfold store_sip_dialog. by destruct (call_session call). Qed.

(** [maybe_retry_call_with_ice_version] retries exactly when the call does
    not use the wanted version yet and the transaction is the first of the
    dialog.  It then hangs up, reads the core out of the call and runs
    [sipe_media_initiate_call]. *)
Lemma maybe_retry_call_with_ice_version_spec sipe_private call ice_version trans :
  maybe_retry_call_with_ice_version sipe_private call ice_version trans
  = if decide (call_ice_version call ≠ ice_version
               ∧ sip_transaction_cseq trans = 1%Z)
    then
      let hung := sipe_backend_media_hangup sipe_private (call_id call) false in
      media_calls hung !! call_id call ≫= λ _,
        (λ s, (true, s)) <$>
          sipe_media_initiate_call hung (call_with call) ice_version
            (bool_decide
               (is_Some (sipe_core_media_get_stream_by_id call "video")))
    else Some (false, sipe_private).
Proof.
  unfold maybe_retry_call_with_ice_version.
  destruct (decide _) as [[Hice Hcseq]|Hno].
  - rewrite !bool_decide_eq_true_2 by done. simpl.
    destruct (media_calls _ !! _); [|done]. simpl.
    by destruct (sipe_media_initiate_call _ _ _ _).
  - destruct (decide (call_ice_version call ≠ ice_version)).
    + rewrite (bool_decide_eq_false_2 (sip_transaction_cseq trans = 1%Z));
        [by rewrite andb_false_r|tauto].
    + by rewrite bool_decide_eq_false_2.
Qed.

(** What [process_invite_call_response] does with a failure response to the
    INVITE of a registered call. *)
Lemma process_invite_call_response_failure sipe_private msg trans call dialog :
  sipe_media_from_sipmsg sipe_private (msg_callid msg) = Some call →
  sipe_media_get_sip_dialog call = Some dialog →
  (400 ≤ msg_response msg)%Z →
  let call1 := store_sip_dialog call (set_dialog_outgoing_invite dialog None) in
  let sipe_private1 := store_call sipe_private call1 in
  let report := report_invite_failure sipe_private1 msg trans (call_id call) in
  let hung := sipe_backend_media_hangup sipe_private1 (call_id call) false in
  let retry target (otherwise : option (bool * sipe_core_private)) :=
    if decide (call_ice_version call ≠ target
               ∧ sip_transaction_cseq trans = 1%Z)
    then
      media_calls hung !! call_id call ≫= λ _,
        (λ s, (true, s)) <$>
          sipe_media_initiate_call hung (call_with call) target
            (bool_decide
               (is_Some (sipe_core_media_get_stream_by_id call "video")))
    else otherwise in
  (¬ retry_candidate_response msg →
   ∃ desc append_responsestr,
     process_invite_call_response sipe_private msg trans
     = report (invite_failure_title msg) desc append_responsestr)
  ∧ (ice_downgrade_response msg →
     process_invite_call_response sipe_private msg trans
     = retry SIPE_ICE_DRAFT_6 (report "Unsupported media type" "" false))
  ∧ (msg_response msg = 488%Z → encryption_levels_response msg = false →
     process_invite_call_response sipe_private msg trans
     = retry (match sipmsg_find_header msg "ms-diagnostics" with
              | Some d => if g_str_has_prefix d "7008;"
                          then SIPE_ICE_RFC_5245 else SIPE_ICE_DRAFT_6
              | None => SIPE_ICE_DRAFT_6
              end)
         (report "Error occured" "Unable to establish a call" true)).
Proof.
  intros Hcall Hdialog Hcode call1 sipe_private1 report hung retry.
  subst call1.
  destruct (store_sip_dialog_fields call
              (set_dialog_outgoing_invite dialog None))
    as (Hid & Hwith & Hice & Hstreams).
  assert (∀ id, sipe_core_media_get_stream_by_id
                  (store_sip_dialog call
                     (set_dialog_outgoing_invite dialog None)) id
                = sipe_core_media_get_stream_by_id call id) as Hget.
  { intros id. unfold sipe_core_media_get_stream_by_id.
    by rewrite Hstreams. }
  unfold process_invite_call_response. rewrite Hcall. simpl.
  rewrite Hdialog. simpl. fold sipe_private1. rewrite Hid. fold report.
  rewrite decide_True by done.
  split; [|split].
  - intros Hnot. unfold retry_candidate_response in Hnot.
    unfold invite_failure_title.
    destruct (decide (msg_response msg = 480)%Z);
      [destruct (decide _); eauto|].
    destruct (decide (msg_response msg = 603 ∨ msg_response msg = 605)%Z);
      [eauto|].
    destruct (decide (msg_response msg = 415)%Z) as [H415|].
    { unfold sipe_strequal. case_bool_decide as Hstr; [|eauto].
      destruct Hnot. by left. }
    destruct (decide (msg_response msg = 488)%Z) as [H488|]; [|eauto].
    fold (encryption_levels_response msg).
    destruct (encryption_levels_response msg) eqn:Henc; [eauto|].
    destruct Hnot. by right.
  - intros [H415 Hstr]. rewrite H415.
    rewrite (decide_False (P := (415 = 480)%Z)) by lia.
    rewrite (decide_False (P := (415 = 603 ∨ 415 = 605)%Z)) by lia.
    rewrite (decide_True (P := (415 = 415)%Z)) by lia.
    rewrite Hstr. unfold sipe_strequal at 1.
    rewrite bool_decide_eq_true_2 by done.
    rewrite maybe_retry_call_with_ice_version_spec.
    unfold retry. rewrite Hice, Hid, Hwith, Hget. fold sipe_private1 hung.
    destruct (decide _); [|done]. simpl.
    destruct (media_calls hung !! call_id call); [|done]. simpl.
    by destruct (sipe_media_initiate_call _ _ _ _).
  - intros H488 Henc. rewrite H488.
    rewrite (decide_False (P := (488 = 480)%Z)) by lia.
    rewrite (decide_False (P := (488 = 603 ∨ 488 = 605)%Z)) by lia.
    rewrite (decide_False (P := (488 = 415)%Z)) by lia.
    rewrite (decide_True (P := (488 = 488)%Z)) by lia.
    fold (encryption_levels_response msg). rewrite Henc.
    rewrite maybe_retry_call_with_ice_version_spec.
    unfold retry. rewrite Hice, Hid, Hwith, Hget. fold sipe_private1 hung.
    destruct (decide _); [|done]. simpl.
    destruct (media_calls hung !! call_id call); [|done]. simpl.
    by destruct (sipe_media_initiate_call _ _ _ _).
Qed.

(** C2: take an outbound INVITE of a registered call with a dialog, answered
    by 415 with the "Mutipart mime ..." response string (wanted version:
    draft-6), or by 488 with an [ms-diagnostics] header starting with
    "7008;" that is not at the same time an incompatible-encryption response
    (wanted version: rfc-5245), in a transaction with cseq 1, while the call
    does not use the wanted version.  The call is hung up.  When the hang-up
    has freed the call, the core is then read out of the freed call: the
    behaviour is undefined.  When the call is still registered,
    [sipe_media_initiate_call] is run for the remote URI of the call, the
    wanted version and the video choice of the call; it does nothing when
    the call still has its "audio" stream. *)
Theorem ice_version_retry sipe_private msg trans call dialog target :
  sipe_media_from_sipmsg sipe_private (msg_callid msg) = Some call →
  sipe_media_get_sip_dialog call = Some dialog →
  (ice_downgrade_response msg ∧ target = SIPE_ICE_DRAFT_6)
  ∨ (sdp_parse_error_response msg
     ∧ encryption_levels_response msg = false
     ∧ target = SIPE_ICE_RFC_5245) →
  sip_transaction_cseq trans = 1%Z →
  call_ice_version call ≠ target →
  let hung :=
    sipe_backend_media_hangup
      (store_call sipe_private
         (store_sip_dialog call (set_dialog_outgoing_invite dialog None)))
      (call_id call) false in
  let with_video :=
    bool_decide (is_Some (sipe_core_media_get_stream_by_id call "video")) in
  (media_calls hung !! call_id call = None →
   process_invite_call_response sipe_private msg trans = None)
  ∧ (is_Some (media_calls hung !! call_id call) →
     process_invite_call_response sipe_private msg trans
     = (λ s, (true, s)) <$>
         sipe_media_initiate_call hung (call_with call) target with_video)
  ∧ (∀ call', media_calls hung !! call_id call = Some call' →
              "audio" ∈ stream_id <$> call_streams call' →
              process_invite_call_response sipe_private msg trans
              = Some (true, hung)).
Proof.
  intros Hcall Hdialog Htrigger Hcseq Hice hung with_video.
  assert (process_invite_call_response sipe_private msg trans
          = media_calls hung !! call_id call ≫= λ _,
              (λ s, (true, s)) <$>
                sipe_media_initiate_call hung (call_with call) target
                  with_video) as ->.
  { assert (400 ≤ msg_response msg)%Z as Hcode.
    { destruct Htrigger as [[[? ?] ?]|[[? ?] ?]]; lia. }
    destruct (process_invite_call_response_failure _ _ trans _ _
                Hcall Hdialog Hcode) as (_ & H415 & H488).
    destruct Htrigger as [[Hd ->]|[[Hc (d & Hdiag & Hprefix)] [Henc ->]]].
    - rewrite (H415 Hd). by rewrite decide_True.
    - rewrite (H488 Hc Henc), Hdiag, Hprefix. by rewrite decide_True. }
  split; [by intros ->|]. split.
  - by intros [call' ->].
  - intros call' Hcall' Haudio. rewrite Hcall'. simpl.
    unfold sipe_media_initiate_call.
    destruct (sipe_core_media_get_call hung) eqn:Hnone; [done|].
    rewrite sipe_core_media_get_call_None in Hnone.
    by destruct (Hnone _ _ Hcall').
Qed.

(** What the retry sets up when no call with an audio stream is left, the
    new call-id is free and the backend creates the streams: a call to the
    same URI under the wanted ICE version, with an audio stream and, when
    asked for, a video stream. *)
Lemma sipe_media_initiate_call_fresh sipe_private with_ ice_version with_video :
  sipe_core_media_get_call sipe_private = None →
  media_calls sipe_private !! gencallid sipe_private = None →
  (∀ id type min_port max_port,
     is_Some (sipe_backend_media_add_stream (gencallid sipe_private) id type
                ice_version true min_port max_port)) →
  ∃ sipe_private' call',
    sipe_media_initiate_call sipe_private with_ ice_version with_video
    = Some sipe_private'
    ∧ media_calls sipe_private' !! gencallid sipe_private = Some call'
    ∧ call_with call' = with_
    ∧ call_ice_version call' = ice_version
    ∧ call_initiator call' = true
    ∧ stream_id <$> call_streams call'
      = (if with_video then ["audio"; "video"] else ["audio"])
    ∧ ∀ callid, callid ≠ gencallid sipe_private →
        media_calls sipe_private' !! callid = media_calls sipe_private !! callid.
Proof.
  intros Hnone Hfresh Hbackend.
  unfold sipe_media_initiate_call. rewrite Hnone.
  unfold sipe_media_call_new_outgoing, create_media_outgoing, create_media.
  rewrite Hfresh. simpl.
  unfold sipe_media_stream_add at 1. simpl.
  destruct (Hbackend "audio" SIPE_MEDIA_AUDIO
              (min_audio_port sipe_private) (max_audio_port sipe_private))
    as [audio ->].
  simpl. destruct with_video; simpl.
  - unfold sipe_media_stream_add at 1. simpl.
    destruct (Hbackend "video" SIPE_MEDIA_VIDEO
                (min_video_port sipe_private) (max_audio_port sipe_private))
      as [video ->].
    simpl. unfold append_proxy_fallback_invite_if_needed. simpl.
    destruct (_ || _); simpl; eexists _, _;
      (split; [done|]); unfold store_call; simpl;
      rewrite lookup_insert_eq;
      (split; [done|]); repeat (split; [done|]);
      intros callid Hne; by rewrite !lookup_insert_ne.
  - unfold append_proxy_fallback_invite_if_needed. simpl.
    destruct (_ || _); simpl; eexists _, _;
      (split; [done|]); unfold store_call; simpl;
      rewrite lookup_insert_eq;
      (split; [done|]); repeat (split; [done|]);
      intros callid Hne; by rewrite !lookup_insert_ne.
Qed.


End retry_properties.

(** Scenario S2: the sample call, placed with rfc-5245, gets the 415 of the
    archiving service on its first INVITE.  The backend ends the media when
    it is asked to hang up, so the call is freed, and the retry reads the
    freed call. *)
Lemma ice_version_retry_witness :
  @process_invite_call_response Sample.backend Sample.sip_layer
    (SampleResponse.core SIPE_ICE_RFC_5245) SampleResponse.unsupported_media
    {| sip_transaction_cseq := 1 |}
  = None.
Proof.
  destruct (@ice_version_retry Sample.backend Sample.sip_layer
              (SampleResponse.core SIPE_ICE_RFC_5245)
              SampleResponse.unsupported_media {| sip_transaction_cseq := 1 |}
              (Sample.call SIPE_ICE_RFC_5245
                 [Sample.stream "audio"; Sample.stream "video"])
              (Sample.dialog 1) SIPE_ICE_DRAFT_6)
    as [Hfreed _]; [by vm_compute | reflexivity | by left | done | done |].
  apply Hfreed. by vm_compute.
Defined.

(** The same response with a backend that has not ended the media when
    [sipe_backend_media_hangup] returns: the call is still registered with
    its audio stream, and no call is initiated; the hang-up is the only
    request made. *)
Lemma ice_version_retry_deferred_sample :
  ∃ sipe_private',
    @process_invite_call_response SampleResponse.deferring_backend
      Sample.sip_layer (SampleResponse.core SIPE_ICE_RFC_5245)
      SampleResponse.unsupported_media {| sip_transaction_cseq := 1 |}
    = Some (true, sipe_private')
    ∧ (call_ice_version <$> media_calls sipe_private' !! "call-1")
      = Some SIPE_ICE_RFC_5245
    ∧ media_calls sipe_private' !! "fresh-call-id" = None
    ∧ trace sipe_private' = [EvBackendMediaHangup "call-1" false].
Proof.
  set (result := process_invite_call_response _ _ _).
  vm_compute in result. subst result.
  eexists. split; [reflexivity|]. by vm_compute.
Qed.

(** The sample call, placed with draft-6, gets on its first INVITE a 488
    whose [ms-diagnostics] header starts with "7008;" and whose response
    string is "Encryption Levels not compatible": the test for incompatible
    encryption comes first.  The error is reported, the response
    acknowledged and the call hung up; no call is set up in its place. *)
Lemma invite_488_encryption_levels_sample :
  let msg := SampleResponse.sdp_parse_error_encryption in
  let trans := {| sip_transaction_cseq := 1 |} in
  let sipe_private := SampleResponse.core SIPE_ICE_DRAFT_6 in
  sdp_parse_error_response msg
  ∧ sip_transaction_cseq trans = 1%Z
  ∧ (call_ice_version <$> sipe_media_from_sipmsg sipe_private "call-1")
    = Some SIPE_ICE_DRAFT_6
  ∧ ∃ sipe_private',
      @process_invite_call_response Sample.backend Sample.sip_layer
        sipe_private msg trans
      = Some (true, sipe_private')
      ∧ media_calls sipe_private' = ∅
      ∧ trace sipe_private'
        = [EvBackendNotifyError "Unable to establish a call"
             "Encryption settings of peer are incompatible with ours.";
           EvTransportAck (Some "call-1") 0;
           EvBackendMediaHangup "call-1" false].
Proof.
  intros msg trans sipe_private.
  split; [split; [done|by eexists]|]. split; [done|]. split; [by vm_compute|].
  set (result := process_invite_call_response sipe_private msg trans).
  vm_compute in result. subst result.
  eexists. split; [reflexivity|]. by vm_compute.
Qed.

(** * Further properties of the code *)
(** ** Candidates handed to the SDP layer *)

Lemma backend_candidates_to_sdpcandidate_loop_perm candidates result :
  backend_candidates_to_sdpcandidate_loop candidates result
  ≡ₚ filter (λ c, ignored_candidate c = false) candidates ++ result.
Proof.
  revert result.
  induction candidates as [|c rest IH]; intros result; simpl; [done|].
  rewrite filter_cons. destruct (ignored_candidate c) eqn:Hc.
  - rewrite decide_False by done. apply IH.
  - rewrite decide_True by done.
    rewrite IH, g_slist_insert_sorted_perm. simpl.
    by rewrite Permutation_middle.
Qed.

Lemma ignored_candidate_false c :
  ignored_candidate c = false ↔ ipv4_candidate c.
Proof.
  unfold ignored_candidate, ipv4_candidate.
  rewrite !orb_false_iff.
  destruct (cand_ip c) as [[|a ip]|], (cand_base_ip c) as [b|]; simpl;
    intuition congruence.
Qed.

(** X1: the conversion keeps exactly the candidates with an IPv4 address,
    each as often as the backend listed it. *)
Theorem backend_candidates_to_sdpcandidate_ipv4 candidates :
  backend_candidates_to_sdpcandidate candidates
  ≡ₚ filter ipv4_candidate candidates.
Proof.
  unfold backend_candidates_to_sdpcandidate.
  rewrite backend_candidates_to_sdpcandidate_loop_perm, app_nil_r.
  induction candidates as [|c rest IH]; [done|].
  rewrite !filter_cons.
  destruct (decide (ignored_candidate c = false)) as [Hc|Hc];
    destruct (decide (ipv4_candidate c)) as [Hv|Hv];
    rewrite ignored_candidate_false in Hc; try done.
  by rewrite IH.
Qed.

Lemma string_compare_refl a : String.compare a a = Eq.
Proof.
  induction a as [|x a IH]; simpl; [done|].
  unfold Ascii.compare. by rewrite N.compare_refl.
Qed.

Lemma string_compare_trans a b c :
  String.compare a b = Lt → String.compare b c = Lt → String.compare a c = Lt.
Proof.
  revert b c. induction a as [|x a IH]; intros [|y b] [|z c]; simpl; try done.
  destruct (Ascii.compare x y) eqn:Hxy, (Ascii.compare y z) eqn:Hyz; try done.
  - apply Ascii.compare_eq_iff in Hxy, Hyz. subst.
    unfold Ascii.compare. rewrite N.compare_refl. apply IH.
  - apply Ascii.compare_eq_iff in Hxy. subst. by rewrite Hyz.
  - apply Ascii.compare_eq_iff in Hyz. subst. by rewrite Hxy.
  - unfold Ascii.compare in *. rewrite N.compare_lt_iff in Hxy, Hyz.
    assert ((N_of_ascii x ?= N_of_ascii z)%N = Lt) as ->; [|done].
    apply N.compare_lt_iff. lia.
Qed.

Lemma sipe_strcompare_zero a b : sipe_strcompare a b = 0%Z ↔ a = b.
Proof.
  destruct a as [a|], b as [b|]; simpl; try done.
  destruct (String.compare a b) eqn:Hab.
  - apply String.compare_eq_iff in Hab. by subst.
  - split; [done|]. intros [= ->]. by rewrite string_compare_refl in Hab.
  - split; [done|]. intros [= ->]. by rewrite string_compare_refl in Hab.
Qed.

Lemma sipe_strcompare_antisym a b :
  sipe_strcompare b a = (- sipe_strcompare a b)%Z.
Proof.
  destruct a as [a|], b as [b|]; simpl; try done.
  rewrite (String.compare_antisym b a). by destruct (String.compare a b).
Qed.

Lemma sipe_strcompare_trans a b c :
  (sipe_strcompare a b < 0 → sipe_strcompare b c < 0 →
   sipe_strcompare a c < 0)%Z.
Proof.
  destruct a as [a|], b as [b|], c as [c|]; simpl; try done.
  destruct (String.compare a b) eqn:Hab; try done.
  destruct (String.compare b c) eqn:Hbc; try done.
  by rewrite (string_compare_trans a b c).
Qed.

Lemma candidate_sort_cb_le a b :
  (candidate_sort_cb a b ≤ 0)%Z ↔ candidate_before a b.
Proof.
  unfold candidate_sort_cb, candidate_before. simpl.
  destruct (String.compare (cand_foundation a) (cand_foundation b)) eqn:Hf;
    simpl.
  - destruct (decide (sipe_strcompare (cand_username a) (cand_username b) = 0)%Z)
      as [Hu|Hu].
    + pose proof Hu as Hu'. apply sipe_strcompare_zero in Hu'.
      split; [intros ?; right; split; [done|right; split; [done|lia]]|].
      intros [?|[_ [?|[_ ?]]]]; [done|lia|lia].
    + split; [intros ?; right; split; [done|left; lia]|].
      intros [?|[_ [?|[Heq ?]]]]; [done|lia|].
      by apply sipe_strcompare_zero in Heq.
  - split; [by left|lia].
  - split; [lia|]. by intros [?|[? _]].
Qed.

Lemma candidate_before_total a b :
  ¬ candidate_before a b → candidate_before b a.
Proof.
  unfold candidate_before. simpl.
  rewrite (String.compare_antisym (cand_foundation a) (cand_foundation b)).
  rewrite (sipe_strcompare_antisym (cand_username b) (cand_username a)).
  destruct (String.compare (cand_foundation b) (cand_foundation a)); simpl;
    intros Hnot.
  - right. split; [done|].
    destruct (decide (sipe_strcompare (cand_username b) (cand_username a) = 0)%Z)
      as [Hu|Hu].
    + right. apply sipe_strcompare_zero in Hu. split; [done|].
      destruct (decide (component_value (cand_component b)
                        ≤ component_value (cand_component a))%Z); [done|].
      destruct Hnot. right. split; [done|]. right. split; [done|lia].
    + left.
      destruct (decide (sipe_strcompare (cand_username b) (cand_username a) < 0)%Z);
        [done|].
      destruct Hnot. right. split; [done|]. left. lia.
  - by left.
  - destruct Hnot. by left.
Qed.

Lemma candidate_before_trans : Transitive candidate_before.
Proof.
  intros a b c. unfold candidate_before. simpl.
  intros [Hab|[Hab Hab']] [Hbc|[Hbc Hbc']].
  - left. eauto using string_compare_trans.
  - apply String.compare_eq_iff in Hbc. rewrite <-Hbc. by left.
  - apply String.compare_eq_iff in Hab. rewrite Hab. by left.
  - apply String.compare_eq_iff in Hab, Hbc. rewrite Hab, Hbc.
    right. split; [apply string_compare_refl|].
    destruct Hab' as [Hu|[Hu Hc]], Hbc' as [Hu'|[Hu' Hc']].
    + left. eauto using sipe_strcompare_trans.
    + rewrite <-Hu'. by left.
    + rewrite Hu. by left.
    + right. split; [congruence|lia].
Qed.

Lemma g_slist_insert_sorted_StronglySorted {A} (func : A → A → Z)
    (R : relation A) `{!Transitive R} l x :
  (∀ a b, (func a b ≤ 0)%Z ↔ R a b) →
  (∀ a b, ¬ R a b → R b a) →
  StronglySorted R l →
  StronglySorted R (g_slist_insert_sorted l x func).
Proof.
  intros Hfunc Htotal. induction l as [|y l IH]; intros Hsorted; simpl.
  - repeat constructor.
  - apply StronglySorted_inv in Hsorted as [Hl Hy].
    destruct (decide (func x y ≤ 0)%Z) as [Hle|Hgt].
    + apply Hfunc in Hle. constructor; [by constructor|].
      constructor; [done|].
      eapply Forall_impl; [exact Hy|]. intros z Hz. by etrans.
    + constructor; [by apply IH|].
      apply Forall_forall. intros z Hz.
      eapply elem_of_Permutation_proper in Hz;
        [|symmetry; apply g_slist_insert_sorted_perm].
      apply elem_of_cons in Hz as [->|Hz].
      * apply Htotal. by rewrite <-Hfunc.
      * rewrite Forall_forall in Hy. by apply Hy.
Qed.

Lemma backend_candidates_to_sdpcandidate_loop_sorted candidates result :
  StronglySorted candidate_before result →
  StronglySorted candidate_before
    (backend_candidates_to_sdpcandidate_loop candidates result).
Proof.
  revert result.
  induction candidates as [|c rest IH]; intros result Hresult; simpl; [done|].
  destruct (ignored_candidate c); [by apply IH|].
  apply IH.
  apply (g_slist_insert_sorted_StronglySorted _ _
           (Transitive0 := candidate_before_trans));
    [apply candidate_sort_cb_le | apply candidate_before_total | done].
Qed.

(** X2: the candidates of a section come out ordered by foundation, then
    username, then component, whatever the order the backend listed them
    in. *)
Theorem backend_candidates_to_sdpcandidate_sorted candidates :
  StronglySorted candidate_before
    (backend_candidates_to_sdpcandidate candidates).
Proof.
  apply backend_candidates_to_sdpcandidate_loop_sorted. constructor.
Qed.

Lemma get_stream_ip_and_ports_loop_sound l candidates type ip rtp_port rtcp_port :
  candidates ⊆ l →
  Forall (λ c, is_Some (cand_ip c)) candidates →
  ip_and_ports_from l type (ip, rtp_port, rtcp_port) →
  ip_and_ports_from l type
    (get_stream_ip_and_ports_loop candidates type ip rtp_port rtcp_port).
Proof.
  revert ip rtp_port rtcp_port.
  induction candidates as [|c rest IH]; intros ip rtp_port rtcp_port Hsub Hips Hinv;
    [done|].
  apply Forall_cons in Hips as [[a Ha] Hips].
  assert (c ∈ l) as Hc by (apply Hsub; left).
  assert (rest ⊆ l) as Hrest by (intros x Hx; apply Hsub; by right).
  pose proof Hinv as (Hnone & Hip & Hrtp & Hrtcp).
  simpl.
  assert (∀ r, ip_and_ports_from l type r →
               ip_and_ports_from l type
                 (if negb (r.1.2 =? 0)%Z && negb (r.2 =? 0)%Z then r
                  else get_stream_ip_and_ports_loop rest type r.1.1 r.1.2 r.2))
    as Hnext.
  { intros [[ip' rtp'] rtcp'] Hr. simpl.
    destruct (negb (rtp' =? 0)%Z && negb (rtcp' =? 0)%Z); [done|by apply IH]. }
  destruct (bool_decide (type = SIPE_CANDIDATE_TYPE_ANY)
            || bool_decide (cand_type c = type)) eqn:Htype;
    [|by apply (Hnext (ip, rtp_port, rtcp_port))].
  assert (type_accepted type c) as Hacc.
  { apply orb_true_iff in Htype as [?%bool_decide_eq_true|?%bool_decide_eq_true];
      [by left|by right]. }
  clear Htype.
  destruct ip as [b|].
  - unfold sipe_strequal. case_bool_decide as Heq; [|by apply IH].
    destruct (decide (cand_component c = SIPE_COMPONENT_RTP)) as [Hcomp|Hcomp];
      [|destruct (decide (cand_component c = SIPE_COMPONENT_RTCP))
          as [Hcomp'|Hcomp']].
    + apply (Hnext (Some b, cand_port c, rtcp_port)).
      split; [done|]. split; [done|]. split; [eauto 10|done].
    + apply (Hnext (Some b, rtp_port, cand_port c)).
      split; [done|]. split; [done|]. split; [done|eauto 10].
    + by apply (Hnext (Some b, rtp_port, rtcp_port)).
  - destruct Hnone as [-> ->]; [done|]. rewrite Ha.
    destruct (decide (cand_component c = SIPE_COMPONENT_RTP)) as [Hcomp|Hcomp];
      [|destruct (decide (cand_component c = SIPE_COMPONENT_RTCP))
          as [Hcomp'|Hcomp']].
    + apply (Hnext (Some a, cand_port c, 0%Z)).
      split; [done|]. split; [intros ? [= <-]; eauto|]. split; [eauto 10|done].
    + apply (Hnext (Some a, 0%Z, cand_port c)).
      split; [done|]. split; [intros ? [= <-]; eauto|]. split; [done|eauto 10].
    + apply (Hnext (Some a, 0%Z, 0%Z)).
      split; [done|]. split; [intros ? [= <-]; eauto|]. done.
Qed.

(** X3: on candidates that all carry an address (as those of
    [backend_candidates_to_sdpcandidate] do), the address reported for a
    stream is that of a candidate of the requested type, and each port
    reported is the port of a candidate of that type with that very address
    and the component in question; without an address both ports are 0. *)
Theorem get_stream_ip_and_ports_sound candidates type :
  Forall (λ c, is_Some (cand_ip c)) candidates →
  ip_and_ports_from candidates type (get_stream_ip_and_ports candidates type).
Proof.
  intros Hips. apply get_stream_ip_and_ports_loop_sound; [done|done|].
  repeat split; done.
Qed.

(** ** What normalisation leaves alone *)

Lemma ports_filled_refl : Reflexive ports_filled.
Proof. intros c. unfold ports_filled. by repeat split. Qed.

Lemma ports_filled_trans : Transitive ports_filled.
Proof.
  intros a b c. unfold ports_filled.
  intros (Hf & Hc & Ht & Hp & Hi & Hb & Hpr & Hu & Hpw & Hport & Hbase)
         (Hf' & Hc' & Ht' & Hp' & Hi' & Hb' & Hpr' & Hu' & Hpw' & Hport' & Hbase').
  repeat split; try congruence.
  - destruct (decide (cand_port b = cand_port a)) as [Heq|Hne];
      [|by apply Hport].
    rewrite <-Heq. apply Hport'. congruence.
  - destruct (decide (cand_port b = cand_port a)) as [Heq|Hne];
      [|by apply Hport].
    rewrite <-Hp. apply Hport'. congruence.
  - destruct (decide (cand_base_port b = cand_base_port a)) as [Heq|Hne];
      [|by apply Hbase].
    rewrite <-Heq. apply Hbase'. congruence.
  - destruct (decide (cand_base_port b = cand_base_port a)) as [Heq|Hne];
      [|by apply Hbase].
    rewrite <-Hp, <-Ht. apply Hbase'. congruence.
Qed.

Lemma ports_filled_insert i c c' (l : list sdpcandidate) :
  l !! i = Some c → ports_filled c c' →
  Forall2 ports_filled l (<[i := c']> l).
Proof.
  intros Hi Hc. rewrite <-(list_insert_id l i c) at 1 by done.
  apply Forall2_insert; [|done].
  apply Forall_Forall2_diag, Forall_true, ports_filled_refl.
Qed.

Lemma inherit_from_passive_ports_filled c passive :
  cand_protocol c = SIPE_NETWORK_PROTOCOL_TCP_ACTIVE →
  ports_filled c (inherit_from_passive c passive).
Proof.
  intros Hact. unfold inherit_from_passive, ports_filled.
  destruct (decide (cand_port c = 0)%Z) as [Hp|Hp]; simpl;
    (destruct (decide (cand_base_port c = 0)%Z) as [Hb|Hb]; simpl);
    repeat split; try done; auto.
Qed.

Lemma fill_tcp_active_loop_ports_filled fuel i candidates ip_to_port r tbl :
  fill_tcp_active_loop fuel i candidates ip_to_port = Some (r, tbl) →
  Forall2 ports_filled candidates r.
Proof.
  revert i candidates ip_to_port.
  induction fuel as [|fuel IH]; intros i candidates ip_to_port Hloop;
    simpl in Hloop.
  { injection Hloop as <- <-.
    apply Forall_Forall2_diag, Forall_true, ports_filled_refl. }
  destruct (candidates !! i) as [c|] eqn:Hi.
  2:{ injection Hloop as <- <-.
      apply Forall_Forall2_diag, Forall_true, ports_filled_refl. }
  destruct (if bool_decide (cand_protocol c = SIPE_NETWORK_PROTOCOL_TCP_PASSIVE)
               && bool_decide (cand_type c = SIPE_CANDIDATE_TYPE_HOST)
            then _ else _) as [tbl'|]; [|done].
  simpl in Hloop.
  destruct (decide (cand_protocol c ≠ SIPE_NETWORK_PROTOCOL_TCP_ACTIVE))
    as [Hne|Hact]; [by eapply IH|].
  apply dec_stable in Hact.
  destruct (find_tcp_passive c candidates) as [passive|]; [|by eapply IH].
  apply IH in Hloop.
  eapply Forall2_trans; [apply ports_filled_trans| |exact Hloop].
  eapply ports_filled_insert; [done|].
  by apply inherit_from_passive_ports_filled.
Qed.

Lemma fill_relay_base_port_loop_ports_filled fuel i candidates ip_to_port r :
  fill_relay_base_port_loop fuel i candidates ip_to_port = Some r →
  Forall2 ports_filled candidates r.
Proof.
  revert i candidates.
  induction fuel as [|fuel IH]; intros i candidates Hloop; simpl in Hloop.
  { injection Hloop as <-.
    apply Forall_Forall2_diag, Forall_true, ports_filled_refl. }
  destruct (candidates !! i) as [c|] eqn:Hi.
  2:{ injection Hloop as <-.
      apply Forall_Forall2_diag, Forall_true, ports_filled_refl. }
  destruct (bool_decide (cand_type c = SIPE_CANDIDATE_TYPE_RELAY)
            && bool_decide (cand_base_port c = 0)%Z) eqn:Hrelay;
    [|by eapply IH].
  apply andb_true_iff in Hrelay as [Htype%bool_decide_eq_true Hbase%bool_decide_eq_true].
  destruct (cand_base_ip c) as [base_ip|]; [|done]. simpl in Hloop.
  destruct (ip_to_port !! base_ip) as [k|]; [|by eapply IH].
  destruct (candidates !! k) as [host|]; [|done]. simpl in Hloop.
  apply IH in Hloop.
  eapply Forall2_trans; [apply ports_filled_trans| |exact Hloop].
  eapply ports_filled_insert; [done|].
  unfold ports_filled; simpl. repeat split; try done. by right.
Qed.

Lemma fill_zero_ports_filled candidates r :
  fill_zero_tcp_act_ports_from_tcp_pass candidates = Some r →
  Forall2 ports_filled candidates r.
Proof.
  unfold fill_zero_tcp_act_ports_from_tcp_pass. intros Hfill.
  destruct (fill_tcp_active_loop _ _ _ _) as [[candidates' tbl]|] eqn:Hloop;
    [|done].
  simpl in Hfill.
  apply fill_tcp_active_loop_ports_filled in Hloop.
  apply fill_relay_base_port_loop_ports_filled in Hfill.
  eapply Forall2_trans; [apply ports_filled_trans|done|done].
Qed.

(** X4: whenever [fill_zero_tcp_act_ports_from_tcp_pass] returns, the list
    has the candidates it was given, in their order, and nothing but ports
    that were 0 has been written: a port only in a TCP-active candidate, a
    base port only in a TCP-active or relay candidate; a port or base port
    that was set is never overwritten. *)
Theorem fill_zero_tcp_act_ports_only_fills candidates r :
  fill_zero_tcp_act_ports_from_tcp_pass candidates = Some r →
  Forall2 ports_filled candidates r.
Proof. apply fill_zero_ports_filled. Qed.

(** ** Address, ports and key of a serialised section *)

Lemma nameval_add_foldl_elem (base extra : list sipnameval) x :
  x ∈ base →
  x ∈ foldl (λ attributes attr,
               sipe_utils_nameval_add attributes (nv_name attr)
                 (Some (nv_value attr))) base extra.
Proof.
  revert base. induction extra as [|attr extra IH]; intros base Hx; [done|].
  simpl. apply IH. unfold sipe_utils_nameval_add.
  apply elem_of_app. by left.
Qed.

(** Where [media_stream_to_sdpmedia] takes the address, the ports, the
    remote candidates and the key of a section from. *)
Lemma media_stream_to_sdpmedia_address sipe_private call stream m :
  media_stream_to_sdpmedia sipe_private call stream = Some (Some m) →
  ∃ type rtcp_port,
    (type = SIPE_CANDIDATE_TYPE_HOST ∨ type = SIPE_CANDIDATE_TYPE_ANY)
    ∧ get_stream_ip_and_ports (media_candidates m) type
      = (media_ip m, media_port m, rtcp_port)
    ∧ (rtcp_port ≠ 0%Z →
       {| nv_name := "rtcp"; nv_value := pretty rtcp_port |}
       ∈ media_attributes m)
    ∧ media_remote_candidates m
      = backend_candidates_to_sdpcandidate
          (bs_active_remote_candidates (stream_backend_private stream))
    ∧ (media_encryption_key m, media_encryption_key_id m)
      = if bool_decide (is_Some (encryption_key stream))
           && bool_decide (get_encryption_policy sipe_private
                           ≠ SIPE_ENCRYPTION_POLICY_REJECTED)
        then (encryption_key stream, encryption_key_id stream)
        else (None, 0%Z).
Proof.
  unfold media_stream_to_sdpmedia. intros Hm.
  destruct (media_type_of_name _) as [mtype|]; [|done].
  destruct (match bs_active_local_candidates _ with [] => _ | _ => _ end)
    as [candidates|] eqn:Hc; [|done].
  simpl in Hm.
  destruct (fill_zero_tcp_act_ports_from_tcp_pass _) as [sdp|] eqn:Hf; [|done].
  simpl in Hm.
  destruct (get_stream_ip_and_ports sdp SIPE_CANDIDATE_TYPE_HOST)
    as [[ip port] rtcp] eqn:Hhost.
  destruct (match ip with None => _ | _ => _ end) as [[ip' port'] rtcp']
    eqn:Hany.
  assert (∃ type,
            (type = SIPE_CANDIDATE_TYPE_HOST ∨ type = SIPE_CANDIDATE_TYPE_ANY)
            ∧ get_stream_ip_and_ports sdp type = (ip', port', rtcp'))
    as (type & Htype & Hget).
  { destruct ip as [a|]; [exists SIPE_CANDIDATE_TYPE_HOST; split; [by left|congruence]|].
    destruct sdp as [|c sdp];
      [exists SIPE_CANDIDATE_TYPE_HOST; split; [by left|congruence]|].
    exists SIPE_CANDIDATE_TYPE_ANY. split; [by right|]. exact Hany. }
  destruct (bool_decide (is_Some (encryption_key stream)) && bool_decide _)
    eqn:Hkey;
    simplify_eq/=; exists type, rtcp'; (split; [done|]); (split; [done|]);
    (split; [|by rewrite ?Hkey]); intros Hrtcp; apply nameval_add_foldl_elem;
    rewrite (decide_True (P := rtcp' ≠ 0%Z)) by done;
    (destruct (decide (get_encryption_policy sipe_private
                       ≠ server_av_encryption_policy sipe_private));
     unfold sipe_utils_nameval_add; rewrite ?elem_of_app, !list_elem_of_singleton;
     auto).
Qed.

Lemma backend_candidates_to_sdpcandidate_Forall_ipv4 candidates :
  Forall ipv4_candidate (backend_candidates_to_sdpcandidate candidates).
Proof.
  apply Forall_forall. intros c Hc.
  unfold backend_candidates_to_sdpcandidate in Hc.
  rewrite backend_candidates_to_sdpcandidate_loop_perm, app_nil_r in Hc.
  apply list_elem_of_filter in Hc as [Hc _].
  by apply ignored_candidate_false.
Qed.

Lemma ports_filled_ipv4 c c' :
  ports_filled c c' → ipv4_candidate c → ipv4_candidate c'.
Proof.
  unfold ipv4_candidate.
  intros (_ & _ & _ & _ & -> & -> & _). done.
Qed.

Lemma media_stream_to_sdpmedia_candidates_ipv4 sipe_private call stream m :
  media_stream_to_sdpmedia sipe_private call stream = Some (Some m) →
  Forall ipv4_candidate (media_candidates m).
Proof.
  intros Hm.
  apply media_stream_to_sdpmedia_inv in Hm
    as (? & candidates & _ & _ & _ & _ & Hfill & _).
  apply fill_zero_ports_filled in Hfill.
  pose proof (backend_candidates_to_sdpcandidate_Forall_ipv4 candidates) as Hv.
  revert Hv. induction Hfill as [|c c' l l' Hc _ IH]; [done|].
  intros [Hc' Hl]%Forall_cons. constructor; [|by apply IH].
  by eapply ports_filled_ipv4.
Qed.

Lemma ipv4_candidate_ip c :
  ipv4_candidate c → ∃ ip, cand_ip c = Some ip ∧ ip ≠ "" ∧ strchr ip ":" = false.
Proof.
  unfold ipv4_candidate. destruct (cand_ip c) as [ip|]; [|by intros []].
  intros [[? ?] _]. eauto.
Qed.

(** X5: no section the core serialises for a stream mentions an IPv6
    address: neither its local candidates, nor its remote candidates, nor
    the connection address of the section, which is never empty either. *)
Theorem media_stream_to_sdpmedia_ipv4 sipe_private call stream m :
  media_stream_to_sdpmedia sipe_private call stream = Some (Some m) →
  Forall ipv4_candidate (media_candidates m)
  ∧ Forall ipv4_candidate (media_remote_candidates m)
  ∧ ∀ ip, media_ip m = Some ip → ip ≠ "" ∧ strchr ip ":" = false.
Proof.
  intros Hm.
  pose proof (media_stream_to_sdpmedia_candidates_ipv4 _ _ _ _ Hm) as Hlocal.
  apply media_stream_to_sdpmedia_address in Hm
    as (type & rtcp_port & _ & Hget & _ & -> & _).
  split; [done|].
  split; [apply backend_candidates_to_sdpcandidate_Forall_ipv4|].
  intros ip Hip.
  pose proof (get_stream_ip_and_ports_loop_sound (media_candidates m)
                (media_candidates m) type None 0 0) as Hsound.
  unfold get_stream_ip_and_ports in Hget. rewrite Hget in Hsound.
  destruct Hsound as (_ & Haddr & _); [done| |by repeat split|].
  - eapply Forall_impl; [exact Hlocal|]. intros c Hc.
    apply ipv4_candidate_ip in Hc as (? & -> & _). eauto.
  - destruct (Haddr ip Hip) as (c & Hc & _ & Hcip).
    rewrite Forall_forall in Hlocal.
    destruct (ipv4_candidate_ip c (Hlocal c Hc)) as (ip' & Hip' & ? & ?).
    by simplify_eq.
Qed.






(** X7: every SDP message the core serialises consists of the sections of
    the streams followed by the failed sections kept on the call, which are
    put out as they were stored.  The section of a stream carries the local
    SRTP key of the stream, with its key id, unless the effective encryption
    policy is "rejected": then no section of a stream carries a key. *)
Theorem sipe_media_to_sdpmsg_keys sipe_private call msg call' :
  sipe_media_to_sdpmsg sipe_private call = Some (msg, call') →
  ∃ media,
    sdp_media msg = media ++ call_failed_media call
    ∧ Forall2
        (λ stream m,
           media_encryption_key m
           = (if decide (get_encryption_policy sipe_private
                         = SIPE_ENCRYPTION_POLICY_REJECTED)
              then None else encryption_key stream)
           ∧ (is_Some (media_encryption_key m) →
              media_encryption_key_id m = encryption_key_id stream))
        (filter (λ s, is_Some (media_type_of_name (stream_id s)))
           (call_streams call))
        media.
Proof.
  intros Hmsg.
  apply sipe_media_to_sdpmsg_spec in Hmsg as (_ & media & Hmedia & Hnew).
  exists media. split; [done|].
  eapply Forall2_impl; [exact Hnew|].
  intros stream m Hm.
  apply media_stream_to_sdpmedia_address in Hm as (? & ? & _ & _ & _ & _ & Hkey).
  destruct (encryption_key stream) as [key|] eqn:Hk;
    destruct (decide (get_encryption_policy sipe_private
                      = SIPE_ENCRYPTION_POLICY_REJECTED)) as [Hp|Hp];
    [rewrite bool_decide_true in Hkey by eauto|
     rewrite bool_decide_true in Hkey by eauto|
     rewrite bool_decide_false in Hkey by (by intros [? ?])|
     rewrite bool_decide_false in Hkey by (by intros [? ?])];
    [rewrite bool_decide_false in Hkey by (by intros ?)|
     rewrite bool_decide_true in Hkey by done| |];
    simpl in Hkey; injection Hkey as -> ->; (split; [done|]);
    try done; by intros [? ?].
Qed.

(** ** Applying a remote message *)

Section apply_remote_properties.

Context `{!Backend}.

(** The verdict on one section, as far as the section and the names of the
    streams decide it. *)
Lemma update_call_from_remote_sdp_verdict call m :
  let '(ok, call', _) := update_call_from_remote_sdp call m in
  (media_port m = 0%Z → ok = true)
  ∧ (media_port m ≠ 0%Z → media_name m ∉ stream_id <$> call_streams call →
     ok = false)
  ∧ call_encryption_compatible call' = call_encryption_compatible call.
Proof.
  unfold update_call_from_remote_sdp.
  destruct (decide (media_port m = 0%Z)) as [Hp|Hp].
  { by destruct (sipe_core_media_get_stream_by_id _ _) as [[? ?]|]. }
  destruct (sipe_core_media_get_stream_by_id call (media_name m))
    as [[k s]|] eqn:Hfind.
  - assert (media_name m ∈ stream_id <$> call_streams call) as Hin.
    { destruct (decide (media_name m ∈ stream_id <$> call_streams call));
        [done|].
      apply get_stream_by_id_None in n. congruence. }
    repeat case_match; simplify_eq/=; by repeat split.
  - by repeat split.
Qed.

Lemma apply_remote_message_loop_verdicts sipe_private call media :
  let '(call', marked, _) :=
    apply_remote_message_loop sipe_private call media in
  (call_encryption_compatible call' = false
   ↔ call_encryption_compatible call = false
     ∨ (get_encryption_policy sipe_private = SIPE_ENCRYPTION_POLICY_REQUIRED
        ∧ Exists encryption_rejected_by media))
  ∧ Forall2 (λ m (mk : sdpmedia * bool),
               (media_port m = 0%Z → mk.2 = false)
               ∧ (media_port m ≠ 0%Z →
                  media_name m ∉ stream_id <$> call_streams call →
                  mk.2 = true))
      media marked.
Proof.
  revert call. induction media as [|m media IH]; intros call; simpl.
  { split; [|done]. rewrite Exists_nil. tauto. }
  match goal with
  | |- context [update_call_from_remote_sdp ?c m] => set (call0 := c)
  end.
  assert (stream_id <$> call_streams call0 = stream_id <$> call_streams call)
    as Hids0.
  { subst call0. by destruct (_ && _). }
  assert (call_encryption_compatible call0 = false
          ↔ call_encryption_compatible call = false
            ∨ (get_encryption_policy sipe_private
               = SIPE_ENCRYPTION_POLICY_REQUIRED
               ∧ encryption_rejected_by m)) as Henc0.
  { subst call0. unfold encryption_rejected_by, sipe_strequal.
    destruct (_ && _) eqn:Hrej; simpl.
    - apply andb_true_iff in Hrej
        as [?%bool_decide_eq_true ?%bool_decide_eq_true]. tauto.
    - apply andb_false_iff in Hrej
        as [?%bool_decide_eq_false|?%bool_decide_eq_false]; tauto. }
  pose proof (update_call_from_remote_sdp_frame call0 m) as Hframe.
  pose proof (update_call_from_remote_sdp_verdict call0 m) as Hverdict.
  destruct (update_call_from_remote_sdp call0 m) as [[ok call1] evs].
  destruct Hframe as (Hids1 & _ & _).
  destruct Hverdict as (Hzero & Hunknown & Henc1).
  rewrite Hids0 in Hunknown, Hids1.
  assert (∀ marked call2,
            stream_id <$> call_streams call2 = stream_id <$> call_streams call1 →
            Forall2 (λ m (mk : sdpmedia * bool),
                       (media_port m = 0%Z → mk.2 = false)
                       ∧ (media_port m ≠ 0%Z →
                          media_name m ∉ stream_id <$> call_streams call2 →
                          mk.2 = true))
              media marked →
            Forall2 (λ m (mk : sdpmedia * bool),
                       (media_port m = 0%Z → mk.2 = false)
                       ∧ (media_port m ≠ 0%Z →
                          media_name m ∉ stream_id <$> call_streams call →
                          mk.2 = true))
              media marked) as Hweaken.
  { intros marked call2 Hids2 Hmarked.
    eapply Forall2_impl; [exact Hmarked|].
    intros m' mk [Hz Hu]. split; [done|]. intros Hport Hname.
    apply Hu; [done|]. rewrite Hids2. intros Hin. apply Hname.
    by eapply elem_of_sublist. }
  destruct ok; simpl.
  - specialize (IH call1).
    destruct (apply_remote_message_loop sipe_private call1 media)
      as [[call2 marked] evs2].
    destruct IH as (Henc2 & Hmarked).
    split.
    + rewrite Henc2, Henc1, Henc0, Exists_cons. tauto.
    + constructor; simpl.
      * split; [done|]. intros ? ?. symmetry. by apply Hunknown.
      * by eapply Hweaken.
  - specialize (IH (set_call_failed_media call1
                      (call_failed_media call1 ++ [set_media_port m 0]))).
    destruct (apply_remote_message_loop sipe_private _ media)
      as [[call2 marked] evs2].
    destruct IH as (Henc2 & Hmarked). simpl in Henc2, Hmarked.
    split.
    + rewrite Henc2, Henc1, Henc0, Exists_cons. tauto.
    + constructor; simpl.
      * split; [|done]. intros ?. symmetry. by apply Hzero.
      * by eapply Hweaken.
Qed.

(** X8: a section offered with port 0 never fails: it stays in the message,
    so that a message with such a section never ends the call.  A section
    with another port that names no stream of the call always fails: it is
    kept on the call, with port 0.  A message without sections ends the
    call. *)
Theorem apply_remote_message_verdicts sipe_private call msg :
  let '(r, call1, msg', _) := apply_remote_message sipe_private call msg in
  (∀ m, m ∈ sdp_media msg → media_port m = 0%Z →
        m ∈ sdp_media msg' ∧ r = true)
  ∧ (∀ m, m ∈ sdp_media msg → media_port m ≠ 0%Z →
          media_name m ∉ stream_id <$> call_streams call →
          set_media_port m 0 ∈ call_failed_media call1)
  ∧ (sdp_media msg = [] → r = false).
Proof.
  unfold apply_remote_message.
  set (call0 := set_call_encryption_compatible
                  (set_call_failed_media call []) true).
  pose proof (apply_remote_message_loop_spec sipe_private call0 (sdp_media msg))
    as Hspec.
  pose proof (apply_remote_message_loop_verdicts sipe_private call0
                (sdp_media msg)) as Hverdicts.
  destruct (apply_remote_message_loop _ _ _) as [[call1 marked] evs].
  destruct Hspec as (_ & Hfailed & Hmarked & _).
  destruct Hverdicts as (_ & Hverdicts). simpl in Hfailed.
  split; [|split].
  - intros m Hm Hport.
    apply list_elem_of_lookup in Hm as [i Hi].
    destruct (Forall2_lookup_l _ _ _ _ _ Hmarked Hi) as ([m' b] & Hi' & Hm').
    destruct (Forall2_lookup_l _ _ _ _ _ Hverdicts Hi) as (mk & Hi'' & Hv & _).
    rewrite Hi' in Hi''. injection Hi'' as <-. simpl in *.
    rewrite (Hv Hport) in *. subst m'.
    assert (m ∈ fst <$> filter (λ x : sdpmedia * bool, x.2 = false) marked)
      as Hin.
    { apply list_elem_of_fmap. exists (m, false). split; [done|].
      apply list_elem_of_filter. split; [done|].
      by eapply list_elem_of_lookup_2. }
    split; [done|]. apply bool_decide_eq_true. intros Hnil.
    rewrite Hnil in Hin. by apply elem_of_nil in Hin.
  - intros m Hm Hport Hname.
    apply list_elem_of_lookup in Hm as [i Hi].
    destruct (Forall2_lookup_l _ _ _ _ _ Hmarked Hi) as ([m' b] & Hi' & Hm').
    destruct (Forall2_lookup_l _ _ _ _ _ Hverdicts Hi) as (mk & Hi'' & _ & Hv).
    rewrite Hi' in Hi''. injection Hi'' as <-. simpl in *.
    rewrite (Hv Hport Hname) in *. subst m'.
    rewrite Hfailed. apply list_elem_of_fmap. exists (set_media_port m 0, true).
    split; [done|]. apply list_elem_of_filter. split; [done|].
    by eapply list_elem_of_lookup_2.
  - intros Hnil. rewrite Hnil in Hmarked. apply Forall2_nil_inv_l in Hmarked.
    subst marked. apply bool_decide_eq_false. intros Hne. by apply Hne.
Qed.

(** X9: after a remote message has been applied, the call is flagged
    encryption-incompatible exactly when the effective policy is "required"
    and one section of the message carries the attribute
    encryption=rejected; what the flag was before does not matter. *)
Theorem apply_remote_message_encryption_compatible sipe_private call msg :
  let '(_, call1, _, _) := apply_remote_message sipe_private call msg in
  call_encryption_compatible call1 = false
  ↔ get_encryption_policy sipe_private = SIPE_ENCRYPTION_POLICY_REQUIRED
    ∧ Exists encryption_rejected_by (sdp_media msg).
Proof.
  unfold apply_remote_message.
  pose proof (apply_remote_message_loop_verdicts sipe_private
                (set_call_encryption_compatible
                   (set_call_failed_media call []) true)
                (sdp_media msg)) as Hverdicts.
  destruct (apply_remote_message_loop _ _ _) as [[call1 marked] evs].
  destruct Hverdicts as (-> & _). simpl. split; [by intros [?|?]|by right].
Qed.

End apply_remote_properties.

Section renegotiation_properties.

Context `{!Backend}.

Lemma update_call_from_remote_sdp_remote_set call m :
  Forall (λ n : string * option (list Z) * Z * bool, n.2 = true)
    (negotiated <$> call_streams call) →
  let '(_, call', evs) := update_call_from_remote_sdp call m in
  Forall hold_or_end_request evs
  ∧ negotiated <$> call_streams call'
    `sublist_of` negotiated <$> call_streams call
  ∧ length (call_streams call')
    + length (filter (λ e, stream_end_request e = true) evs)
    = length (call_streams call)
  ∧ (media_port m ≠ 0%Z →
     negotiated <$> call_streams call' = negotiated <$> call_streams call).
Proof.
  intros Hset.
  unfold update_call_from_remote_sdp, sipe_core_media_get_stream_by_id,
    stream_end_cb, remove_stream.
  destruct (decide (media_port m = 0%Z)).
  { destruct (list_find _ _) as [[k s]|] eqn:Hfind; simpl;
      [|by rewrite Nat.add_0_r].
    apply list_find_Some in Hfind as (Hk & _ & _).
    split; [by repeat constructor|]. rewrite list_fmap_delete.
    split; [apply sublist_delete|]. split; [|done].
    rewrite length_delete by done.
    apply lookup_lt_Some in Hk. lia. }
  destruct (list_find _ _) as [[k s]|] eqn:Hfind; [|by rewrite Nat.add_0_r].
  apply list_find_Some in Hfind as (Hk & _ & _).
  assert (remote_candidates_and_codecs_set s = true) as Hs.
  { rewrite Forall_fmap, Forall_forall in Hset.
    apply (Hset s). by eapply list_elem_of_lookup_2. }
  assert (∀ b, negotiated <$> call_streams
                 (store_stream call k (set_stream_backend_private s b))
               = negotiated <$> call_streams call) as Hstore.
  { intros b. unfold store_stream. simpl. rewrite list_fmap_insert.
    apply list_insert_id. by rewrite list_lookup_fmap, Hk. }
  assert (∀ s', length (call_streams (store_stream call k s'))
                = length (call_streams call)) as Hlength.
  { intros s'. unfold store_stream. simpl. apply length_insert. }
  destruct (bool_decide (is_Some _)); simpl.
  - rewrite Hs. split; [by repeat constructor|]. rewrite Hstore, Hlength.
    rewrite filter_cons_False by done. simpl. by rewrite Nat.add_0_r.
  - destruct (bs_held (stream_backend_private s)); simpl; rewrite Hs.
    + split; [by repeat constructor|]. rewrite Hstore, Hlength.
      rewrite filter_cons_False by done. simpl. by rewrite Nat.add_0_r.
    + split; [done|]. unfold store_stream. simpl.
      rewrite list_insert_id by done. by rewrite Nat.add_0_r.
Qed.

Lemma apply_remote_message_loop_remote_set sipe_private call media :
  Forall (λ n : string * option (list Z) * Z * bool, n.2 = true)
    (negotiated <$> call_streams call) →
  let '(call', _, evs) :=
    apply_remote_message_loop sipe_private call media in
  Forall hold_or_end_request evs
  ∧ negotiated <$> call_streams call'
    `sublist_of` negotiated <$> call_streams call
  ∧ length (call_streams call')
    + length (filter (λ e, stream_end_request e = true) evs)
    = length (call_streams call)
  ∧ (Forall (λ m, media_port m ≠ 0%Z) media →
     negotiated <$> call_streams call' = negotiated <$> call_streams call).
Proof.
  revert call. induction media as [|m media IH]; intros call Hset; simpl;
    [by rewrite Nat.add_0_r|].
  match goal with
  | |- context [update_call_from_remote_sdp ?c m] => set (call0 := c)
  end.
  assert (call_streams call0 = call_streams call) as Hstreams0.
  { subst call0. by destruct (_ && _). }
  pose proof (update_call_from_remote_sdp_remote_set call0 m) as Hupdate.
  rewrite Hstreams0 in Hupdate. specialize (Hupdate Hset).
  destruct (update_call_from_remote_sdp call0 m) as [[ok call1] evs].
  destruct Hupdate as (Hevs & Hn1 & Hl1 & He1).
  assert (Forall (λ n : string * option (list Z) * Z * bool, n.2 = true)
            (negotiated <$> call_streams call1)) as Hset1.
  { rewrite Forall_forall in Hset. apply Forall_forall. intros n Hn.
    apply Hset. by eapply elem_of_sublist. }
  assert (∀ call2 evs2,
            Forall hold_or_end_request evs2
            ∧ negotiated <$> call_streams call2
              `sublist_of` negotiated <$> call_streams call1
            ∧ length (call_streams call2)
              + length (filter (λ e, stream_end_request e = true) evs2)
              = length (call_streams call1)
            ∧ (Forall (λ m, media_port m ≠ 0%Z) media →
               negotiated <$> call_streams call2
               = negotiated <$> call_streams call1) →
            Forall hold_or_end_request (evs ++ evs2)
            ∧ negotiated <$> call_streams call2
              `sublist_of` negotiated <$> call_streams call
            ∧ length (call_streams call2)
              + length (filter (λ e, stream_end_request e = true)
                          (evs ++ evs2))
              = length (call_streams call)
            ∧ (Forall (λ m, media_port m ≠ 0%Z) (m :: media) →
               negotiated <$> call_streams call2
               = negotiated <$> call_streams call)) as Hstep.
  { intros call2 evs2 (Hevs2 & Hn2 & Hl2 & He2).
    split; [by apply Forall_app|]. split; [by etrans|].
    split; [rewrite filter_app, length_app; lia|].
    intros [Hm Hmedia]%Forall_cons. rewrite He2, He1; done. }
  destruct ok; simpl.
  - specialize (IH call1 Hset1).
    destruct (apply_remote_message_loop sipe_private call1 media)
      as [[call2 marked] evs2].
    by eapply Hstep.
  - specialize (IH (set_call_failed_media call1
                      (call_failed_media call1 ++ [set_media_port m 0]))).
    simpl in IH. specialize (IH Hset1).
    destruct (apply_remote_message_loop sipe_private _ media)
      as [[call2 marked] evs2].
    by eapply Hstep.
Qed.

(** X10: when a remote message is applied to a call all of whose streams
    have their remote candidates and codecs set already (a re-INVITE), no
    codecs, candidates or keys are handed to the backend again: the only
    requests made are hold, unhold and stream end.  No stream is added; a
    stream leaves the call with each stream-end request and not otherwise,
    and every stream that stays keeps its key, its key id and its
    remote-set flag.  When no section of the message has port 0, all
    streams stay. *)
Theorem apply_remote_message_renegotiation sipe_private call msg :
  Forall (λ s, remote_candidates_and_codecs_set s = true) (call_streams call) →
  let '(_, call1, _, evs) := apply_remote_message sipe_private call msg in
  Forall hold_or_end_request evs
  ∧ negotiated <$> call_streams call1
    `sublist_of` negotiated <$> call_streams call
  ∧ length (call_streams call1)
    + length (filter (λ e, stream_end_request e = true) evs)
    = length (call_streams call)
  ∧ (Forall (λ m, media_port m ≠ 0%Z) (sdp_media msg) →
     negotiated <$> call_streams call1 = negotiated <$> call_streams call).
Proof.
  intros Hset. unfold apply_remote_message.
  pose proof (apply_remote_message_loop_remote_set sipe_private
                (set_call_encryption_compatible
                   (set_call_failed_media call []) true)
                (sdp_media msg)) as Hloop.
  simpl in Hloop.
  destruct (apply_remote_message_loop _ _ _) as [[call1 marked] evs].
  apply Hloop. by rewrite Forall_fmap.
Qed.

End renegotiation_properties.

(** ** One audio call at a time *)

Section initiate_properties.

Context `{!Backend, !SipLayer}.

(** X11: while some registered call has a stream called "audio",
    [sipe_media_initiate_call] does nothing at all: no call is created, no
    request is made, the core stays as it is. *)
Theorem sipe_media_initiate_call_busy sipe_private k call with_ ice_version
    with_video :
  media_calls sipe_private !! k = Some call →
  "audio" ∈ stream_id <$> call_streams call →
  sipe_media_initiate_call sipe_private with_ ice_version with_video
  = Some sipe_private.
Proof.
  intros Hk Haudio. unfold sipe_media_initiate_call.
  destruct (sipe_core_media_get_call sipe_private) eqn:Hcall; [done|].
  rewrite sipe_core_media_get_call_None in Hcall.
  by destruct (Hcall k call Hk).
Qed.

(** What the tail of the failure branch does for a call registered under
    the Call-ID of the response. *)
Lemma report_invite_failure_outcome sipe_private msg trans call dialog title
    desc append_responsestr :
  sipe_media_from_sipmsg sipe_private (msg_callid msg) = Some call →
  call_id call = msg_callid msg →
  sipe_media_get_sip_dialog call = Some dialog →
  ∃ desc' before_callbacks,
    report_invite_failure sipe_private msg trans (call_id call) title desc
      append_responsestr
    = Some (true,
            sipe_backend_media_hangup_callbacks before_callbacks
              (call_id call) false)
    ∧ trace before_callbacks
      = trace sipe_private
        ++ [EvBackendNotifyError title desc';
            EvTransportAck (dialog_callid dialog)
              (sip_transaction_cseq trans - 1);
            EvBackendMediaHangup (call_id call) false]
    ∧ (∀ k, is_Some (media_calls before_callbacks !! k)
            ↔ is_Some (media_calls sipe_private !! k))
    ∧ (append_responsestr = false → desc' = desc).
Proof.
  intros Hcall Hid Hdialog. unfold report_invite_failure.
  match goal with
  | |- context [EvBackendNotifyError title ?d] => set (desc' := d)
  end.
  exists desc'.
  unfold sipe_media_send_ack, sipe_media_from_sipmsg in *. simpl.
  rewrite Hcall, Hdialog. simpl.
  unfold sipe_backend_media_hangup. eexists. split; [done|].
  assert (call_id (store_sip_dialog call
                     (set_dialog_outgoing_invite
                        (set_dialog_cseq
                           (sip_transport_ack
                              (set_dialog_cseq dialog
                                 (sip_transaction_cseq trans - 1)))
                           (dialog_cseq dialog)) None))
          = msg_callid msg) as Hid'.
  { rewrite <- Hid. unfold store_sip_dialog. by destruct (call_session call). }
  split; [|split].
  - simpl. by rewrite <- !app_assoc.
  - intros k. unfold store_call. simpl. rewrite Hid'.
    rewrite lookup_insert_is_Some.
    destruct (decide (msg_callid msg = k)) as [<-|]; [|tauto].
    rewrite Hcall. split; [by eexists|by left].
  - intros ->. by subst desc'.
Qed.

(** X12: a failure response to the INVITE of a call registered under the
    Call-ID of the response that is neither the 415 of the archiving
    service nor a 488 free of the encryption-mismatch marks is final,
    whatever its cseq and the ICE version of the call.  The requests the
    core makes are the error shown under the title that goes with the
    response code, the ACK on the dialog of the call with the cseq of the
    transaction minus one, and the hang-up of the call; up to the callbacks
    the backend runs for the hang-up, the registered calls are the ones of
    before: no call is set up in its place. *)
Theorem invite_failure_final sipe_private msg trans call dialog :
  sipe_media_from_sipmsg sipe_private (msg_callid msg) = Some call →
  call_id call = msg_callid msg →
  sipe_media_get_sip_dialog call = Some dialog →
  (400 ≤ msg_response msg)%Z →
  ¬ retry_candidate_response msg →
  ∃ desc before_callbacks,
    process_invite_call_response sipe_private msg trans
    = Some (true,
            sipe_backend_media_hangup_callbacks before_callbacks
              (call_id call) false)
    ∧ trace before_callbacks
      = trace sipe_private
        ++ [EvBackendNotifyError (invite_failure_title msg) desc;
            EvTransportAck (dialog_callid dialog)
              (sip_transaction_cseq trans - 1);
            EvBackendMediaHangup (call_id call) false]
    ∧ ∀ k, is_Some (media_calls before_callbacks !! k)
           ↔ is_Some (media_calls sipe_private !! k).
Proof.
  intros Hcall Hid Hdialog Hcode Hnot.
  destruct (process_invite_call_response_failure _ _ trans _ _
              Hcall Hdialog Hcode) as (Hfinal & _).
  destruct (Hfinal Hnot) as (desc & append_responsestr & ->).
  destruct (store_sip_dialog_fields call
              (set_dialog_outgoing_invite dialog None)) as (Hid1 & _).
  set (call1 := store_sip_dialog call (set_dialog_outgoing_invite dialog None))
    in *.
  destruct (report_invite_failure_outcome (store_call sipe_private call1)
              msg trans call1 (set_dialog_outgoing_invite dialog None)
              (invite_failure_title msg) desc append_responsestr)
    as (desc' & before & Hreport & Htrace & Hcalls & _).
  { unfold sipe_media_from_sipmsg, store_call. simpl.
    rewrite Hid1, Hid. apply lookup_insert_eq. }
  { congruence. }
  { by eapply sipe_media_get_sip_dialog_store. }
  rewrite Hid1 in Hreport, Htrace. exists desc', before.
  split; [done|]. split; [done|].
  intros k. rewrite Hcalls. unfold store_call. simpl.
  rewrite lookup_insert_is_Some, Hid1, Hid.
  destruct (decide (msg_callid msg = k)) as [<-|]; [|tauto].
  unfold sipe_media_from_sipmsg in Hcall. rewrite Hcall.
  split; [by eexists|by left].
Qed.

(** X13: a 488 that neither reports incompatible encryption levels nor
    carries an [ms-diagnostics] header starting with "7008;" makes the core
    try draft-6: when the transaction has cseq 1 and the call does not use
    draft-6, the call is hung up.  When the hang-up has freed the call, the
    core is then read out of the freed call: the behaviour is undefined.
    When the call is still registered, [sipe_media_initiate_call] is run
    once, on the core the hang-up left, for the same URI and video choice
    with draft-6. *)
Theorem invite_488_retries_with_draft_6 sipe_private msg trans call dialog :
  sipe_media_from_sipmsg sipe_private (msg_callid msg) = Some call →
  sipe_media_get_sip_dialog call = Some dialog →
  msg_response msg = 488%Z →
  encryption_levels_response msg = false →
  ¬ sdp_parse_error_response msg →
  sip_transaction_cseq trans = 1%Z →
  call_ice_version call ≠ SIPE_ICE_DRAFT_6 →
  let hung :=
    sipe_backend_media_hangup
      (store_call sipe_private
         (store_sip_dialog call (set_dialog_outgoing_invite dialog None)))
      (call_id call) false in
  (media_calls hung !! call_id call = None →
   process_invite_call_response sipe_private msg trans = None)
  ∧ (is_Some (media_calls hung !! call_id call) →
     process_invite_call_response sipe_private msg trans
     = (λ s, (true, s)) <$>
         sipe_media_initiate_call hung (call_with call) SIPE_ICE_DRAFT_6
           (bool_decide
              (is_Some (sipe_core_media_get_stream_by_id call "video")))).
Proof.
  intros Hcall Hdialog H488 Henc Hnot Hcseq Hice hung.
  destruct (process_invite_call_response_failure _ _ trans _ _ Hcall Hdialog)
    as (_ & _ & Hretry); [lia|].
  rewrite Hretry by done. clear Hretry.
  assert (match sipmsg_find_header msg "ms-diagnostics" with
          | Some d => if g_str_has_prefix d "7008;"
                      then SIPE_ICE_RFC_5245 else SIPE_ICE_DRAFT_6
          | None => SIPE_ICE_DRAFT_6
          end = SIPE_ICE_DRAFT_6) as ->.
  { destruct (sipmsg_find_header msg "ms-diagnostics") as [d|] eqn:Hd; [|done].
    destruct (g_str_has_prefix d "7008;") eqn:Hprefix; [|done].
    destruct Hnot. split; [done|]. eauto. }
  rewrite decide_True by done. fold hung.
  split; [by intros ->|by intros [call' ->]].
Qed.

End initiate_properties.

Section answer_properties.

Context `{!Backend, !SipLayer}.

Lemma update_call_from_remote_sdp_session call media :
  call_session (update_call_from_remote_sdp call media).1.2 = call_session call
  ∧ call_id (update_call_from_remote_sdp call media).1.2 = call_id call.
Proof.
  unfold update_call_from_remote_sdp.
  destruct (decide (media_port media = 0%Z)).
  { by destruct (sipe_core_media_get_stream_by_id _ _) as [[? ?]|]. }
  destruct (sipe_core_media_get_stream_by_id _ _) as [[k s]|]; [|done].
  by repeat case_match.
Qed.

Lemma apply_remote_message_loop_session sipe_private call media :
  call_session (apply_remote_message_loop sipe_private call media).1.1
  = call_session call
  ∧ call_id (apply_remote_message_loop sipe_private call media).1.1
    = call_id call.
Proof.
  revert call. induction media as [|m media IH]; intros call; simpl; [done|].
  match goal with
  | |- context [update_call_from_remote_sdp ?c m] => set (call0 := c)
  end.
  assert (call_session call0 = call_session call
          ∧ call_id call0 = call_id call) as [Hs0 Hid0].
  { subst call0. by destruct (_ && _). }
  destruct (update_call_from_remote_sdp_session call0 m) as [Hs1 Hid1].
  destruct (update_call_from_remote_sdp call0 m) as [[ok call1] evs].
  simpl in Hs1, Hid1.
  destruct ok.
  - destruct (IH call1) as [Hs2 Hid2].
    destruct (apply_remote_message_loop sipe_private call1 media)
      as [[call2 marked] evs2].
    simpl in *. split; congruence.
  - destruct (IH (set_call_failed_media call1
                    (call_failed_media call1 ++ [set_media_port m 0])))
      as [Hs2 Hid2].
    destruct (apply_remote_message_loop sipe_private _ media)
      as [[call2 marked] evs2].
    simpl in *. split; congruence.
Qed.

Lemma apply_remote_message_loop_policy sipe_private sipe_private' call media :
  get_encryption_policy sipe_private = get_encryption_policy sipe_private' →
  apply_remote_message_loop sipe_private call media
  = apply_remote_message_loop sipe_private' call media.
Proof.
  intros Hpolicy. revert call.
  induction media as [|m media IH]; intros call; simpl; [done|].
  rewrite Hpolicy.
  destruct (update_call_from_remote_sdp _ m) as [[[] c1] evs1];
    by rewrite IH.
Qed.

(** X14: an answer below 400 to the INVITE of a registered call, with a body
    the SDP parser accepts, is always acknowledged: the handler returns TRUE
    and its last request is the ACK on the dialog of the call, sent with the
    cseq of the transaction minus one, after the requests that applying the
    answer caused.  This holds whatever [apply_remote_message] returned,
    also when every media section of the answer failed. *)
Theorem invite_answer_acknowledged sipe_private msg trans call dialog smsg :
  sipe_media_from_sipmsg sipe_private (msg_callid msg) = Some call →
  call_id call = msg_callid msg →
  sipe_media_get_sip_dialog call = Some dialog →
  (msg_response msg < 400)%Z →
  sdpmsg_parse_msg (msg_body msg) = Some smsg →
  let dialog1 :=
    sipe_dialog_parse (set_dialog_outgoing_invite dialog None) msg true in
  let call1 :=
    store_sip_dialog
      (store_sip_dialog call (set_dialog_outgoing_invite dialog None))
      dialog1 in
  ∃ sipe_private',
    process_invite_call_response sipe_private msg trans
    = Some (true, sipe_private')
    ∧ trace sipe_private'
      = trace sipe_private
        ++ (apply_remote_message sipe_private call1 smsg).2
        ++ [EvTransportAck (dialog_callid dialog1)
              (sip_transaction_cseq trans - 1)].
Proof.
  intros Hcall Hid Hdialog Hcode Hsdp dialog1 call1.
  unfold process_invite_call_response. rewrite Hcall. simpl.
  rewrite Hdialog. simpl. rewrite decide_False by lia.
  fold dialog1. fold call1. rewrite Hsdp.
  assert (∃ session, call_session call1
                     = Some {| session_with := session_with session;
                               session_dialogs :=
                                 dialog1 :: tail (session_dialogs session);
                               session_is_call := session_is_call session |})
    as [session Hsession].
  { unfold call1, store_sip_dialog.
    unfold sipe_media_get_sip_dialog in Hdialog.
    destruct (call_session call) as [session|]; [|done]. simpl. eauto. }
  assert (call_id call1 = msg_callid msg) as Hid1.
  { unfold call1. by rewrite !(proj1 (store_sip_dialog_fields _ _)). }
  unfold apply_remote_message.
  set (call0 := set_call_encryption_compatible
                  (set_call_failed_media call1 []) true).
  destruct (apply_remote_message_loop_session
              (store_call
                 (store_call sipe_private
                    (store_sip_dialog call
                       (set_dialog_outgoing_invite dialog None))) call1)
              call0 (sdp_media smsg)) as [Hs2 Hid2].
  assert (apply_remote_message_loop sipe_private call0 (sdp_media smsg)
          = apply_remote_message_loop
              (store_call
                 (store_call sipe_private
                    (store_sip_dialog call
                       (set_dialog_outgoing_invite dialog None))) call1)
              call0 (sdp_media smsg)) as Hsame.
  { by apply apply_remote_message_loop_policy. }
  rewrite Hsame.
  destruct (apply_remote_message_loop _ call0 (sdp_media smsg))
    as [[call2 marked] evs].
  simpl in Hs2, Hid2. simpl.
  unfold sipe_media_send_ack, sipe_media_from_sipmsg. simpl.
  rewrite <-Hid1, <-Hid2, lookup_insert_eq.
  unfold sipe_media_get_sip_dialog. rewrite Hs2, Hsession. simpl.
  eexists. split; [reflexivity|]. simpl. by rewrite <-app_assoc.
Qed.

End answer_properties.

(** ** What the removal of mistagged candidates never does *)

Lemma filter_sublist {A} (P : A → Prop) `{!∀ x, Decision (P x)} (l : list A) :
  filter P l `sublist_of` l.
Proof.
  induction l as [|x l IH]; [done|].
  rewrite filter_cons. destruct (decide (P x)); by constructor.
Qed.

Lemma remove_wrong_step_keeps nodes st node st' :
  NoDup (fst <$> nodes) →
  node ∈ nodes →
  farstream_keeps nodes st →
  remove_wrong_step st node = Some st' →
  farstream_keeps nodes st'.
Proof.
  intros Hnodup Hnode (Hsub & Hkeep & Htable) Hstep.
  destruct node as [i c1]. unfold remove_wrong_step in Hstep.
  destruct (decide (cand_protocol c1 = SIPE_NETWORK_PROTOCOL_UDP)) as [Hudp|];
    [|by simplify_eq].
  destruct (fs_foundation_to_candidate st !! cand_foundation c1)
    as [[j c2]|] eqn:Hfound.
  - destruct (decide (j ∈ fst <$> fs_candidates st)); [|done].
    destruct (wrong_udp_pair c1 c2); [|by simplify_eq].
    injection Hstep as <-. unfold g_list_remove_node.
    destruct (Htable _ _ Hfound) as [Hj Hudp2]. simpl in Hudp2.
    split; [|split]; simpl; [| |done].
    + etrans; [apply filter_sublist|]. etrans; [apply filter_sublist|done].
    + intros n Hn Hproto.
      assert (∀ k c, (k, c) ∈ nodes →
                     cand_protocol c = SIPE_NETWORK_PROTOCOL_UDP → n.1 ≠ k)
        as Hother.
      { intros k c Hk Hc Heq. destruct n as [k' c']. simpl in *. subst k'.
        assert (c' = c) as ->; [|done].
        apply list_elem_of_lookup in Hn as [a Ha].
        apply list_elem_of_lookup in Hk as [b Hb].
        assert (a = b) as ->.
        { eapply NoDup_lookup; [exact Hnodup| |];
            rewrite list_lookup_fmap; [by rewrite Ha|by rewrite Hb]. }
        congruence. }
      apply list_elem_of_filter. split; [by eapply Hother|].
      apply list_elem_of_filter. split; [by eapply Hother|].
      by apply Hkeep.
  - injection Hstep as <-. split; [|split]; simpl; [done|done|].
    intros f n. destruct (decide (f = cand_foundation c1)) as [->|Hne].
    + rewrite lookup_insert_eq. by intros [= <-].
    + rewrite lookup_insert_ne by done. apply Htable.
Qed.

Lemma remove_wrong_loop_keeps nodes todo st st' :
  NoDup (fst <$> nodes) →
  todo ⊆ nodes →
  farstream_keeps nodes st →
  remove_wrong_loop todo st = Some st' →
  farstream_keeps nodes st'.
Proof.
  intros Hnodup. revert st.
  induction todo as [|node todo IH]; intros st Hsub Hinv Hloop; simpl in Hloop.
  { by simplify_eq. }
  destruct (remove_wrong_step st node) as [st1|] eqn:Hstep; [|done].
  simpl in Hloop. eapply IH; [| |done].
  - intros n Hn. apply Hsub. by right.
  - eapply remove_wrong_step_keeps; [done| |done|done].
    apply Hsub. by left.
Qed.

(** X16: whenever the removal of mistagged candidates returns, whatever the
    foundations of the candidates, it has only dropped candidates: the
    result is the list it was given with some UDP candidates taken out, the
    others in their order; every TCP candidate is still there. *)
Theorem remove_wrong_farstream_keeps l r :
  remove_wrong_farstream_0_1_tcp_candidates l = Some r →
  r `sublist_of` l
  ∧ ∀ c, c ∈ l → cand_protocol c ≠ SIPE_NETWORK_PROTOCOL_UDP → c ∈ r.
Proof.
  unfold remove_wrong_farstream_0_1_tcp_candidates. intros Hr.
  destruct (remove_wrong_loop _ _) as [st|] eqn:Hloop; [|done].
  injection Hr as <-.
  assert (snd <$> imap (λ i c, (i, c)) l = l) as Hsnd.
  { apply list_eq. intros i.
    rewrite list_lookup_fmap, list_lookup_imap. by destruct (l !! i). }
  apply remove_wrong_loop_keeps with (nodes := imap (λ i c, (i, c)) l) in Hloop
    as (Hsub & Hkeep & _); [| |done|].
  - split.
    + rewrite <-Hsnd. by apply fmap_sublist.
    + intros c Hc Hproto. apply list_elem_of_lookup in Hc as [i Hi].
      apply list_elem_of_fmap. exists (i, c). split; [done|].
      apply Hkeep; [|done].
      apply list_elem_of_lookup. exists i. by rewrite list_lookup_imap, Hi.
  - assert (fst <$> imap (λ i c, (i, c)) l = seq 0 (length l)) as ->;
      [|apply NoDup_seq].
    apply list_eq. intros i.
    rewrite list_lookup_fmap, list_lookup_imap.
    destruct (l !! i) eqn:Hi; simpl.
    + symmetry. apply lookup_seq. split; [done|]. by eapply lookup_lt_Some.
    + symmetry. apply lookup_ge_None. rewrite length_seq.
      by apply lookup_ge_None.
  - split; [done|]. split; [done|]. intros f n. simpl. by rewrite lookup_empty.
Qed.

(** ** Outcome of a credentials request *)

Section mras_properties.

Context `{!Backend, !XmlLayer}.

Lemma parse_media_relay_dns_query item relay :
  parse_media_relay item = Some relay →
  relay_dns_query relay
  = sipe_backend_dns_query_a (relay_hostname relay) (relay_udp_port relay)
  ∧ (0 ≤ relay_udp_port relay < 2 ^ 32)%Z
  ∧ (0 ≤ relay_tcp_port relay < 2 ^ 32)%Z.
Proof.
  unfold parse_media_relay. intros Hrelay.
  assert (∀ node : option sipe_xml,
            match node with
            | Some node =>
                v ← atoi (sipe_xml_data (Some node)); Some (v `mod` 2 ^ 32)%Z
            | None => Some 0%Z
            end
            = match node with
              | Some node =>
                  v ← atoi (sipe_xml_data (Some node));
                  Some (v `mod` 2 ^ 32)%Z
              | None => Some 0%Z
              end
            ∧ ∀ port,
                match node with
                | Some node =>
                    v ← atoi (sipe_xml_data (Some node));
                    Some (v `mod` 2 ^ 32)%Z
                | None => Some 0%Z
                end = Some port → (0 ≤ port < 2 ^ 32)%Z) as Hport.
  { intros [node|]; (split; [done|]); intros port Hp.
    - destruct (atoi _) as [v|]; simplify_eq/=.
      apply Z.mod_pos_bound. lia.
    - simplify_eq. lia. }
  destruct (Hport (sipe_xml_child (Some item) ["udpPort"])) as [_ Hudp].
  destruct (Hport (sipe_xml_child (Some item) ["tcpPort"])) as [_ Htcp].
  destruct (match sipe_xml_child (Some item) ["udpPort"] with
            | Some node => _ | None => _ end) as [udp|]; [|done].
  simpl in Hrelay.
  destruct (match sipe_xml_child (Some item) ["tcpPort"] with
            | Some node => _ | None => _ end) as [tcp|]; [|done].
  simplify_eq/=. split; [done|]. split; [by apply Hudp|by apply Htcp].
Qed.

(** X15: whenever the handler of a credentials response returns, it returns
    FALSE exactly for the codes from 400 on; it leaves credentials or relays
    in the core only after a 200 whose body has reasonPhrase "OK"; every
    relay it stores has ports in the range of [guint] and holds what
    [sipe_backend_dns_query_a] returned for its host name and UDP port, and
    the requests made are the cancellations for the relays dropped followed
    by one DNS query per relay stored, for its host name and UDP port, in
    order. *)
Theorem process_get_av_edge_credentials_response_outcome sipe_private msg r
    sipe_private' :
  process_get_av_edge_credentials_response sipe_private msg
  = Some (r, sipe_private') →
  (r = false ↔ (400 ≤ msg_response msg)%Z)
  ∧ (is_Some (media_relay_username sipe_private')
     ∨ is_Some (media_relay_password sipe_private')
     ∨ media_relays sipe_private' ≠ [] →
     msg_response msg = 200%Z
     ∧ sipe_xml_attribute (sipe_xml_parse (msg_body msg)) "reasonPhrase"
       = Some "OK")
  ∧ Forall (λ relay,
              relay_dns_query relay
              = sipe_backend_dns_query_a (relay_hostname relay)
                  (relay_udp_port relay)
              ∧ (0 ≤ relay_udp_port relay < 2 ^ 32)%Z
              ∧ (0 ≤ relay_tcp_port relay < 2 ^ 32)%Z)
      (media_relays sipe_private')
  ∧ trace sipe_private'
    = trace sipe_private
      ++ sipe_media_relay_list_free (media_relays sipe_private)
      ++ ((λ relay, EvBackendDnsQueryA (relay_hostname relay)
                      (relay_udp_port relay))
          <$> media_relays sipe_private').
Proof.
  unfold process_get_av_edge_credentials_response. intros Hresult.
  assert (∀ P : Prop, is_Some (@None string) ∨ is_Some (@None string)
                      ∨ @nil sipe_media_relay ≠ [] → P) as Hnone.
  { intros P [[? ?]|[[? ?]|?]]; done. }
  destruct (decide (400 ≤ msg_response msg)%Z) as [Hcode|Hcode].
  { simplify_eq/=. split; [done|]. split; [apply Hnone|].
    split; [done|]. by rewrite app_nil_r. }
  destruct (decide (msg_response msg = 200)%Z) as [H200|H200].
  2:{ simplify_eq/=. split; [done|]. split; [apply Hnone|].
      split; [done|]. by rewrite app_nil_r. }
  unfold sipe_strequal in Hresult. case_bool_decide as Hok.
  2:{ simplify_eq/=. split; [done|]. split; [apply Hnone|].
      split; [done|]. by rewrite app_nil_r. }
  destruct (mapM parse_media_relay _) as [relays|] eqn:Hrelays; [|done].
  simplify_eq/=. split; [done|]. split; [done|]. split.
  - apply mapM_Some in Hrelays. apply Forall_forall. intros relay Hrelay.
    apply list_elem_of_lookup in Hrelay as [i Hi].
    destruct (Forall2_lookup_r _ _ _ _ _ Hrelays Hi) as (item & _ & Hitem).
    by eapply parse_media_relay_dns_query.
  - by rewrite <-app_assoc.
Qed.

End mras_properties.

(** ** Printing and reading back numbers *)

Lemma digit_value_pretty_N_char d :
  (d < 10)%N → digit_value (pretty_N_char d) = Some (Z.of_N d).
Proof.
  intros Hd.
  assert (d = 0 ∨ d = 1 ∨ d = 2 ∨ d = 3 ∨ d = 4 ∨ d = 5 ∨ d = 6 ∨ d = 7
          ∨ d = 8 ∨ d = 9)%N as Hcases by lia.
  repeat (destruct Hcases as [->|Hcases]; [done|]). by subst.
Qed.

(** Reading back what [pretty] printed: the digits of [x] in front of [s]
    continue the number read so far. *)
Lemma parse_digits_pretty_N_go x s acc :
  ∃ k : nat,
    parse_digits (pretty_N_go x s) acc
    = parse_digits s (acc * 10 ^ Z.of_nat k + Z.of_N x)%Z.
Proof.
  revert s. induction (N.lt_wf_0 x) as [x _ IH]; intros s.
  assert (x = 0 ∨ 0 < x)%N as [->|Hpos] by lia.
  { exists 0%nat. rewrite pretty_N_go_0. f_equal. simpl. lia. }
  rewrite pretty_N_go_step by done.
  destruct (IH (x `div` 10)%N (N.div_lt x 10 Hpos eq_refl)
              (String (pretty_N_char (x `mod` 10)) s)) as (k & ->).
  exists (S k).
  simpl parse_digits at 1.
  rewrite digit_value_pretty_N_char by (apply N.mod_lt; lia).
  f_equal. rewrite Nat2Z.inj_succ, Z.pow_succ_r by lia.
  assert (Z.of_N x = 10 * Z.of_N (x `div` 10) + Z.of_N (x `mod` 10))%Z as ->.
  { rewrite <-(N2Z.inj_mul 10), <-N2Z.inj_add. f_equal. by apply N.div_mod. }
  ring.
Qed.

(** A positive number is printed with a digit in front. *)
Lemma pretty_N_go_head x s :
  (0 < x)%N →
  ∃ d s', (d < 10)%N ∧ pretty_N_go x s = String (pretty_N_char d) s'.
Proof.
  revert s. induction (N.lt_wf_0 x) as [x _ IH]; intros s Hpos.
  rewrite pretty_N_go_step by done.
  destruct (N.eq_0_gt_0_cases (x `div` 10)) as [->|Hdiv].
  - rewrite pretty_N_go_0. eexists _, _. split; [|done]. by apply N.mod_lt.
  - apply IH; [|done]. by apply N.div_lt.
Qed.

Lemma strtol_pretty_pos p :
  let s := pretty (N.pos p) in
  skip_spaces s = s
  ∧ match s with
    | String "-" s' => (- parse_digits s' 0)%Z
    | String "+" s' => parse_digits s' 0
    | _ => parse_digits s 0
    end = Z.pos p
  ∧ parse_digits s 0 = Z.pos p.
Proof.
  unfold pretty, pretty_N. rewrite decide_False by done.
  destruct (parse_digits_pretty_N_go (N.pos p) "" 0) as (k & Hparse).
  simpl in Hparse.
  destruct (pretty_N_go_head (N.pos p) "") as (d & s' & Hd & Hs); [done|].
  rewrite Hs in *. clear Hs.
  assert (d = 0 ∨ d = 1 ∨ d = 2 ∨ d = 3 ∨ d = 4 ∨ d = 5 ∨ d = 6 ∨ d = 7
          ∨ d = 8 ∨ d = 9)%N as Hcases by lia.
  repeat (destruct Hcases as [->|Hcases]; [by repeat split|]).
  subst d. by repeat split.
Qed.

Lemma strtol_pretty z :
  (- 2 ^ 63 ≤ z < 2 ^ 63)%Z → strtol (pretty z) = z.
Proof.
  intros Hz. unfold strtol. destruct z as [|p|p].
  - reflexivity.
  - change (pretty (Z.pos p)) with (pretty (N.pos p)).
    destruct (strtol_pretty_pos p) as (-> & -> & _). lia.
  - change (pretty (Z.neg p)) with (String "-" (pretty (N.pos p))).
    destruct (strtol_pretty_pos p) as (_ & _ & Hparse).
    change (skip_spaces (String "-" (pretty (N.pos p))))
      with (String "-" (pretty (N.pos p))).
    cbv beta iota zeta. rewrite Hparse. lia.
Qed.

Lemma wrap_gint_range z : (- 2 ^ 31 ≤ wrap_gint z < 2 ^ 31)%Z.
Proof.
  unfold wrap_gint. pose proof (Z.mod_pos_bound (z + 2 ^ 31) (2 ^ 32)). lia.
Qed.

Lemma wrap_gint_idemp z : wrap_gint (wrap_gint z) = wrap_gint z.
Proof. apply wrap_gint_small. pose proof (wrap_gint_range z). lia. Qed.

Lemma wrap_gint_mod z : wrap_gint (z `mod` 2 ^ 32) = wrap_gint z.
Proof.
  unfold wrap_gint. f_equal.
  rewrite <-(Zplus_mod_idemp_l z). done.
Qed.

Lemma wrap_gint_guint z : (wrap_gint z `mod` 2 ^ 32 = z `mod` 2 ^ 32)%Z.
Proof.
  unfold wrap_gint.
  rewrite Zminus_mod_idemp_l.
  replace (z + 2 ^ 31 - 2 ^ 31)%Z with z by lia. done.
Qed.

(** What [atoi] reads from a number printed with "%d" or "%u": its low 32
    bits, as an [int]. *)
Lemma atoi_printf_d z : atoi (Some (printf_d z)) = Some (wrap_gint z).
Proof.
  unfold atoi, printf_d. simpl. f_equal.
  rewrite strtol_pretty by (pose proof (wrap_gint_range z); lia).
  apply wrap_gint_idemp.
Qed.

Lemma atoi_printf_u z : atoi (Some (printf_u z)) = Some (wrap_gint z).
Proof.
  unfold atoi, printf_u. simpl. f_equal.
  rewrite strtol_pretty
    by (pose proof (Z.mod_pos_bound z (2 ^ 32)); lia).
  apply wrap_gint_mod.
Qed.

(** ** The framing of a Lync file transfer *)

Lemma pretty_N_go_length k x s :
  (x < 10 ^ N.of_nat k)%N →
  (String.length (pretty_N_go x s) ≤ k + String.length s)%nat.
Proof.
  revert x s. induction k as [|k IH]; intros x s Hx.
  - assert (x = 0%N) as -> by (simpl in Hx; lia). by rewrite pretty_N_go_0.
  - destruct (N.eq_0_gt_0_cases x) as [->|Hpos].
    { rewrite pretty_N_go_0. lia. }
    rewrite pretty_N_go_step by done.
    etrans; [apply IH|simpl; lia].
    apply N.Div0.div_lt_upper_bound.
    by rewrite Nat2N.inj_succ, N.pow_succ_r' in Hx.
Qed.

Lemma printf_u_length z : (String.length (printf_u z) ≤ 10)%nat.
Proof.
  unfold printf_u. pose proof (Z.mod_pos_bound z (2 ^ 32)) as Hz.
  destruct (z `mod` 2 ^ 32)%Z as [|p|p] eqn:Hp; [simpl; lia| |lia].
  change (pretty (Z.pos p)) with (pretty (N.pos p)).
  unfold pretty, pretty_N. rewrite decide_False by done.
  etrans; [apply (pretty_N_go_length 10)|simpl; lia].
  change (10 ^ N.of_nat 10)%N with 10000000000%N. lia.
Qed.

Lemma bytes_of_string_length s :
  length (bytes_of_string s) = String.length s.
Proof.
  unfold bytes_of_string. rewrite length_fmap.
  induction s as [|c s IH]; simpl; [done|]. by rewrite IH.
Qed.

Lemma write_chunk_frame type payload :
  (Z.of_nat (length payload) < 65536)%Z →
  write_chunk type (Z.of_nat (length payload) `mod` 2 ^ 16) payload
  = Some (frame type payload).
Proof.
  intros Hlen. unfold write_chunk, frame.
  rewrite Z.mod_small by lia. rewrite Nat2Z.id.
  rewrite decide_True by done. by rewrite firstn_all.
Qed.

Lemma encode_frames_cons f frames :
  encode_frames (f :: frames) = frame f.1 f.2 ++ encode_frames frames.
Proof. done. Qed.

Lemma encode_frames_app frames frames' :
  encode_frames (frames ++ frames')
  = encode_frames frames ++ encode_frames frames'.
Proof. unfold encode_frames. apply bind_app. Qed.

(** What the sender puts on the wire for a request id and for the reads of
    the backend. *)
Lemma start_writing_frame sipe_private ft callid call :
  ft_call_private ft = Some callid →
  media_calls sipe_private !! callid = Some call →
  is_Some (sipe_core_media_get_stream_by_id call "data") →
  start_writing sipe_private ft
  = Some (true, frame 1 (bytes_of_string (printf_u (ft_request_id ft))),
          [FtBackendFtStart]).
Proof.
  intros Hcallid Hcall [stream Hstream]. unfold start_writing, ft_data_stream.
  rewrite Hcallid. simpl. rewrite Hcall. simpl. rewrite Hstream.
  rewrite <-bytes_of_string_length, write_chunk_frame; [done|].
  rewrite bytes_of_string_length.
  pose proof (printf_u_length (ft_request_id ft)). lia.
Qed.

Lemma send_file_chunks_frames sipe_private ft callid call chunks last :
  ft_call_private ft = Some callid →
  media_calls sipe_private !! callid = Some call →
  is_Some (sipe_core_media_get_stream_by_id call "data") →
  Forall (λ c, length c ≤ 1024)%nat (chunks ++ [last]) →
  send_file_chunks sipe_private ft
    (((λ c, (c, false)) <$> chunks) ++ [(last, true)])
  = Some (encode_frames
            (chunk_frames (chunks ++ [last])
             ++ [(2%Z, bytes_of_string (printf_u (ft_request_id ft)))])).
Proof.
  intros Hcallid Hcall [stream Hstream].
  assert (ft_data_stream sipe_private ft = Some (Some stream)) as Hdata.
  { unfold ft_data_stream. rewrite Hcallid. simpl. rewrite Hcall. simpl.
    by rewrite Hstream. }
  assert (∀ c, (length c ≤ 1024)%nat →
               (if decide (Z.of_nat (length c) ≠ 0)%Z
                then write_chunk 0 (Z.of_nat (length c) `mod` 2 ^ 16) c
                else Some [])
               = Some (encode_frames (chunk_frames [c]))) as Hchunk.
  { intros c Hc. rewrite write_chunk_frame by lia.
    destruct c as [|x c].
    - by rewrite decide_False by (simpl; lia).
    - rewrite decide_True by (simpl; lia).
      unfold chunk_frames. rewrite filter_cons_True by done.
      unfold encode_frames. simpl. by rewrite app_nil_r. }
  induction chunks as [|c chunks IH]; intros Hlen.
  - simpl in Hlen. rewrite Forall_singleton in Hlen. simpl.
    unfold send_file_chunk. rewrite Hdata. simpl mbind at 1.
    rewrite (Hchunk last Hlen). simpl.
    rewrite <-bytes_of_string_length, write_chunk_frame.
    2:{ rewrite bytes_of_string_length.
        pose proof (printf_u_length (ft_request_id ft)). lia. }
    simpl. f_equal. rewrite encode_frames_app. f_equal.
    unfold encode_frames. simpl. by rewrite app_nil_r.
  - simpl in Hlen. apply Forall_cons in Hlen as [Hc Hlen].
    rewrite fmap_cons, <-app_comm_cons. cbn [send_file_chunks].
    unfold send_file_chunk at 1. rewrite Hdata. simpl mbind at 1.
    rewrite (Hchunk c Hc). cbn [mbind option_bind]. rewrite (IH Hlen).
    cbn [mbind option_bind]. f_equal.
    rewrite <-encode_frames_app, app_assoc. do 2 f_equal.
    unfold chunk_frames. rewrite <-fmap_app. f_equal.
    change ((c :: chunks) ++ [last]) with ([c] ++ (chunks ++ [last])).
    by rewrite !filter_app.
Qed.

Lemma encode_frames_nil_inv frames : encode_frames frames = [] → frames = [].
Proof. destruct frames as [|f fs]; [done|]. by rewrite encode_frames_cons. Qed.

Lemma media_read_blocking_app (l rest : list Z) :
  media_read_blocking (length l) (l ++ rest) = Some (l, rest).
Proof.
  unfold media_read_blocking.
  rewrite decide_True by (rewrite length_app; lia).
  by rewrite take_app_length, drop_app_length.
Qed.

Lemma media_read_blocking_1 x (l : list Z) :
  media_read_blocking 1 (x :: l) = Some ([x], l).
Proof. apply (media_read_blocking_app [x]). Qed.

Lemma media_read_blocking_2 x y (l : list Z) :
  media_read_blocking 2 (x :: y :: l) = Some ([x; y], l).
Proof. apply (media_read_blocking_app [x; y]). Qed.

(** One run of [read_cb] at the start of a frame. *)
Lemma read_cb_header avail ft type payload rest file started :
  ft_was_cancelled ft = false →
  readable_frame (type, payload) →
  read_cb avail
    {| rd_ft := ft; rd_expecting_len := 0;
       rd_stream := frame type payload ++ rest;
       rd_file := file; rd_started := started |}
  = Some {| rd_ft := ft;
            rd_expecting_len :=
              if decide (type = 0)%Z then Z.of_nat (length payload) else 0%Z;
            rd_stream := if decide (type = 0)%Z then payload ++ rest else rest;
            rd_file := file;
            rd_started :=
              if decide (type = 1)%Z then S started else started |}.
Proof.
  intros Hcancel (Htype & Hlen & Hcontrol). simpl in *.
  unfold read_cb. cbn [rd_ft rd_expecting_len rd_stream rd_file rd_started].
  rewrite Hcancel. rewrite (decide_True (P := (0 = 0)%Z)) by done.
  unfold frame. cbn [app].
  rewrite media_read_blocking_1. cbn [mbind option_bind].
  rewrite media_read_blocking_2. cbn [mbind option_bind].
  cbn [lookup list_lookup default]. unfold id.
  assert (Z.of_nat (length payload) `div` 256 * 256
          + Z.of_nat (length payload) `mod` 256
          = Z.of_nat (length payload))%Z as ->.
  { pose proof (Z.div_mod (Z.of_nat (length payload)) 256). lia. }
  destruct Htype as [-> | [-> | ->]].
  - rewrite (decide_False (P := (0 = 1)%Z)) by done.
    rewrite (decide_False (P := (0 = 2)%Z)) by done.
    by rewrite !decide_True by done.
  - rewrite !(decide_True (P := (1 = 1)%Z)) by done.
    rewrite !(decide_False (P := (1 = 0)%Z)) by done.
    rewrite decide_False by (specialize (Hcontrol ltac:(done)); lia).
    rewrite Nat2Z.id, media_read_blocking_app. done.
  - rewrite !(decide_False (P := (2 = 1)%Z)) by done.
    rewrite !(decide_True (P := (2 = 2)%Z)) by done.
    rewrite !(decide_False (P := (2 = 0)%Z)) by done.
    rewrite decide_False by (specialize (Hcontrol ltac:(done)); lia).
    rewrite Nat2Z.id, media_read_blocking_app. done.
Qed.

(** One run of [read_cb] inside a data chunk: it takes bytes of the chunk
    only, and at least one. *)
Lemma read_cb_data avail ft pending rest file started :
  ft_was_cancelled ft = false →
  pending ≠ [] →
  (1 ≤ avail)%nat →
  ∃ n, (1 ≤ n ≤ length pending)%nat
       ∧ read_cb avail
           {| rd_ft := ft; rd_expecting_len := Z.of_nat (length pending);
              rd_stream := pending ++ rest;
              rd_file := file; rd_started := started |}
         = Some {| rd_ft := ft;
                   rd_expecting_len := Z.of_nat (length (drop n pending));
                   rd_stream := drop n pending ++ rest;
                   rd_file := file ++ take n pending;
                   rd_started := started |}.
Proof.
  intros Hcancel Hpending Havail.
  assert (1 ≤ length pending)%nat as Hlen.
  { destruct pending; [done|simpl; lia]. }
  exists ((length pending `min` 0x800)
          `min` (avail `min` length (pending ++ rest)))%nat.
  rewrite length_app. split; [lia|].
  unfold read_cb. simpl. rewrite Hcancel.
  rewrite decide_False by lia. rewrite Nat2Z.id, length_app.
  set (n := ((length pending `min` 0x800)
             `min` (avail `min` (length pending + length rest)))%nat).
  assert (n ≤ length pending)%nat as Hn by lia.
  f_equal. f_equal.
  - rewrite length_drop. lia.
  - by rewrite drop_app_le.
  - by rewrite take_app_le.
Qed.

Lemma frames_data_cons f frames :
  frames_data (f :: frames)
  = (if decide (f.1 = 0)%Z then f.2 else []) ++ frames_data frames.
Proof. done. Qed.

Lemma frames_starts_cons f frames :
  frames_starts (f :: frames)
  = ((if decide (f.1 = 1)%Z then 1 else 0) + frames_starts frames)%nat.
Proof.
  unfold frames_starts. rewrite filter_cons. by destruct (decide _).
Qed.

(** The reader takes a stream of frames apart, however the bytes come in. *)
Lemma read_all_frames avails ft pending frames file started :
  ft_was_cancelled ft = false →
  Forall readable_frame frames →
  Forall (λ a, 1 ≤ a)%nat avails →
  (length pending + length (encode_frames frames) ≤ length avails)%nat →
  read_all avails
    {| rd_ft := ft; rd_expecting_len := Z.of_nat (length pending);
       rd_stream := pending ++ encode_frames frames;
       rd_file := file; rd_started := started |}
  = Some {| rd_ft := ft; rd_expecting_len := 0; rd_stream := [];
            rd_file := file ++ pending ++ frames_data frames;
            rd_started := started + frames_starts frames |}.
Proof.
  intros Hcancel. revert pending frames file started.
  induction avails as [|a avails IH];
    intros pending frames file started Hframes Havail Hlen.
  - simpl in Hlen.
    assert (pending = []) as -> by (destruct pending; simpl in *; [done|lia]).
    assert (frames = []) as ->.
    { apply encode_frames_nil_inv.
      destruct (encode_frames frames); [done|simpl in Hlen; lia]. }
    simpl. by rewrite app_nil_r, Nat.add_0_r.
  - apply Forall_cons in Havail as [Ha Havail].
    destruct pending as [|x pending].
    + destruct frames as [|[type payload] frames].
      { simpl. by rewrite app_nil_r, Nat.add_0_r. }
      apply Forall_cons in Hframes as [Hframe Hframes].
      rewrite app_nil_l, encode_frames_cons. simpl fst. simpl snd.
      change (read_all (a :: avails) ?rd)
        with (match rd_stream rd with
              | [] => Some rd
              | _ :: _ => rd' ← read_cb a rd; read_all avails rd'
              end).
      cbn [rd_stream frame app]. cbn [length Z.of_nat].
      change (type :: ?hi :: ?lo :: payload ++ encode_frames frames)
        with (frame type payload ++ encode_frames frames).
      rewrite read_cb_header by done. cbn [mbind option_bind].
      rewrite encode_frames_cons, length_app in Hlen. simpl in Hlen.
      destruct Hframe as (Htype & _ & _). simpl in Htype.
      destruct (decide (type = 0%Z)) as [->|Hdata].
      * rewrite IH; [|done|done|simpl; lia].
        rewrite frames_data_cons, frames_starts_cons. simpl.
        done.
      * change 0%Z with (Z.of_nat (length (@nil Z))).
        rewrite <-(app_nil_l (encode_frames frames)).
        rewrite IH; [|done|done|simpl; lia].
        rewrite frames_data_cons, frames_starts_cons. simpl.
        rewrite (decide_False (P := type = 0%Z)) by done.
        destruct (decide (type = 1%Z)) as [->|Hstart]; simpl;
          do 2 f_equal; lia.
    + change (read_all (a :: avails) ?rd)
        with (match rd_stream rd with
              | [] => Some rd
              | _ :: _ => rd' ← read_cb a rd; read_all avails rd'
              end).
      cbn [rd_stream]. rewrite <-app_comm_cons.
      rewrite app_comm_cons.
      destruct (read_cb_data a ft (x :: pending) (encode_frames frames)
                  file started) as (n & Hn & ->); [done|done|done|].
      cbn [mbind option_bind].
      rewrite IH; [|done|done|].
      * do 2 f_equal. by rewrite <-app_assoc, (app_assoc (take _ _)), take_drop.
      * rewrite length_drop. simpl in *. lia.
Qed.

Lemma chunk_frames_data chunks tail :
  frames_data (chunk_frames chunks ++ tail) = concat chunks ++ frames_data tail.
Proof.
  unfold chunk_frames.
  induction chunks as [|c chunks IH]; [done|].
  rewrite filter_cons. destruct (decide (c ≠ [])) as [Hc|Hc].
  - rewrite fmap_cons, <-app_comm_cons, frames_data_cons, IH. simpl.
    by rewrite app_assoc.
  - apply dec_stable in Hc. subst c. by rewrite IH.
Qed.

Lemma chunk_frames_starts chunks tail :
  frames_starts (chunk_frames chunks ++ tail) = frames_starts tail.
Proof.
  unfold chunk_frames.
  induction chunks as [|c chunks IH]; [done|].
  rewrite filter_cons. destruct (decide (c ≠ [])); [|done].
  by rewrite fmap_cons, <-app_comm_cons, frames_starts_cons, IH.
Qed.

Lemma chunk_frames_readable chunks :
  Forall (λ c, length c ≤ 1024)%nat chunks →
  Forall readable_frame (chunk_frames chunks).
Proof.
  intros Hlen. unfold chunk_frames. apply Forall_fmap, Forall_forall.
  intros c [_ Hc]%list_elem_of_filter.
  rewrite Forall_forall in Hlen. specialize (Hlen c Hc).
  split; [by left|]. simpl. split; [lia|done].
Qed.

(** X17: what the sender writes for a file, frame by frame, the receiver
    reads back byte for byte.  Take a transfer whose media call has a stream
    "data", and let the backend deliver the file in reads of at most 1024
    bytes (the size of the buffer), the last one reporting completion.  Then
    [start_writing] and the runs of [send_file_chunk] write a stream on
    which the runs of [read_cb], however few bytes each of them finds at
    hand (at least one), call [sipe_backend_ft_start] once and hand the
    bytes of the file, all of them and in order, to
    [sipe_backend_ft_write_file]; the stream is consumed to its end. *)
Theorem ft_lync_stream_round_trip sipe_private ft callid call chunks last :
  ft_call_private ft = Some callid →
  media_calls sipe_private !! callid = Some call →
  is_Some (sipe_core_media_get_stream_by_id call "data") →
  Forall (λ c, length c ≤ 1024)%nat (chunks ++ [last]) →
  ∃ wire_start wire,
    start_writing sipe_private ft
    = Some (true, wire_start, [FtBackendFtStart])
    ∧ send_file_chunks sipe_private ft
        (((λ c, (c, false)) <$> chunks) ++ [(last, true)])
      = Some wire
    ∧ ∀ receiver file avails,
        ft_was_cancelled receiver = false →
        Forall (λ a, 1 ≤ a)%nat avails →
        (length (wire_start ++ wire) ≤ length avails)%nat →
        read_all avails
          {| rd_ft := receiver; rd_expecting_len := 0;
             rd_stream := wire_start ++ wire;
             rd_file := file; rd_started := 0 |}
        = Some {| rd_ft := receiver; rd_expecting_len := 0; rd_stream := [];
                  rd_file := file ++ concat (chunks ++ [last]);
                  rd_started := 1 |}.
Proof.
  intros Hcallid Hcall Hstream Hlen.
  set (id := bytes_of_string (printf_u (ft_request_id ft))).
  assert (length id < 0x800)%nat as Hid.
  { unfold id. rewrite bytes_of_string_length.
    pose proof (printf_u_length (ft_request_id ft)). lia. }
  eexists _, _.
  split; [by eapply start_writing_frame|].
  split; [by eapply send_file_chunks_frames|].
  intros receiver file avails Hcancel Havail Hfuel. fold id in Hfuel |- *.
  set (frames := (1%Z, id) :: chunk_frames (chunks ++ [last]) ++ [(2%Z, id)]).
  assert (frame 1 id
          ++ encode_frames (chunk_frames (chunks ++ [last]) ++ [(2%Z, id)])
          = encode_frames frames) as Hwire by done.
  rewrite Hwire in Hfuel |- *.
  etrans;
    [apply (read_all_frames avails receiver [] frames file 0 Hcancel);
     [|done|done]|].
  - unfold frames. constructor.
    { split; [by right; left|]. simpl. split; [lia|done]. }
    apply Forall_app. split; [by apply chunk_frames_readable|].
    constructor; [|done].
    split; [by right; right|]. simpl. split; [lia|done].
  - unfold frames.
    rewrite frames_data_cons, frames_starts_cons, chunk_frames_data,
      chunk_frames_starts.
    simpl. by rewrite app_nil_r.
Qed.

(** ** Request ids and cancellation of a Lync file transfer *)

Lemma guint_of_atoi_printf_d z :
  ∃ v, atoi (Some (printf_d z)) = Some v
       ∧ (v `mod` 2 ^ 32 = z `mod` 2 ^ 32)%Z.
Proof.
  exists (wrap_gint z). split; [apply atoi_printf_d|apply wrap_gint_guint].
Qed.

Lemma guint_of_atoi_printf_u z :
  ∃ v, atoi (Some (printf_u z)) = Some v
       ∧ (v `mod` 2 ^ 32 = z `mod` 2 ^ 32)%Z.
Proof.
  exists (wrap_gint z). split; [apply atoi_printf_u|apply wrap_gint_guint].
Qed.

(** X18: the request id survives the exchange, for every 32-bit value.  The
    receiver's [request_download_file] answers the publish request with
    "success" under the id it holds and asks for the file under the next id
    (modulo 2^32), which it keeps.  A sender that handles this request with
    [process_request] takes over that very id, although it was printed with
    "%d" and is read with [atoi], and answers "pending" under it; and the
    "success" response the sender gives under its id at the end is accepted
    by the receiver's [process_response]: the transfer is freed, the call
    is not hung up and no cancellation is reported. *)
Theorem ft_lync_request_id_exchange sipe_private receiver sender callid call :
  ft_call_private sender = Some callid →
  media_calls sipe_private !! callid = Some call →
  let receiver' := (request_download_file receiver).1.2 in
  let request :=
    DOWNLOAD_FILE_REQUEST (ft_request_id receiver') (ft_id receiver)
      (ft_file_name receiver) in
  ft_request_id receiver' = ((ft_request_id receiver + 1) `mod` 2 ^ 32)%Z
  ∧ (request_download_file receiver).2
    = [FtTransportInfo (ft_dialog receiver)
         (SUCCESS_RESPONSE (ft_request_id receiver));
       FtTransportInfo (ft_dialog receiver) request]
  ∧ ∃ sender' source wire signals,
      process_request sipe_private sender request
      = Some (sender', source, wire,
              FtRequest (FtTransportInfo (ft_dialog sender)
                           (DOWNLOAD_PENDING_RESPONSE (ft_request_id receiver')))
              :: signals)
      ∧ ft_request_id sender' = ft_request_id receiver'
      ∧ process_response receiver'
          (DOWNLOAD_SUCCESS_RESPONSE (ft_request_id sender'))
        = Some (None, []).
Proof.
  intros Hcallid Hcall receiver' request.
  split; [done|]. split; [done|].
  subst request receiver'. simpl ft_request_id.
  set (id' := ((ft_request_id receiver + 1) `mod` 2 ^ 32)%Z).
  assert (0 ≤ id' < 2 ^ 32)%Z as Hrange by (apply Z.mod_pos_bound; lia).
  unfold process_request. simpl sipe_xml_child. simpl sipe_xml_attribute.
  destruct (guint_of_atoi_printf_d id') as (v & -> & Hv).
  rewrite (Z.mod_small id') in Hv by done.
  cbn [mbind option_bind]. rewrite Hv.
  assert (∀ ft, process_response (set_ft_request_id ft id')
                  (DOWNLOAD_SUCCESS_RESPONSE id')
                = Some (None, [])) as Hresponse.
  { intros ft. unfold process_response. simpl sipe_xml_attribute.
    destruct (guint_of_atoi_printf_u id') as (u & -> & Hu).
    cbn [mbind option_bind]. simpl ft_request_id.
    rewrite decide_False by (intros Hne; by apply Hne).
    done. }
  unfold start_writing, ft_data_stream. simpl ft_call_private.
  rewrite Hcallid. cbn [mbind option_bind]. rewrite Hcall.
  cbn [mbind option_bind].
  destruct (sipe_core_media_get_stream_by_id call "data").
  - simpl ft_request_id.
    rewrite <-bytes_of_string_length, write_chunk_frame.
    2:{ rewrite bytes_of_string_length.
        pose proof (printf_u_length id'). lia. }
    cbn [mbind option_bind]. eexists _, _, _, _.
    split; [reflexivity|]. split; [done|]. apply Hresponse.
  - eexists _, _, _, _.
    split; [reflexivity|]. split; [done|]. apply Hresponse.
Qed.

Lemma read_all_cancelled avails rd :
  ft_was_cancelled (rd_ft rd) = true →
  ∃ n,
    read_all avails rd
    = Some {| rd_ft := rd_ft rd; rd_expecting_len := rd_expecting_len rd;
              rd_stream := drop n (rd_stream rd); rd_file := rd_file rd;
              rd_started := rd_started rd |}.
Proof.
  revert rd. induction avails as [|a avails IH]; intros rd Hcancel.
  { exists 0%nat. by destruct rd. }
  simpl. destruct (rd_stream rd) as [|x stream] eqn:Hstream.
  { exists 0%nat. simpl. rewrite <-Hstream. by destruct rd. }
  unfold read_cb. rewrite Hcancel. simpl mbind.
  match goal with
  | |- context [read_all avails ?r] => destruct (IH r) as [n ->]; [done|]
  end.
  simpl. rewrite Hstream, drop_drop. eauto.
Qed.

(** X19: once the user has cancelled an incoming transfer, nothing more is
    written to the file.  [ft_lync_incoming_cancelled] asks the sender to
    cancel, under the next request id but without advancing the id of the
    transfer, and keeps the structure alive; from then on every run of
    [read_cb] only takes bytes off the stream: whatever arrives, the file
    and [sipe_backend_ft_start] are left alone, no frame is interpreted and
    no run blocks.  A cancellation by the peer changes nothing here. *)
Theorem ft_lync_incoming_cancelled_drops ft avails rd :
  let ft' := (ft_lync_incoming_cancelled ft true).1 in
  ft_request_id ft' = ft_request_id ft
  ∧ ft_deallocate ft' = false
  ∧ ft_lync_incoming_cancelled ft false = (ft, None)
  ∧ (rd_ft rd = ft' →
     ∃ n,
       read_all avails rd
       = Some {| rd_ft := ft'; rd_expecting_len := rd_expecting_len rd;
                 rd_stream := drop n (rd_stream rd); rd_file := rd_file rd;
                 rd_started := rd_started rd |}).
Proof.
  intros ft'. split; [done|]. split; [done|]. split; [done|].
  intros Hft. destruct (read_all_cancelled avails rd) as [n ->].
  { by rewrite Hft. }
  rewrite Hft. eauto.
Qed.

(** X20: a start-of-stream or end-of-stream frame that announces 0x800
    bytes or more is not survived: [read_cb] reads it into, and terminates
    it in, a buffer of 0x800 bytes.  Whatever the stream holds behind such a
    header, the run is undefined; with a smaller length the frame is read
    whole (provided the stream holds it) and nothing reaches the file. *)
Theorem read_cb_control_frame_bound avail rd type hi lo rest :
  ft_was_cancelled (rd_ft rd) = false →
  rd_expecting_len rd = 0%Z →
  rd_stream rd = type :: hi :: lo :: rest →
  type = 1%Z ∨ type = 2%Z →
  (0 ≤ hi * 256 + lo)%Z →
  let size := (hi * 256 + lo)%Z in
  ((0x800 ≤ size)%Z → read_cb avail rd = None)
  ∧ ((size < 0x800)%Z → (Z.to_nat size ≤ length rest)%nat →
     read_cb avail rd
     = Some {| rd_ft := rd_ft rd; rd_expecting_len := 0;
               rd_stream := drop (Z.to_nat size) rest;
               rd_file := rd_file rd;
               rd_started :=
                 if decide (type = 1%Z) then S (rd_started rd)
                 else rd_started rd |}).
Proof.
  intros Hcancel Hexp Hstream Htype Hpos size.
  unfold read_cb. rewrite Hcancel, Hexp, Hstream.
  rewrite (decide_True (P := (0 = 0)%Z)) by done.
  rewrite media_read_blocking_1. cbn [mbind option_bind].
  rewrite media_read_blocking_2. cbn [mbind option_bind].
  cbn [lookup list_lookup default]. unfold id. fold size.
  split.
  - intros Hbig.
    destruct Htype as [-> | ->].
    + rewrite (decide_True (P := (1 = 1)%Z)) by done.
      by rewrite decide_True.
    + rewrite (decide_False (P := (2 = 1)%Z)) by done.
      rewrite (decide_True (P := (2 = 2)%Z)) by done.
      by rewrite decide_True.
  - intros Hsmall Hrest.
    assert (media_read_blocking (Z.to_nat size) rest
            = Some (take (Z.to_nat size) rest, drop (Z.to_nat size) rest))
      as Hread.
    { unfold media_read_blocking. by rewrite decide_True. }
    destruct Htype as [-> | ->].
    + rewrite !(decide_True (P := (1 = 1)%Z)) by done.
      rewrite decide_False by lia. by rewrite Hread.
    + rewrite !(decide_False (P := (2 = 1)%Z)) by done.
      rewrite (decide_True (P := (2 = 2)%Z)) by done.
      rewrite decide_False by lia. by rewrite Hread.
Qed.

(** ** Placing a call to a phone number *)

Lemma g_ascii_isdigit_elem c :
  g_ascii_isdigit c = true ↔ c ∈ String.list_ascii_of_string "0123456789".
Proof.
  rewrite <-(bool_decide_spec (c ∈ String.list_ascii_of_string "0123456789")).
  rewrite <-Is_true_true.
  destruct c as [[] [] [] [] [] [] [] []]; vm_compute; tauto.
Qed.

Lemma phone_number_digits_Forall s :
  phone_number_digits s = true
  ↔ Forall (λ c, c ∈ String.list_ascii_of_string "0123456789")
      (String.list_ascii_of_string s).
Proof.
  induction s as [|c s IH]; simpl.
  { split; [constructor|done]. }
  rewrite Forall_cons, <-IH, <-g_ascii_isdigit_elem.
  destruct (g_ascii_isdigit c); intuition congruence.
Qed.

Lemma phone_number_is_valid_dialable number :
  phone_number_is_valid number = true ↔ ∃ n, number = Some n ∧ dialable n.
Proof.
  destruct number as [n|]; simpl; [|split; [done|by intros (? & ? & _)]].
  unfold sipe_strequal, dialable. case_bool_decide as Hempty.
  { split; [done|]. intros (? & [= <-] & Hne & _). by injection Hempty. }
  assert (n ≠ "") as Hne by congruence.
  rewrite phone_number_digits_Forall. split.
  - intros Hdigits. exists n. split; [done|]. split; [done|].
    destruct n as [|c rest]; [done|].
    destruct (decide (c = "+"%char)) as [->|Hc].
    + exists rest. by split; [right|].
    + exists (String c rest). split; [by left|].
      revert Hdigits. destruct c as [[] [] [] [] [] [] [] []]; try done.
  - intros (? & [= <-] & _ & digits & [-> | ->] & Hdigits).
    + destruct digits as [|c rest]; [done|].
      destruct (decide (c = "+"%char)) as [->|Hc].
      * apply Forall_cons in Hdigits as [Hplus _].
        apply g_ascii_isdigit_elem in Hplus. by vm_compute in Hplus.
      * revert Hdigits. destruct c as [[] [] [] [] [] [] [] []]; try done.
    + done.
Qed.

Section placing_calls_properties.

Context `{!Backend, !SipLayer}.

(** X21: [sipe_core_media_phone_call] dials exactly the numbers made of
    decimal digits after an optional plus sign (a lone plus sign included).
    For any other argument, NULL and the empty string included, it only
    shows an error and the registry of calls is left alone.  A number it
    dials, on a core without audio call, becomes an RFC 5245 call without
    video to [sip:<number>@<domain>;user=phone]. *)
Theorem sipe_core_media_phone_call_dials sipe_private sip_domain number :
  ((∀ n, number = Some n → ¬ dialable n) →
   sipe_core_media_phone_call sipe_private sip_domain number
   = Some (emit sipe_private
             [EvBackendNotifyError "Unable to establish a call"
                "Invalid phone number"]))
  ∧ ∀ n,
      number = Some n → dialable n →
      sipe_core_media_get_call sipe_private = None →
      media_calls sipe_private !! gencallid sipe_private = None →
      (∀ id type min_port max_port,
         is_Some (sipe_backend_media_add_stream (gencallid sipe_private) id
                    type SIPE_ICE_RFC_5245 true min_port max_port)) →
      ∃ sipe_private' call',
        sipe_core_media_phone_call sipe_private sip_domain number
        = Some sipe_private'
        ∧ media_calls sipe_private' !! gencallid sipe_private = Some call'
        ∧ call_with call'
          = Some ("sip:" +:+ n +:+ "@" +:+ printf_s sip_domain
                  +:+ ";user=phone")%string
        ∧ call_ice_version call' = SIPE_ICE_RFC_5245
        ∧ call_initiator call' = true
        ∧ stream_id <$> call_streams call' = ["audio"].
Proof.
  unfold sipe_core_media_phone_call, sipe_core_media_initiate_call. split.
  - intros Hbad.
    destruct (phone_number_is_valid number) eqn:Hvalid; [|done].
    apply phone_number_is_valid_dialable in Hvalid as (n & -> & Hn).
    by destruct (Hbad n).
  - intros n -> Hn Hnone Hfresh Hbackend.
    assert (phone_number_is_valid (Some n) = true) as ->.
    { apply phone_number_is_valid_dialable. eauto. }
    destruct (sipe_media_initiate_call_fresh sipe_private
                (Some ("sip:" +:+ n +:+ "@" +:+ printf_s sip_domain
                       +:+ ";user=phone")%string)
                SIPE_ICE_RFC_5245 false Hnone Hfresh Hbackend)
      as (sipe_private' & call' & Hcall & Hlookup & Hwith & Hice & Hinit
          & Hids & _).
    exists sipe_private', call'. by repeat split.
Qed.

End placing_calls_properties.

(** ** Resolved media relays *)

(** X22: a relay whose DNS query has been answered is never cancelled.  When
    the list of relays is freed, the queries cancelled are those of the
    relays still waiting for an answer, in list order; an answered relay
    has the address of the answer as its host name, and no host name at all
    when the answer had no address or port 0.  The ports of a relay are
    never changed. *)
Theorem relay_ip_resolved_cb_not_cancelled relays answers :
  Forall (λ relay, relay_dns_query relay = true) relays →
  length answers = length relays →
  let relays' := zip_with relay_after relays answers in
  sipe_media_relay_list_free relays'
  = omap (λ ra : sipe_media_relay * option (option string * Z),
            match ra.2 with
            | None => Some (EvDnsQueryCancel (relay_hostname ra.1))
            | Some _ => None
            end) (zip relays answers)
  ∧ Forall2 (λ relay relay',
               relay_udp_port relay' = relay_udp_port relay
               ∧ relay_tcp_port relay' = relay_tcp_port relay)
      relays relays'
  ∧ ∀ k relay ip port,
      relays !! k = Some relay → answers !! k = Some (Some (ip, port)) →
      ∃ relay',
        relays' !! k = Some relay'
        ∧ relay_dns_query relay' = false
        ∧ relay_hostname relay'
          = (if decide (port = 0)%Z then None else ip).
Proof.
  intros Hpending Hlen. simpl. split; [|split].
  - revert answers Hlen.
    induction Hpending as [|relay relays Hq _ IH]; intros [|a answers] Hlen;
      try done.
    simpl in *. rewrite IH by lia.
    destruct a as [[[ip|] port]|]; simpl; [case_bool_decide; simpl| |];
      by rewrite ?Hq.
  - clear Hpending. revert answers Hlen.
    induction relays as [|relay relays IH]; intros [|a answers] Hlen;
      try done.
    simpl in *. constructor; [|apply IH; lia].
    destruct a as [[[ip|] port]|]; simpl; [case_bool_decide; simpl| |];
      done.
  - intros k relay ip port Hk Ha.
    exists (relay_ip_resolved_cb relay ip port).
    split.
    { rewrite lookup_zip_with, Hk. simpl. by rewrite Ha. }
    unfold relay_ip_resolved_cb.
    destruct ip as [ip|]; [case_bool_decide|]; simpl;
      (split; [done|]); by repeat case_decide.
Qed.

(** ** Incoming calls *)

Lemma set_call_streams_id call : set_call_streams call (call_streams call) = call.
Proof. by destruct call. Qed.

Lemma sipe_core_media_get_call_entry_Some sipe_private key call :
  media_calls sipe_private !! key = Some call →
  is_Some (sipe_core_media_get_stream_by_id call "audio") →
  ∃ key' call',
    sipe_core_media_get_call_entry sipe_private = Some (key', call')
    ∧ media_calls sipe_private !! key' = Some call'.
Proof.
  intros Hkey Haudio. unfold sipe_core_media_get_call_entry.
  destruct (list_find _ _) as [[i [key' call']]|] eqn:Hfind; simpl.
  - exists key', call'. split; [done|].
    apply list_find_Some in Hfind as (Hi & _ & _).
    by apply list_elem_of_lookup_2, elem_of_map_to_list in Hi.
  - apply list_find_None in Hfind. rewrite Forall_forall in Hfind.
    apply elem_of_map_to_list in Hkey. by apply Hfind in Hkey.
Qed.

Lemma sipe_core_media_get_call_entry_None sipe_private :
  sipe_core_media_get_call sipe_private = None →
  sipe_core_media_get_call_entry sipe_private = None.
Proof.
  unfold sipe_core_media_get_call, sipe_core_media_get_call_entry.
  by destruct (list_find _ _) as [[? [? ?]]|].
Qed.

Lemma sipe_core_media_get_call_entry_call sipe_private :
  snd <$> sipe_core_media_get_call_entry sipe_private
  = sipe_core_media_get_call sipe_private.
Proof. reflexivity. Qed.

Section incoming_properties.

Context `{!Backend, !SipLayer, !CallLayer}.

(** X23: two voice calls are never allowed in parallel.  While a call with
    an "audio" stream is registered, an INVITE with another Call-ID whose
    body mentions neither [m=data] nor [m=applicationsharing] is answered
    486 Busy Here and nothing else happens: no call is created, the SDP is
    not even parsed, and the registry is unchanged. *)
Theorem process_incoming_invite_call_busy sipe_private msg body key call :
  msg_body msg = Some body →
  strstr body "m=data" = false →
  strstr body "m=applicationsharing" = false →
  media_calls sipe_private !! key = Some call →
  is_Some (sipe_core_media_get_stream_by_id call "audio") →
  media_calls sipe_private !! msg_callid msg = None →
  process_incoming_invite_call sipe_private msg
  = Some (None,
          emit sipe_private
            [EvTransportResponse (Some (msg_callid msg)) 486 "Busy Here"
               None]).
Proof.
  intros Hbody Hdata Hshare Hkey Haudio Hfresh.
  unfold process_incoming_invite_call. rewrite Hbody. simpl.
  rewrite Hdata, Hshare. simpl.
  destruct (sipe_core_media_get_call_entry_Some _ _ _ Hkey Haudio)
    as (key' & call' & -> & Hkey').
  simpl. rewrite bool_decide_false; [done|]. intros Heq. congruence.
Qed.

Lemma create_new_stream_spec sipe_private call ice_version m :
  (∀ id type min_port max_port,
     is_Some (sipe_backend_media_add_stream (call_id call) id type
                ice_version false min_port max_port)) →
  ∃ added evs,
    create_new_stream sipe_private call ice_version m
    = Some (set_call_streams call (call_streams call ++ added),
            bool_decide (added ≠ []), evs)
    ∧ Forall2 (incoming_stream_request sipe_private call ice_version)
        evs added
    ∧ ((added = []
        ∧ ¬ (acceptable_section m
             ∧ media_name m ∉ stream_id <$> call_streams call))
       ∨ (∃ s, added = [s]
               ∧ stream_id s = media_name m
               ∧ extra_sdp s = incoming_attributes (media_name m)
               ∧ acceptable_section m
               ∧ media_name m ∉ stream_id <$> call_streams call)).
Proof.
  intros Hbackend. unfold create_new_stream, acceptable_section.
  case_bool_decide as Hport; simpl; cycle 1.
  { exists [], []. rewrite app_nil_r, set_call_streams_id.
    split; [done|]. split; [constructor|]. left. tauto. }
  case_bool_decide as Hnone; simpl; cycle 1.
  { exists [], []. rewrite app_nil_r, set_call_streams_id.
    split; [done|]. split; [constructor|]. left.
    rewrite <-get_stream_by_id_None. tauto. }
  apply get_stream_by_id_None in Hnone.
  unfold sipe_strequal.
  assert (∀ type,
    (media_name m ∈ ["audio"; "video"; "data"; "applicationsharing"]) →
    ∃ added evs,
      (let '(stream, call_private, evs) :=
         sipe_media_stream_add sipe_private call (media_name m) type
           ice_version false in
       call_private ←
         (if bool_decide (Some (media_name m) = Some "data") then
            stream ← stream;
            Some (store_stream call_private
                    (Nat.pred (length (call_streams call_private)))
                    (sipe_media_stream_add_extra_attribute stream
                       "recvonly" None))
          else if bool_decide (Some (media_name m)
                               = Some "applicationsharing") then
            stream ← stream;
            Some (store_stream call_private
                    (Nat.pred (length (call_streams call_private)))
                    (sipe_media_stream_add_extra_attribute
                       (sipe_media_stream_add_extra_attribute
                          (sipe_media_stream_add_extra_attribute stream
                             "x-applicationsharing-session-id" (Some "1"))
                          "x-applicationsharing-role" (Some "viewer"))
                       "x-applicationsharing-media-type" (Some "rdp")))
          else Some call_private);
       Some (call_private, true, evs))
      = Some (set_call_streams call (call_streams call ++ added),
              bool_decide (added ≠ []), evs)
      ∧ Forall2 (incoming_stream_request sipe_private call ice_version)
          evs added
      ∧ ∃ s, added = [s]
             ∧ stream_id s = media_name m
             ∧ extra_sdp s = incoming_attributes (media_name m)) as Hadd.
  { intros type Hname.
    destruct (sipe_media_stream_add_Some sipe_private call (media_name m)
                type ice_version false)
      as (s & min_port & max_port & -> & Hid & Hextra); [done|].
    unfold incoming_attributes, store_stream,
      sipe_media_stream_add_extra_attribute, sipe_utils_nameval_add.
    cbn [call_streams set_call_streams mbind option_bind].
    rewrite length_app, Nat.add_1_r. cbn [Nat.pred length].
    repeat case_bool_decide; simplify_eq/=;
      repeat (case_decide; try congruence);
      (eexists [_], [_];
       split;
       [rewrite ?insert_app_r_alt, ?Nat.sub_diag by done; reflexivity|];
       split;
       [constructor; [|constructor];
        unfold incoming_stream_request; simpl; rewrite Hid;
        by eexists _, _, _|];
       eexists; split; [reflexivity|]; simpl; rewrite ?Hextra; by split). }
  assert ((if bool_decide (Some (media_name m) = Some "audio")
           then Some SIPE_MEDIA_AUDIO
           else if bool_decide (Some (media_name m) = Some "video")
           then Some SIPE_MEDIA_VIDEO
           else if bool_decide (Some (media_name m) = Some "data")
           then Some SIPE_MEDIA_APPLICATION
           else if bool_decide (Some (media_name m)
                                = Some "applicationsharing")
           then Some SIPE_MEDIA_APPLICATION
           else None) = None
          ∧ media_name m ∉ ["audio"; "video"; "data"; "applicationsharing"]
          ∨ ∃ type,
              (if bool_decide (Some (media_name m) = Some "audio")
               then Some SIPE_MEDIA_AUDIO
               else if bool_decide (Some (media_name m) = Some "video")
               then Some SIPE_MEDIA_VIDEO
               else if bool_decide (Some (media_name m) = Some "data")
               then Some SIPE_MEDIA_APPLICATION
               else if bool_decide (Some (media_name m)
                                    = Some "applicationsharing")
               then Some SIPE_MEDIA_APPLICATION
               else None) = Some type
              ∧ media_name m ∈ ["audio"; "video"; "data";
                                "applicationsharing"])
    as [[-> Hname] | (type & -> & Hname)].
  { clear Hadd. rewrite !elem_of_cons, elem_of_nil.
    repeat case_bool_decide;
      try (right; eexists; split; [reflexivity|];
           rewrite !elem_of_cons; intuition congruence).
    left. split; [reflexivity|]. intuition congruence. }
  - exists [], []. rewrite app_nil_r, set_call_streams_id.
    split; [done|]. split; [constructor|]. left. tauto.
  - destruct (Hadd type Hname)
      as (added & evs & -> & Hevs & s & -> & Hid & Hextra).
    exists [s], evs. split; [done|]. split; [done|]. right.
    exists s. by repeat split.
Qed.

Lemma create_new_streams_spec sipe_private call ice_version media has :
  (∀ id type min_port max_port,
     is_Some (sipe_backend_media_add_stream (call_id call) id type
                ice_version false min_port max_port)) →
  ∃ added evs,
    create_new_streams sipe_private call ice_version media has
    = Some (set_call_streams call (call_streams call ++ added),
            has || bool_decide (added ≠ []), evs)
    ∧ Forall2 (incoming_stream_request sipe_private call ice_version)
        evs added
    ∧ (∀ id, id ∈ stream_id <$> added
             ↔ ((id ∉ stream_id <$> call_streams call)
                ∧ ∃ m, m ∈ media ∧ acceptable_section m ∧ media_name m = id))
    ∧ NoDup (stream_id <$> added)
    ∧ Forall (λ s, extra_sdp s = incoming_attributes (stream_id s)) added.
Proof.
  revert call has. induction media as [|m media IH]; intros call has Hbackend.
  { exists [], []. simpl. rewrite app_nil_r, set_call_streams_id.
    rewrite orb_false_r. split; [done|]. split; [constructor|].
    split; [|split; [constructor|constructor]].
    intros id. rewrite elem_of_nil. split; [done|].
    intros (_ & m & Hm & _). by apply elem_of_nil in Hm. }
  simpl.
  destruct (create_new_stream_spec sipe_private call ice_version m Hbackend)
    as (added1 & evs1 & -> & Hevs1 & Hadded1).
  set (call1 := set_call_streams call (call_streams call ++ added1)).
  destruct (IH call1 (has || bool_decide (added1 ≠ [])) Hbackend)
    as (added2 & evs2 & Hrest & Hevs2 & Hids2 & Hnodup2 & Hextra2).
  cbn [mbind option_bind]. rewrite Hrest. cbn [mbind option_bind].
  exists (added1 ++ added2), (evs1 ++ evs2).
  assert (stream_id <$> call_streams call1
          = (stream_id <$> call_streams call) ++ (stream_id <$> added1))
    as Hids1 by (subst call1; simpl; by rewrite fmap_app).
  split; [|split; [|split; [|split]]].
  - subst call1. simpl. rewrite <-(assoc_L (++)). f_equal. f_equal.
    rewrite <-orb_assoc. f_equal.
    destruct added1, added2; done.
  - by apply Forall2_app.
  - intros id. rewrite fmap_app, elem_of_app, Hids2, Hids1, elem_of_app.
    destruct Hadded1 as [[-> Hno] | (s & -> & Hid & Hextra & Hacc & Hnew)].
    + simpl. rewrite elem_of_nil. split.
      * intros [[]|(Hid & m' & Hm' & Hacc & Hname)].
        split; [tauto|]. exists m'. split; [by right|done].
      * intros (Hid & m' & [-> | Hm']%elem_of_cons & Hacc & Hname).
        { destruct Hno. split; [done|]. by rewrite Hname. }
        right. split; [tauto|]. eauto.
    + simpl. rewrite elem_of_cons, elem_of_nil, Hid. split.
      * intros [[-> | []]|(Hnid & m' & Hm' & Hacc' & Hname)].
        { split; [done|]. exists m. split; [by left|done]. }
        split; [tauto|]. exists m'. split; [by right|done].
      * intros (Hnid & m' & [-> | Hm']%elem_of_cons & Hacc' & Hname).
        { left. by left. }
        destruct (decide (id = media_name m)) as [->|Hne]; [left; by left|].
        right. split; [|eauto]. intros [? | [? | []]]; done.
  - rewrite fmap_app. apply NoDup_app. split; [|split; [|done]].
    + destruct Hadded1 as [[-> _] | (s & -> & _)]; simpl.
      * constructor.
      * apply NoDup_singleton.
    + intros id Hid1 Hid2. apply Hids2 in Hid2 as [Hnot _].
      apply Hnot. rewrite Hids1, elem_of_app. by right.
  - apply Forall_app. split; [|done].
    destruct Hadded1 as [[-> _] | (s & -> & Hid & Hextra & _)];
      constructor; [|constructor]. by rewrite Hid.
Qed.

End incoming_properties.

Section incoming_call_properties.

Context `{!Backend, !SipLayer, !CallLayer}.

(** The check "Don't allow two voice calls in parallel" lets an INVITE
    through when it opens a data session or when no call has an audio
    stream. *)
Lemma process_incoming_invite_call_not_busy sipe_private msg body :
  strstr body "m=data" || strstr body "m=applicationsharing" = true
  ∨ sipe_core_media_get_call sipe_private = None →
  negb (strstr body "m=data" || strstr body "m=applicationsharing")
  && bool_decide (is_Some (sipe_core_media_get_call_entry sipe_private))
  && negb (is_media_session_msg
             (fst <$> sipe_core_media_get_call_entry sipe_private) msg)
  = false.
Proof.
  intros [-> | Hnone]; [done|].
  rewrite (sipe_core_media_get_call_entry_None _ Hnone). simpl.
  by rewrite ?andb_false_r.
Qed.

(** X24: an INVITE with a new Call-ID that passes the busy check and offers
    at least one section the core can take (port not 0, named audio, video,
    data or applicationsharing) makes the core ring.  The call is registered
    under the Call-ID as an incoming call to the sender, hidden from the
    user exactly when the body mentions a data or application-sharing
    section; it has one stream per name of such a section, never two of the
    same name, a data stream being receive-only; the offer is kept for
    [stream_initialized_cb]; and the requests are the new call, one stream
    request per stream and, last, 180 Ringing.  No other call is touched. *)
Theorem process_incoming_invite_call_rings sipe_private msg body smsg :
  msg_body msg = Some body →
  sdpmsg_parse_msg (Some body) = Some smsg →
  media_calls sipe_private !! msg_callid msg = None →
  strstr body "m=data" || strstr body "m=applicationsharing" = true
  ∨ sipe_core_media_get_call sipe_private = None →
  (∀ id type min_port max_port,
     is_Some (sipe_backend_media_add_stream (msg_callid msg) id type
                (sdp_ice_version smsg) false min_port max_port)) →
  Exists acceptable_section (sdp_media smsg) →
  ∃ call' sipe_private' invitation requests,
    process_incoming_invite_call sipe_private msg
    = Some (Some call', sipe_private')
    ∧ media_calls sipe_private' !! msg_callid msg = Some call'
    ∧ (∀ key, key ≠ msg_callid msg →
         media_calls sipe_private' !! key = media_calls sipe_private !! key)
    ∧ call_with call' = parse_from (sipmsg_find_header msg "From")
    ∧ call_initiator call' = false
    ∧ call_hidden_from_ui call'
      = strstr body "m=data" || strstr body "m=applicationsharing"
    ∧ call_ice_version call' = sdp_ice_version smsg
    ∧ call_smsg call' = Some smsg
    ∧ call_invitation call' = Some invitation
    ∧ (∀ id, id ∈ stream_id <$> call_streams call'
             ↔ ∃ m, m ∈ sdp_media smsg ∧ acceptable_section m
                    ∧ media_name m = id)
    ∧ NoDup (stream_id <$> call_streams call')
    ∧ Forall (λ s, extra_sdp s = incoming_attributes (stream_id s))
        (call_streams call')
    ∧ trace sipe_private'
      = trace sipe_private
        ++ [EvBackendMediaNew (msg_callid msg)
              (parse_from (sipmsg_find_header msg "From")) false
              (strstr body "m=data" || strstr body "m=applicationsharing")]
        ++ requests
        ++ [EvTransportResponse (Some (msg_callid invitation)) 180
              "Ringing" None]
    ∧ Forall2 (incoming_stream_request sipe_private call'
                 (sdp_ice_version smsg))
        requests (call_streams call').
Proof.
  intros Hbody Hparse Hfresh Hfree Hbackend Hacc.
  unfold process_incoming_invite_call. rewrite Hbody.
  cbn [mbind option_bind].
  rewrite (process_incoming_invite_call_not_busy _ msg _ Hfree).
  unfold sipe_media_from_sipmsg. rewrite Hfresh, Hparse.
  unfold create_media. rewrite Hfresh.
  cbn [mbind option_bind].
  destruct (sipe_media_dialog_init _ msg) as [invitation dialog] eqn:Hinit.
  cbn [mbind option_bind session_with].
  match goal with
  | |- context [create_new_streams ?sp ?c _ _ _] =>
      set (sipe_private1 := sp); set (call0 := c)
  end.
  destruct (create_new_streams_spec sipe_private1 call0 (sdp_ice_version smsg)
              (sdp_media smsg) false)
    as (added & evs & -> & Hevs & Hids & Hnodup & Hextra); [done|].
  cbn [mbind option_bind orb].
  assert (∀ id, id ∈ stream_id <$> added
                ↔ ∃ m, m ∈ sdp_media smsg ∧ acceptable_section m
                       ∧ media_name m = id) as Hids'.
  { intros id. rewrite Hids. simpl. rewrite elem_of_nil. tauto. }
  assert (added ≠ []) as Hne.
  { apply Exists_exists in Hacc as (m & Hm & Hacc).
    assert (media_name m ∈ stream_id <$> added) as Hin
      by (apply Hids'; eauto).
    intros ->. by apply elem_of_nil in Hin. }
  rewrite bool_decide_true by done.
  eexists _, _, invitation, evs. split; [reflexivity|].
  subst call0 sipe_private1. unfold store_call. simpl.
  rewrite lookup_insert_eq.
  repeat (split; [done|]).
  split.
  { intros key Hkey. by rewrite !lookup_insert_ne. }
  repeat (split; [done|]).
  split; [by rewrite <-!(assoc_L (++))|].
  eapply Forall2_impl; [exact Hevs|]. intros e s Hreq. exact Hreq.
Qed.

End incoming_call_properties.

Section incoming_refusal_properties.

Context `{!Backend, !SipLayer, !CallLayer}.

Lemma create_new_stream_skip sipe_private call ice_version m :
  ¬ acceptable_section m →
  create_new_stream sipe_private call ice_version m = Some (call, false, []).
Proof.
  intros Hno. unfold create_new_stream, acceptable_section in *.
  case_bool_decide as Hport; simpl; [|done].
  case_bool_decide as Hnone; simpl; [|done].
  unfold sipe_strequal.
  repeat case_bool_decide; simplify_eq; try done;
    destruct Hno; (split; [done|]); rewrite !elem_of_cons; tauto.
Qed.

Lemma create_new_streams_skip sipe_private call ice_version media has :
  Forall (λ m, ¬ acceptable_section m) media →
  create_new_streams sipe_private call ice_version media has
  = Some (call, has, []).
Proof.
  intros Hall. revert has.
  induction Hall as [|m media Hm _ IH]; intros has; simpl; [done|].
  rewrite create_new_stream_skip by done. cbn [mbind option_bind].
  rewrite IH. cbn [mbind option_bind]. by rewrite orb_false_r.
Qed.

(** On a call without streams, applying a message makes no request and
    refuses every section that has a port. *)
Lemma apply_remote_message_loop_no_streams sipe_private call media :
  call_streams call = [] →
  ∃ call' marked,
    apply_remote_message_loop sipe_private call media = (call', marked, [])
    ∧ call_streams call' = []
    ∧ call_failed_media call'
      = call_failed_media call
        ++ ((λ m, set_media_port m 0)
              <$> filter (λ m, media_port m ≠ 0%Z) media)
    ∧ call_id call' = call_id call
    ∧ call_invitation call' = call_invitation call
    ∧ call_ice_version call' = call_ice_version call
    ∧ call_smsg call' = call_smsg call.
Proof.
  revert call. induction media as [|m media IH]; intros call Hnone; simpl.
  { exists call, []. by rewrite app_nil_r. }
  match goal with
  | |- context [update_call_from_remote_sdp ?c m] => set (call0 := c)
  end.
  assert (call_streams call0 = []
          ∧ call_failed_media call0 = call_failed_media call
          ∧ call_id call0 = call_id call
          ∧ call_invitation call0 = call_invitation call
          ∧ call_ice_version call0 = call_ice_version call
          ∧ call_smsg call0 = call_smsg call)
    as (Hs0 & Hf0 & Hid0 & Hinv0 & Hice0 & Hsmsg0).
  { subst call0. by destruct (_ && _). }
  clearbody call0.
  unfold update_call_from_remote_sdp, sipe_core_media_get_stream_by_id.
  rewrite Hs0. simpl.
  destruct (decide (media_port m = 0%Z)) as [Hport|Hport]; simpl.
  - destruct (IH call0 Hs0)
      as (call' & marked & -> & Hs & Hf & Hid & Hinv & Hice & Hsmsg).
    eexists _, _. split; [reflexivity|].
    rewrite filter_cons_False by tauto.
    repeat split; congruence.
  - set (call1 := set_call_failed_media call0 _).
    destruct (IH call1)
      as (call' & marked & -> & Hs & Hf & Hid & Hinv & Hice & Hsmsg);
      [done|].
    eexists _, _. split; [reflexivity|].
    rewrite filter_cons_True by done. subst call1. simpl in *.
    rewrite Hf, Hf0, <-(assoc_L (++)).
    repeat split; congruence.
Qed.

(** X25: an INVITE with a new Call-ID that passes the busy check but offers
    no section the core can take is not refused: without ringing and without
    asking the backend for a stream, the core answers 200 OK at once with a
    session description that lists every offered section that had a port,
    each with port 0.  The call stays registered without streams, and the
    compatibility of the encryption levels is not consulted. *)
Theorem process_incoming_invite_call_nothing_acceptable
    sipe_private msg body smsg :
  msg_body msg = Some body →
  sdpmsg_parse_msg (Some body) = Some smsg →
  media_calls sipe_private !! msg_callid msg = None →
  strstr body "m=data" || strstr body "m=applicationsharing" = true
  ∨ sipe_core_media_get_call sipe_private = None →
  Forall (λ m, ¬ acceptable_section m) (sdp_media smsg) →
  ∃ call' sipe_private' invitation,
    process_incoming_invite_call sipe_private msg
    = Some (Some call', sipe_private')
    ∧ media_calls sipe_private' !! msg_callid msg = Some call'
    ∧ call_streams call' = []
    ∧ call_smsg call' = None
    ∧ call_invitation call' = Some invitation
    ∧ trace sipe_private'
      = trace sipe_private
        ++ [EvBackendMediaNew (msg_callid msg)
              (parse_from (sipmsg_find_header msg "From")) false
              (strstr body "m=data" || strstr body "m=applicationsharing");
            EvTransportResponse (Some (msg_callid invitation)) 200 "OK"
              (Some (sdpmsg_to_string
                       {| sdp_ip := None;
                          sdp_media :=
                            (λ m, set_media_port m 0)
                              <$> filter (λ m, media_port m ≠ 0%Z)
                                    (sdp_media smsg);
                          sdp_ice_version := sdp_ice_version smsg |}))].
Proof.
  intros Hbody Hparse Hfresh Hfree Hnone.
  unfold process_incoming_invite_call. rewrite Hbody.
  cbn [mbind option_bind].
  rewrite (process_incoming_invite_call_not_busy _ msg _ Hfree).
  unfold sipe_media_from_sipmsg. rewrite Hfresh, Hparse.
  unfold create_media. rewrite Hfresh.
  cbn [mbind option_bind].
  destruct (sipe_media_dialog_init _ msg) as [invitation dialog] eqn:Hinit.
  cbn [mbind option_bind session_with].
  rewrite create_new_streams_skip by done.
  cbn [mbind option_bind].
  unfold apply_remote_message.
  match goal with
  | |- context [apply_remote_message_loop ?sp ?c _] =>
      destruct (apply_remote_message_loop_no_streams sp c (sdp_media smsg))
        as (call1 & marked & -> & Hs & Hf & Hid & Hinv & Hice & Hsmsg);
        [done|]
  end.
  simpl in Hf, Hid, Hinv, Hice, Hsmsg.
  unfold send_response_with_session_description, sipe_media_to_sdpmsg.
  rewrite Hs. cbn [streams_to_sdpmedia mbind option_bind].
  cbn [call_invitation set_call_failed_media]. rewrite Hinv.
  cbn [mbind option_bind].
  eexists _, _, _. split; [reflexivity|].
  unfold store_call. simpl. rewrite Hid, lookup_insert_eq.
  split; [done|]. split; [done|]. split; [done|]. split; [done|].
  rewrite Hf, Hice, !app_nil_r, <-(assoc_L (++)). done.
Qed.

End incoming_refusal_properties.

(** ** Answering an incoming call *)

Lemma store_stream_fmap {B} (f : sipe_media_stream_private → B) call k s s' :
  call_streams call !! k = Some s →
  f s' = f s →
  f <$> call_streams (store_stream call k s') = f <$> call_streams call.
Proof.
  intros Hk Hf. unfold store_stream. simpl.
  rewrite list_fmap_insert, Hf. apply list_insert_id.
  by rewrite list_lookup_fmap, Hk.
Qed.

Lemma call_initialized_sublist call call' :
  (λ s, bs_initialized (stream_backend_private s)) <$> call_streams call'
  `sublist_of`
    (λ s, bs_initialized (stream_backend_private s)) <$> call_streams call →
  call_initialized call = true → call_initialized call' = true.
Proof.
  assert (∀ l, forallb (λ s, bs_initialized (stream_backend_private s)) l
               = true
               ↔ Forall (λ b : bool, b = true)
                   ((λ s, bs_initialized (stream_backend_private s)) <$> l))
    as Halt.
  { induction l as [|s l IH]; simpl; [by split|].
    rewrite andb_true_iff, Forall_cons, IH. done. }
  unfold call_initialized. rewrite !Halt, !Forall_forall.
  intros Hsub Hall b Hb. apply Hall. by eapply elem_of_sublist.
Qed.

Section answer_properties.

Context `{!Backend, !SipLayer, !CallLayer}.

Lemma update_call_from_remote_sdp_answer_frame call media :
  let '(_, call', evs) := update_call_from_remote_sdp call media in
  (λ s, bs_initialized (stream_backend_private s)) <$> call_streams call'
  `sublist_of`
    (λ s, bs_initialized (stream_backend_private s)) <$> call_streams call
  ∧ call_invitation call' = call_invitation call
  ∧ call_smsg call' = call_smsg call
  ∧ Forall backend_stream_request evs.
Proof.
  unfold update_call_from_remote_sdp, sipe_core_media_get_stream_by_id,
    stream_end_cb, remove_stream.
  destruct (decide (media_port media = 0%Z)).
  { destruct (list_find _ _) as [[? ?]|]; simpl;
      [rewrite list_fmap_delete|];
      repeat split; try apply sublist_delete; by repeat constructor. }
  destruct (list_find _ _) as [[k s]|] eqn:Hfind;
    [|repeat split; by repeat constructor].
  apply list_find_Some in Hfind as (Hk & _ & _).
  assert (∀ s',
            bs_initialized (stream_backend_private s')
            = bs_initialized (stream_backend_private s) →
            (λ s, bs_initialized (stream_backend_private s))
              <$> <[k:=s']> (call_streams call)
            = (λ s, bs_initialized (stream_backend_private s))
                <$> call_streams call) as Hstore.
  { intros s' Hs'. rewrite list_fmap_insert, Hs'. apply list_insert_id.
    by rewrite list_lookup_fmap, Hk. }
  repeat case_match; simplify_eq/=;
    rewrite ?list_fmap_delete, ?Hstore by done;
    (split; [done || apply sublist_delete|]);
    (split; [done|]); (split; [done|]);
    rewrite ?Forall_app; repeat split; by repeat constructor.
Qed.

Lemma apply_remote_message_loop_answer_frame sipe_private call media :
  let '(call', _, evs) := apply_remote_message_loop sipe_private call media in
  (λ s, bs_initialized (stream_backend_private s)) <$> call_streams call'
  `sublist_of`
    (λ s, bs_initialized (stream_backend_private s)) <$> call_streams call
  ∧ call_invitation call' = call_invitation call
  ∧ call_smsg call' = call_smsg call
  ∧ Forall backend_stream_request evs.
Proof.
  revert call. induction media as [|m media IH]; intros call; simpl.
  { by repeat split. }
  match goal with
  | |- context [update_call_from_remote_sdp ?c m] => set (call0 := c)
  end.
  assert (call_streams call0 = call_streams call
          ∧ call_invitation call0 = call_invitation call
          ∧ call_smsg call0 = call_smsg call) as (Hs0 & Hinv0 & Hsmsg0).
  { subst call0. by destruct (_ && _). }
  pose proof (update_call_from_remote_sdp_answer_frame call0 m) as Hframe.
  destruct (update_call_from_remote_sdp call0 m) as [[ok call1] evs].
  destruct Hframe as (Hs1 & Hinv1 & Hsmsg1 & Hevs1). rewrite Hs0 in Hs1.
  destruct ok.
  - specialize (IH call1).
    destruct (apply_remote_message_loop sipe_private call1 media)
      as [[call2 marked] evs2].
    destruct IH as (Hs2 & Hinv2 & Hsmsg2 & Hevs2).
    rewrite Forall_app. split; [by etrans|]. repeat split; congruence.
  - specialize (IH (set_call_failed_media call1
                      (call_failed_media call1 ++ [set_media_port m 0]))).
    destruct (apply_remote_message_loop sipe_private _ media)
      as [[call2 marked] evs2].
    destruct IH as (Hs2 & Hinv2 & Hsmsg2 & Hevs2). simpl in *.
    rewrite Forall_app. split; [by etrans|]. repeat split; congruence.
Qed.

Lemma apply_remote_message_answer_frame sipe_private call msg :
  let '(_, call', _, evs) := apply_remote_message sipe_private call msg in
  (call_initialized call = true → call_initialized call' = true)
  ∧ call_invitation call' = call_invitation call
  ∧ call_smsg call' = call_smsg call
  ∧ Forall backend_stream_request evs
  ∧ (call_encryption_compatible call' = false
     ↔ get_encryption_policy sipe_private = SIPE_ENCRYPTION_POLICY_REQUIRED
       ∧ Exists encryption_rejected_by (sdp_media msg)).
Proof.
  unfold apply_remote_message.
  match goal with
  | |- context [apply_remote_message_loop _ ?c _] => set (call0 := c)
  end.
  pose proof (apply_remote_message_loop_answer_frame sipe_private call0
                (sdp_media msg)) as Hframe.
  pose proof (apply_remote_message_loop_verdicts sipe_private call0
                (sdp_media msg)) as Hverdicts.
  destruct (apply_remote_message_loop _ _ _) as [[call1 marked] evs].
  destruct Hframe as (Hs & Hinv & Hsmsg & Hevs).
  destruct Hverdicts as (Henc & _).
  split; [by apply call_initialized_sublist|].
  repeat (split; [done|]).
  rewrite Henc. subst call0. simpl. split; [by intros [?|?]|by right].
Qed.

End answer_properties.

Section incoming_answer_properties.

Context `{!Backend, !SipLayer, !CallLayer}.

(** X26: the answer to an incoming call whose streams are all initialised
    and which the user has accepted, when [apply_remote_message] takes at
    least one section of the kept offer.  After the backend requests that
    applying the offer causes, none of which is a SIP response, exactly one
    response goes out on the invitation: 488 "Encryption Levels not
    compatible" with a Warning header, followed by the rejection of the
    call and an error for the user, when the encryption policy is
    "required" and some section of the offer says [encryption=rejected];
    200 OK with the session description of the call in every other case.
    The offer is consumed. *)
Theorem incoming_call_answer sipe_private call smsg invitation :
  call_initialized call = true →
  call_smsg call = Some smsg →
  call_invitation call = Some invitation →
  (apply_remote_message sipe_private (set_call_smsg call None) smsg).1.1.1
  = true →
  let call1 :=
    (apply_remote_message sipe_private (set_call_smsg call None) smsg).1.1.2 in
  let evs :=
    (apply_remote_message sipe_private (set_call_smsg call None) smsg).2 in
  let incompatible :=
    get_encryption_policy sipe_private = SIPE_ENCRYPTION_POLICY_REQUIRED
    ∧ Exists encryption_rejected_by (sdp_media smsg) in
  Forall backend_stream_request evs
  ∧ call_smsg call1 = None
  ∧ (incompatible →
     let invitation :=
       sipmsg_add_header invitation "Warning"
         ("308 lcs.microsoft.com " +:+ DQUOTE
          +:+ "Encryption Levels not compatible" +:+ DQUOTE)%string in
     stream_initialized_cb sipe_private call false true
     = Some (set_call_invitation call1 (Some invitation),
             (Request <$> evs)
             ++ [Request (EvTransportResponse (Some (msg_callid invitation))
                            488 "Encryption Levels not compatible" None);
                 RequestBackendMediaReject (call_id call1) false;
                 Request (EvBackendNotifyError "Unable to establish a call"
                            "Encryption settings of peer are incompatible with ours.")]))
  ∧ (¬ incompatible →
     let invitation :=
       sipmsg_add_header invitation "Content-Type" "application/sdp" in
     stream_initialized_cb sipe_private call false true
     = '(msg, call2) ← sipe_media_to_sdpmsg sipe_private call1;
       Some (set_call_invitation call2 (Some invitation),
             (Request <$> evs)
             ++ [Request (EvTransportResponse (Some (msg_callid invitation))
                            200 "OK" (Some (sdpmsg_to_string msg)))])).
Proof.
  intros Hinit Hsmsg Hinv Hok.
  pose proof (apply_remote_message_answer_frame sipe_private
                (set_call_smsg call None) smsg) as Hframe.
  unfold stream_initialized_cb. rewrite Hinit, Hsmsg.
  destruct (apply_remote_message sipe_private (set_call_smsg call None) smsg)
    as [[[ok call1] msg'] evs].
  simpl in Hok. subst ok.
  destruct Hframe as (Hinit1 & Hinv1 & Hsmsg1 & Hevs & Henc).
  cbn [fst snd]. simpl in Hinv1, Hsmsg1.
  assert (call_initialized call1 = true) as Hinit1'.
  { by apply Hinit1. }
  split; [done|]. split; [done|].
  unfold send_invite_response_if_ready. rewrite Hinit1'. simpl negb.
  cbn [orb]. split.
  - intros Hincompatible. apply Henc in Hincompatible as ->.
    cbn [negb]. rewrite Hinv1, Hinv. by cbn [mbind option_bind].
  - intros Hcompatible.
    destruct (call_encryption_compatible call1) eqn:Hc; cycle 1.
    { destruct Hcompatible. by apply Henc. }
    cbn [negb]. unfold send_response_with_session_description.
    unfold sipe_media_to_sdpmsg.
    destruct (streams_to_sdpmedia _ _ _ _ _) as [[media ip]|];
      cbn [mbind option_bind]; [|done].
    cbn [call_invitation set_call_failed_media]. rewrite Hinv1, Hinv.
    by cbn [mbind option_bind fmap list_fmap].
Qed.

(** X27: when [apply_remote_message] takes no section of the kept offer
    (every section failed, for instance because the backend accepted none
    of the codecs), [stream_initialized_cb] sends no response at all,
    whether or not the user has accepted the call: its only requests are
    the stream requests of the failed attempt, and the offer is gone, so
    that a later [stream_initialized_cb] does nothing.  The INVITE is
    answered only if the user accepts afterwards.  Whenever
    [call_accept_cb] then returns, its first request is the 200 OK on the
    invitation.  When the encryption levels are incompatible,
    [send_invite_response_if_ready] answers 488 on the invitation instead
    and has the call rejected, and [call_accept_cb] goes on to read the
    call that has been disposed of: its behaviour is undefined. *)
Theorem incoming_call_unanswered sipe_private call smsg invitation :
  call_initialized call = true →
  call_smsg call = Some smsg →
  call_invitation call = Some invitation →
  (apply_remote_message sipe_private (set_call_smsg call None) smsg).1.1.1
  = false →
  let call1 :=
    (apply_remote_message sipe_private (set_call_smsg call None) smsg).1.1.2 in
  let evs :=
    (apply_remote_message sipe_private (set_call_smsg call None) smsg).2 in
  Forall backend_stream_request evs
  ∧ (∀ accepted,
       stream_initialized_cb sipe_private call false accepted
       = Some (call1, Request <$> evs)
       ∧ stream_initialized_cb sipe_private call1 false accepted
         = Some (call1, []))
  ∧ (∀ call2 requests,
       call_accept_cb sipe_private call1 true true = Some (call2, requests) →
       ∃ invitation' body,
         call_invitation call2 = Some invitation'
         ∧ head requests
           = Some (Request (EvTransportResponse
                              (Some (msg_callid invitation')) 200 "OK" body)))
  ∧ (call_encryption_compatible call1 = false →
     let invitation' :=
       sipmsg_add_header invitation "Warning"
         ("308 lcs.microsoft.com " +:+ DQUOTE
          +:+ "Encryption Levels not compatible" +:+ DQUOTE)%string in
     send_invite_response_if_ready sipe_private call1 true
     = Some (true, set_call_invitation call1 (Some invitation'),
             [Request (EvTransportResponse (Some (msg_callid invitation'))
                         488 "Encryption Levels not compatible" None);
              RequestBackendMediaReject (call_id call1) false;
              Request (EvBackendNotifyError "Unable to establish a call"
                         "Encryption settings of peer are incompatible with ours.")])
     ∧ call_accept_cb sipe_private call1 true true = None).
Proof.
  intros Hinit Hsmsg Hinv Hok.
  pose proof (apply_remote_message_answer_frame sipe_private
                (set_call_smsg call None) smsg) as Hframe.
  unfold stream_initialized_cb. rewrite Hinit, Hsmsg.
  destruct (apply_remote_message sipe_private (set_call_smsg call None) smsg)
    as [[[ok call1] msg'] evs].
  simpl in Hok. subst ok.
  destruct Hframe as (Hinit1 & Hinv1 & Hsmsg1 & Hevs & Henc).
  cbn [fst snd]. simpl in Hinv1, Hsmsg1.
  assert (call_initialized call1 = true) as Hinit1' by (by apply Hinit1).
  split; [done|]. split.
  { intros accepted. by rewrite Hinit1', Hsmsg1. }
  unfold call_accept_cb, send_invite_response_if_ready.
  rewrite Hinit1'. cbn [negb orb].
  destruct (call_encryption_compatible call1); cbn [negb].
  - split; [|done]. intros call2 requests.
    unfold send_response_with_session_description, sipe_media_to_sdpmsg.
    destruct (streams_to_sdpmedia _ _ _ _ _) as [[media ip]|];
      cbn [mbind option_bind]; [|done].
    cbn [call_invitation set_call_failed_media]. rewrite Hinv1, Hinv.
    cbn [mbind option_bind fmap list_fmap andb]. intros [= <- <-].
    eexists _, _. split; reflexivity.
  - rewrite Hinv1, Hinv. cbn [mbind option_bind andb]. split; [done|].
    by intros _.
Qed.

End incoming_answer_properties.

(** ** The INVITE of a call *)

Lemma store_sip_dialog_invite_fields call d :
  call_extra_invite_section (store_sip_dialog call d)
  = call_extra_invite_section call
  ∧ call_invite_content_type (store_sip_dialog call d)
    = call_invite_content_type call
  ∧ call_failed_media (store_sip_dialog call d) = call_failed_media call
  ∧ call_streams (store_sip_dialog call d) = call_streams call.
Proof. unfold store_sip_dialog. by destruct (call_session call). Qed.

Section invite_properties.

Context `{!SipLayer, !CallLayer}.

(** What [sipe_invite_call] sends and leaves behind. *)
Lemma sipe_invite_call_spec sipe_private call tc call' requests :
  sipe_invite_call sipe_private call tc = Some (call', requests) →
  ∃ msg call0 dialog,
    sipe_media_to_sdpmsg sipe_private call = Some (msg, call0)
    ∧ sipe_media_get_sip_dialog call = Some dialog
    ∧ requests
      = [RequestTransportInvite
           (invite_headers sipe_private
              (default "application/sdp" (call_invite_content_type call))
              match call_invite_content_type call with
              | Some _ => invite_boundary
              | None => ""
              end)
           match call_extra_invite_section call with
           | Some section =>
               multipart_invite_body section (sdpmsg_to_string msg)
           | None => sdpmsg_to_string msg
           end
           dialog tc]
    ∧ call_extra_invite_section call' = None
    ∧ (call_invite_content_type call'
       = match call_extra_invite_section call with
         | Some _ => None
         | None => call_invite_content_type call
         end)
    ∧ call_failed_media call' = [].
Proof.
  unfold sipe_invite_call. intros Hinvite.
  destruct (sipe_media_to_sdpmsg sipe_private call) as [[msg call0]|] eqn:Hmsg;
    [|done].
  cbn [mbind option_bind] in Hinvite.
  assert (call_extra_invite_section call0 = call_extra_invite_section call
          ∧ call_invite_content_type call0 = call_invite_content_type call
          ∧ call_failed_media call0 = []) as (Hsec & Hct & Hfailed).
  { unfold sipe_media_to_sdpmsg in Hmsg.
    destruct (streams_to_sdpmedia _ _ _ _ _) as [[media ip]|]; [|done].
    by injection Hmsg as <- <-. }
  rewrite Hsec in Hinvite.
  destruct (sipe_media_get_sip_dialog call) as [dialog|] eqn:Hdialog;
    cycle 1.
  { by destruct (call_extra_invite_section call). }
  exists msg, call0, dialog. split; [done|]. split; [done|].
  destruct (call_extra_invite_section call) as [section|] eqn:Hsection;
    cbn [mbind option_bind] in Hinvite;
    destruct (sip_transport_invite _ _ dialog tc) as [dialog' trans];
    injection Hinvite as <- <-;
    destruct (store_sip_dialog_invite_fields
                (sipe_media_add_extra_invite_section call0 None None)
                (set_dialog_outgoing_invite dialog' (Some trans)))
      as (Hs1 & Hc1 & Hf1 & _);
    destruct (store_sip_dialog_invite_fields call0
                (set_dialog_outgoing_invite dialog' (Some trans)))
      as (Hs2 & Hc2 & Hf2 & _).
  - rewrite Hs1, Hc1, Hf1. split; [|by simpl].
    unfold invite_headers, multipart_invite_body.
    by destruct (call_invite_content_type call),
         (uc_line_uri sipe_private).
  - rewrite Hs2, Hc2, Hf2, Hsec, Hct. split; [|done].
    unfold invite_headers.
    by destruct (call_invite_content_type call),
         (uc_line_uri sipe_private).
Qed.

(** X28: the ms-proxy-2007fallback section of a new call is sent once.  On
    a call whose dialog has cseq 0, that uses RFC 5245 and is not to the
    audio test service, the first INVITE after
    [append_proxy_fallback_invite_if_needed] announces
    [multipart/alternative] with a boundary and carries the fallback
    section in front of the session description.  It leaves the call
    without extra section and without content type, and every INVITE of a
    call in that state announces [application/sdp], has the session
    description alone as its body and leaves the call in that state again:
    so it is with the second INVITE of the call and with every INVITE that
    follows it. *)
Theorem proxy_fallback_sent_once sipe_private call dialog tc call0 call1
    requests :
  sipe_media_get_sip_dialog call = Some dialog →
  dialog_cseq dialog = 0%Z →
  call_ice_version call = SIPE_ICE_RFC_5245 →
  call_with call ≠ test_call_bot_uri sipe_private →
  append_proxy_fallback_invite_if_needed sipe_private call = Some call0 →
  sipe_invite_call sipe_private call0 tc = Some (call1, requests) →
  (∃ section msg,
     call_extra_invite_section call0 = Some section
     ∧ fst <$> sipe_media_to_sdpmsg sipe_private call0 = Some msg
     ∧ requests
       = [RequestTransportInvite
            (invite_headers sipe_private "multipart/alternative"
               invite_boundary)
            (multipart_invite_body section (sdpmsg_to_string msg))
            dialog tc])
  ∧ call_extra_invite_section call1 = None
  ∧ call_invite_content_type call1 = None
  ∧ ∀ call' tc' call'' requests',
      call_extra_invite_section call' = None →
      call_invite_content_type call' = None →
      sipe_invite_call sipe_private call' tc' = Some (call'', requests') →
      (∃ msg dialog',
         fst <$> sipe_media_to_sdpmsg sipe_private call' = Some msg
         ∧ requests'
           = [RequestTransportInvite
                (invite_headers sipe_private "application/sdp" "")
                (sdpmsg_to_string msg) dialog' tc'])
      ∧ call_extra_invite_section call'' = None
      ∧ call_invite_content_type call'' = None.
Proof.
  intros Hdialog Hcseq Hice Hwith Hfallback Hinvite.
  unfold append_proxy_fallback_invite_if_needed in Hfallback.
  rewrite Hdialog in Hfallback. cbn [mbind option_bind] in Hfallback.
  rewrite bool_decide_false in Hfallback by (by intros []).
  rewrite bool_decide_false in Hfallback by (by intros []).
  unfold sipe_strequal in Hfallback.
  rewrite bool_decide_false in Hfallback by done.
  cbn [orb] in Hfallback. injection Hfallback as <-.
  apply sipe_invite_call_spec in Hinvite
    as (msg & call0' & dialog0 & Hmsg & Hdialog0 & -> & Hsec1 & Hct1 & _).
  assert (dialog0 = dialog) as ->.
  { unfold sipe_media_get_sip_dialog in *. simpl in Hdialog0. congruence. }
  split; [|split; [done|split; [done|]]].
  - eexists _, msg. split; [reflexivity|]. rewrite Hmsg. split; [done|].
    reflexivity.
  - intros call' tc' call'' requests' Hsec Hct Hinvite'.
    apply sipe_invite_call_spec in Hinvite'
      as (msg' & call1' & dialog' & Hmsg' & _ & -> & Hsec' & Hct' & _).
    rewrite Hsec, Hct in *. split; [|done].
    exists msg', dialog'. by rewrite Hmsg'.
Qed.

End invite_properties.

(** ** Calls to the audio test service *)

Section test_call_properties.

Context `{!Backend, !SipLayer}.

(** The extra INVITE section of a new RFC 5245 call. *)
Lemma sipe_media_initiate_call_fresh_section sipe_private with_ with_video :
  sipe_core_media_get_call sipe_private = None →
  media_calls sipe_private !! gencallid sipe_private = None →
  (∀ id type min_port max_port,
     is_Some (sipe_backend_media_add_stream (gencallid sipe_private) id type
                SIPE_ICE_RFC_5245 true min_port max_port)) →
  ∃ sipe_private' call',
    sipe_media_initiate_call sipe_private with_ SIPE_ICE_RFC_5245 with_video
    = Some sipe_private'
    ∧ media_calls sipe_private' !! gencallid sipe_private = Some call'
    ∧ call_with call' = with_
    ∧ stream_id <$> call_streams call'
      = (if with_video then ["audio"; "video"] else ["audio"])
    ∧ call_extra_invite_section call'
      = (if sipe_strequal with_ (test_call_bot_uri sipe_private) then None
         else Some (proxy_fallback_section sipe_backend_network_ip_address))
    ∧ call_invite_content_type call'
      = (if sipe_strequal with_ (test_call_bot_uri sipe_private) then None
         else Some "multipart/alternative").
Proof.
  intros Hnone Hfresh Hbackend.
  unfold sipe_media_initiate_call. rewrite Hnone.
  unfold sipe_media_call_new_outgoing, create_media_outgoing, create_media.
  rewrite Hfresh. simpl.
  unfold sipe_media_stream_add at 1. simpl.
  destruct (Hbackend "audio" SIPE_MEDIA_AUDIO
              (min_audio_port sipe_private) (max_audio_port sipe_private))
    as [audio ->].
  simpl. destruct with_video; simpl.
  - unfold sipe_media_stream_add at 1. simpl.
    destruct (Hbackend "video" SIPE_MEDIA_VIDEO
                (min_video_port sipe_private) (max_audio_port sipe_private))
      as [video ->].
    simpl. unfold append_proxy_fallback_invite_if_needed. simpl.
    destruct (sipe_strequal with_ (test_call_bot_uri sipe_private)); simpl;
      eexists _, _; (split; [done|]); unfold store_call; simpl;
      rewrite lookup_insert_eq; by repeat split.
  - unfold append_proxy_fallback_invite_if_needed. simpl.
    destruct (sipe_strequal with_ (test_call_bot_uri sipe_private)); simpl;
      eexists _, _; (split; [done|]); unfold store_call; simpl;
      rewrite lookup_insert_eq; by repeat split.
Qed.

(** X29: [sipe_core_media_test_call] without a test-service URI only shows
    an error.  With one, on a core without audio call, it sets up an
    RFC 5245 call without video to the service, and this is the one new call
    that gets no ms-proxy-2007fallback section: a call placed with
    [sipe_core_media_initiate_call] to any other URI carries the section
    and the content type [multipart/alternative]. *)
Theorem sipe_core_media_test_call_no_fallback sipe_private :
  (test_call_bot_uri sipe_private = None →
   sipe_core_media_test_call sipe_private
   = Some (emit sipe_private
             [EvBackendNotifyError "Unable to establish a call"
                "Audio Test Service is not available."]))
  ∧ (sipe_core_media_get_call sipe_private = None →
     media_calls sipe_private !! gencallid sipe_private = None →
     (∀ id type min_port max_port,
        is_Some (sipe_backend_media_add_stream (gencallid sipe_private) id
                   type SIPE_ICE_RFC_5245 true min_port max_port)) →
     (∀ uri,
        test_call_bot_uri sipe_private = Some uri →
        ∃ sipe_private' call',
          sipe_core_media_test_call sipe_private = Some sipe_private'
          ∧ media_calls sipe_private' !! gencallid sipe_private = Some call'
          ∧ call_with call' = Some uri
          ∧ stream_id <$> call_streams call' = ["audio"]
          ∧ call_extra_invite_section call' = None
          ∧ call_invite_content_type call' = None)
     ∧ ∀ with_ with_video,
         with_ ≠ test_call_bot_uri sipe_private →
         ∃ sipe_private' call',
           sipe_core_media_initiate_call sipe_private with_ with_video
           = Some sipe_private'
           ∧ media_calls sipe_private' !! gencallid sipe_private = Some call'
           ∧ call_with call' = with_
           ∧ call_extra_invite_section call'
             = Some (proxy_fallback_section sipe_backend_network_ip_address)
           ∧ call_invite_content_type call' = Some "multipart/alternative").
Proof.
  unfold sipe_core_media_test_call, sipe_core_media_initiate_call. split.
  { by intros ->. }
  intros Hnone Hfresh Hbackend. split.
  - intros uri Huri. rewrite Huri.
    destruct (sipe_media_initiate_call_fresh_section sipe_private (Some uri)
                false Hnone Hfresh Hbackend)
      as (sipe_private' & call' & Hcall & Hlookup & Hwith & Hids & Hsec
          & Hct).
    exists sipe_private', call'.
    unfold sipe_strequal in Hsec, Hct.
    rewrite bool_decide_true in Hsec, Hct by done.
    by repeat split.
  - intros with_ with_video Hne.
    destruct (sipe_media_initiate_call_fresh_section sipe_private with_
                with_video Hnone Hfresh Hbackend)
      as (sipe_private' & call' & Hcall & Hlookup & Hwith & Hids & Hsec
          & Hct).
    exists sipe_private', call'.
    unfold sipe_strequal in Hsec, Hct.
    rewrite bool_decide_false in Hsec, Hct by done.
    by repeat split.
Qed.

End test_call_properties.

(** ** A backend that refuses the streams of an incoming call *)

Section refused_stream_properties.

Context `{!Backend, !SipLayer, !CallLayer}.

Lemma create_new_stream_refused sipe_private call ice_version m :
  call_streams call = [] →
  (∀ id type min_port max_port,
     sipe_backend_media_add_stream (call_id call) id type ice_version false
       min_port max_port = None) →
  acceptable_section m →
  (media_name m ∈ ["audio"; "video"] →
   ∃ e, create_new_stream sipe_private call ice_version m
        = Some (call, true, [e]))
  ∧ (media_name m ∈ ["data"; "applicationsharing"] →
     create_new_stream sipe_private call ice_version m = None).
Proof.
  intros Hnone Hrefuse [Hport Hname].
  unfold create_new_stream, sipe_core_media_get_stream_by_id.
  rewrite Hnone. simpl. rewrite bool_decide_true by done. simpl.
  unfold sipe_strequal, sipe_media_stream_add.
  split; intros Hin; rewrite !elem_of_cons, elem_of_nil in Hin;
    destruct Hin as [Hin | [Hin | []]]; rewrite Hin; simpl;
    rewrite Hrefuse; simpl; by eauto.
Qed.

Lemma create_new_streams_refused_None sipe_private call ice_version media has :
  call_streams call = [] →
  (∀ id type min_port max_port,
     sipe_backend_media_add_stream (call_id call) id type ice_version false
       min_port max_port = None) →
  Exists (λ m, acceptable_section m
               ∧ media_name m ∈ ["data"; "applicationsharing"]) media →
  create_new_streams sipe_private call ice_version media has = None.
Proof.
  intros Hnone Hrefuse Hdata. revert has.
  induction media as [|m media IH]; intros has.
  { by apply Exists_nil in Hdata. }
  simpl.
  destruct (decide (acceptable_section m)) as [Hacc|Hacc]; cycle 1.
  { rewrite create_new_stream_skip by done. cbn [mbind option_bind].
    apply Exists_cons in Hdata as [[? _]|Hdata]; [done|].
    by rewrite IH. }
  destruct (create_new_stream_refused sipe_private call ice_version m
              Hnone Hrefuse Hacc) as [Hav Hda].
  destruct (decide (media_name m ∈ ["data"; "applicationsharing"]))
    as [Hin|Hin].
  { by rewrite Hda. }
  apply Exists_cons in Hdata as [[_ ?]|Hdata]; [done|].
  destruct Hav as [e ->].
  { destruct Hacc as [_ Hname]. revert Hname Hin.
    rewrite !elem_of_cons, !elem_of_nil. tauto. }
  cbn [mbind option_bind]. by rewrite IH.
Qed.

Lemma create_new_streams_refused_Some sipe_private call ice_version media has :
  call_streams call = [] →
  (∀ id type min_port max_port,
     sipe_backend_media_add_stream (call_id call) id type ice_version false
       min_port max_port = None) →
  Forall (λ m, acceptable_section m → media_name m ∈ ["audio"; "video"])
    media →
  ∃ evs,
    create_new_streams sipe_private call ice_version media has
    = Some (call,
            has || bool_decide (Exists acceptable_section media), evs).
Proof.
  intros Hnone Hrefuse Hall. revert has.
  induction Hall as [|m media Hm _ IH]; intros has.
  { exists []. simpl. by rewrite orb_false_r. }
  simpl.
  destruct (decide (acceptable_section m)) as [Hacc|Hacc].
  - destruct (create_new_stream_refused sipe_private call ice_version m
                Hnone Hrefuse Hacc) as [Hav _].
    destruct (Hav (Hm Hacc)) as [e ->]. cbn [mbind option_bind].
    destruct (IH (has || true)) as [evs ->]. cbn [mbind option_bind].
    eexists.
    rewrite (bool_decide_true (Exists acceptable_section (m :: media)))
      by (by left).
    rewrite !orb_true_r. reflexivity.
  - rewrite create_new_stream_skip by done. cbn [mbind option_bind].
    destruct (IH (has || false)) as [evs ->]. cbn [mbind option_bind].
    eexists. rewrite orb_false_r. do 3 f_equal.
    simpl. f_equal.
    apply bool_decide_ext. rewrite Exists_cons. tauto.
Qed.

(** X30: what an INVITE with a new Call-ID leads to when the backend creates
    none of the streams asked for.  If the offer has a data or
    application-sharing section the core can take, the attributes of the
    stream are written through the NULL pointer the backend returned: the
    behaviour is undefined.  If the sections it can take are audio and video
    only, the failure goes unnoticed: the call is registered without any
    stream, the offer is kept, and the last request is 180 Ringing. *)
Theorem process_incoming_invite_call_stream_refused
    sipe_private msg body smsg :
  msg_body msg = Some body →
  sdpmsg_parse_msg (Some body) = Some smsg →
  media_calls sipe_private !! msg_callid msg = None →
  strstr body "m=data" || strstr body "m=applicationsharing" = true
  ∨ sipe_core_media_get_call sipe_private = None →
  (∀ id type min_port max_port,
     sipe_backend_media_add_stream (msg_callid msg) id type
       (sdp_ice_version smsg) false min_port max_port = None) →
  (Exists (λ m, acceptable_section m
                ∧ media_name m ∈ ["data"; "applicationsharing"])
     (sdp_media smsg) →
   process_incoming_invite_call sipe_private msg = None)
  ∧ (Forall (λ m, acceptable_section m → media_name m ∈ ["audio"; "video"])
       (sdp_media smsg) →
     Exists acceptable_section (sdp_media smsg) →
     ∃ call' sipe_private' invitation,
       process_incoming_invite_call sipe_private msg
       = Some (Some call', sipe_private')
       ∧ media_calls sipe_private' !! msg_callid msg = Some call'
       ∧ call_streams call' = []
       ∧ call_smsg call' = Some smsg
       ∧ last (trace sipe_private')
         = Some (EvTransportResponse (Some (msg_callid invitation)) 180
                   "Ringing" None)).
Proof.
  intros Hbody Hparse Hfresh Hfree Hrefuse.
  unfold process_incoming_invite_call. rewrite Hbody.
  cbn [mbind option_bind].
  rewrite (process_incoming_invite_call_not_busy _ msg _ Hfree).
  unfold sipe_media_from_sipmsg. rewrite Hfresh, Hparse.
  unfold create_media. rewrite Hfresh.
  cbn [mbind option_bind].
  destruct (sipe_media_dialog_init _ msg) as [invitation dialog] eqn:Hinit.
  cbn [mbind option_bind session_with].
  split.
  - intros Hdata.
    by rewrite create_new_streams_refused_None.
  - intros Hav Hacc.
    match goal with
    | |- context [create_new_streams ?sp ?c ?i ?m ?h] =>
        destruct (create_new_streams_refused_Some sp c i m h) as [evs ->];
          [done..|]
    end.
    cbn [mbind option_bind orb].
    rewrite bool_decide_true by done.
    eexists _, _, invitation. split; [reflexivity|].
    unfold store_call. simpl. rewrite lookup_insert_eq.
    repeat (split; [done|]). by rewrite last_snoc.
Qed.

End refused_stream_properties.

(** * Runs on the sample data *)

(** RTP and RTCP host candidates on one address. *)
Lemma get_stream_ip_and_ports_sound_witness :
  let l := [SampleSection.host_udp_rtcp; SampleCandidates.host_udp] in
  get_stream_ip_and_ports l SIPE_CANDIDATE_TYPE_HOST
  = (Some "192.0.2.10", 5000%Z, 5001%Z)
  ∧ ip_and_ports_from l SIPE_CANDIDATE_TYPE_HOST
      (get_stream_ip_and_ports l SIPE_CANDIDATE_TYPE_HOST).
Proof.
  intros l. split; [reflexivity|].
  apply (get_stream_ip_and_ports_sound l SIPE_CANDIDATE_TYPE_HOST).
  repeat constructor; by eexists.
Defined.

(** The TCP-active host candidate gets the port of the TCP-passive one, the
    relay its base port; everything else stays. *)
Lemma fill_zero_tcp_act_ports_only_fills_witness :
  let l := [SampleCandidates.host_tcp_act; SampleCandidates.host_tcp_pass;
            SampleCandidates.relay_tcp_pass] in
  ∃ r, fill_zero_tcp_act_ports_from_tcp_pass l = Some r
       ∧ Forall2 ports_filled l r.
Proof.
  intros l.
  destruct (fill_zero_tcp_act_ports_from_tcp_pass l) as [r|] eqn:Hr.
  - exists r. split; [done|].
    exact (fill_zero_tcp_act_ports_only_fills l r Hr).
  - vm_compute in Hr. discriminate Hr.
Defined.

(** The section of the sample stream: the IPv6 candidate is gone, the
    address is that of the host candidates. *)
Lemma media_stream_to_sdpmedia_ipv4_witness :
  ∃ m,
    media_stream_to_sdpmedia Sample.core SampleSection.call
      SampleSection.stream = Some (Some m)
    ∧ length (media_candidates m) = 4%nat
    ∧ Forall ipv4_candidate (media_candidates m)
    ∧ Forall ipv4_candidate (media_remote_candidates m)
    ∧ ∀ ip, media_ip m = Some ip → ip ≠ "" ∧ strchr ip ":" = false.
Proof.
  destruct (media_stream_to_sdpmedia Sample.core SampleSection.call
              SampleSection.stream) as [[m|]|] eqn:Hm.
  - exists m. split; [done|].
    pose proof (media_stream_to_sdpmedia_ipv4 _ _ _ _ Hm) as Hv4.
    split; [|exact Hv4].
    vm_compute in Hm. by injection Hm as <-.
  - vm_compute in Hm. discriminate Hm.
  - vm_compute in Hm. discriminate Hm.
Defined.


(** Under the policy of the sample core (optional), the section of the
    sample stream carries the key of the stream. *)
Lemma sipe_media_to_sdpmsg_keys_witness :
  ∃ msg call',
    sipe_media_to_sdpmsg Sample.core SampleSection.call = Some (msg, call')
    ∧ (media_encryption_key <$> sdp_media msg) = [Some (replicate 30 7%Z)]
    ∧ ∃ media,
        sdp_media msg = media ++ call_failed_media SampleSection.call
        ∧ Forall2
            (λ stream m,
               media_encryption_key m
               = (if decide (get_encryption_policy Sample.core
                             = SIPE_ENCRYPTION_POLICY_REJECTED)
                  then None else encryption_key stream)
               ∧ (is_Some (media_encryption_key m) →
                  media_encryption_key_id m = encryption_key_id stream))
            (filter (λ s, is_Some (media_type_of_name (stream_id s)))
               (call_streams SampleSection.call))
            media.
Proof.
  destruct (sipe_media_to_sdpmsg Sample.core SampleSection.call)
    as [[msg call']|] eqn:Hmsg.
  - exists msg, call'. split; [done|].
    pose proof (sipe_media_to_sdpmsg_keys _ _ _ _ Hmsg) as Hkeys.
    split; [|exact Hkeys].
    vm_compute in Hmsg. by injection Hmsg as <- <-.
  - vm_compute in Hmsg. discriminate Hmsg.
Defined.

(** The peer withdraws video and offers a whiteboard to the sample call,
    which has an audio stream only: the video section stays in the message,
    the whiteboard section is kept as failed. *)
Lemma apply_remote_message_verdicts_witness :
  let result :=
    @apply_remote_message Sample.backend Sample.core SampleSdp.audio_call
      SampleSection.audio_no_video_whiteboard in
  SampleSdp.section "video" 0 [] ∈ sdp_media result.1.2
  ∧ result.1.1.1 = true
  ∧ SampleSdp.section "whiteboard" 0 [] ∈ call_failed_media result.1.1.2.
Proof.
  intros result.
  pose proof (@apply_remote_message_verdicts Sample.backend Sample.core
                SampleSdp.audio_call SampleSection.audio_no_video_whiteboard)
    as Hthm.
  fold result in Hthm. destruct result as [[[r call1] msg'] evs].
  destruct Hthm as (Hzero & Hunknown & _). simpl.
  destruct (Hzero (SampleSdp.section "video" 0 [])) as [Hin ->];
    [by right; left|done|].
  split; [done|]. split; [done|].
  apply (Hunknown (SampleSdp.section "whiteboard" 7000 []));
    [by right; right; left|done|].
  simpl. by intros [=]%list_elem_of_singleton.
Defined.

(** A re-INVITE with the sample offer to an established audio call: the
    audio section causes no request, the video section fails. *)
Lemma apply_remote_message_renegotiation_witness :
  let result :=
    @apply_remote_message Sample.backend Sample.core
      SampleSection.established_call SampleSdp.audio_video in
  result.2 = []
  ∧ Forall hold_or_end_request result.2
  ∧ negotiated <$> call_streams result.1.1.2
    = negotiated <$> call_streams SampleSection.established_call.
Proof.
  intros result. split; [reflexivity|].
  pose proof (@apply_remote_message_renegotiation Sample.backend Sample.core
                SampleSection.established_call SampleSdp.audio_video)
    as Hthm.
  fold result in Hthm. destruct result as [[[r call1] msg'] evs].
  destruct Hthm as (Hevs & _ & _ & Hall); [by repeat constructor|].
  split; [done|]. apply Hall. by repeat constructor.
Defined.

(** While the sample call is registered, a second call is not set up. *)
Lemma sipe_media_initiate_call_busy_witness :
  let sipe_private := store_call Sample.core SampleSdp.audio_call in
  @sipe_media_initiate_call Sample.backend Sample.sip_layer sipe_private
    (Some "sip:carol@example.com") SIPE_ICE_RFC_5245 true
  = Some sipe_private.
Proof.
  intros sipe_private.
  apply (@sipe_media_initiate_call_busy Sample.backend Sample.sip_layer
           sipe_private "call-1" SampleSdp.audio_call).
  - by vm_compute.
  - simpl. by left.
Defined.

(** Bob declines the sample call. *)
Lemma invite_failure_final_witness :
  let sipe_private := SampleResponse.core SIPE_ICE_RFC_5245 in
  let trans := {| sip_transaction_cseq := 1 |} in
  ∃ desc before_callbacks,
    @process_invite_call_response Sample.backend Sample.sip_layer
      sipe_private SampleSection.declined trans
    = Some (true, media_end_cb before_callbacks "call-1")
    ∧ trace before_callbacks
      = [EvBackendNotifyError "Call rejected" desc;
         EvTransportAck (Some "call-1") 0;
         EvBackendMediaHangup "call-1" false]
    ∧ ∀ k, is_Some (media_calls before_callbacks !! k)
           ↔ is_Some (media_calls sipe_private !! k).
Proof.
  intros sipe_private trans.
  apply (@invite_failure_final Sample.backend Sample.sip_layer sipe_private
           SampleSection.declined trans
           (Sample.call SIPE_ICE_RFC_5245
              [Sample.stream "audio"; Sample.stream "video"])
           (Sample.dialog 1)).
  - by vm_compute.
  - reflexivity.
  - reflexivity.
  - simpl. lia.
  - intros [[Hcode _]|[Hcode _]]; simpl in Hcode; lia.
Defined.

(** The sample call, placed with rfc-5245, gets a plain 488 on its first
    INVITE.  The backend ends the media when it is asked to hang up, so the
    call is freed, and the retry reads the freed call. *)
Lemma invite_488_retries_with_draft_6_witness :
  @process_invite_call_response Sample.backend Sample.sip_layer
    (SampleResponse.core SIPE_ICE_RFC_5245) SampleSection.not_acceptable
    {| sip_transaction_cseq := 1 |}
  = None.
Proof.
  destruct (@invite_488_retries_with_draft_6 Sample.backend Sample.sip_layer
              (SampleResponse.core SIPE_ICE_RFC_5245)
              SampleSection.not_acceptable {| sip_transaction_cseq := 1 |}
              (Sample.call SIPE_ICE_RFC_5245
                 [Sample.stream "audio"; Sample.stream "video"])
              (Sample.dialog 1)) as [Hfreed _].
  - by vm_compute.
  - reflexivity.
  - reflexivity.
  - reflexivity.
  - intros [_ (d & Hd & _)]. discriminate Hd.
  - reflexivity.
  - done.
  - apply Hfreed. by vm_compute.
Defined.

(** Bob accepts the sample audio call with audio and video: the video
    section fails, and the answer is acknowledged all the same. *)
Lemma invite_answer_acknowledged_witness :
  let sipe_private := store_call Sample.core SampleSdp.audio_call in
  ∃ sipe_private',
    @process_invite_call_response Sample.backend SampleSection.sip_layer
      sipe_private SampleSection.accepted {| sip_transaction_cseq := 1 |}
    = Some (true, sipe_private')
    ∧ last (trace sipe_private') = Some (EvTransportAck (Some "call-1") 0).
Proof.
  intros sipe_private.
  destruct (@invite_answer_acknowledged Sample.backend SampleSection.sip_layer
              sipe_private SampleSection.accepted
              {| sip_transaction_cseq := 1 |} SampleSdp.audio_call
              (Sample.dialog 1) SampleSdp.audio_video)
    as (sipe_private' & Hresult & Htrace);
    [by vm_compute|reflexivity|reflexivity|simpl; lia|reflexivity|].
  exists sipe_private'. split; [exact Hresult|].
  rewrite Htrace, app_assoc. apply last_snoc.
Defined.

(** A 200 with the sample credentials document, received while credentials
    and a resolved relay are stored. *)
Lemma process_get_av_edge_credentials_response_outcome_witness :
  ∃ sipe_private',
    @process_get_av_edge_credentials_response Sample.backend
      SampleSection.xml_layer SampleMras.core (SampleMras.response 200)
    = Some (true, sipe_private')
    ∧ media_relay_username sipe_private' = Some "user"
    ∧ trace sipe_private'
      = [EvBackendDnsQueryA (Some "relay.example.com") 3478]
    ∧ Forall (λ relay,
                relay_dns_query relay
                = @sipe_backend_dns_query_a Sample.backend
                    (relay_hostname relay) (relay_udp_port relay)
                ∧ (0 ≤ relay_udp_port relay < 2 ^ 32)%Z
                ∧ (0 ≤ relay_tcp_port relay < 2 ^ 32)%Z)
        (media_relays sipe_private').
Proof.
  destruct (@process_get_av_edge_credentials_response Sample.backend
              SampleSection.xml_layer SampleMras.core
              (SampleMras.response 200))
    as [[r sipe_private']|] eqn:Hresult.
  - pose proof (@process_get_av_edge_credentials_response_outcome
                  Sample.backend SampleSection.xml_layer _ _ _ _ Hresult)
      as (_ & _ & Hquery & _).
    vm_compute in Hresult. injection Hresult as <- <-.
    eexists. split; [reflexivity|]. split; [reflexivity|].
    split; [reflexivity|exact Hquery].
  - vm_compute in Hresult. discriminate Hresult.
Defined.

(** Three UDP candidates of one foundation with distinct ports and a
    TCP-passive candidate: nothing is dropped. *)
Lemma remove_wrong_farstream_keeps_witness :
  let l := [SampleCandidates.pair_a_rtp; SampleCandidates.host_tcp_pass;
            SampleCandidates.pair_a_rtcp; SampleCandidates.relay_udp] in
  ∃ r, remove_wrong_farstream_0_1_tcp_candidates l = Some r
       ∧ r `sublist_of` l
       ∧ ∀ c, c ∈ l → cand_protocol c ≠ SIPE_NETWORK_PROTOCOL_UDP → c ∈ r.
Proof.
  intros l.
  destruct (remove_wrong_farstream_0_1_tcp_candidates l) as [r|] eqn:Hr.
  - exists r. split; [done|].
    exact (remove_wrong_farstream_keeps l r Hr).
  - vm_compute in Hr. discriminate Hr.
Defined.

Lemma ft_lync_stream_round_trip_witness :
  ∃ wire_start wire,
    start_writing SampleFtStream.core (SampleFt.sender 5)
    = Some (true, wire_start, [FtBackendFtStart])
    ∧ send_file_chunks SampleFtStream.core (SampleFt.sender 5)
        [([1; 2; 3]%Z, false); ([], false); ([4; 5]%Z, true)]
      = Some wire
    ∧ read_all (replicate 40 2%nat)
        {| rd_ft := SampleFt.receiver 5; rd_expecting_len := 0;
           rd_stream := wire_start ++ wire; rd_file := []; rd_started := 0 |}
      = Some {| rd_ft := SampleFt.receiver 5; rd_expecting_len := 0;
                rd_stream := []; rd_file := [1; 2; 3; 4; 5]%Z;
                rd_started := 1 |}.
Proof.
  destruct (ft_lync_stream_round_trip SampleFtStream.core (SampleFt.sender 5)
              "call-1" (Sample.call SIPE_ICE_RFC_5245 [Sample.stream "data"])
              [[1; 2; 3]%Z; []] [4; 5]%Z)
    as (wire_start & wire & Hstart & Hsend & Hread).
  - reflexivity.
  - by vm_compute.
  - vm_compute. by eexists.
  - repeat constructor; simpl; lia.
  - exists wire_start, wire. split; [exact Hstart|]. split; [exact Hsend|].
    apply (Hread (SampleFt.receiver 5) [] (replicate 40 2%nat)).
    + reflexivity.
    + repeat constructor.
    + vm_compute in Hstart. vm_compute in Hsend.
      injection Hstart as <-. injection Hsend as <-.
      vm_compute. lia.
Defined.

Lemma ft_lync_request_id_exchange_witness :
  ft_request_id (request_download_file (SampleFt.receiver 5)).1.2 = 8%Z
  ∧ ∃ sender' source wire signals,
      process_request SampleFtStream.core (SampleFt.sender 5)
        (DOWNLOAD_FILE_REQUEST 8 (ft_id (SampleFt.receiver 5))
           (ft_file_name (SampleFt.receiver 5)))
      = Some (sender', source, wire,
              FtRequest (FtTransportInfo (ft_dialog (SampleFt.sender 5))
                           (DOWNLOAD_PENDING_RESPONSE 8))
              :: signals)
      ∧ ft_request_id sender' = 8%Z.
Proof.
  destruct (ft_lync_request_id_exchange SampleFtStream.core
              (SampleFt.receiver 5) (SampleFt.sender 5) "call-1"
              (Sample.call SIPE_ICE_RFC_5245 [Sample.stream "data"]))
    as (Hid & _ & sender' & source & wire & signals & Hreq & Hsender & _).
  - reflexivity.
  - by vm_compute.
  - split; [exact Hid|].
    exists sender', source, wire, signals. split; [exact Hreq|].
    by rewrite Hsender, Hid.
Defined.

Lemma read_cb_control_frame_bound_witness :
  read_cb 8 (SampleFtStream.control_frame 1 0x800) = None
  ∧ read_cb 8 (SampleFtStream.control_frame 1 3)
    = Some {| rd_ft := SampleFt.receiver 5; rd_expecting_len := 0;
              rd_stream := [4; 5]%Z; rd_file := []; rd_started := 1 |}.
Proof.
  split.
  - apply (read_cb_control_frame_bound 8
             (SampleFtStream.control_frame 1 0x800) 1 8 0 [1; 2; 3; 4; 5]%Z);
      [reflexivity | reflexivity | reflexivity | by left | lia | lia].
  - apply (read_cb_control_frame_bound 8
             (SampleFtStream.control_frame 1 3) 1 0 3 [1; 2; 3; 4; 5]%Z);
      [reflexivity | reflexivity | reflexivity | by left | lia | lia
      | simpl; lia].
Defined.

Lemma sipe_core_media_phone_call_dials_witness :
  ∃ sipe_private' call',
    @sipe_core_media_phone_call Sample.backend Sample.sip_layer Sample.core
      (Some "example.com") (Some "+4930123456")
    = Some sipe_private'
    ∧ media_calls sipe_private' !! "fresh-call-id" = Some call'
    ∧ call_with call' = Some "sip:+4930123456@example.com;user=phone"
    ∧ stream_id <$> call_streams call' = ["audio"].
Proof.
  destruct (proj1 (phone_number_is_valid_dialable (Some "+4930123456"))
              eq_refl) as (n & [= <-] & Hdialable).
  destruct (proj2 (@sipe_core_media_phone_call_dials Sample.backend
                     Sample.sip_layer Sample.core (Some "example.com")
                     (Some "+4930123456"))
              "+4930123456" eq_refl Hdialable)
    as (sipe_private' & call' & Hcall & Hlookup & Hwith & _ & _ & Hids).
  - by vm_compute.
  - by vm_compute.
  - intros. simpl. by eexists.
  - exists sipe_private', call'. by repeat split.
Defined.

Lemma relay_ip_resolved_cb_not_cancelled_witness :
  sipe_media_relay_list_free
    (zip_with relay_after SampleIncoming.relays
       [Some (Some "198.51.100.7", 3478%Z); None])
  = [EvDnsQueryCancel (Some "relay-b.example.com")].
Proof.
  destruct (relay_ip_resolved_cb_not_cancelled SampleIncoming.relays
              [Some (Some "198.51.100.7", 3478%Z); None])
    as (Hfree & _).
  - by repeat constructor.
  - reflexivity.
  - rewrite Hfree. reflexivity.
Defined.

Lemma process_incoming_invite_call_busy_witness :
  let sipe_private := store_call Sample.core SampleSdp.audio_call in
  @process_incoming_invite_call Sample.backend SampleIncoming.sip_layer
    SampleIncoming.call_layer sipe_private (SampleIncoming.invite "audio")
  = Some (None,
          emit sipe_private
            [EvTransportResponse (Some "call-2") 486 "Busy Here" None]).
Proof.
  intros sipe_private.
  apply (@process_incoming_invite_call_busy Sample.backend
           SampleIncoming.sip_layer SampleIncoming.call_layer sipe_private
           (SampleIncoming.invite "audio") "audio" "call-1"
           SampleSdp.audio_call).
  - reflexivity.
  - reflexivity.
  - reflexivity.
  - by vm_compute.
  - vm_compute. by eexists.
  - by vm_compute.
Defined.

Lemma process_incoming_invite_call_rings_witness :
  ∃ call' sipe_private' invitation,
    @process_incoming_invite_call Sample.backend SampleIncoming.sip_layer
      SampleIncoming.call_layer Sample.core
      (SampleIncoming.invite "audio video")
    = Some (Some call', sipe_private')
    ∧ call_smsg call' = Some SampleSdp.audio_video
    ∧ NoDup (stream_id <$> call_streams call')
    ∧ "video" ∈ stream_id <$> call_streams call'
    ∧ last (trace sipe_private')
      = Some (EvTransportResponse (Some (msg_callid invitation)) 180
                "Ringing" None).
Proof.
  destruct (@process_incoming_invite_call_rings Sample.backend
              SampleIncoming.sip_layer SampleIncoming.call_layer Sample.core
              (SampleIncoming.invite "audio video") "audio video"
              SampleSdp.audio_video)
    as (call' & sipe_private' & invitation & requests & Hcall & _ & _ & _
        & _ & _ & _ & Hsmsg & _ & Hids & Hnodup & _ & Htrace & _).
  - reflexivity.
  - reflexivity.
  - by vm_compute.
  - right. by vm_compute.
  - intros. simpl. by eexists.
  - right. left. split; [done|]. simpl. rewrite !elem_of_cons. tauto.
  - exists call', sipe_private', invitation.
    split; [done|]. split; [done|]. split; [done|]. split.
    + apply Hids. exists (SampleSdp.section "video" 6000 [SampleSdp.h264]).
      split; [simpl; rewrite !elem_of_cons; tauto|].
      split; [|done]. split; [done|]. simpl. rewrite !elem_of_cons. tauto.
    + rewrite Htrace, !app_assoc. apply last_snoc.
Defined.

Lemma process_incoming_invite_call_nothing_acceptable_witness :
  ∃ call' sipe_private' invitation,
    @process_incoming_invite_call Sample.backend SampleIncoming.sip_layer
      SampleIncoming.call_layer Sample.core
      (SampleIncoming.invite "whiteboard")
    = Some (Some call', sipe_private')
    ∧ call_streams call' = []
    ∧ last (trace sipe_private')
      = Some (EvTransportResponse (Some (msg_callid invitation)) 200 "OK"
                (Some "whiteboard:0 ")).
Proof.
  destruct (@process_incoming_invite_call_nothing_acceptable Sample.backend
              SampleIncoming.sip_layer SampleIncoming.call_layer Sample.core
              (SampleIncoming.invite "whiteboard") "whiteboard"
              SampleIncoming.whiteboard)
    as (call' & sipe_private' & invitation & Hcall & _ & Hstreams & _ & _
        & Htrace).
  - reflexivity.
  - reflexivity.
  - by vm_compute.
  - right. by vm_compute.
  - repeat constructor; intros [Hport Hname]; simpl in *;
      [rewrite !elem_of_cons, elem_of_nil in Hname; intuition discriminate
      |done].
  - exists call', sipe_private', invitation.
    split; [done|]. split; [done|]. by rewrite Htrace.
Defined.

Lemma incoming_call_answer_witness :
  (snd <$> @stream_initialized_cb Sample.backend SampleIncoming.sip_layer
             SampleIncoming.call_layer Sample.core
             (SampleIncoming.ringing_call SampleIncoming.audio) false true)
    ≫= last
  = Some (Request (EvTransportResponse (Some "call-2") 200 "OK"
                     (Some "audio:5000 "))).
Proof.
  destruct (@incoming_call_answer Sample.backend SampleIncoming.sip_layer
              SampleIncoming.call_layer Sample.core
              (SampleIncoming.ringing_call SampleIncoming.audio)
              SampleIncoming.audio (SampleIncoming.invite "audio"))
    as (_ & _ & _ & Hanswer).
  - reflexivity.
  - reflexivity.
  - reflexivity.
  - by vm_compute.
  - rewrite Hanswer by (intros [Hpolicy _]; discriminate Hpolicy).
    by vm_compute.
Defined.

Lemma incoming_call_unanswered_witness :
  snd <$> @stream_initialized_cb Sample.backend SampleIncoming.sip_layer
            SampleIncoming.call_layer Sample.core
            (SampleIncoming.ringing_call SampleIncoming.audio_without_codecs)
            false true
  = Some [Request (EvBackendSetRemoteCodecs "call-2" "audio" []);
          Request (EvBackendMediaStreamEnd "call-2" "audio")].
Proof.
  destruct (@incoming_call_unanswered Sample.backend SampleIncoming.sip_layer
              SampleIncoming.call_layer Sample.core
              (SampleIncoming.ringing_call
                 SampleIncoming.audio_without_codecs)
              SampleIncoming.audio_without_codecs
              (SampleIncoming.invite "audio"))
    as (_ & Hcb & _).
  - reflexivity.
  - reflexivity.
  - reflexivity.
  - by vm_compute.
  - destruct (Hcb true) as [-> _]. by vm_compute.
Defined.

Lemma proxy_fallback_sent_once_witness :
  ∃ call1 requests,
    @sipe_invite_call SampleIncoming.sip_layer
      SampleIncoming.call_layer Sample.core
      (sipe_media_add_extra_invite_section SampleIncoming.new_call
         (Some "multipart/alternative")
         (Some (proxy_fallback_section "192.0.2.1")))
      TcProcessInviteCallResponse
    = Some (call1, requests)
    ∧ ∀ tc' call2 requests',
        @sipe_invite_call SampleIncoming.sip_layer
          SampleIncoming.call_layer Sample.core call1 tc'
        = Some (call2, requests') →
        ∃ msg dialog',
          fst <$> sipe_media_to_sdpmsg Sample.core call1
          = Some msg
          ∧ requests'
            = [RequestTransportInvite
                 (@invite_headers SampleIncoming.call_layer Sample.core
                    "application/sdp" "")
                 (@sdpmsg_to_string SampleIncoming.sip_layer msg) dialog'
                 tc'].
Proof.
  destruct (@sipe_invite_call SampleIncoming.sip_layer
              SampleIncoming.call_layer Sample.core
              (sipe_media_add_extra_invite_section SampleIncoming.new_call
                 (Some "multipart/alternative")
                 (Some (proxy_fallback_section "192.0.2.1")))
              TcProcessInviteCallResponse)
    as [[call1 requests]|] eqn:Hinvite;
    [|vm_compute in Hinvite; discriminate Hinvite].
  exists call1, requests. split; [done|].
  destruct (@proxy_fallback_sent_once SampleIncoming.sip_layer
              SampleIncoming.call_layer Sample.core SampleIncoming.new_call
              (Sample.dialog 0) TcProcessInviteCallResponse
              (sipe_media_add_extra_invite_section SampleIncoming.new_call
                 (Some "multipart/alternative")
                 (Some (proxy_fallback_section "192.0.2.1")))
              call1 requests) as (_ & Hsec & Hct & Hlater).
  - reflexivity.
  - reflexivity.
  - reflexivity.
  - done.
  - reflexivity.
  - exact Hinvite.
  - intros tc' call2 requests' Hinvite'.
    by destruct (Hlater call1 tc' call2 requests' Hsec Hct Hinvite').
Defined.

Lemma sipe_core_media_test_call_no_fallback_witness :
  ∃ sipe_private' call',
    @sipe_core_media_test_call Sample.backend Sample.sip_layer
      SampleIncoming.core_with_test_service
    = Some sipe_private'
    ∧ media_calls sipe_private' !! "fresh-call-id" = Some call'
    ∧ call_with call' = Some "sip:test@example.com"
    ∧ call_extra_invite_section call' = None.
Proof.
  destruct (proj2 (@sipe_core_media_test_call_no_fallback Sample.backend
                     Sample.sip_layer SampleIncoming.core_with_test_service))
    as [Htest _].
  - by vm_compute.
  - by vm_compute.
  - intros. simpl. by eexists.
  - destruct (Htest "sip:test@example.com" eq_refl)
      as (sipe_private' & call' & Hcall & Hlookup & Hwith & _ & Hsec & _).
    by exists sipe_private', call'.
Defined.

Lemma process_incoming_invite_call_stream_refused_witness :
  @process_incoming_invite_call SampleIncoming.refusing_backend
    SampleIncoming.sip_layer SampleIncoming.call_layer Sample.core
    (SampleIncoming.invite "m=data")
  = None.
Proof.
  apply (@process_incoming_invite_call_stream_refused
           SampleIncoming.refusing_backend SampleIncoming.sip_layer
           SampleIncoming.call_layer Sample.core
           (SampleIncoming.invite "m=data") "m=data"
           SampleIncoming.file_transfer).
  - reflexivity.
  - reflexivity.
  - by vm_compute.
  - by left.
  - done.
  - left. split; [split; [done|]|]; simpl; rewrite !elem_of_cons; tauto.
Defined.
